(* ===== verification/_CoqProject ===== *)
-Q . S2P
Prelude.v
Crc.v
Super.v
CString.v
Prog.v
Desc.v
Csum.v
Os.v
SampleOs.v
Vector.v
Utils.v
HashMap.v
DirBlock.v
Hidden.v
Extents.v
Ext2Fs.v
U32List.v
OpenFs.v
InodeIo.v
DirCsum.v
DirIter.v
DirLink.v
DirDisk.v
BlockIter.v
Debugfs.v
Lsblks.v
ExtentTree.v
DeviceFs.v
ExtentGoto.v
Volumes.v
BlkDev.v
Fhf.v
FhfMain.v
PortScan.v
ProcNet.v
Applets.v
