(* ===== verification/Prelude.v ===== *)
(** * atrk-linux: a verification development

    atrk looks for what a rootkit hides: names of a directory that the kernel leaves out
    of its listing, ports that answer and are in no table, numbers under /proc that
    exist and are not listed.  It does so by reading the same facts in two ways, and the
    theorems are about both ways and their comparison.

    ** The program and its parts

    - fhf (src/fhf.c) finds the blocks of a directory on its device, reads them from the
      device, parses them (src/fs.c) and compares the names with readdir.  Which device
      and at which offset it learns from /sys, /proc, pvs and pvdisplay (src/blk.c), and
      the block numbers from xfs_bmap, from debugfs, or, in the build with e2fsprogs, from
      libext2fs through lsblks (e2fsprogs/stat/lsblks.c).
    - The applets (src/atrk.c) scan TCP ports with non-blocking connections, list the
      listening sockets of /proc/net, compare them with the UDP ports that cannot be
      bound, try the numbers of a directory, and compare two lists of lines.
    - They share an array (src/utils.c), strings and paths (src/utils.c) and a hash map
      (src/map.c).

    ** The files

    - Prelude: outcomes of a run, the machine (sizes, signedness, byte order, failing
      allocations), machine integers, words in byte buffers.
    - CString: the functions of the C library on strings, line by line reading included.
    - Prog: the monad of the stateful code: heap, operating system, output; its rules and
      a total-correctness predicate.
    - Os: the system calls as a class over an abstract state; SampleOs: a small instance
      for examples.  No theorem but the witnesses uses it.
    - Vector: the array of utils.c.  The class VecOps gives its operations and VecLaws what
      they promise; every client is proved against the classes, and Vector.Impl discharges
      them.
    - Utils: trimch, toLowerCase, find_command, path_join.
    - HashMap: map.c, buckets and nodes as lists in the order of the chains.
    - DirBlock: the two parsers of fs.c as one loop over an offset (dir_loop) and a step
      for each format (ext2_step, xfs_step); the on-disk formats they are proved against.
    - Hidden: do_dir of fs.c and the comparison of fhf.c (find_hidden_files).
    - Extents: xfs_get_path_extents and the reader of debugfs's text in blk.c; Debugfs: the
      two printers of e2fsprogs/stat/debugfs.c whose text is read.
    - Ext2Fs: the interface of the lower layers of libext2fs (class Ext2Fs); BlockIter:
      e2fsprogs/lib/ext2fs/block.c on top of it; Lsblks: lsblks.c and the reader of blk.c
      of the build with e2fsprogs.
    - ExtentTree: the reading half of extent.c, a cursor over a tree of extents stored in
      blocks (class TreeFs: what it reads the inodes and the blocks with); its operations
      make up an instance of Ext2Fs (tree_ext2fs), so that what is proved of Lsblks holds
      of the bytes on the disk.  ExtentGoto: its search is right.
    - The layers below, which discharge TreeFs in DeviceFs, so that lsblks is followed down
      to the bytes of the device: Crc (crc16.c, crc32c.c and the generator of its tables),
      Super (the superblock and the block groups: blknum.c, closefs.c), Desc (the class
      IoChannel of reads and writes of blocks, and the descriptors of groups: blknum.c),
      Csum (csum.c), OpenFs (openfs.c, with the class IoManager), InodeIo (inode.c and its
      cache of inodes; the class IoDisk is a channel that stores what is written to it).
      U32List is badblocks.c, the sorted lists of numbers the library keeps.
    - Blocks of directories as the library changes them: DirCsum (their checksums, and those
      of blocks of extents: csum.c), DirIter (the definitions: dir_iterate.c, dirblock.c,
      link.c, unlink.c, lookup.c, newdir.c; the walk on any bytes), DirLink (a block refines
      a list of entries), DirDisk (a block read from and written to the device).
    - Volumes, BlkDev: the rest of blk.c, by subject.
    - Fhf: query_blocks, dump_blocks and the command of fhf.c; FhfMain: the command from
      end to end, the theorems of the other files put together.
    - PortScan, ProcNet, Applets: atrk.c, in the order of the file.

    ** How the code is modelled

    A function of the sources is a definition of the same name.  Its pointer arguments
    for results are returned; a loop is a fixpoint, over the data it consumes or over fuel.
    [Undef] stands for every undefined behaviour (an access outside of an object, a
    signed overflow, the use of a byte that was not written), [Exit] for exit(3) and [Spin]
    for a loop out of fuel: that a run is [Ret] is a statement of safety and termination.
    Integers are reduced at their width.  A char array is a list of its bytes, a heap object
    an entry of [st_heap]; objects are freed, and reports are proved to free all they
    allocate.  System calls may answer anything unless a theorem says otherwise
    (StaticOS: answers that do not change while the program asks).

    libext2fs is modelled on a little-endian host.  A structure of the disk (superblock,
    descriptor, inode, record of a directory) is the list of its bytes, its fields read and
    written at their offsets; the open file system is the record ext2_filsys, passed through.
    The CRC is proved for every width the library can be built with; the table-driven code
    has as many rows for the big-endian function as for the little-endian one
    (CRC_LE_BITS = CRC_BE_BITS), as the generator prints them.

    Fuel: dir_loop has the bytes of the block, range_loop the length of the range, the
    walk of sysfs and the scan of ports are given theirs by the theorems that prove them
    to return (search_dev_dirs_decides, tcp_scan_returns), writedata has the bytes to be
    written (writedata_spec), the visits of a tree of extents at least their number; on a
    disk of any contents a walk has enough fuel as well (dump_extents_ends); a search
    has as many turns as the nodes on its way have entries (extent_goto_finds).  test_root
    has 33 turns, as its number of 32 bits is divided by 3 or more; the superblock is read
    at most 3 times (open_returns); an inode is read and written in at most as many pieces
    as it has bytes; the binary search of U32List has the count of the list; a record of a
    directory has at least 8 bytes and a search for deleted ones advances by 4, so that the
    size of the block is enough for every walk (dir_walk_safe).

    ** What is proved

    - The command fhf from end to end: C1.  Detection of hidden names: C2.
    - The blocks of a file, from the bytes of the device up: C3 (opening, inode, tree and
      listing), C4 (the tree of extents), C16, C17 (termination and safety on every disk),
      C18 (the search), C33 to C35 (block iterator and lsblks over any lower layer).
    - Blocks of directories: the parsers of the program, C11 to C13; the library's view of
      the same blocks, which is the parser's (C6), C5 (linking, unlinking and looking up
      refine a list of entries), C7 (on the device), C27, C31.
    - The state of the open file system: C10 and C23 (ext2fs_open2 returns, and what it
      accepts is well formed), C8, C9, C32 (the cache of inodes: coherence, refinement of a
      map from numbers to inodes, and where it misleads), C28 to C30 (descriptors and groups).
    - Checksums: C14 (all widths of the CRC-32 agree), C15, C25 (what is detected), C24, C26
      (what is set verifies).
    - Ports and sockets: C19, C39.  Applets: C40.  Reading and text: C36 to C38.
    - Data structures: C20 (hash map, refinement of a finite map), C21 (array, of a stack),
      C22 (sorted list, of a finite set).
    - The other theorems of each file say what its operations answer on every branch.

    ** Not modelled

    map_deinit_ of map.c; the internals of printf beyond the conversions used, of
    getopt_long beyond the options used, of epoll beyond its answers.  Of libext2fs: the
    half of extent.c that changes a tree (insert, replace, delete, split), unix_io.c and the
    other I/O managers (the classes IoChannel and IoManager), the swaps of big-endian hosts,
    multiple-mount protection beyond its checksum (an operation of IoManager), the field
    encoding of the open file system, the functions of inode.c that a program may
    override and its scan of the inodes, ext2fs_flush2, ext2fs_dir_iterate2 and the
    operations over all the blocks of a directory, hash trees and directories in inodes,
    bitmaps, allocation, the journal: nothing the program does comes to them.  The tools of
    e2fsprogs, which are third-party; the shell and Python scripts; the main of lsblks.c and
    debugfs.c, which are test programs. *)
From Stdlib Require Export ZArith Lia.
From stdpp Require Export prelude strings gmap list_numbers.

#[global] Set Default Goal Selector "!".
#[local] Open Scope Z_scope.

(** ** Outcomes of a run

    [Ret] is a normal return, [Exit] a call of exit(3), [Undef] undefined
    behaviour (an access outside an object, a use of an indeterminate value, a
    signed overflow), [Spin] the exhaustion of the fuel of a loop.  A theorem
    that a run is [Ret] is therefore a statement of safety and of termination. *)
Inductive outcome (A : Type) : Type :=
  | Ret (a : A)
  | Exit (code : Z)
  | Undef
  | Spin.
Arguments Ret {A} a.
Arguments Exit {A} code.
Arguments Undef {A}.
Arguments Spin {A}.

Definition obind {A B} (m : outcome A) (k : A → outcome B) : outcome B :=
  match m with
  | Ret a => k a
  | Exit c => Exit c
  | Undef => Undef
  | Spin => Spin
  end.

Definition of_option {A} (o : option A) : outcome A :=
  match o with Some a => Ret a | None => Undef end.

Declare Scope outcome_scope.
Delimit Scope outcome_scope with outcome.
Notation "'let?' x ':=' m 'in' k" := (obind m (fun x => k))
  (at level 10, x name, m at level 100, k at level 200,
   format "'let?'  x  ':='  m  'in' '//' k") : outcome_scope.
Notation "'let?' ' p ':=' m 'in' k" := (obind m (fun x => match x with p => k end))
  (at level 10, p pattern, m at level 100, k at level 200,
   format "'let?'  ' p  ':='  m  'in' '//' k") : outcome_scope.
Open Scope outcome_scope.

Lemma obind_ret_l {A B} (a : A) (k : A → outcome B) : obind (Ret a) k = k a.
Proof. reflexivity. Qed.

Lemma obind_ret_r {A} (m : outcome A) : obind m Ret = m.
Proof. by destruct m. Qed.

Lemma obind_assoc {A B C} (m : outcome A) (f : A → outcome B) (g : B → outcome C) :
  obind (obind m f) g = obind m (fun a => obind (f a) g).
Proof. by destruct m. Qed.

Lemma obind_ret_inv {A B} (m : outcome A) (k : A → outcome B) b :
  obind m k = Ret b → ∃ a, m = Ret a ∧ k a = Ret b.
Proof. destruct m as [a| | |]; simpl; intros; [by exists a|discriminate..]. Qed.

Lemma of_option_ret_inv {A} (o : option A) a : of_option o = Ret a → o = Some a.
Proof. destruct o; simpl; congruence. Qed.

(** Runs the hypotheses of the form [obind m k = Ret b] backwards. *)
Ltac inv_outcome :=
  repeat match goal with
  | H : obind _ _ = Ret _ |- _ =>
      let a := fresh "a" in let H1 := fresh "Hrun" in
      apply obind_ret_inv in H as (a & H1 & H)
  | H : of_option _ = Ret _ |- _ => apply of_option_ret_inv in H
  | H : Ret _ = Ret _ |- _ => injection H as H
  | H : Exit _ = Ret _ |- _ => discriminate H
  | H : Undef = Ret _ |- _ => discriminate H
  | H : Spin = Ret _ |- _ => discriminate H
  end; simplify_eq.

(** ** The machine the program runs on

    The build compiles for i686, x86-64 and aarch64: the signedness of plain
    [char] and the width of [size_t] differ between them, the byte order does
    not, but the sources test it at run time.  [mem_ok n] says whether an
    allocation of [n] bytes succeeds. *)
Class Machine : Type := {
  mem_ok : Z → bool;
  char_signed : bool;
  big_endian : bool;
  long64 : bool;
}.

Definition size_t_mod `{Machine} : Z := if long64 then 2 ^ 64 else 2 ^ 32.

(** x86-64 with musl: the machine of the examples. *)
Definition x86_64 : Machine :=
  {| mem_ok _ := true; char_signed := true; big_endian := false; long64 := true |}.

(** ** Machine integers, as [Z] reduced at their width *)
Definition u8 (z : Z) : Z := z mod 2 ^ 8.
Definition u16 (z : Z) : Z := z mod 2 ^ 16.
Definition u32 (z : Z) : Z := z mod 2 ^ 32.
Definition u64 (z : Z) : Z := z mod 2 ^ 64.
Definition i32 (z : Z) : Z := (z + 2 ^ 31) mod 2 ^ 32 - 2 ^ 31.
Definition size_t `{Machine} (z : Z) : Z := z mod size_t_mod.
Definition INT_MAX : Z := 2 ^ 31 - 1.

Lemma u32_bound z : 0 ≤ u32 z < 2 ^ 32.
Proof. apply Z.mod_pos_bound; lia. Qed.
Lemma u16_bound z : 0 ≤ u16 z < 2 ^ 16.
Proof. apply Z.mod_pos_bound; lia. Qed.
Lemma u64_bound z : 0 ≤ u64 z < 2 ^ 64.
Proof. apply Z.mod_pos_bound; lia. Qed.
Lemma u32_small z : 0 ≤ z < 2 ^ 32 → u32 z = z.
Proof. apply Z.mod_small. Qed.
Lemma u64_small z : 0 ≤ z < 2 ^ 64 → u64 z = z.
Proof. apply Z.mod_small. Qed.
Lemma size_t_small `{Machine} z : 0 ≤ z < 2 ^ 32 → size_t z = z.
Proof. intros. apply Z.mod_small. unfold size_t_mod. destruct long64; lia. Qed.
Lemma i32_small z : - 2 ^ 31 ≤ z < 2 ^ 31 → i32 z = z.
Proof. intros. unfold i32. rewrite Z.mod_small; lia. Qed.

(** ** Bytes and C strings *)
Abbreviation bytes := (list Z).
Abbreviation zlen l := (Z.of_nat (length l)).

Definition is_byte (b : Z) : Prop := 0 ≤ b < 256.
#[export] Instance is_byte_dec b : Decision (is_byte b).
Proof. unfold is_byte. apply _. Defined.

(** Proves [Forall is_byte [a; b; ...]] from what is known of each byte. *)
Ltac bytes_list := repeat (apply Forall_cons_2; [tauto|]); apply Forall_nil_2.

(** The bytes of a literal. *)
Definition bs (s : string) : bytes :=
  map (fun c => Z.of_N (Ascii.N_of_ascii c)) (String.list_ascii_of_string s).

(** The C string stored in a byte buffer: the bytes before the first NUL. *)
Fixpoint c_str (b : bytes) : bytes :=
  match b with
  | [] => []
  | c :: b' => if c =? 0 then [] else c :: c_str b'
  end.

(** A C string as a value: bytes other than NUL. *)
Definition is_cstr (s : bytes) : Prop := Forall (fun c => 0 < c < 256) s.
#[export] Instance is_cstr_dec s : Decision (is_cstr s).
Proof. unfold is_cstr. apply _. Defined.

Lemma c_str_cstr s : is_cstr s → c_str s = s.
Proof.
  induction 1 as [|c s Hc _ IH]; [done|]. simpl.
  destruct (Z.eqb_spec c 0); [lia|]. by rewrite IH.
Qed.

Lemma c_str_terminated s rest : is_cstr s → c_str (s ++ 0 :: rest) = s.
Proof.
  induction 1 as [|c s Hc _ IH]; [done|]. simpl.
  destruct (Z.eqb_spec c 0); [lia|]. by rewrite IH.
Qed.

Lemma c_str_is_cstr b : Forall is_byte b → is_cstr (c_str b).
Proof.
  induction 1 as [|c b Hc _ IH]; simpl; [constructor|].
  destruct (Z.eqb_spec c 0); constructor; [unfold is_byte in Hc; lia|done].
Qed.

(** ** Words in a byte buffer *)
Fixpoint le (b : bytes) : Z :=
  match b with [] => 0 | c :: b' => c + 256 * le b' end.
Definition be (b : bytes) : Z := le (reverse b).

Lemma le_bound b : Forall is_byte b → 0 ≤ le b < 256 ^ zlen b.
Proof.
  induction 1 as [|c b Hc _ IH]; [simpl; lia|].
  rewrite length_cons, Nat2Z.inj_succ, Z.pow_succ_r by lia.
  unfold is_byte in Hc. simpl. nia.
Qed.

Lemma le_app a b : le (a ++ b) = le a + 256 ^ zlen a * le b.
Proof.
  induction a as [|c a IH]; simpl le; [rewrite Z.pow_0_r; lia|].
  simpl app. simpl le. rewrite IH, length_cons, Nat2Z.inj_succ, Z.pow_succ_r by lia. lia.
Qed.

(** [n] little-endian bytes of a word. *)
Fixpoint le_split (n : nat) (w : Z) : bytes :=
  match n with O => [] | S n => w mod 256 :: le_split n (w / 256) end.
Definition be_split (n : nat) (w : Z) : bytes := reverse (le_split n w).

Lemma le_split_length n w : length (le_split n w) = n.
Proof. revert w; induction n; intros; simpl; auto. Qed.

Lemma le_split_bytes n w : Forall is_byte (le_split n w).
Proof.
  revert w; induction n; intros w; simpl; constructor; auto.
  unfold is_byte. apply Z.mod_pos_bound. lia.
Qed.

Lemma le_le_split n w : 0 ≤ w < 256 ^ Z.of_nat n → le (le_split n w) = w.
Proof.
  revert w; induction n as [|n IH]; intros w Hw; simpl.
  { rewrite Z.pow_0_r in Hw. lia. }
  rewrite Nat2Z.inj_succ, Z.pow_succ_r in Hw by lia.
  rewrite IH; [|split; [apply Z.div_pos; lia|apply Z.div_lt_upper_bound; lia]].
  pose proof (Z.div_mod w 256). lia.
Qed.

Lemma le_split_le b : Forall is_byte b → le_split (length b) (le b) = b.
Proof.
  induction 1 as [|c b Hc _ IH]; [done|]. simpl. unfold is_byte in Hc.
  replace ((c + 256 * le b) mod 256) with c; cycle 1.
  { rewrite Z.mul_comm, Z_mod_plus_full, Z.mod_small; lia. }
  replace ((c + 256 * le b) / 256) with (le b); cycle 1.
  { rewrite Z.mul_comm, Z.div_add by lia. rewrite Z.div_small; lia. }
  by rewrite IH.
Qed.

Lemma be_be_split n w : 0 ≤ w < 256 ^ Z.of_nat n → be (be_split n w) = w.
Proof. intros. unfold be, be_split. rewrite reverse_involutive. by apply le_le_split. Qed.

Lemma be_split_length n w : length (be_split n w) = n.
Proof. unfold be_split. by rewrite length_reverse, le_split_length. Qed.

Lemma be_split_bytes n w : Forall is_byte (be_split n w).
Proof. unfold be_split. apply Forall_reverse, le_split_bytes. Qed.

Lemma be_split_be b : Forall is_byte b → be_split (length b) (be b) = b.
Proof.
  intros Hb. unfold be, be_split. rewrite <- (length_reverse b), le_split_le by (by apply Forall_reverse).
  apply reverse_involutive.
Qed.

(** The bytes [off, off+n) of a buffer, [None] outside of it. *)
Definition slice (off n : Z) (b : bytes) : option bytes :=
  if bool_decide (0 ≤ off ∧ 0 ≤ n ∧ off + n ≤ zlen b)
  then Some (take (Z.to_nat n) (drop (Z.to_nat off) b)) else None.

(** A host-order word of [n] bytes read at [off]. *)
Definition rd `{Machine} (n off : Z) (b : bytes) : option Z :=
  (if big_endian then be else le) <$> slice off n b.
Definition rd8 (off : Z) (b : bytes) : option Z := le <$> slice off 1 b.

Lemma slice_Some off n b x :
  slice off n b = Some x ↔
  0 ≤ off ∧ 0 ≤ n ∧ off + n ≤ zlen b ∧ x = take (Z.to_nat n) (drop (Z.to_nat off) b).
Proof.
  unfold slice. case_bool_decide as Hb; split; [intros [=<-]; tauto|by intros (_&_&_&->)|done|].
  intros (?&?&?&_). by destruct Hb.
Qed.

Lemma slice_length off n b x : slice off n b = Some x → length x = Z.to_nat n.
Proof. intros (?&?&?&->)%slice_Some. rewrite length_take, length_drop. lia. Qed.

Lemma slice_is_Some off n b :
  0 ≤ off → 0 ≤ n → off + n ≤ zlen b → is_Some (slice off n b).
Proof. intros. unfold slice. rewrite bool_decide_true; eauto. Qed.

(** Reading inside the middle part of a concatenation. *)
Lemma slice_app_mid pre x post off n :
  off = zlen pre → n = zlen x → slice off n (pre ++ x ++ post) = Some x.
Proof.
  intros -> ->. apply slice_Some. rewrite !length_app.
  split_and!; [lia..|]. rewrite !Nat2Z.id, drop_app_length, take_app_length. done.
Qed.

Lemma slice_app_sub pre x off n k :
  0 ≤ k → off = zlen pre + k → slice off n (pre ++ x) = slice k n x.
Proof.
  intros ? ->. unfold slice. rewrite length_app.
  destruct (decide (0 ≤ k ∧ 0 ≤ n ∧ k + n ≤ zlen x)) as [?|Hn].
  - rewrite !bool_decide_true by lia.
    replace (Z.to_nat (zlen pre + k)) with (length pre + Z.to_nat k)%nat by lia.
    by rewrite drop_app_add.
  - rewrite !bool_decide_false by lia. done.
Qed.

Lemma slice_take off n x y : off + n ≤ zlen x → slice off n (x ++ y) = slice off n x.
Proof.
  intros. unfold slice. rewrite length_app.
  destruct (decide (0 ≤ off ∧ 0 ≤ n)) as [[??]|]; cycle 1.
  { rewrite !bool_decide_false by lia. done. }
  rewrite !bool_decide_true by lia.
  rewrite drop_app_le by lia. rewrite take_app_le; [done|rewrite length_drop; lia].
Qed.

(** A slice of a slice. *)
Lemma slice_sub off n b x k m :
  slice off n b = Some x → 0 ≤ k → k + m ≤ n → slice (off + k) m b = slice k m x.
Proof.
  intros Hs Hk Hm. pose proof (slice_length _ _ _ _ Hs) as Hl.
  apply slice_Some in Hs as (Ho & Hn & Hb & Hx).
  assert (Hsplit : b = take (Z.to_nat off) b ++ x ++ drop (Z.to_nat n) (drop (Z.to_nat off) b)).
  { by rewrite Hx, !take_drop. }
  rewrite Hsplit, (slice_app_sub _ _ (off + k) m k), slice_take;
    [done|lia|done|rewrite length_take; lia].
Qed.

(** The bytes of a slice, one by one. *)
Lemma rd8_slice off n b x i c :
  slice off n b = Some x → x !! i = Some c → rd8 (off + Z.of_nat i) b = Some c.
Proof.
  intros (Ho & Hn & Hb & ->)%slice_Some Hi.
  apply lookup_take_Some in Hi as [Hi ?]. rewrite lookup_drop in Hi.
  unfold rd8, slice. rewrite bool_decide_true by (apply lookup_lt_Some in Hi; lia).
  replace (Z.to_nat (off + Z.of_nat i)) with (Z.to_nat off + i)%nat by lia.
  rewrite (drop_S _ c) by done. simpl. f_equal. lia.
Qed.

(** ** Bit arithmetic the components share *)
(** [flags & bit], tested. *)
Definition has (flags bit : Z) : bool := negb (Z.land flags bit =? 0).

Lemma lor_add_disjoint a b n :
  0 ≤ n → 0 ≤ a < 2 ^ n → Z.lor a (b * 2 ^ n) = a + b * 2 ^ n.
Proof.
  intros Hn Ha. rewrite <- Z.shiftl_mul_pow2 by done.
  rewrite <- Z.lxor_lor, <- Z.add_nocarry_lxor; [done| |];
  (apply Z.bits_inj'; intros i Hi; rewrite Z.land_spec, Z.bits_0, Z.shiftl_spec by done;
   destruct (decide (i < n)) as [Hin|Hin];
   [rewrite (Z.testbit_neg_r b (i - n)) by lia; by rewrite andb_false_r
   |rewrite <- (Z.mod_small a (2 ^ n)) by done; rewrite Z.mod_pow2_bits_high by lia; done]).
Qed.

Lemma land_ones_mod a n : 0 ≤ n → Z.land a (2 ^ n - 1) = a mod 2 ^ n.
Proof. intros. rewrite <- Z.land_ones by done. f_equal. rewrite Z.ones_equiv. lia. Qed.

(** A byte masked in place. *)
Lemma land_byte_mask x n :
  0 ≤ n → Z.land x (255 * 2 ^ n) = (x / 2 ^ n) mod 256 * 2 ^ n.
Proof.
  intros Hn. change 256 with (2 ^ 8). rewrite <- Z.land_ones, <- Z.shiftr_div_pow2 by lia.
  change 255 with (Z.ones 8). rewrite <- !Z.shiftl_mul_pow2 by done.
  apply Z.bits_inj'. intros i Hi.
  rewrite Z.land_spec, !Z.shiftl_spec by done. destruct (decide (i < n)).
  - rewrite !(Z.testbit_neg_r _ (i - n)) by lia. by rewrite andb_false_r.
  - rewrite Z.land_spec, Z.shiftr_spec by lia. by replace (i - n + n) with i by lia.
Qed.

Lemma be_le b : be b = le (reverse b).
Proof. done. Qed.

(** ** Hint databases *)
Create HintDb c_bounds discriminated.
#[export] Hint Resolve u32_bound u16_bound u64_bound le_split_bytes : c_bounds.
Create Rewrite HintDb outcome_db.
#[export] Hint Rewrite @obind_ret_l @obind_ret_r @obind_assoc : outcome_db.
