(* ===== verification/Crc.v ===== *)
(** * Checksums: e2fsprogs/lib/ext2fs/crc16.c and crc32c.c

    Both checksums are the remainder of a division of polynomials over the field of two
    elements; the library computes them a byte or eight bytes at a time, from tables.
    Here are the code of every width it can be built with, the generator of the tables
    (gen_crc32ctable.c), and the proof that all of them compute the division bit by bit:
    the functions at play are linear for [Z.lxor], so two of them that agree on the
    powers of two agree. *)
From S2P Require Export Prelude.
#[local] Open Scope Z_scope.

(** ** Linear functions over the bits *)
Class Linear (f : Z → Z) : Prop :=
  linear a b : f (Z.lxor a b) = Z.lxor (f a) (f b).

(** Equality of two words, bit by bit. *)
Ltac by_bits :=
  apply Z.bits_inj'; intros ? ?;
  repeat first [rewrite Z.lxor_spec | rewrite Z.land_spec | rewrite Z.shiftr_spec by lia
               | rewrite Z.shiftl_spec by lia | rewrite Z.bits_0];
  repeat match goal with |- context [Z.testbit ?a ?i] => destruct (Z.testbit a i) end;
  try reflexivity.

Lemma land_lxor_distr a b m : Z.land (Z.lxor a b) m = Z.lxor (Z.land a m) (Z.land b m).
Proof. by_bits. Qed.

#[export] Instance linear_id : Linear (fun a => a).
Proof. done. Qed.
#[export] Instance linear_shiftr n : Linear (fun a => Z.shiftr a n).
Proof. intros a b. apply Z.shiftr_lxor. Qed.
#[export] Instance linear_shiftl n : Linear (fun a => Z.shiftl a n).
Proof. intros a b. apply Z.shiftl_lxor. Qed.
#[export] Instance linear_land m : Linear (fun a => Z.land a m).
Proof. intros a b. apply land_lxor_distr. Qed.
#[export] Instance linear_u32 : Linear u32.
Proof. intros a b. unfold u32. rewrite <- !Z.land_ones by lia. apply land_lxor_distr. Qed.
#[export] Instance linear_bit i v : Linear (fun a => if Z.testbit a i then v else 0).
Proof.
  intros a b. rewrite Z.lxor_spec.
  by destruct (Z.testbit a i), (Z.testbit b i); cbn; rewrite ?Z.lxor_nilpotent, ?Z.lxor_0_r, ?Z.lxor_0_l.
Qed.
Lemma lxor_4 a b c d : Z.lxor (Z.lxor a b) (Z.lxor c d) = Z.lxor (Z.lxor a c) (Z.lxor b d).
Proof. by_bits. Qed.
#[export] Instance linear_lxor f g `{!Linear f, !Linear g} : Linear (fun a => Z.lxor (f a) (g a)).
Proof. intros a b. rewrite (linear (f:=f)), (linear (f:=g)). apply lxor_4. Qed.
Lemma linear_compose f g `{!Linear f, !Linear g} : Linear (fun a => f (g a)).
Proof. intros a b. by rewrite (linear (f:=g)), (linear (f:=f)). Qed.
#[export] Instance linear_iter n f `{!Linear f} : Linear (Nat.iter n f).
Proof. intros a b. induction n as [|n IH]; [done|]. simpl. by rewrite IH, (linear (f:=f)). Qed.

Lemma linear_0 f `{!Linear f} : f 0 = 0.
Proof. pose proof (linear (f:=f) 0 0) as E. by rewrite !Z.lxor_nilpotent in E. Qed.

(** The top bit of a word apart. *)
Lemma split_top w a : 0 ≤ w → 0 ≤ a < 2 ^ (w + 1) →
  ∃ r, 0 ≤ r < 2 ^ w ∧ (a = r ∨ a = Z.lxor (2 ^ w) r).
Proof.
  intros Hw Ha. exists (a mod 2 ^ w).
  pose proof (Z.mod_pos_bound a (2 ^ w)) as Hr.
  rewrite Z.pow_add_r, Z.pow_1_r in Ha by lia.
  pose proof (Z.div_mod a (2 ^ w)).
  assert (a / 2 ^ w = 0 ∨ a / 2 ^ w = 1) as [E|E].
  { assert (0 ≤ a / 2 ^ w) by (apply Z.div_pos; lia).
    assert (a / 2 ^ w < 2) by (apply Z.div_lt_upper_bound; lia). lia. }
  - split; [lia|]. left. rewrite E in *. lia.
  - split; [lia|]. right. rewrite E in *.
    rewrite Z.lxor_comm, <- Z.add_nocarry_lxor; [lia|].
    apply Z.bits_inj'. intros i Hi. rewrite Z.land_spec, Z.pow2_bits_eqb, Z.bits_0 by lia.
    destruct (Z.eqb_spec w i) as [<-|]; [|apply andb_false_r].
    rewrite Z.mod_pow2_bits_high by lia. done.
Qed.

(** The values on the powers of two decide. *)
Lemma linear_ext (w : nat) f g `{!Linear f, !Linear g} :
  forallb (fun i => f (2 ^ Z.of_nat i) =? g (2 ^ Z.of_nat i)) (seq 0 w) = true →
  ∀ a, 0 ≤ a < 2 ^ Z.of_nat w → f a = g a.
Proof.
  induction w as [|w IH]; intros Hb a Ha.
  { replace a with 0 by (simpl in Ha; lia). by rewrite !linear_0 by done. }
  rewrite seq_S, forallb_app in Hb. apply andb_prop in Hb as [Hb Ht].
  simpl in Ht. apply andb_prop in Ht as [Ht%Z.eqb_eq _].
  destruct (split_top (Z.of_nat w) a) as (r & Hr & [->| ->]); [lia| |..].
  { by rewrite Nat2Z.inj_succ in Ha. }
  - by apply IH.
  - rewrite (linear (f:=f)), (linear (f:=g)), Ht. f_equal. by apply IH.
Qed.

(** ** The division, bit by bit *)

(** [crc = (crc >> 1) ^ ((crc & 1) ? polynomial : 0)] *)
Definition crc_bit_le (polynomial crc : Z) : Z :=
  Z.lxor (Z.shiftr crc 1) (if negb (Z.land crc 1 =? 0) then polynomial else 0).
(** [crc = (crc << 1) ^ ((crc & 0x80000000) ? polynomial : 0)] *)
Definition crc_bit_be (polynomial crc : Z) : Z :=
  Z.lxor (u32 (Z.shiftl crc 1)) (if negb (Z.land crc 0x80000000 =? 0) then polynomial else 0).

(** The loops of CRC_LE_BITS == 1 and CRC_BE_BITS == 1. *)
Definition crc_8bits_le (polynomial crc : Z) : Z := Nat.iter 8 (crc_bit_le polynomial) crc.
Definition crc_8bits_be (polynomial crc : Z) : Z := Nat.iter 8 (crc_bit_be polynomial) crc.
#[global] Arguments crc_8bits_le : simpl never.
#[global] Arguments crc_8bits_be : simpl never.
Definition crc_byte_le (polynomial crc x : Z) : Z := crc_8bits_le polynomial (Z.lxor crc x).
Definition crc_byte_be (polynomial crc x : Z) : Z :=
  crc_8bits_be polynomial (Z.lxor crc (Z.shiftl x 24)).

(** ** crc16.c *)
Definition crc16_table : list Z := [
  0x0000; 0xc0c1; 0xc181; 0x0140; 0xc301; 0x03c0; 0x0280; 0xc241;
  0xc601; 0x06c0; 0x0780; 0xc741; 0x0500; 0xc5c1; 0xc481; 0x0440;
  0xcc01; 0x0cc0; 0x0d80; 0xcd41; 0x0f00; 0xcfc1; 0xce81; 0x0e40;
  0x0a00; 0xcac1; 0xcb81; 0x0b40; 0xc901; 0x09c0; 0x0880; 0xc841;
  0xd801; 0x18c0; 0x1980; 0xd941; 0x1b00; 0xdbc1; 0xda81; 0x1a40;
  0x1e00; 0xdec1; 0xdf81; 0x1f40; 0xdd01; 0x1dc0; 0x1c80; 0xdc41;
  0x1400; 0xd4c1; 0xd581; 0x1540; 0xd701; 0x17c0; 0x1680; 0xd641;
  0xd201; 0x12c0; 0x1380; 0xd341; 0x1100; 0xd1c1; 0xd081; 0x1040;
  0xf001; 0x30c0; 0x3180; 0xf141; 0x3300; 0xf3c1; 0xf281; 0x3240;
  0x3600; 0xf6c1; 0xf781; 0x3740; 0xf501; 0x35c0; 0x3480; 0xf441;
  0x3c00; 0xfcc1; 0xfd81; 0x3d40; 0xff01; 0x3fc0; 0x3e80; 0xfe41;
  0xfa01; 0x3ac0; 0x3b80; 0xfb41; 0x3900; 0xf9c1; 0xf881; 0x3840;
  0x2800; 0xe8c1; 0xe981; 0x2940; 0xeb01; 0x2bc0; 0x2a80; 0xea41;
  0xee01; 0x2ec0; 0x2f80; 0xef41; 0x2d00; 0xedc1; 0xec81; 0x2c40;
  0xe401; 0x24c0; 0x2580; 0xe541; 0x2700; 0xe7c1; 0xe681; 0x2640;
  0x2200; 0xe2c1; 0xe381; 0x2340; 0xe101; 0x21c0; 0x2080; 0xe041;
  0xa001; 0x60c0; 0x6180; 0xa141; 0x6300; 0xa3c1; 0xa281; 0x6240;
  0x6600; 0xa6c1; 0xa781; 0x6740; 0xa501; 0x65c0; 0x6480; 0xa441;
  0x6c00; 0xacc1; 0xad81; 0x6d40; 0xaf01; 0x6fc0; 0x6e80; 0xae41;
  0xaa01; 0x6ac0; 0x6b80; 0xab41; 0x6900; 0xa9c1; 0xa881; 0x6840;
  0x7800; 0xb8c1; 0xb981; 0x7940; 0xbb01; 0x7bc0; 0x7a80; 0xba41;
  0xbe01; 0x7ec0; 0x7f80; 0xbf41; 0x7d00; 0xbdc1; 0xbc81; 0x7c40;
  0xb401; 0x74c0; 0x7580; 0xb541; 0x7700; 0xb7c1; 0xb681; 0x7640;
  0x7200; 0xb2c1; 0xb381; 0x7340; 0xb101; 0x71c0; 0x7080; 0xb041;
  0x5000; 0x90c1; 0x9181; 0x5140; 0x9301; 0x53c0; 0x5280; 0x9241;
  0x9601; 0x56c0; 0x5780; 0x9741; 0x5500; 0x95c1; 0x9481; 0x5440;
  0x9c01; 0x5cc0; 0x5d80; 0x9d41; 0x5f00; 0x9fc1; 0x9e81; 0x5e40;
  0x5a00; 0x9ac1; 0x9b81; 0x5b40; 0x9901; 0x59c0; 0x5880; 0x9841;
  0x8801; 0x48c0; 0x4980; 0x8941; 0x4b00; 0x8bc1; 0x8a81; 0x4a40;
  0x4e00; 0x8ec1; 0x8f81; 0x4f40; 0x8d01; 0x4dc0; 0x4c80; 0x8c41;
  0x4400; 0x84c1; 0x8581; 0x4540; 0x8701; 0x47c0; 0x4680; 0x8641;
  0x8201; 0x42c0; 0x4380; 0x8341; 0x4100; 0x81c1; 0x8081; 0x4040
].

Definition tab_at (t : list Z) (i : Z) : Z := default 0 (t !! Z.to_nat i).

Fixpoint ext2fs_crc16 (crc : Z) (buffer : bytes) : Z :=
  match buffer with
  | [] => crc
  | c :: buffer =>
      ext2fs_crc16 (Z.land (Z.lxor (Z.land (Z.shiftr crc 8) 0xff)
                                   (tab_at crc16_table (Z.land (Z.lxor crc c) 0xff))) 0xffff) buffer
  end.

(** ** gen_crc32ctable.c

    [bits] is CRC_LE_BITS or CRC_BE_BITS: 1, 2, 4, 8, 32 or 64. *)
Definition CRC32C_POLY_LE : Z := 0x82F63B78.
Definition CRCPOLY_BE : Z := 0x04c11db7.

Definition TABLE_ROWS (bits : Z) : nat := if 8 <? bits then Z.to_nat (bits / 8) else 1.
Definition TABLE_SIZE (bits : Z) : Z := if 8 <? bits then 256 else 2 ^ bits.

Definition tab_set (t : list Z) (i v : Z) : list Z := <[Z.to_nat i := v]> t.

(** [for (j = 0; j < LE_TABLE_SIZE; j += 2 * i)] *)
Fixpoint init_le_fill (fuel : nat) (size i crc j : Z) (t : list Z) : list Z :=
  match fuel with
  | O => t
  | S fuel => if size <=? j then t
              else init_le_fill fuel size i crc (j + 2 * i) (tab_set t (i + j) (Z.lxor crc (tab_at t j)))
  end.
(** [for (i = LE_TABLE_SIZE >> 1; i; i >>= 1)] *)
Fixpoint init_le_row (fuel : nat) (size i crc : Z) (t : list Z) : list Z :=
  match fuel with
  | O => t
  | S fuel => if i =? 0 then t else
      let crc := crc_bit_le CRC32C_POLY_LE crc in
      init_le_row fuel size (Z.shiftr i 1) crc (init_le_fill 256 size i crc 0 t)
  end.
(** [for (j = 0; j < i; j++)] *)
Fixpoint init_be_fill (fuel : nat) (i crc j : Z) (t : list Z) : list Z :=
  match fuel with
  | O => t
  | S fuel => if i <=? j then t
              else init_be_fill fuel i crc (j + 1) (tab_set t (i + j) (Z.lxor crc (tab_at t j)))
  end.
(** [for (i = 1; i < BE_TABLE_SIZE; i <<= 1)] *)
Fixpoint init_be_row (fuel : nat) (size i crc : Z) (t : list Z) : list Z :=
  match fuel with
  | O => t
  | S fuel => if size <=? i then t else
      let crc := crc_bit_be CRCPOLY_BE crc in
      init_be_row fuel size (Z.shiftl i 1) crc (init_be_fill 256 i crc 0 t)
  end.

(** The rows after the first: entry [i] of a row from entry [i] of the previous one (the
    source goes down the columns). *)
Definition next_row (next : Z → Z) (row : list Z) : list Z := next <$> row.
Fixpoint next_rows (n : nat) (next : Z → Z) (row : list Z) : list (list Z) :=
  match n with O => [] | S n => row :: next_rows n next (next_row next row) end.

Definition crc32cinit_le (bits : Z) : list (list Z) :=
  let size := TABLE_SIZE bits in
  let row := init_le_row 9 size (Z.shiftr size 1) 1 (replicate (Z.to_nat size) 0) in
  next_rows (TABLE_ROWS bits)
    (fun crc => Z.lxor (tab_at row (Z.land crc 0xff)) (Z.shiftr crc 8)) row.
Definition crc32init_be (bits : Z) : list (list Z) :=
  let size := TABLE_SIZE bits in
  let row := init_be_row 9 size 1 0x80000000 (replicate (Z.to_nat size) 0) in
  next_rows (TABLE_ROWS bits)
    (fun crc => Z.lxor (tab_at row (Z.land (Z.shiftr crc 24) 0xff)) (u32 (Z.shiftl crc 8))) row.

(** ** crc32c.c *)
Definition swab32 (x : Z) : Z :=
  Z.lor (Z.lor (Z.shiftl (Z.land x 0xff) 24) (Z.shiftl (Z.land x 0xff00) 8))
        (Z.lor (Z.shiftr (Z.land x 0xff0000) 8) (Z.shiftr (Z.land x 0xff000000) 24)).

Definition crc32ctable_le (bits : Z) : list (list Z) := crc32cinit_le bits.
(** The macro [tobe] swaps the entries of the wide tables. *)
Definition crc32table_be (bits : Z) : list (list Z) :=
  if 8 <? bits then map (map swab32) (crc32init_be bits) else crc32init_be bits.

Definition row (tab : list (list Z)) (j : nat) : list Z := default [] (tab !! j).

Section Body.
  Context (tab : list (list Z)).

Definition DO_CRC (crc x : Z) : Z :=
  Z.lxor (tab_at (row tab 0) (Z.land (Z.lxor crc x) 255)) (Z.shiftr crc 8).
(** DO_CRC4 from row 0 and DO_CRC8 from row 4. *)
Definition DO_CRC4 (j : nat) (q : Z) : Z :=
  Z.lxor (Z.lxor (Z.lxor (tab_at (row tab (j + 3)) (Z.land q 255))
                         (tab_at (row tab (j + 2)) (Z.land (Z.shiftr q 8) 255)))
                 (tab_at (row tab (j + 1)) (Z.land (Z.shiftr q 16) 255)))
         (tab_at (row tab j) (Z.land (Z.shiftr q 24) 255)).

(** The bytes before the first word, [addr] the address of the buffer. *)
Fixpoint align_loop (crc addr : Z) (buf : bytes) : Z * bytes :=
  match buf with
  | [] => (crc, [])
  | x :: rest => if Z.land addr 3 =? 0 then (crc, buf)
                 else align_loop (DO_CRC crc x) (addr + 1) rest
  end.
(** Four or eight bytes at a time. *)
Fixpoint words4 (len : nat) (crc : Z) (buf : bytes) : Z * bytes :=
  match len with
  | O => (crc, buf)
  | S len => words4 len (DO_CRC4 0 (Z.lxor crc (le (take 4 buf)))) (drop 4 buf)
  end.
Fixpoint words8 (len : nat) (crc : Z) (buf : bytes) : Z * bytes :=
  match len with
  | O => (crc, buf)
  | S len =>
      let crc := DO_CRC4 4 (Z.lxor crc (le (take 4 buf))) in
      let crc := Z.lxor crc (DO_CRC4 0 (le (take 4 (drop 4 buf)))) in
      words8 len crc (drop 8 buf)
  end.

Definition crc32_body (bits crc addr : Z) (buf : bytes) : Z :=
  let '(crc, buf) := align_loop crc addr buf in
  let '(crc, rest) :=
    if bits =? 32 then words4 (length buf / 4) crc buf else words8 (length buf / 8) crc buf in
  fold_left DO_CRC rest crc.

(** The branches of crc32_le_generic. *)
Definition crc32_le_generic (bits crc addr : Z) (p : bytes) (polynomial : Z) : Z :=
  let t crc i := tab_at (row tab 0) (Z.land crc i) in
  if bits =? 1 then fold_left (crc_byte_le polynomial) p crc
  else if bits =? 2 then
    fold_left (fun crc x => Nat.iter 4 (fun crc => Z.lxor (Z.shiftr crc 2) (t crc 3)) (Z.lxor crc x)) p crc
  else if bits =? 4 then
    fold_left (fun crc x => Nat.iter 2 (fun crc => Z.lxor (Z.shiftr crc 4) (t crc 15)) (Z.lxor crc x)) p crc
  else if bits =? 8 then
    fold_left (fun crc x => let crc := Z.lxor crc x in Z.lxor (Z.shiftr crc 8) (t crc 255)) p crc
  else crc32_body bits crc addr p.

(** The branches of crc32_be_generic. *)
Definition crc32_be_generic (bits crc addr : Z) (p : bytes) (polynomial : Z) : Z :=
  let t crc i := tab_at (row tab 0) (Z.shiftr crc i) in
  let enter crc x := Z.lxor crc (Z.shiftl x 24) in
  if bits =? 1 then fold_left (crc_byte_be polynomial) p crc
  else if bits =? 2 then
    fold_left (fun crc x => Nat.iter 4 (fun crc => Z.lxor (u32 (Z.shiftl crc 2)) (t crc 30)) (enter crc x)) p crc
  else if bits =? 4 then
    fold_left (fun crc x => Nat.iter 2 (fun crc => Z.lxor (u32 (Z.shiftl crc 4)) (t crc 28)) (enter crc x)) p crc
  else if bits =? 8 then
    fold_left (fun crc x => let crc := enter crc x in Z.lxor (u32 (Z.shiftl crc 8)) (t crc 24)) p crc
  else swab32 (crc32_body bits (swab32 crc) addr p).

End Body.

(** As the library is built: eight bytes at a time. *)
Definition CRC_BITS : Z := 64.
Definition ext2fs_crc32c_le (addr crc : Z) (p : bytes) : Z :=
  crc32_le_generic (crc32ctable_le CRC_BITS) CRC_BITS crc addr p CRC32C_POLY_LE.
Definition ext2fs_crc32_be (addr crc : Z) (p : bytes) : Z :=
  crc32_be_generic (crc32table_be CRC_BITS) CRC_BITS crc addr p CRCPOLY_BE.

Example crc16_check : ext2fs_crc16 0 (bs "123456789") = 0xBB3D.
Proof. vm_compute. reflexivity. Qed.
Example crc32c_check : Z.lxor (ext2fs_crc32c_le 3 0xffffffff (bs "123456789")) 0xffffffff = 0xE3069283.
Proof. vm_compute. reflexivity. Qed.
Example crc32_be_check : Z.lxor (ext2fs_crc32_be 2 0xffffffff (bs "123456789")) 0xffffffff = 0xFC891918.
Proof. vm_compute. reflexivity. Qed.

(** ** The steps are linear *)
Lemma land_pow2_testbit a i : 0 ≤ i → negb (Z.land a (2 ^ i) =? 0) = Z.testbit a i.
Proof.
  intros Hi. destruct (Z.eqb_spec (Z.land a (2 ^ i)) 0) as [E|E]; simpl.
  - apply (f_equal (fun z => Z.testbit z i)) in E.
    rewrite Z.land_spec, Z.bits_0, Z.pow2_bits_true, andb_true_r in E by done. done.
  - destruct (Z.testbit a i) eqn:Ei; [done|]. destruct E. apply Z.bits_inj'. intros k Hk.
    rewrite Z.land_spec, Z.bits_0, Z.pow2_bits_eqb by done.
    destruct (Z.eqb_spec i k) as [<-|]; [by rewrite Ei|apply andb_false_r].
Qed.

#[export] Instance linear_bit_le polynomial : Linear (crc_bit_le polynomial).
Proof.
  intros a b. unfold crc_bit_le. change 1 with (2 ^ 0) at 2 4 6.
  rewrite !land_pow2_testbit by done.
  exact (linear (f := fun a => Z.lxor (Z.shiftr a 1) (if Z.testbit a 0 then polynomial else 0)) a b).
Qed.
#[export] Instance linear_bit_be polynomial : Linear (crc_bit_be polynomial).
Proof.
  intros a b. unfold crc_bit_be. change 0x80000000 with (2 ^ 31).
  rewrite !land_pow2_testbit by done.
  pose proof (linear_compose u32 (fun a => Z.shiftl a 1)).
  exact (linear (f := fun a => Z.lxor (u32 (Z.shiftl a 1)) (if Z.testbit a 31 then polynomial else 0)) a b).
Qed.

Lemma lxor_bound n a b : 0 ≤ n → 0 ≤ a < 2 ^ n → 0 ≤ b < 2 ^ n → 0 ≤ Z.lxor a b < 2 ^ n.
Proof.
  intros Hn Ha Hb. assert (0 ≤ Z.lxor a b) by (apply Z.lxor_nonneg; lia). split; [done|].
  destruct (decide (Z.lxor a b = 0)) as [->|]; [lia|]. apply Z.log2_lt_pow2; [lia|].
  destruct (decide (n = 0)) as [->|]; [replace a with 0 in * by lia; replace b with 0 in * by lia; done|].
  pose proof (Z.log2_lxor a b).
  assert (∀ x, 0 ≤ x < 2 ^ n → Z.log2 x < n).
  { intros x Hx. destruct (decide (x = 0)) as [->|]; [simpl; lia|]. apply Z.log2_lt_pow2; lia. }
  pose proof (H1 a Ha). pose proof (H1 b Hb). lia.
Qed.
Lemma linear_range (w : nat) n f `{!Linear f} : 0 ≤ n →
  forallb (fun i => (0 <=? f (2 ^ Z.of_nat i)) && (f (2 ^ Z.of_nat i) <? 2 ^ n)) (seq 0 w) = true →
  ∀ a, 0 ≤ a < 2 ^ Z.of_nat w → 0 ≤ f a < 2 ^ n.
Proof.
  intros Hn. induction w as [|w IH]; intros Hb a Ha.
  { replace a with 0 by (simpl in Ha; lia). rewrite linear_0 by done. lia. }
  rewrite seq_S, forallb_app in Hb. apply andb_prop in Hb as [Hb Ht].
  simpl in Ht. rewrite andb_true_r in Ht. apply andb_prop in Ht as [?%Z.leb_le ?%Z.ltb_lt].
  destruct (split_top (Z.of_nat w) a) as (r & Hr & [->| ->]); [lia| |..].
  { by rewrite Nat2Z.inj_succ in Ha. }
  - by apply IH.
  - rewrite (linear (f:=f)). apply lxor_bound; auto.
Qed.

(** ** From the tables to the division *)

(** A property of the numbers below [n], decided. *)
Lemma forall_below n (P : Z → bool) :
  forallb (fun i => P (Z.of_nat i)) (seq 0 (Z.to_nat n)) = true → ∀ i, 0 ≤ i < n → P i = true.
Proof.
  rewrite forallb_forall. intros HP i Hi. rewrite <- (Z2Nat.id i) by lia.
  apply HP, in_seq. lia.
Qed.

(** A step of [n] bits through a table of the values of a linear function [f]. *)
Lemma table_step f `{!Linear f} (n : Z) t c :
  0 ≤ n < 32 → 0 ≤ c < 2 ^ 32 → (∀ a, 0 ≤ a < 2 ^ (32 - n) → f (Z.shiftl a n) = a) →
  (∀ i, 0 ≤ i < 2 ^ n → tab_at t i = f i) →
  Z.lxor (tab_at t (Z.land c (2 ^ n - 1))) (Z.shiftr c n) = f c.
Proof.
  intros Hn Hc Hs Ht. rewrite land_ones_mod by lia.
  pose proof (Z.mod_pos_bound c (2 ^ n)).
  rewrite Ht by lia.
  assert (E : c = Z.lxor (c mod 2 ^ n) (Z.shiftl (Z.shiftr c n) n)).
  { apply Z.bits_inj'. intros i Hi. rewrite Z.lxor_spec, Z.shiftl_spec by done.
    destruct (decide (i < n)).
    - rewrite Z.mod_pow2_bits_low, (Z.testbit_neg_r _ (i - n)) by lia. by rewrite xorb_false_r.
    - rewrite Z.mod_pow2_bits_high, Z.shiftr_spec by lia. by replace (i - n + n) with i by lia. }
  rewrite E at 3. rewrite (linear (f:=f)). f_equal. symmetry. apply Hs.
  rewrite Z.shiftr_div_pow2 by lia. split; [apply Z.div_pos; lia|].
  apply Z.div_lt_upper_bound; [lia|]. rewrite <- Z.pow_add_r by lia.
  replace (n + (32 - n)) with 32 by lia. lia.
Qed.

Lemma le_bytes_bound p : Forall is_byte p → (length p <= 4)%nat → 0 ≤ le p < 2 ^ 32.
Proof.
  intros Hp Hl. pose proof (le_bound p Hp).
  assert (256 ^ zlen p ≤ 256 ^ 4) by (apply Z.pow_le_mono_r; lia). lia.
Qed.

Section Sliced.
  Context (B : Z → Z) `{!Linear B}.
  Context (Hshift : ∀ a, 0 ≤ a < 2 ^ 24 → B (Z.shiftl a 8) = a).
  Context (Hrange : ∀ a, 0 ≤ a < 2 ^ 32 → 0 ≤ B a < 2 ^ 32).
  (** One byte. *)
  Context (feed : Z → Z → Z) (Hfeed : ∀ crc x, feed crc x = B (Z.lxor crc x)).
  Context (tab : list (list Z)) (rows : nat).
  Context (Htab : ∀ j i, (j < rows)%nat → 0 ≤ i < 256 → tab_at (row tab j) i = Nat.iter (S j) B i).

Lemma feed_range crc x : 0 ≤ crc < 2 ^ 32 → is_byte x → 0 ≤ feed crc x < 2 ^ 32.
Proof. unfold is_byte. intros. rewrite Hfeed. apply Hrange, lxor_bound; lia. Qed.
Lemma feed_all_range p : ∀ crc, 0 ≤ crc < 2 ^ 32 → Forall is_byte p →
  0 ≤ fold_left feed p crc < 2 ^ 32.
Proof.
  induction p as [|x p IH]; intros crc Hc Hp; [done|].
  apply Forall_cons in Hp as [Hx Hp]. simpl. apply IH; [by apply feed_range|done].
Qed.

Lemma DO_CRC_eq crc x : (0 < rows)%nat → 0 ≤ crc < 2 ^ 32 → is_byte x → DO_CRC tab crc x = feed crc x.
Proof.
  intros Hr Hc Hx. unfold DO_CRC. rewrite Hfeed. unfold is_byte in Hx.
  assert (Hq : 0 ≤ Z.lxor crc x < 2 ^ 32) by (apply lxor_bound; lia).
  rewrite <- (table_step B 8 (row tab 0) (Z.lxor crc x)); [|lia|done|exact Hshift|].
  - change (2 ^ 8 - 1) with 255. f_equal. rewrite Z.shiftr_lxor.
    rewrite (Z.shiftr_div_pow2 x), (Z.div_small x), Z.lxor_0_r by lia. done.
  - intros i Hi. by apply (Htab 0).
Qed.

Lemma iter_shift n a : (n <= 4)%nat → 0 ≤ a < 2 ^ (32 - 8 * Z.of_nat n) →
  Nat.iter n B (Z.shiftl a (8 * Z.of_nat n)) = a.
Proof.
  revert a. induction n as [|n IH]; intros a Hn Ha; [apply Z.shiftl_0_r|].
  rewrite Nat.iter_succ_r.
  replace (8 * Z.of_nat (S n)) with (8 * Z.of_nat n + 8) in * by lia.
  rewrite <- Z.shiftl_shiftl, Hshift; [apply IH; [lia|]|..|lia].
  - split; [lia|]. eapply Z.lt_le_trans; [apply Ha|]. apply Z.pow_le_mono_r; lia.
  - rewrite Z.shiftl_mul_pow2 by lia. split; [nia|].
    replace 24 with (32 - (8 * Z.of_nat n + 8) + 8 * Z.of_nat n) by lia.
    rewrite Z.pow_add_r by lia. nia.
Qed.

(** At most four bytes are fed at once. *)
Lemma feed_word p : ∀ crc, (length p <= 4)%nat → Forall is_byte p →
  fold_left feed p crc = Nat.iter (length p) B (Z.lxor crc (le p)).
Proof.
  induction p as [|x p IH]; intros crc Hl Hp; simpl length; [by rewrite Z.lxor_0_r|].
  apply Forall_cons in Hp as [Hx Hp]. simpl in Hl. simpl fold_left.
  rewrite IH, Nat.iter_succ_r by (done || lia). rewrite Hfeed. f_equal.
  assert (E : le (x :: p) = Z.lxor x (Z.shiftl (le p) 8)).
  { simpl. unfold is_byte in Hx. rewrite Z.shiftl_mul_pow2 by lia. change (2 ^ 8) with 256.
    rewrite (Z.mul_comm 256). symmetry. rewrite <- Z.add_nocarry_lxor; [done|].
    change 256 with (2 ^ 8). rewrite <- Z.shiftl_mul_pow2 by lia. apply Z.bits_inj'. intros i Hi.
    rewrite Z.land_spec, Z.shiftl_spec, Z.bits_0 by done.
    destruct (decide (i < 8)); [rewrite (Z.testbit_neg_r _ (i - 8)) by lia; apply andb_false_r|].
    rewrite <- (Z.mod_small x (2 ^ 8)), Z.mod_pow2_bits_high by lia. done. }
  rewrite E, <- Z.lxor_assoc, (linear (f:=B) (Z.lxor crc x)), Hshift; [done|].
  pose proof (le_bound p Hp).
  assert (256 ^ zlen p ≤ 256 ^ 3) by (apply Z.pow_le_mono_r; lia). lia.
Qed.

Lemma split_word q : 0 ≤ q < 2 ^ 32 →
  q = Z.lxor (Z.lxor (Z.lxor (Z.land q 255) (Z.shiftl (Z.land (Z.shiftr q 8) 255) 8))
                     (Z.shiftl (Z.land (Z.shiftr q 16) 255) 16))
             (Z.shiftl (Z.land (Z.shiftr q 24) 255) 24).
Proof.
  intros Hq.
  assert (L : ∀ k, Linear (fun q => Z.shiftl (Z.land (Z.shiftr q k) 255) k)).
  { intros k a b. by rewrite Z.shiftr_lxor, land_lxor_distr, Z.shiftl_lxor. }
  pose proof (L 8). pose proof (L 16). pose proof (L 24).
  apply (linear_ext 32 (fun q => q) (fun q =>
    Z.lxor (Z.lxor (Z.lxor (Z.land q 255) (Z.shiftl (Z.land (Z.shiftr q 8) 255) 8))
                   (Z.shiftl (Z.land (Z.shiftr q 16) 255) 16))
           (Z.shiftl (Z.land (Z.shiftr q 24) 255) 24))); [by vm_compute|done].
Qed.

Lemma DO_CRC4_eq j q : (j + 4 <= rows)%nat → 0 ≤ q < 2 ^ 32 → DO_CRC4 tab j q = Nat.iter (j + 4) B q.
Proof.
  intros Hj Hq. rewrite (split_word q) at 2 by done. unfold DO_CRC4.
  assert (Hb : ∀ a, 0 ≤ Z.land a 255 < 256).
  { intros a. change 255 with (2 ^ 8 - 1). rewrite land_ones_mod by lia. apply Z.mod_pos_bound. lia. }
  rewrite !Htab by (auto || lia). rewrite !(linear (f := Nat.iter (j + 4) B)).
  assert (Hi : ∀ k a, (k <= 3)%nat → Nat.iter (j + 4) B (Z.shiftl (Z.land a 255) (8 * Z.of_nat k)) =
                      Nat.iter (S (j + (3 - k))) B (Z.land a 255)).
  { intros k a Hk. replace (j + 4)%nat with (S (j + (3 - k)) + k)%nat by lia.
    rewrite Nat.iter_add, iter_shift; [done|lia|].
    pose proof (Hb a). split; [lia|].
    assert (2 ^ 8 ≤ 2 ^ (32 - 8 * Z.of_nat k)) by (apply Z.pow_le_mono_r; lia). lia. }
  pose proof (Hi 0%nat q) as E0. pose proof (Hi 1%nat (Z.shiftr q 8)) as E1.
  pose proof (Hi 2%nat (Z.shiftr q 16)) as E2. pose proof (Hi 3%nat (Z.shiftr q 24)) as E3.
  change (8 * Z.of_nat 0) with 0 in E0. rewrite Z.shiftl_0_r in E0.
  change (8 * Z.of_nat 1) with 8 in E1. change (8 * Z.of_nat 2) with 16 in E2.
  change (8 * Z.of_nat 3) with 24 in E3. rewrite E0, E1, E2, E3 by lia.
  simpl Nat.sub. rewrite Nat.add_0_r. done.
Qed.

Lemma feed_take n p crc : (n <= 4)%nat → (n <= length p)%nat → Forall is_byte p →
  fold_left feed p crc = fold_left feed (drop n p) (Nat.iter n B (Z.lxor crc (le (take n p)))).
Proof.
  intros Hn Hl Hp. rewrite <- (take_drop n p) at 1. rewrite fold_left_app, (feed_word (take n p)).
  - by rewrite length_take_le.
  - rewrite length_take. lia.
  - by apply Forall_take.
Qed.

Lemma word_bound p : Forall is_byte p → 0 ≤ le (take 4 p) < 2 ^ 32.
Proof. intros. apply le_bytes_bound; [by apply Forall_take|rewrite length_take; lia]. Qed.

Lemma feed_4 p crc : (4 <= length p)%nat → Forall is_byte p →
  fold_left feed (take 4 p) crc = Nat.iter 4 B (Z.lxor crc (le (take 4 p))).
Proof.
  intros Hl Hp. rewrite feed_word; [by rewrite length_take_le|rewrite length_take; lia|].
  by apply Forall_take.
Qed.

Lemma words4_eq n : (4 <= rows)%nat → ∀ crc buf, 0 ≤ crc < 2 ^ 32 → Forall is_byte buf → (4 * n <= length buf)%nat →
  let '(crc', rest) := words4 tab n crc buf in
  0 ≤ crc' < 2 ^ 32 ∧ Forall is_byte rest ∧ fold_left feed buf crc = fold_left feed rest crc'.
Proof.
  intros Hr. induction n as [|n IH]; intros crc buf Hc Hb Hl; [done|]. cbn [words4].
  pose proof (word_bound buf Hb).
  rewrite (DO_CRC4_eq 0) by (lia || apply lxor_bound; lia). simpl Nat.add.
  specialize (IH (Nat.iter 4 B (Z.lxor crc (le (take 4 buf)))) (drop 4 buf)).
  destruct (words4 _ _ _ _) as [crc' rest]. rewrite (feed_take 4) by (done || lia).
  apply IH; [|by apply Forall_drop|rewrite length_drop; lia].
  rewrite <- feed_4 by (done || lia). apply feed_all_range; [done|by apply Forall_take].
Qed.

Lemma words8_eq n : (8 <= rows)%nat → ∀ crc buf, 0 ≤ crc < 2 ^ 32 → Forall is_byte buf → (8 * n <= length buf)%nat →
  let '(crc', rest) := words8 tab n crc buf in
  0 ≤ crc' < 2 ^ 32 ∧ Forall is_byte rest ∧ fold_left feed buf crc = fold_left feed rest crc'.
Proof.
  intros Hr. induction n as [|n IH]; intros crc buf Hc Hb Hl; [done|]. cbn [words8].
  assert (Hb' : Forall is_byte (drop 4 buf)) by (by apply Forall_drop).
  pose proof (word_bound buf Hb). pose proof (word_bound (drop 4 buf) Hb').
  rewrite (DO_CRC4_eq 4), (DO_CRC4_eq 0) by (lia || apply lxor_bound; lia). simpl Nat.add.
  set (crc2 := Z.lxor (Nat.iter 8 B _) (Nat.iter 4 B _)).
  assert (E : fold_left feed (take 8 buf) crc = crc2).
  { assert (Hb8 : Forall is_byte (take 8 buf)) by (by apply Forall_take).
    rewrite (feed_take 4); [|lia|rewrite length_take; lia|done].
    rewrite take_take. replace (drop 4 (take 8 buf)) with (take 4 (drop 4 buf)) by (by rewrite skipn_firstn_comm).
    rewrite feed_4, (linear (f := Nat.iter 4 B) (Nat.iter 4 B _)) by (done || rewrite length_drop; lia).
    done. }
  specialize (IH crc2 (drop 8 buf)). destruct (words8 _ _ _ _) as [crc' rest].
  rewrite <- (take_drop 8 buf) at 1. rewrite fold_left_app, E.
  apply IH; [|by apply Forall_drop|rewrite length_drop; lia].
  rewrite <- E. apply feed_all_range; [done|by apply Forall_take].
Qed.

Lemma align_loop_eq buf : (0 < rows)%nat → ∀ crc addr, 0 ≤ crc < 2 ^ 32 → Forall is_byte buf →
  let '(crc', rest) := align_loop tab crc addr buf in
  0 ≤ crc' < 2 ^ 32 ∧ Forall is_byte rest ∧ fold_left feed buf crc = fold_left feed rest crc'.
Proof.
  intros Hr. induction buf as [|x buf IH]; intros crc addr Hc Hb; [done|]. cbn [align_loop].
  destruct (Z.land addr 3 =? 0); [done|].
  apply Forall_cons in Hb as [Hx Hb]. rewrite DO_CRC_eq by done.
  apply (IH (feed crc x)); [by apply feed_range|done].
Qed.

Lemma DO_CRC_all rest : (0 < rows)%nat → ∀ crc, 0 ≤ crc < 2 ^ 32 → Forall is_byte rest →
  fold_left (DO_CRC tab) rest crc = fold_left feed rest crc.
Proof.
  intros Hr. induction rest as [|x rest IH]; intros crc Hc Hb; [done|].
  apply Forall_cons in Hb as [Hx Hb]. simpl. rewrite DO_CRC_eq by done.
  apply IH; [by apply feed_range|done].
Qed.

Lemma crc32_body_eq bits crc addr buf :
  (bits = 32 ∧ rows = 4%nat ∨ bits = 64 ∧ rows = 8%nat) → 0 ≤ crc < 2 ^ 32 → Forall is_byte buf →
  crc32_body tab bits crc addr buf = fold_left feed buf crc.
Proof.
  intros Hbits Hc Hb. assert (Hr : (0 < rows)%nat) by (destruct Hbits as [[_ ?]|[_ ?]]; lia).
  unfold crc32_body. pose proof (align_loop_eq buf Hr crc addr Hc Hb) as HA.
  destruct (align_loop tab crc addr buf) as [crc1 buf1]. destruct HA as (Hc1 & Hb1 & ->).
  assert (HW : let '(crc', rest) := if bits =? 32 then words4 tab (length buf1 / 4) crc1 buf1
                                    else words8 tab (length buf1 / 8) crc1 buf1 in
    0 ≤ crc' < 2 ^ 32 ∧ Forall is_byte rest ∧ fold_left feed buf1 crc1 = fold_left feed rest crc').
  { destruct Hbits as [[-> ?]|[-> ?]]; simpl Z.eqb; cbv iota.
    - apply words4_eq; [lia|done|done|]. apply Nat.Div0.mul_div_le.
    - apply words8_eq; [lia|done|done|]. apply Nat.Div0.mul_div_le. }
  destruct (if bits =? 32 then _ else _) as [crc2 rest]. destruct HW as (Hc2 & Hb2 & ->).
  by apply DO_CRC_all.
Qed.
End Sliced.

(** ** Every width computes the division *)

(** Checks the entry [i] of every row against a function: each is one application away
    from the one of the row before. *)
Fixpoint column_ok (B : Z → Z) (tab : list (list Z)) (i prev : Z) : bool :=
  match tab with
  | [] => true
  | r :: tab => let c := B prev in (tab_at r i =? c) && column_ok B tab i c
  end.
Definition rows_ok (tab : list (list Z)) (B : Z → Z) : bool :=
  forallb (fun i => column_ok B tab (Z.of_nat i) (Z.of_nat i)) (seq 0 256).
Lemma column_ok_at B tab i prev : column_ok B tab i prev = true →
  ∀ j, (j < length tab)%nat → tab_at (row tab j) i = Nat.iter (S j) B prev.
Proof.
  revert prev. induction tab as [|r tab IH]; intros prev Hc j Hj; [simpl in Hj; lia|].
  cbn [column_ok] in Hc. apply andb_true_iff in Hc as [E%Z.eqb_eq Hc].
  destruct j as [|j]; [done|]. rewrite Nat.iter_succ_r. apply (IH (B prev) Hc j). simpl in Hj. lia.
Qed.
Lemma rows_ok_at tab B : rows_ok tab B = true →
  ∀ j i, (j < length tab)%nat → 0 ≤ i < 256 → tab_at (row tab j) i = Nat.iter (S j) B i.
Proof.
  unfold rows_ok. intros HP j i Hj Hi. apply column_ok_at; [|done].
  revert i Hi. by apply (forall_below 256 (fun i => column_ok B tab i i)).
Qed.

(** The four rows of the tables of 32 bits are the first ones of those of 64. *)
Lemma next_rows_at n next r j : (j < n)%nat → row (next_rows n next r) j = Nat.iter j (next_row next) r.
Proof.
  revert r j. induction n as [|n IH]; intros r j Hj; [lia|]. destruct j as [|j]; [done|].
  rewrite Nat.iter_succ_r. apply (IH (next_row next r)). lia.
Qed.
Lemma rows_le_prefix j : (j < 4)%nat → row (crc32ctable_le 32) j = row (crc32ctable_le 64) j.
Proof.
  intros Hj. unfold crc32ctable_le, crc32cinit_le.
  change (TABLE_SIZE 32) with 256. change (TABLE_SIZE 64) with 256.
  change (TABLE_ROWS 32) with 4%nat. change (TABLE_ROWS 64) with 8%nat. cbv zeta. by rewrite !next_rows_at by lia.
Qed.
Lemma row_map_swab tab j : row (map (map swab32) tab) j = map swab32 (row tab j).
Proof. unfold row. change (map (map swab32) tab) with (map swab32 <$> tab). rewrite list_lookup_fmap. by destruct (tab !! j). Qed.
Lemma rows_be_prefix j : (j < 4)%nat → row (crc32table_be 32) j = row (crc32table_be 64) j.
Proof.
  intros Hj. unfold crc32table_be. change (8 <? 32) with true. change (8 <? 64) with true. cbv iota.
  rewrite !row_map_swab. f_equal. unfold crc32init_be.
  change (TABLE_SIZE 32) with 256. change (TABLE_SIZE 64) with 256.
  change (TABLE_ROWS 32) with 4%nat. change (TABLE_ROWS 64) with 8%nat. cbv zeta. by rewrite !next_rows_at by lia.
Qed.

(** The same for the first [n] entries of one row. *)
Definition row_ok (t : list Z) (n : Z) (f : Z → Z) : bool :=
  forallb (fun i => tab_at t (Z.of_nat i) =? f (Z.of_nat i)) (seq 0 (Z.to_nat n)).
Lemma row_ok_at t n f : row_ok t n f = true → ∀ i, 0 ≤ i < n → tab_at t i = f i.
Proof.
  intros Hr i Hi. apply Z.eqb_eq. revert i Hi. by apply (forall_below n (fun i => tab_at t i =? f i)).
Qed.

Abbreviation byte_le := (crc_8bits_le CRC32C_POLY_LE).
Abbreviation byte_be := (crc_8bits_be CRCPOLY_BE).
Lemma crc_8bits_le_eq polynomial c : crc_8bits_le polynomial c = Nat.iter 8 (crc_bit_le polynomial) c.
Proof. reflexivity. Qed.
Lemma crc_8bits_be_eq polynomial c : crc_8bits_be polynomial c = Nat.iter 8 (crc_bit_be polynomial) c.
Proof. reflexivity. Qed.
Lemma crc_byte_le_eq polynomial crc x :
  crc_byte_le polynomial crc x = crc_8bits_le polynomial (Z.lxor crc x).
Proof. reflexivity. Qed.
Lemma crc_byte_be_eq polynomial crc x :
  crc_byte_be polynomial crc x = crc_8bits_be polynomial (Z.lxor crc (Z.shiftl x 24)).
Proof. reflexivity. Qed.
(** The same between two swaps, the state in which crc32_body runs. *)
Definition byte_be_swabbed (a : Z) : Z := swab32 (byte_be (swab32 a)).

#[export] Instance linear_8bits_le polynomial : Linear (crc_8bits_le polynomial).
Proof. unfold crc_8bits_le. apply linear_iter, _. Qed.
#[export] Instance linear_8bits_be polynomial : Linear (crc_8bits_be polynomial).
Proof. unfold crc_8bits_be. apply linear_iter, _. Qed.

(** The four bytes of [swab32] do not overlap. *)
Lemma lor_lxor_masked a b m n : Z.land m n = 0 → Z.lor (Z.land a m) (Z.land b n) = Z.lxor (Z.land a m) (Z.land b n).
Proof.
  intros E. symmetry. apply Z.lxor_lor. apply Z.bits_inj'. intros i Hi.
  apply (f_equal (fun z => Z.testbit z i)) in E. rewrite Z.land_spec, Z.bits_0 in E.
  rewrite !Z.land_spec, Z.bits_0. destruct (Z.testbit m i), (Z.testbit n i); try done;
  rewrite ?andb_false_r; done.
Qed.
Lemma lxor_masked a b m n : Z.land m n = 0 →
  Z.lxor (Z.land a m) (Z.land b n) = Z.land (Z.lxor (Z.land a m) (Z.land b n)) (Z.lor m n).
Proof.
  intros E. apply Z.bits_inj'. intros i Hi.
  rewrite !Z.land_spec, !Z.lxor_spec, Z.lor_spec, !Z.land_spec.
  destruct (Z.testbit a i), (Z.testbit b i), (Z.testbit m i), (Z.testbit n i); done.
Qed.
Lemma swab32_lxor x :
  swab32 x = Z.lxor (Z.lxor (Z.land (Z.shiftl x 24) 0xff000000) (Z.land (Z.shiftl x 8) 0xff0000))
                    (Z.lxor (Z.land (Z.shiftr x 8) 0xff00) (Z.land (Z.shiftr x 24) 0xff)).
Proof.
  unfold swab32. rewrite !Z.shiftl_land, !Z.shiftr_land.
  change (Z.shiftl 0xff 24) with 0xff000000. change (Z.shiftl 0xff00 8) with 0xff0000.
  change (Z.shiftr 0xff0000 8) with 0xff00. change (Z.shiftr 0xff000000 24) with 0xff.
  rewrite (lor_lxor_masked _ _ 0xff000000), (lor_lxor_masked _ _ 0xff00) by done.
  rewrite (lxor_masked _ _ 0xff000000), (lxor_masked _ _ 0xff00) by done.
  by apply lor_lxor_masked.
Qed.
#[export] Instance linear_swab32 : Linear swab32.
Proof.
  assert (L : ∀ k m, Linear (fun x => Z.land (Z.shiftl x k) m)).
  { intros k m a b. by rewrite Z.shiftl_lxor, land_lxor_distr. }
  assert (R : ∀ k m, Linear (fun x => Z.land (Z.shiftr x k) m)).
  { intros k m a b. by rewrite Z.shiftr_lxor, land_lxor_distr. }
  intros a b. rewrite !swab32_lxor.
  exact (linear (f := fun x =>
    Z.lxor (Z.lxor (Z.land (Z.shiftl x 24) 0xff000000) (Z.land (Z.shiftl x 8) 0xff0000))
           (Z.lxor (Z.land (Z.shiftr x 8) 0xff00) (Z.land (Z.shiftr x 24) 0xff))) a b).
Qed.
#[export] Instance linear_byte_be_swabbed : Linear byte_be_swabbed.
Proof. intros a b. unfold byte_be_swabbed. by rewrite !(linear (f:=swab32)), (linear (f:=byte_be)), (linear (f:=swab32)). Qed.

Lemma swab32_involutive a : 0 ≤ a < 2 ^ 32 → swab32 (swab32 a) = a.
Proof.
  pose proof (linear_compose swab32 swab32).
  apply (linear_ext 32 (fun a => swab32 (swab32 a)) (fun a => a)). by vm_compute.
Qed.
Lemma swab32_range a : 0 ≤ a < 2 ^ 32 → 0 ≤ swab32 a < 2 ^ 32.
Proof. apply (linear_range 32 32 swab32); [lia|by vm_compute]. Qed.
Lemma byte_be_range a : 0 ≤ a < 2 ^ 32 → 0 ≤ byte_be a < 2 ^ 32.
Proof. apply (linear_range 32 32 byte_be); [lia|by vm_compute]. Qed.
Lemma byte_le_range a : 0 ≤ a < 2 ^ 32 → 0 ≤ byte_le a < 2 ^ 32.
Proof. apply (linear_range 32 32 byte_le); [lia|by vm_compute]. Qed.
Lemma byte_swabbed_range a : 0 ≤ a < 2 ^ 32 → 0 ≤ byte_be_swabbed a < 2 ^ 32.
Proof. apply (linear_range 32 32 byte_be_swabbed); [lia|by vm_compute]. Qed.

(** A step through a table of the top bits. *)
Lemma table_step_be f `{!Linear f} (n : nat) t c :
  (n < 32)%nat → 0 ≤ c < 2 ^ 32 →
  (∀ a, 0 ≤ a < 2 ^ Z.of_nat (32 - n) → f a = Z.shiftl a (Z.of_nat n)) →
  (∀ i, 0 ≤ i < 2 ^ Z.of_nat n → tab_at t i = f (Z.shiftl i (Z.of_nat (32 - n)))) →
  Z.lxor (u32 (Z.shiftl c (Z.of_nat n))) (tab_at t (Z.shiftr c (Z.of_nat (32 - n)))) = f c.
Proof.
  intros Hn Hc Hlow Ht. set (k := Z.of_nat (32 - n)) in *.
  assert (Hk : Z.of_nat n = 32 - k) by lia.
  pose proof (Z.mod_pos_bound c (2 ^ k) ltac:(lia)) as Hm.
  assert (E : c = Z.lxor (Z.shiftl (Z.shiftr c k) k) (c mod 2 ^ k)).
  { apply Z.bits_inj'. intros i Hi. rewrite Z.lxor_spec, Z.shiftl_spec by done.
    destruct (decide (i < k)).
    - rewrite Z.mod_pow2_bits_low, (Z.testbit_neg_r _ (i - k)) by lia. by rewrite xorb_false_l.
    - rewrite Z.mod_pow2_bits_high, Z.shiftr_spec, xorb_false_r by lia. by replace (i - k + k) with i by lia. }
  rewrite E at 3. rewrite (linear (f:=f)), Z.lxor_comm, (Hlow (c mod 2 ^ k)) by done. f_equal.
  - apply Ht. rewrite Z.shiftr_div_pow2 by lia. split; [apply Z.div_pos; lia|].
    apply Z.div_lt_upper_bound; [lia|]. rewrite <- Z.pow_add_r by lia.
    replace (k + Z.of_nat n) with 32 by lia. lia.
  - unfold u32. rewrite !Z.shiftl_mul_pow2 by lia.
    replace (2 ^ 32) with (2 ^ k * 2 ^ Z.of_nat n) by (rewrite <- Z.pow_add_r by lia; f_equal; lia).
    by rewrite Z.mul_mod_distr_r by lia.
Qed.

Definition crc_widths : list Z := [1; 2; 4; 8; 32; 64].

Lemma fold_left_ext (P : Z → Prop) f g (p : bytes) :
  (∀ c x, P c → is_byte x → f c x = g c x ∧ P (g c x)) → Forall is_byte p →
  ∀ c, P c → fold_left f p c = fold_left g p c.
Proof.
  intros Hfg Hp. induction Hp as [|x p Hx Hp IH]; intros c Hc; [done|]. simpl.
  destruct (Hfg c x Hc Hx) as [-> ?]. by apply IH.
Qed.

Definition word (c : Z) : Prop := 0 ≤ c < 2 ^ 32.
#[export] Instance word_dec c : Decision (word c).
Proof. unfold word. apply _. Defined.
Lemma word_byte c x : word c → is_byte x → word (Z.lxor c x).
Proof. unfold word, is_byte. intros. apply lxor_bound; lia. Qed.
Lemma word_top c x : word c → is_byte x → word (Z.lxor c (Z.shiftl x 24)).
Proof. unfold word, is_byte. intros. rewrite Z.shiftl_mul_pow2 by lia. apply lxor_bound; lia. Qed.

(** Several steps of less than a byte: [k] steps of [n] bits are eight steps of one. *)
Lemma small_steps (P : Z → Prop) (step bit : Z → Z) (n k : nat) c :
  (n * k = 8)%nat → P c → (∀ a, P a → step a = Nat.iter n bit a ∧ P (step a)) →
  Nat.iter k step c = Nat.iter 8 bit c.
Proof.
  intros <- Hc Hs.
  assert (E : Nat.iter k step c = Nat.iter (n * k) bit c ∧ P (Nat.iter k step c)); [|apply E].
  clear -Hc Hs. induction k as [|k [IH1 IH2]]; [by rewrite Nat.mul_0_r|].
  simpl Nat.iter. destruct (Hs _ IH2) as [E ?]. split; [|done].
  rewrite E, IH1, <- Nat.iter_add. f_equal. lia.
Qed.

(** The narrow widths, one by one. *)
Definition narrow (n : nat) : Prop := n = 2%nat ∨ n = 4%nat ∨ n = 8%nat.
Ltac each_narrow H := destruct H as [->|[->| ->]]; by vm_compute.

(** What is checked of the narrow tables and of the bit steps, by evaluation. *)
Lemma le_small (n : nat) c : narrow n → word c →
  let bits := Z.of_nat n in
  Z.lxor (Z.shiftr c bits) (tab_at (row (crc32ctable_le bits) 0) (Z.land c (2 ^ bits - 1))) =
    Nat.iter n (crc_bit_le CRC32C_POLY_LE) c ∧ word (Nat.iter n (crc_bit_le CRC32C_POLY_LE) c).
Proof.
  intros Hn Hc. cbv zeta. split.
  - rewrite Z.lxor_comm. apply table_step; [apply _|unfold narrow in Hn; lia|done|..].
    + intros a Ha.
      pose proof (linear_compose (Nat.iter n (crc_bit_le CRC32C_POLY_LE)) (fun a => Z.shiftl a (Z.of_nat n))).
      apply (linear_ext (32 - n) (fun a => Nat.iter n (crc_bit_le CRC32C_POLY_LE) (Z.shiftl a (Z.of_nat n)))
               (fun a => a)).
      * each_narrow Hn.
      * replace (Z.of_nat (32 - n)) with (32 - Z.of_nat n) by (unfold narrow in Hn; lia). done.
    + apply row_ok_at. each_narrow Hn.
  - revert c Hc. apply (linear_range 32 32 (Nat.iter n (crc_bit_le CRC32C_POLY_LE))); [lia|].
    each_narrow Hn.
Qed.

(** A step of [n] bits from the top. *)
Lemma be_small (n : nat) c : narrow n → word c →
  let bits := Z.of_nat n in
  Z.lxor (u32 (Z.shiftl c bits)) (tab_at (row (crc32table_be bits) 0) (Z.shiftr c (32 - bits))) =
    Nat.iter n (crc_bit_be CRCPOLY_BE) c ∧ word (Nat.iter n (crc_bit_be CRCPOLY_BE) c).
Proof.
  intros Hn Hc. cbv zeta. assert (n <= 8)%nat by (unfold narrow in Hn; lia). split.
  - replace (32 - Z.of_nat n) with (Z.of_nat (32 - n)) by lia.
    apply table_step_be; [apply _|lia|done|..].
    + intros a Ha. apply (linear_ext (32 - n) (Nat.iter n (crc_bit_be CRCPOLY_BE))
        (fun a => Z.shiftl a (Z.of_nat n))); [each_narrow Hn|done].
    + apply row_ok_at. each_narrow Hn.
  - revert c Hc. apply (linear_range 32 32 (Nat.iter n (crc_bit_be CRCPOLY_BE))); [lia|each_narrow Hn].
Qed.

(** The wide tables. *)
Lemma rows_le_ok : rows_ok (crc32ctable_le 64) byte_le = true.
Proof. vm_compute. reflexivity. Qed.
Lemma rows_be_ok : rows_ok (crc32table_be 64) byte_be_swabbed = true.
Proof. vm_compute. reflexivity. Qed.
Lemma body_le bits addr crc p : bits = 32 ∨ bits = 64 → word crc → Forall is_byte p →
  crc32_body (crc32ctable_le bits) bits crc addr p = fold_left (crc_byte_le CRC32C_POLY_LE) p crc.
Proof.
  intros Hbits Hc Hp.
  apply (crc32_body_eq byte_le) with (rows := if bits =? 32 then 4%nat else 8%nat);
    [..|exact Hc|exact Hp].
  - intros a Ha. pose proof (linear_compose byte_le (fun a => Z.shiftl a 8)).
    apply (linear_ext 24 (fun a => byte_le (Z.shiftl a 8)) (fun a => a)); [by vm_compute|done].
  - apply byte_le_range.
  - apply crc_byte_le_eq.
  - intros j i Hj Hi. destruct Hbits as [->| ->]; simpl in Hj; [rewrite rows_le_prefix by done|];
      by apply (rows_ok_at _ _ rows_le_ok); [simpl; lia|].
  - destruct Hbits as [->| ->]; tauto.
Qed.

Lemma feed_swabbed crc x : word crc → is_byte x →
  byte_be_swabbed (Z.lxor (swab32 crc) x) = swab32 (crc_byte_be CRCPOLY_BE crc x).
Proof.
  intros Hc Hx. rewrite crc_byte_be_eq. unfold byte_be_swabbed.
  assert (E : swab32 (Z.lxor (swab32 crc) x) = Z.lxor crc (Z.shiftl x 24)); [|by rewrite E].
  assert (Es : ∀ x, 0 ≤ x < 256 → swab32 x = Z.shiftl x 24).
  { intros y Hy. apply Z.eqb_eq. revert y Hy.
    apply (forall_below 256 (fun x => swab32 x =? Z.shiftl x 24)). by vm_compute. }
  by rewrite (linear (f := swab32)), swab32_involutive, Es.
Qed.

Lemma body_swabbed bits addr crc p : bits = 32 ∨ bits = 64 → word crc → Forall is_byte p →
  crc32_body (crc32table_be bits) bits crc addr p =
  fold_left (fun crc x => byte_be_swabbed (Z.lxor crc x)) p crc.
Proof.
  intros Hbits Hc Hp.
  apply (crc32_body_eq byte_be_swabbed) with (rows := if bits =? 32 then 4%nat else 8%nat);
    [..|exact Hc|exact Hp].
  - intros a Ha. pose proof (linear_compose byte_be_swabbed (fun a => Z.shiftl a 8)).
    apply (linear_ext 24 (fun a => byte_be_swabbed (Z.shiftl a 8)) (fun a => a)); [by vm_compute|done].
  - apply byte_swabbed_range.
  - done.
  - intros j i Hj Hi. destruct Hbits as [->| ->]; simpl in Hj; [rewrite rows_be_prefix by done|];
      by apply (rows_ok_at _ _ rows_be_ok); [simpl; lia|].
  - destruct Hbits as [->| ->]; tauto.
Qed.
Lemma fold_left_cons {A C} (f : A → C → A) x p a : fold_left f (x :: p) a = fold_left f p (f a x).
Proof. reflexivity. Qed.
Lemma fold_swabbed p : Forall is_byte p → ∀ crc, word crc →
  swab32 (fold_left (fun crc x => byte_be_swabbed (Z.lxor crc x)) p (swab32 crc)) =
  fold_left (crc_byte_be CRCPOLY_BE) p crc.
Proof.
  induction 1 as [|x p Hx Hp IH]; intros crc Hc; [by apply swab32_involutive|].
  rewrite !fold_left_cons, feed_swabbed by assumption. apply IH. rewrite crc_byte_be_eq.
  apply byte_be_range, word_top; assumption.
Qed.
Lemma body_be bits addr crc p : bits = 32 ∨ bits = 64 → word crc → Forall is_byte p →
  swab32 (crc32_body (crc32table_be bits) bits (swab32 crc) addr p) =
  fold_left (crc_byte_be CRCPOLY_BE) p crc.
Proof.
  intros Hbits Hc Hp. rewrite body_swabbed; [by apply fold_swabbed|done|by apply swab32_range|done].
Qed.

Lemma bit_steps_le (n k : nat) p crc : narrow n → (n * k = 8)%nat → word crc → Forall is_byte p →
  fold_left (fun crc x => Nat.iter k (fun crc =>
      Z.lxor (Z.shiftr crc (Z.of_nat n))
             (tab_at (row (crc32ctable_le (Z.of_nat n)) 0) (Z.land crc (2 ^ Z.of_nat n - 1)))) (Z.lxor crc x)) p crc =
  fold_left (crc_byte_le CRC32C_POLY_LE) p crc.
Proof.
  intros Hn Hk Hc Hp. apply (fold_left_ext word); [|done|done]. intros c x Hw Hx. split.
  - rewrite crc_byte_le_eq. rewrite crc_8bits_le_eq. apply (small_steps word _ _ n); [done|by apply word_byte|].
    intros a Ha. destruct (le_small n a Hn Ha) as [E ?]. split; [exact E|by rewrite E].
  - rewrite crc_byte_le_eq. by apply byte_le_range, word_byte.
Qed.
Lemma bit_steps_be (n k : nat) p crc : narrow n → (n * k = 8)%nat → word crc → Forall is_byte p →
  fold_left (fun crc x => Nat.iter k (fun crc =>
      Z.lxor (u32 (Z.shiftl crc (Z.of_nat n)))
             (tab_at (row (crc32table_be (Z.of_nat n)) 0) (Z.shiftr crc (32 - Z.of_nat n))))
      (Z.lxor crc (Z.shiftl x 24))) p crc =
  fold_left (crc_byte_be CRCPOLY_BE) p crc.
Proof.
  intros Hn Hk Hc Hp. apply (fold_left_ext word); [|done|done]. intros c x Hw Hx. split.
  - rewrite crc_byte_be_eq. rewrite crc_8bits_be_eq. apply (small_steps word _ _ n); [done|by apply word_top|].
    intros a Ha. destruct (be_small n a Hn Ha) as [E ?]. split; [exact E|by rewrite E].
  - rewrite crc_byte_be_eq. by apply byte_be_range, word_top.
Qed.

(** The polynomial of crc16.c, 0x8005, bits reversed. *)
Definition CRC16_POLY_LE : Z := 0xA001.

Lemma crc16_bits p : Forall is_byte p → ∀ crc, 0 ≤ crc < 2 ^ 16 →
  ext2fs_crc16 crc p = fold_left (crc_byte_le CRC16_POLY_LE) p crc.
Proof.
  induction 1 as [|x p Hx Hp IH]; intros crc Hc; [done|].
  rewrite fold_left_cons. cbn [ext2fs_crc16].
  assert (Hq : 0 ≤ Z.lxor crc x < 2 ^ 16) by (unfold is_byte in Hx; apply lxor_bound; lia).
  assert (Hr : 0 ≤ crc_8bits_le CRC16_POLY_LE (Z.lxor crc x) < 2 ^ 16).
  { apply (linear_range 16 16 (crc_8bits_le CRC16_POLY_LE)); [lia|by vm_compute|done]. }
  assert (E : Z.lxor (Z.land (Z.shiftr crc 8) 0xff) (tab_at crc16_table (Z.land (Z.lxor crc x) 0xff)) =
              crc_8bits_le CRC16_POLY_LE (Z.lxor crc x)).
  { rewrite <- (table_step (crc_8bits_le CRC16_POLY_LE) 8 crc16_table (Z.lxor crc x)); [|lia|lia|..].
    - rewrite Z.lxor_comm. change (2 ^ 8 - 1) with 0xff. f_equal.
      rewrite Z.shiftr_lxor, (Z.shiftr_div_pow2 x), (Z.div_small x), Z.lxor_0_r by (unfold is_byte in Hx; lia).
      change 0xff with (2 ^ 8 - 1). rewrite land_ones_mod by lia. apply Z.mod_small.
      rewrite Z.shiftr_div_pow2 by lia. split; [apply Z.div_pos; lia|apply Z.div_lt_upper_bound; lia].
    - intros a Ha.
      pose proof (linear_compose (crc_8bits_le CRC16_POLY_LE) (fun a => Z.shiftl a 8)).
      apply (linear_ext 24 (fun a => crc_8bits_le CRC16_POLY_LE (Z.shiftl a 8)) (fun a => a)); [by vm_compute|done].
    - apply row_ok_at. by vm_compute. }
  rewrite E, crc_byte_le_eq. change 0xffff with (2 ^ 16 - 1).
  rewrite land_ones_mod, Z.mod_small by (lia || done). by apply IH.
Qed.

Lemma crc32c_bits addr crc p : word crc → Forall is_byte p →
  ext2fs_crc32c_le addr crc p = fold_left (crc_byte_le CRC32C_POLY_LE) p crc.
Proof. intros. apply (body_le 64); tauto. Qed.

Lemma crc32c_range addr crc p : word crc → Forall is_byte p → word (ext2fs_crc32c_le addr crc p).
Proof.
  intros Hc Hp. rewrite crc32c_bits by done. revert crc Hc.
  induction Hp as [|x p Hx Hp IH]; intros crc Hc; [done|]. rewrite fold_left_cons. apply IH.
  rewrite crc_byte_le_eq. by apply byte_le_range, word_byte.
Qed.

(** In pieces, at any address. *)
Lemma crc32c_app addr addr1 addr2 crc p q : word crc → Forall is_byte p → Forall is_byte q →
  ext2fs_crc32c_le addr crc (p ++ q) = ext2fs_crc32c_le addr2 (ext2fs_crc32c_le addr1 crc p) q.
Proof.
  intros Hc Hp Hq. pose proof (crc32c_range addr1 crc p Hc Hp) as Hr.
  rewrite (crc32c_bits addr2), (crc32c_bits addr1) by done.
  rewrite crc32c_bits, fold_left_app by (done || by apply Forall_app). done.
Qed.

(** ** A byte can be taken back *)
Definition crc_unbit_le (polynomial crc : Z) : Z :=
  let top := fun v => if Z.testbit crc 31 then v else 0 in
  Z.lxor (Z.shiftl (Z.lxor crc (top polynomial)) 1) (top 1).
#[export] Instance linear_unbit polynomial : Linear (crc_unbit_le polynomial).
Proof.
  pose proof (linear_compose (fun a => Z.shiftl a 1)
    (fun c => Z.lxor c (if Z.testbit c 31 then polynomial else 0))).
  exact (linear_lxor (fun c => Z.shiftl (Z.lxor c (if Z.testbit c 31 then polynomial else 0)) 1)
           (fun c => if Z.testbit c 31 then 1 else 0)).
Qed.
Lemma byte_le_inj a b : word a → word b → byte_le a = byte_le b → a = b.
Proof.
  set (back := Nat.iter 8 (crc_unbit_le CRC32C_POLY_LE)).
  assert (L : Linear (fun c => back (byte_le c))) by (apply linear_compose; apply _).
  assert (Hb : ∀ c, word c → back (byte_le c) = c).
  { apply (linear_ext 32 (fun c => back (byte_le c)) (fun c => c)). by vm_compute. }
  intros Ha Hb' E. by rewrite <- (Hb a Ha), <- (Hb b Hb'), E.
Qed.
Lemma iter_inj n f a b : (∀ c, word c → word (f c)) → (∀ a b, word a → word b → f a = f b → a = b) →
  word a → word b → Nat.iter n f a = Nat.iter n f b → a = b.
Proof.
  intros Hw Hf. revert a b. induction n as [|n IH]; intros a b Ha Hb E; [done|].
  rewrite !Nat.iter_succ_r in E. apply Hf; [done..|]. apply IH; [by apply Hw..|done].
Qed.
Lemma byte_inj x a b : is_byte x → word a → word b →
  crc_byte_le CRC32C_POLY_LE a x = crc_byte_le CRC32C_POLY_LE b x → a = b.
Proof.
  intros Hx Ha Hb E. rewrite !crc_byte_le_eq in E.
  apply byte_le_inj in E; [|by apply word_byte..].
  rewrite <- (Z.lxor_0_r a), <- (Z.lxor_0_r b), <- (Z.lxor_nilpotent x), <- !Z.lxor_assoc. by rewrite E.
Qed.
Lemma le_inj x y : Forall is_byte x → Forall is_byte y → length x = length y → le x = le y → x = y.
Proof. intros Hx Hy Hl E. rewrite <- (le_split_le x), <- (le_split_le y) by done. by rewrite Hl, E. Qed.

(** A word of one to four bytes decides the state after it. *)
Lemma word_inj x y c : word c → Forall is_byte x → Forall is_byte y → length x = length y →
  (length x <= 4)%nat → fold_left (crc_byte_le CRC32C_POLY_LE) x c = fold_left (crc_byte_le CRC32C_POLY_LE) y c →
  x = y.
Proof.
  intros Hc Hx Hy Hl H4 E.
  assert (Hs : ∀ a, 0 ≤ a < 2 ^ 24 → byte_le (Z.shiftl a 8) = a).
  { intros a Ha. pose proof (linear_compose byte_le (fun a => Z.shiftl a 8)).
    apply (linear_ext 24 (fun a => byte_le (Z.shiftl a 8)) (fun a => a)); [by vm_compute|done]. }
  pose proof (feed_word byte_le Hs _ (crc_byte_le_eq CRC32C_POLY_LE)) as Hf.
  rewrite !Hf, <- Hl in E by (done || lia).
  apply (iter_inj _ _ _ _ byte_le_range byte_le_inj) in E;
    [|unfold word; apply lxor_bound; [lia|exact Hc|apply le_bytes_bound; done || lia]..].
  apply le_inj; [done..|].
  rewrite <- (Z.lxor_0_l (le x)), <- (Z.lxor_0_l (le y)), <- (Z.lxor_nilpotent c), !Z.lxor_assoc.
  by rewrite E.
Qed.

Lemma tail_inj p : Forall is_byte p → ∀ a b, word a → word b →
  fold_left (crc_byte_le CRC32C_POLY_LE) p a = fold_left (crc_byte_le CRC32C_POLY_LE) p b → a = b.
Proof.
  induction 1 as [|x p Hx Hp IH]; intros a b Ha Hb; [done|]. rewrite !fold_left_cons. intros E.
  assert (Hw : ∀ c, word c → word (crc_byte_le CRC32C_POLY_LE c x)).
  { intros c Hc. rewrite crc_byte_le_eq. by apply byte_le_range, word_byte. }
  apply (byte_inj x); [done..|]. by apply IH; [apply Hw|apply Hw|].
Qed.

(** Two buffers that differ in a window of four bytes. *)
Lemma crc32c_window addr addr' crc pre x y post :
  word crc → Forall is_byte (pre ++ x ++ post) → Forall is_byte y → length x = length y →
  (length x <= 4)%nat → x ≠ y →
  ext2fs_crc32c_le addr crc (pre ++ x ++ post) ≠ ext2fs_crc32c_le addr' crc (pre ++ y ++ post).
Proof.
  intros Hc Hb Hy Hl H4 Hne E. apply Hne.
  apply Forall_app in Hb as [Hpre Hb]. apply Forall_app in Hb as [Hx Hpost].
  rewrite !crc32c_bits, !fold_left_app in E by (done || by rewrite !Forall_app).
  assert (Hf : ∀ p c, Forall is_byte p → word c → word (fold_left (crc_byte_le CRC32C_POLY_LE) p c)).
  { intros p c Hp Hc'. rewrite <- (crc32c_bits 0) by done. by apply crc32c_range. }
  apply tail_inj in E; [|done|by apply Hf, Hf|by apply Hf, Hf].
  by apply word_inj in E; [|apply Hf|..].
Qed.

(** * Properties *)


(** C15. Two buffers that differ in at most four consecutive bytes have different CRC-32C,
    wherever the bytes are and whatever the seed: no damage of up to 32 consecutive bits
    passes. *)
Theorem crc32c_detects addr addr' crc pre x y post :
  word crc → Forall is_byte (pre ++ x ++ post) → Forall is_byte y → length x = length y →
  (length x <= 4)%nat → x ≠ y →
  ext2fs_crc32c_le addr crc (pre ++ x ++ post) ≠ ext2fs_crc32c_le addr' crc (pre ++ y ++ post).
Proof. apply crc32c_window. Qed.


Lemma crc32c_detects_witness :
  ext2fs_crc32c_le 0 (2 ^ 32 - 1) ([10; 20] ++ [1; 2; 3] ++ [30]) ≠
  ext2fs_crc32c_le 3 (2 ^ 32 - 1) ([10; 20] ++ [1; 9; 9] ++ [30]).
Proof.
  apply (crc32c_detects 0 3 (2 ^ 32 - 1) [10; 20] [1; 2; 3] [1; 9; 9] [30]);
    apply (bool_decide_eq_true_1 _); vm_compute; reflexivity.
Defined.
