(* ===== verification/Super.v ===== *)
(** * The superblock: e2fsprogs/lib/ext2fs/blknum.c, closefs.c and openfs.c

    Structures of the disk as their bytes, the fields of the superblock that are used
    and its features, the open file system ([ext2_filsys]), the counters in two halves,
    the arithmetic of block groups, and where the copies of the superblock and the blocks
    of group descriptors are.  The host is little-endian. *)
From S2P Require Export Prelude.
#[local] Open Scope Z_scope.

(** ** Fields of a structure *)
Definition fld (n off : nat) (b : bytes) : Z := le (take n (drop off b)).
Definition set_fld (n off : nat) (v : Z) (b : bytes) : bytes :=
  take off b ++ le_split n v ++ drop (off + n) b.

Lemma set_fld_length n off v b : (off + n <= length b)%nat → length (set_fld n off v b) = length b.
Proof. intros. unfold set_fld. rewrite !length_app, length_take, length_drop, le_split_length. lia. Qed.
Lemma set_fld_bytes n off v b : Forall is_byte b → Forall is_byte (set_fld n off v b).
Proof.
  intros. unfold set_fld. rewrite !Forall_app.
  split_and!; [by apply Forall_take|apply le_split_bytes|by apply Forall_drop].
Qed.
Lemma le_split_mod n v : le (le_split n v) = v mod 256 ^ Z.of_nat n.
Proof.
  revert v. induction n as [|n IH]; intros v; [by rewrite Z.mod_1_r|].
  cbn [le_split le]. rewrite IH, Nat2Z.inj_succ, Z.pow_succ_r by lia.
  rewrite Z.rem_mul_r by lia. done.
Qed.
Lemma fld_set n off v b : (off + n <= length b)%nat → fld n off (set_fld n off v b) = v mod 256 ^ Z.of_nat n.
Proof.
  intros. unfold fld, set_fld.
  rewrite drop_app_length' by (rewrite length_take; lia).
  rewrite take_app_length' by (by rewrite le_split_length). apply le_split_mod.
Qed.
(** Fields that do not overlap. *)
Lemma fld_set_other n off v b m off' :
  (off + n <= length b)%nat → (off' + m <= off ∨ off + n <= off')%nat →
  fld m off' (set_fld n off v b) = fld m off' b.
Proof.
  intros Hl [Ho|Ho]; unfold fld, set_fld; f_equal.
  - rewrite !take_drop_commute. f_equal.
    rewrite take_app_le, take_take by (rewrite length_take; lia). f_equal. lia.
  - f_equal. rewrite app_assoc, drop_app_ge; rewrite length_app, length_take, le_split_length; [|lia].
    rewrite drop_drop. f_equal. lia.
Qed.
Lemma fld_bound n off b : Forall is_byte b → 0 ≤ fld n off b < 256 ^ Z.of_nat n.
Proof.
  intros Hb. unfold fld. pose proof (le_bound (take n (drop off b))) as H.
  assert (Forall is_byte (take n (drop off b))) as Hf by (by apply Forall_take, Forall_drop).
  specialize (H Hf). rewrite length_take in H.
  assert (256 ^ Z.of_nat (n `min` length (drop off b)) ≤ 256 ^ Z.of_nat n) by (apply Z.pow_le_mono_r; lia).
  lia.
Qed.

(** ** struct ext2_super_block *)
Definition s_inodes_count : bytes → Z := fld 4 0x00.
Definition s_blocks_count : bytes → Z := fld 4 0x04.
Definition s_r_blocks_count : bytes → Z := fld 4 0x08.
Definition s_free_blocks_count : bytes → Z := fld 4 0x0c.
Definition s_first_data_block : bytes → Z := fld 4 0x14.
Definition s_log_block_size : bytes → Z := fld 4 0x18.
Definition s_log_cluster_size : bytes → Z := fld 4 0x1c.
Definition s_blocks_per_group : bytes → Z := fld 4 0x20.
Definition s_clusters_per_group : bytes → Z := fld 4 0x24.
Definition s_inodes_per_group : bytes → Z := fld 4 0x28.
Definition s_magic : bytes → Z := fld 2 0x38.
Definition s_creator_os : bytes → Z := fld 4 0x48.
Definition s_rev_level : bytes → Z := fld 4 0x4c.
Definition s_inode_size : bytes → Z := fld 2 0x58.
Definition s_feature_incompat : bytes → Z := fld 4 0x60.
Definition s_feature_ro_compat : bytes → Z := fld 4 0x64.
Definition s_feature_compat : bytes → Z := fld 4 0x5c.
Definition s_uuid (sb : bytes) : bytes := take 16 (drop 0x68 sb).
Definition s_reserved_gdt_blocks : bytes → Z := fld 2 0xce.
Definition s_desc_size : bytes → Z := fld 2 0xfe.
Definition s_first_meta_bg : bytes → Z := fld 4 0x104.
Definition s_blocks_count_hi : bytes → Z := fld 4 0x150.
Definition s_r_blocks_count_hi : bytes → Z := fld 4 0x154.
Definition s_free_blocks_hi : bytes → Z := fld 4 0x158.
Definition s_raid_stride : bytes → Z := fld 2 0x164.
Definition s_log_groups_per_flex : bytes → Z := fld 1 0x174.
Definition s_checksum_type : bytes → Z := fld 1 0x175.
(** [s_backup_bgs[0]] and [s_backup_bgs[1]] *)
Definition s_backup_bgs_0 : bytes → Z := fld 4 0x24c.
Definition s_backup_bgs_1 : bytes → Z := fld 4 0x250.
Definition s_checksum_seed : bytes → Z := fld 4 0x270.
Definition s_checksum : bytes → Z := fld 4 0x3fc.

Definition SUPERBLOCK_OFFSET : Z := 1024.
Definition SUPERBLOCK_SIZE : Z := 1024.
Definition EXT2_SUPER_MAGIC : Z := 0xef53.
Definition EXT2_GOOD_OLD_REV : Z := 0.
Definition EXT2_DYNAMIC_REV : Z := 1.
Definition EXT2_GOOD_OLD_INODE_SIZE : Z := 128.
Definition EXT2_MIN_DESC_SIZE : Z := 32.
Definition EXT2_MIN_DESC_SIZE_64BIT : Z := 64.
Definition EXT2_MAX_DESC_SIZE : Z := 1024.

(** Features, one bit each ([EXT4_FEATURE_COMPAT_FUNCS] and its two siblings). *)
Definition has_feature_sparse_super2 (sb : bytes) : bool := has (s_feature_compat sb) 0x200.
Definition has_feature_sparse_super (sb : bytes) : bool := has (s_feature_ro_compat sb) 0x1.
Definition has_feature_large_file (sb : bytes) : bool := has (s_feature_ro_compat sb) 0x2.
Definition has_feature_huge_file (sb : bytes) : bool := has (s_feature_ro_compat sb) 0x8.
Definition has_feature_gdt_csum (sb : bytes) : bool := has (s_feature_ro_compat sb) 0x10.
Definition has_feature_bigalloc (sb : bytes) : bool := has (s_feature_ro_compat sb) 0x200.
Definition has_feature_metadata_csum (sb : bytes) : bool := has (s_feature_ro_compat sb) 0x400.
Definition has_feature_journal_dev (sb : bytes) : bool := has (s_feature_incompat sb) 0x8.
Definition has_feature_meta_bg (sb : bytes) : bool := has (s_feature_incompat sb) 0x10.
Definition has_feature_64bit (sb : bytes) : bool := has (s_feature_incompat sb) 0x80.
Definition has_feature_mmp (sb : bytes) : bool := has (s_feature_incompat sb) 0x100.
Definition has_feature_ea_inode (sb : bytes) : bool := has (s_feature_incompat sb) 0x400.
Definition has_feature_csum_seed (sb : bytes) : bool := has (s_feature_incompat sb) 0x2000.
Definition has_feature_largedir (sb : bytes) : bool := has (s_feature_incompat sb) 0x4000.

(** Sizes (the macros of ext2_fs.h); [unsigned int] and [int] are 32 bits. *)
Definition EXT2_BLOCK_SIZE (sb : bytes) : Z := i32 (Z.shiftl 1024 (s_log_block_size sb)).
Definition EXT2_CLUSTER_SIZE (sb : bytes) : Z := i32 (Z.shiftl 1024 (s_log_cluster_size sb)).
Definition EXT2_INODE_SIZE (sb : bytes) : Z :=
  if s_rev_level sb =? EXT2_GOOD_OLD_REV then EXT2_GOOD_OLD_INODE_SIZE else s_inode_size sb.
Definition EXT2_DESC_SIZE (sb : bytes) : Z :=
  if has_feature_64bit sb then s_desc_size sb else EXT2_MIN_DESC_SIZE.
(** A division by the size of a descriptor, which may be 0. *)
Definition EXT2_DESC_PER_BLOCK (sb : bytes) : outcome Z :=
  if EXT2_DESC_SIZE sb =? 0 then Undef else Ret (EXT2_BLOCK_SIZE sb / EXT2_DESC_SIZE sb).
Definition EXT2_GROUPS_TO_BLOCKS (sb : bytes) (g : Z) : Z := u64 (s_blocks_per_group sb * g).

(** ** The open file system *)

(** One slot of the inode cache: the inode number, 0 when the slot is free, and the bytes
    of the inode. *)
Record ext2_inode_cache_ent : Type := MkEnt { ce_ino : Z; ce_inode : bytes }.
Record ext2_inode_cache : Type := MkCache {
  ic_buffer : bytes;
  ic_buffer_blk : Z;
  ic_cache_last : Z;
  ic_cache : list ext2_inode_cache_ent;
}.

(** [struct struct_ext2_filsys]; [f_group_desc] is [None] until the descriptors have been
    read, [f_image_header] unless the file system is an image of its metadata. *)
Record ext2_filsys : Type := MkFilsys {
  f_flags : Z;
  f_super : bytes;
  f_blocksize : Z;
  f_group_desc_count : Z;
  f_desc_blocks : Z;
  f_group_desc : option bytes;
  f_inode_blocks_per_group : Z;
  f_stride : Z;
  f_orig_super : option bytes;
  f_image_header : option bytes;
  f_now : Z;
  f_cluster_ratio_bits : Z;
  f_csum_seed : Z;
  f_icache : option ext2_inode_cache;
}.

Definition set_super (sb : bytes) (fs : ext2_filsys) : ext2_filsys :=
  MkFilsys (f_flags fs) sb (f_blocksize fs) (f_group_desc_count fs) (f_desc_blocks fs) (f_group_desc fs)
    (f_inode_blocks_per_group fs) (f_stride fs) (f_orig_super fs) (f_image_header fs) (f_now fs)
    (f_cluster_ratio_bits fs) (f_csum_seed fs) (f_icache fs).
Definition set_flags (fl : Z) (fs : ext2_filsys) : ext2_filsys :=
  MkFilsys fl (f_super fs) (f_blocksize fs) (f_group_desc_count fs) (f_desc_blocks fs) (f_group_desc fs)
    (f_inode_blocks_per_group fs) (f_stride fs) (f_orig_super fs) (f_image_header fs) (f_now fs)
    (f_cluster_ratio_bits fs) (f_csum_seed fs) (f_icache fs).
Definition set_group_desc (g : option bytes) (fs : ext2_filsys) : ext2_filsys :=
  MkFilsys (f_flags fs) (f_super fs) (f_blocksize fs) (f_group_desc_count fs) (f_desc_blocks fs) g
    (f_inode_blocks_per_group fs) (f_stride fs) (f_orig_super fs) (f_image_header fs) (f_now fs)
    (f_cluster_ratio_bits fs) (f_csum_seed fs) (f_icache fs).
Definition set_icache (c : option ext2_inode_cache) (fs : ext2_filsys) : ext2_filsys :=
  MkFilsys (f_flags fs) (f_super fs) (f_blocksize fs) (f_group_desc_count fs) (f_desc_blocks fs) (f_group_desc fs)
    (f_inode_blocks_per_group fs) (f_stride fs) (f_orig_super fs) (f_image_header fs) (f_now fs)
    (f_cluster_ratio_bits fs) (f_csum_seed fs) c.
Definition set_csum_seed (s : Z) (fs : ext2_filsys) : ext2_filsys :=
  MkFilsys (f_flags fs) (f_super fs) (f_blocksize fs) (f_group_desc_count fs) (f_desc_blocks fs) (f_group_desc fs)
    (f_inode_blocks_per_group fs) (f_stride fs) (f_orig_super fs) (f_image_header fs) (f_now fs)
    (f_cluster_ratio_bits fs) s (f_icache fs).

Definition EXT2_FLAG_RW : Z := 0x1.
Definition EXT2_FLAG_CHANGED : Z := 0x2.
Definition EXT2_FLAG_DIRTY : Z := 0x4.
Definition EXT2_FLAG_MASTER_SB_ONLY : Z := 0x200.
Definition EXT2_FLAG_FORCE : Z := 0x400.
Definition EXT2_FLAG_SUPER_ONLY : Z := 0x800.
Definition EXT2_FLAG_JOURNAL_DEV_OK : Z := 0x1000.
Definition EXT2_FLAG_IMAGE_FILE : Z := 0x2000.
Definition EXT2_FLAG_EXCLUSIVE : Z := 0x4000.
Definition EXT2_FLAG_SOFTSUPP_FEATURES : Z := 0x8000.
Definition EXT2_FLAG_NOFREE_ON_ERROR : Z := 0x10000.
Definition EXT2_FLAG_64BITS : Z := 0x20000.
Definition EXT2_FLAG_SKIP_MMP : Z := 0x100000.
Definition EXT2_FLAG_IGNORE_CSUM_ERRORS : Z := 0x200000.
Definition EXT2_FLAG_IGNORE_SB_ERRORS : Z := 0x800000.
Definition EXT2_FLAG_THREADS : Z := 0x4000000.
Definition EXT2_FLAG_SWAP_BYTES : Z := 0x40.

Definition EXT2FS_CLUSTER_RATIO (fs : ext2_filsys) : Z := Z.shiftl 1 (f_cluster_ratio_bits fs).
Definition ext2fs_has_group_desc_csum (fs : ext2_filsys) : bool :=
  has_feature_metadata_csum (f_super fs) || has_feature_gdt_csum (f_super fs).
(** [ext2fs_mark_super_dirty] *)
Definition mark_super_dirty (fs : ext2_filsys) : ext2_filsys :=
  set_flags (Z.lor (f_flags fs) (Z.lor EXT2_FLAG_DIRTY EXT2_FLAG_CHANGED)) fs.

(** ** blknum.c: the counters of the superblock *)

(** A counter in two halves, the high one under the 64bit feature. *)
Definition get_hilo (lo hi : nat) (sb : bytes) : Z :=
  Z.lor (fld 4 lo sb) (if has_feature_64bit sb then Z.shiftl (fld 4 hi sb) 32 else 0).
Definition set_hilo (lo hi : nat) (blk : Z) (sb : bytes) : bytes :=
  let sb := set_fld 4 lo blk sb in
  if has_feature_64bit sb then set_fld 4 hi (Z.shiftr blk 32) sb else sb.

Definition ext2fs_blocks_count : bytes → Z := get_hilo 0x04 0x150.
Definition ext2fs_blocks_count_set (sb : bytes) (blk : Z) : bytes := set_hilo 0x04 0x150 blk sb.
Definition ext2fs_blocks_count_add (sb : bytes) (blk : Z) : bytes :=
  ext2fs_blocks_count_set sb (u64 (ext2fs_blocks_count sb + blk)).
Definition ext2fs_r_blocks_count : bytes → Z := get_hilo 0x08 0x154.
Definition ext2fs_r_blocks_count_set (sb : bytes) (blk : Z) : bytes := set_hilo 0x08 0x154 blk sb.
Definition ext2fs_r_blocks_count_add (sb : bytes) (blk : Z) : bytes :=
  ext2fs_r_blocks_count_set sb (u64 (ext2fs_r_blocks_count sb + blk)).
Definition ext2fs_free_blocks_count : bytes → Z := get_hilo 0x0c 0x158.
Definition ext2fs_free_blocks_count_set (sb : bytes) (blk : Z) : bytes := set_hilo 0x0c 0x158 blk sb.
Definition ext2fs_free_blocks_count_add (sb : bytes) (blk : Z) : bytes :=
  ext2fs_free_blocks_count_set sb (u64 (ext2fs_free_blocks_count sb + blk)).

(** ** blknum.c: block groups *)
Definition ext2fs_group_of_blk2 (fs : ext2_filsys) (blk : Z) : outcome Z :=
  let bpg := s_blocks_per_group (f_super fs) in
  if bpg =? 0 then Undef else Ret (u32 (u64 (blk - s_first_data_block (f_super fs)) / bpg)).

Definition ext2fs_group_first_block2 (fs : ext2_filsys) (group : Z) : Z :=
  u64 (s_first_data_block (f_super fs) + EXT2_GROUPS_TO_BLOCKS (f_super fs) group).

Definition ext2fs_group_last_block2 (fs : ext2_filsys) (group : Z) : Z :=
  if group =? u32 (f_group_desc_count fs - 1)
  then u64 (ext2fs_blocks_count (f_super fs) - 1)
  else u64 (ext2fs_group_first_block2 fs group + u32 (s_blocks_per_group (f_super fs) - 1)).

Definition ext2fs_group_blocks_count (fs : ext2_filsys) (group : Z) : outcome Z :=
  let bpg := s_blocks_per_group (f_super fs) in
  if group =? u32 (f_group_desc_count fs - 1) then
    if bpg =? 0 then Undef else
    let num_blocks := i32 (u64 (ext2fs_blocks_count (f_super fs) - s_first_data_block (f_super fs)) mod bpg) in
    Ret (if num_blocks =? 0 then i32 bpg else num_blocks)
  else Ret (i32 bpg).

(** ** closefs.c: where the copies of the superblock are *)

(** [while (1)]: [fuel] bounds the divisions. *)
Fixpoint test_root_loop (fuel : nat) (a b : Z) : outcome bool :=
  match fuel with
  | O => Spin
  | S fuel => if a <? b then Ret false else if a =? b then Ret true
              else if negb (a mod b =? 0) then Ret false else test_root_loop fuel (a / b) b
  end.
Definition test_root (a b : Z) : outcome bool := test_root_loop 33 a b.

Definition ext2fs_bg_has_super (fs : ext2_filsys) (group : Z) : outcome bool :=
  let sb := f_super fs in
  if group =? 0 then Ret true
  else if has_feature_sparse_super2 sb then
    Ret ((group =? s_backup_bgs_0 sb) || (group =? s_backup_bgs_1 sb))
  else if (group <=? 1) || negb (has_feature_sparse_super sb) then Ret true
  else if negb (Z.odd group) then Ret false
  else
    let? t3 := test_root group 3 in if t3 then Ret true else
    let? t5 := test_root group 5 in if t5 then Ret true else
    test_root group 7.

(** The blocks of the superblock, of the old descriptors and of the descriptors of a
    meta group (0 when there is none), and how many blocks these take. *)
Definition ext2fs_super_and_bgd_loc2 (fs : ext2_filsys) (group : Z) : outcome (Z * Z * Z * Z) :=
  let sb := f_super fs in
  let group_block := ext2fs_group_first_block2 fs group in
  let group_block := if (group_block =? 0) && (f_blocksize fs =? 1024) then 1 else group_block in
  let old_desc_blocks :=
    if has_feature_meta_bg sb then s_first_meta_bg sb
    else f_desc_blocks fs + s_reserved_gdt_blocks sb in
  let? has_super := ext2fs_bg_has_super fs group in
  let super_blk := if has_super then group_block else 0 in
  let numblocks := if has_super then 1 else 0 in
  let? meta_bg_size := EXT2_DESC_PER_BLOCK sb in
  if meta_bg_size =? 0 then Undef else
  let meta_bg := group / meta_bg_size in
  if negb (has_feature_meta_bg sb) || (meta_bg <? s_first_meta_bg sb) then
    if has_super then Ret (super_blk, u64 (group_block + 1), 0, u32 (numblocks + old_desc_blocks))
    else Ret (super_blk, 0, 0, numblocks)
  else
    let r := group mod meta_bg_size in
    if (r =? 0) || (r =? 1) || (r =? u32 (meta_bg_size - 1)) then
      Ret (super_blk, 0, u64 (group_block + (if has_super then 1 else 0)), numblocks + 1)
    else Ret (super_blk, 0, 0, numblocks).

(** ** openfs.c: where a block of descriptors is

    [bg] is an int, passed on as a group number. *)
Definition ext2fs_descriptor_block_loc2 (fs : ext2_filsys) (group_block i : Z) : outcome Z :=
  let sb := f_super fs in
  let group_zero_adjust :=
    if (i =? 0) && (f_blocksize fs =? 1024) && (1 <? EXT2FS_CLUSTER_RATIO fs) then 1 else 0 in
  if negb (has_feature_meta_bg sb) || (i <? s_first_meta_bg sb)
  then Ret (u64 (group_block + i + 1 + group_zero_adjust)) else
  let? dpb := EXT2_DESC_PER_BLOCK sb in
  let bg := u32 (dpb * i) in
  let? super0 := ext2fs_bg_has_super fs bg in
  let has_super := if super0 then 1 else 0 in
  let ret_blk := ext2fs_group_first_block2 fs bg in
  if negb (group_block =? s_first_data_block sb) &&
     (u64 (ret_blk + has_super + s_blocks_per_group sb) <? ext2fs_blocks_count sb) then
    let? super1 := ext2fs_bg_has_super fs (u32 (bg + 1)) in
    Ret (u64 (u64 (ret_blk + s_blocks_per_group sb) + (if super1 then 1 else 0) + group_zero_adjust))
  else Ret (u64 (ret_blk + has_super + group_zero_adjust)).

(** ** Lemmas on the fields *)
Definition super_wf (sb : bytes) : Prop := length sb = 1024%nat ∧ Forall is_byte sb.
#[export] Instance super_wf_dec sb : Decision (super_wf sb).
Proof. unfold super_wf. apply _. Defined.

Lemma fld4_bound off sb : super_wf sb → 0 ≤ fld 4 off sb < 2 ^ 32.
Proof. intros [_ Hb]. apply (fld_bound 4 off sb Hb). Qed.
Lemma fld2_bound off sb : super_wf sb → 0 ≤ fld 2 off sb < 2 ^ 16.
Proof. intros [_ Hb]. apply (fld_bound 2 off sb Hb). Qed.
Lemma set_fld_wf n off v sb : super_wf sb → (off + n <= 1024)%nat → super_wf (set_fld n off v sb).
Proof. intros [Hl Hb] Ho. split; [rewrite set_fld_length; lia|by apply set_fld_bytes]. Qed.
#[export] Hint Resolve fld4_bound fld2_bound : c_bounds.

(** Where a pair of halves may be: inside, apart, away from the features. *)
Definition hilo_ok (lo hi : nat) : Prop :=
  (lo + 4 <= 0x60 ∧ 0x64 <= hi ∧ hi + 4 <= 1024)%nat.

Lemma lor_halves a b : 0 ≤ a < 2 ^ 32 → Z.lor a (Z.shiftl b 32) = a + 2 ^ 32 * b.
Proof. intros. rewrite Z.shiftl_mul_pow2, lor_add_disjoint by lia. lia. Qed.

Lemma set_hilo_wf lo hi v sb : hilo_ok lo hi → super_wf sb → super_wf (set_hilo lo hi v sb).
Proof.
  unfold hilo_ok, set_hilo. intros Ho Hw.
  destruct (has_feature_64bit _); repeat apply set_fld_wf; done || lia.
Qed.
Lemma set_hilo_other lo hi v sb n off : hilo_ok lo hi → super_wf sb →
  (off + n <= lo ∨ lo + 4 <= off)%nat → (off + n <= hi ∨ hi + 4 <= off)%nat →
  fld n off (set_hilo lo hi v sb) = fld n off sb.
Proof.
  unfold hilo_ok, set_hilo. intros Ho [Hl Hb] H1 H2.
  destruct (has_feature_64bit _); repeat rewrite fld_set_other by (rewrite ?set_fld_length; lia); done.
Qed.
Lemma set_hilo_64bit lo hi v sb : hilo_ok lo hi → super_wf sb →
  has_feature_64bit (set_hilo lo hi v sb) = has_feature_64bit sb.
Proof.
  intros Ho Hw. unfold has_feature_64bit, s_feature_incompat.
  rewrite set_hilo_other; [done|done|done|unfold hilo_ok in Ho; lia..].
Qed.

(** The width of a counter. *)
Definition count_bits (sb : bytes) : Z := if has_feature_64bit sb then 64 else 32.

Lemma get_set_hilo lo hi v sb : hilo_ok lo hi → super_wf sb → 0 ≤ v < 2 ^ 64 →
  get_hilo lo hi (set_hilo lo hi v sb) = v mod 2 ^ count_bits sb.
Proof.
  intros Ho Hw Hv. unfold get_hilo, count_bits. rewrite set_hilo_64bit by done.
  pose proof Ho as Ho'. pose proof Hw as [Hl _]. unfold hilo_ok in Ho'. unfold set_hilo.
  assert (E : has_feature_64bit (set_fld 4 lo v sb) = has_feature_64bit sb).
  { unfold has_feature_64bit, s_feature_incompat. rewrite fld_set_other by lia. done. }
  rewrite E. destruct (has_feature_64bit sb).
  - rewrite (fld_set_other 4 hi), !fld_set by (rewrite ?set_fld_length; lia).
    change (256 ^ Z.of_nat 4) with (2 ^ 32). pose proof (Z.mod_pos_bound v (2 ^ 32)).
    rewrite lor_halves, Z.shiftr_div_pow2 by lia.
    rewrite (Z.mod_small (v / 2 ^ 32)) by (split; [apply Z.div_pos|apply Z.div_lt_upper_bound]; lia).
    rewrite (Z.mod_small v (2 ^ 64)) by done. pose proof (Z.div_mod v (2 ^ 32)). lia.
  - rewrite fld_set by lia. by rewrite Z.lor_0_r.
Qed.
Lemma get_hilo_bound lo hi sb : super_wf sb → 0 ≤ get_hilo lo hi sb < 2 ^ count_bits sb.
Proof.
  intros Hw. unfold get_hilo, count_bits. pose proof (fld4_bound lo sb Hw). pose proof (fld4_bound hi sb Hw).
  destruct (has_feature_64bit sb); [rewrite lor_halves by lia; lia|by rewrite Z.lor_0_r].
Qed.
Lemma get_hilo_64 lo hi sb : super_wf sb → 0 ≤ get_hilo lo hi sb < 2 ^ 64.
Proof.
  intros Hw. pose proof (get_hilo_bound lo hi sb Hw). unfold count_bits in *.
  destruct (has_feature_64bit sb); lia.
Qed.
Lemma get_add_hilo lo hi d sb : hilo_ok lo hi → super_wf sb →
  get_hilo lo hi (set_hilo lo hi (u64 (get_hilo lo hi sb + d)) sb) = (get_hilo lo hi sb + d) mod 2 ^ count_bits sb.
Proof.
  intros. rewrite get_set_hilo by (done || apply u64_bound). unfold u64, count_bits.
  destruct (has_feature_64bit sb); [by rewrite Z.mod_mod|].
  rewrite <- Znumtheory.Zmod_div_mod; [done|lia..|]. by exists (2 ^ 32).
Qed.

(** ** Powers *)
Lemma test_root_loop_spec b fuel a : 2 ≤ b → 1 ≤ a < 2 ^ Z.of_nat fuel →
  ∃ r, test_root_loop fuel a b = Ret r ∧ (r = true ↔ ∃ k, 0 < k ∧ a = b ^ k).
Proof.
  intros Hb. revert a. induction fuel as [|fuel IH]; intros a Ha; [simpl in Ha; lia|].
  assert (Hpow : ∀ k, 0 < k → b ≤ b ^ k).
  { intros k Hk. rewrite <- (Z.pow_1_r b) at 1. apply Z.pow_le_mono_r; lia. }
  cbn [test_root_loop]. destruct (Z.ltb_spec a b) as [Hlt|Hge].
  { exists false. split; [done|]. split; [done|]. intros (k & Hk & ->). specialize (Hpow k Hk). lia. }
  destruct (Z.eqb_spec a b) as [->|Hne].
  { exists true. split; [done|]. split; [|done]. intros _. exists 1. lia. }
  assert (Hdiv : ∀ k, 0 < k → a = b ^ k → 1 < k ∧ a = b * b ^ (k - 1)).
  { intros k Hk ->. destruct (decide (k = 1)) as [->|]; [lia|]. split; [lia|].
    rewrite <- Z.pow_succ_r by lia. f_equal. lia. }
  destruct (Z.eqb_spec (a mod b) 0) as [Hm|Hm]; simpl negb; cbv iota.
  - assert (Ea : a = b * (a / b)) by (pose proof (Z.div_mod a b); lia).
    destruct (IH (a / b)) as (r & -> & Hr).
    { rewrite Nat2Z.inj_succ, Z.pow_succ_r in Ha by lia.
      split; [nia|]. apply Z.div_lt_upper_bound; nia. }
    exists r. split; [done|]. rewrite Hr. split.
    + intros (k & Hk & E). exists (k + 1). split; [lia|]. rewrite Z.pow_add_r, <- E by lia. lia.
    + intros (k & Hk & E). destruct (Hdiv k Hk E) as [? E']. exists (k - 1). split; [lia|].
      rewrite E'. rewrite Z.mul_comm, Z.div_mul by lia. done.
  - exists false. split; [done|]. split; [done|]. intros (k & Hk & E).
    destruct (Hdiv k Hk E) as [_ E']. destruct Hm. rewrite E', Z.mul_comm. apply Z.mod_mul. lia.
Qed.

Lemma test_root_spec a b : 2 ≤ b → 1 ≤ a < 2 ^ 32 →
  ∃ r, test_root a b = Ret r ∧ (r = true ↔ ∃ k, 0 < k ∧ a = b ^ k).
Proof. intros Hb Ha. apply (test_root_loop_spec b 33); [done|]. change (Z.of_nat 33) with 33. lia. Qed.

(** [ext2fs_bg_has_super] always answers. *)
Lemma bg_has_super_total fs g : 0 ≤ g < 2 ^ 32 → ∃ r, ext2fs_bg_has_super fs g = Ret r.
Proof.
  intros Hg. unfold ext2fs_bg_has_super. destruct (Z.eqb_spec g 0); [by eexists|].
  destruct (has_feature_sparse_super2 _); [by eexists|].
  destruct ((g <=? 1) || _); [by eexists|]. destruct (negb (Z.odd g)); [by eexists|].
  destruct (test_root_spec g 3) as (r3 & -> & _); [lia..|]. cbn [obind]. destruct r3; [by eexists|].
  destruct (test_root_spec g 5) as (r5 & -> & _); [lia..|]. cbn [obind]. destruct r5; [by eexists|].
  destruct (test_root_spec g 7) as (r7 & -> & _); [lia..|]. by exists r7.
Qed.

(** ** Where things are *)

(** What an open file system has. *)
Record geometry (fs : ext2_filsys) : Prop := {
  geo_super : super_wf (f_super fs);
  geo_bpg : 0 < s_blocks_per_group (f_super fs) < 2 ^ 31;
  geo_first : s_first_data_block (f_super fs) < ext2fs_blocks_count (f_super fs);
  geo_groups : f_group_desc_count fs =
    (ext2fs_blocks_count (f_super fs) - s_first_data_block (f_super fs) - 1)
      / s_blocks_per_group (f_super fs) + 1;
  geo_count : f_group_desc_count fs < 2 ^ 32;
}.

(** The first block of a group is computed without wrapping. *)
Lemma group_first_eq fs g : super_wf (f_super fs) → 0 ≤ g < 2 ^ 32 →
  ext2fs_group_first_block2 fs g =
  s_first_data_block (f_super fs) + s_blocks_per_group (f_super fs) * g.
Proof.
  intros Hw Hg. unfold ext2fs_group_first_block2, EXT2_GROUPS_TO_BLOCKS.
  assert (0 ≤ s_first_data_block (f_super fs) < 2 ^ 32) by (apply fld4_bound, Hw).
  assert (0 ≤ s_blocks_per_group (f_super fs) < 2 ^ 32) by (apply fld4_bound, Hw).
  assert (s_blocks_per_group (f_super fs) * g ≤ (2 ^ 32 - 1) * (2 ^ 32 - 1)) by (apply Z.mul_le_mono_nonneg; lia).
  rewrite (u64_small (_ * _)), u64_small by lia. done.
Qed.

Section Groups.
  Context (fs : ext2_filsys) (Hgeo : geometry fs).
  Abbreviation sb := (f_super fs).
  Abbreviation first := (s_first_data_block sb).
  Abbreviation bpg := (s_blocks_per_group sb).
  Abbreviation count := (ext2fs_blocks_count sb).

Lemma first_bound : 0 ≤ first < 2 ^ 32.
Proof. apply fld4_bound, Hgeo. Qed.
Lemma count_bound : 0 ≤ count < 2 ^ 64.
Proof. apply get_hilo_64, Hgeo. Qed.

Lemma groups_bound : 1 ≤ f_group_desc_count fs.
Proof.
  rewrite (geo_groups _ Hgeo). pose proof (geo_first _ Hgeo). pose proof (geo_bpg _ Hgeo).
  assert (0 ≤ (count - first - 1) / bpg) by (apply Z.div_pos; lia). lia.
Qed.
Lemma last_group : u32 (f_group_desc_count fs - 1) = (count - first - 1) / bpg.
Proof.
  pose proof groups_bound. pose proof (geo_count _ Hgeo).
  rewrite u32_small by lia. rewrite (geo_groups _ Hgeo). lia.
Qed.

Lemma group_of_eq blk : first ≤ blk < count → ext2fs_group_of_blk2 fs blk = Ret ((blk - first) / bpg) ∧
  0 ≤ (blk - first) / bpg < f_group_desc_count fs.
Proof.
  intros Hb. pose proof (geo_bpg _ Hgeo). pose proof first_bound. pose proof count_bound.
  assert (Hd : 0 ≤ (blk - first) / bpg < f_group_desc_count fs).
  { rewrite (geo_groups _ Hgeo). split; [apply Z.div_pos; lia|].
    apply Z.lt_succ_r. apply Z.div_le_mono; lia. }
  split; [|done]. unfold ext2fs_group_of_blk2. destruct (Z.eqb_spec bpg 0); [lia|].
  pose proof (geo_count _ Hgeo). rewrite u64_small, u32_small by lia. done.
Qed.

(** The last block of a group, without the case of the last group. *)
Lemma group_last_eq g : 0 ≤ g < f_group_desc_count fs →
  ext2fs_group_last_block2 fs g = Z.min (count - 1) (first + bpg * g + bpg - 1).
Proof.
  intros Hg. pose proof (geo_bpg _ Hgeo). pose proof first_bound. pose proof count_bound.
  pose proof (geo_first _ Hgeo). pose proof (geo_count _ Hgeo). pose proof (geo_groups _ Hgeo) as HG.
  pose proof (Z.div_mod (count - first - 1) bpg ltac:(lia)).
  pose proof (Z.mod_pos_bound (count - first - 1) bpg ltac:(lia)).
  unfold ext2fs_group_last_block2. rewrite last_group.
  destruct (Z.eqb_spec g ((count - first - 1) / bpg)) as [->|Hne].
  - rewrite u64_small by lia. lia.
  - assert (g + 1 ≤ (count - first - 1) / bpg) by lia.
    assert (bpg * (g + 1) ≤ bpg * ((count - first - 1) / bpg)) by (apply Z.mul_le_mono_nonneg_l; lia).
    rewrite group_first_eq, u32_small by (apply Hgeo || lia). rewrite u64_small by lia. lia.
Qed.

Lemma group_size_eq g : 0 ≤ g < f_group_desc_count fs →
  ext2fs_group_blocks_count fs g =
  Ret (ext2fs_group_last_block2 fs g - ext2fs_group_first_block2 fs g + 1).
Proof.
  intros Hg. pose proof (geo_bpg _ Hgeo). pose proof first_bound. pose proof count_bound.
  pose proof (geo_first _ Hgeo). pose proof (geo_count _ Hgeo). pose proof (geo_groups _ Hgeo) as HG.
  rewrite group_last_eq, group_first_eq by (apply Hgeo || lia).
  pose proof (Z.div_mod (count - first - 1) bpg ltac:(lia)) as Hd.
  pose proof (Z.mod_pos_bound (count - first - 1) bpg ltac:(lia)) as Hm.
  unfold ext2fs_group_blocks_count. rewrite last_group.
  destruct (Z.eqb_spec g ((count - first - 1) / bpg)) as [Eg|Hne].
  - rewrite <- Eg in Hd. destruct (Z.eqb_spec bpg 0); [lia|].
    rewrite u64_small by lia. set (r := (count - first - 1) mod bpg) in *.
    assert (E : count - first = bpg * g + (r + 1)) by lia.
    destruct (decide (r + 1 = bpg)) as [Er|].
    + replace ((count - first) mod bpg) with 0; cycle 1.
      { rewrite E, Er. replace (bpg * g + bpg) with ((g + 1) * bpg) by lia. by rewrite Z.mod_mul by lia. }
      change (i32 0 =? 0) with true. cbv iota. rewrite i32_small by lia. f_equal. lia.
    + replace ((count - first) mod bpg) with (r + 1); cycle 1.
      { rewrite E. apply (Z.mod_unique _ _ g); lia. }
      rewrite i32_small by lia. destruct (Z.eqb_spec (r + 1) 0); [lia|]. f_equal. lia.
  - assert (g + 1 ≤ (count - first - 1) / bpg) by lia.
    assert (bpg * (g + 1) ≤ bpg * ((count - first - 1) / bpg)) by (apply Z.mul_le_mono_nonneg_l; lia).
    rewrite i32_small by lia. f_equal. lia.
Qed.
End Groups.

(** ** Properties *)

(** A counter of blocks set to a value is read back as that value, modulo 2^64 with the
    64bit feature and modulo 2^32 without it; adding adds modulo the same; and neither
    touches the other counters or the features. *)
Theorem blocks_count_roundtrip sb v d :
  super_wf sb → 0 ≤ v < 2 ^ 64 →
  let m := 2 ^ count_bits sb in
  let fixed sb' := super_wf sb' ∧ count_bits sb' = count_bits sb in
  (fixed (ext2fs_blocks_count_set sb v) ∧
   ext2fs_blocks_count (ext2fs_blocks_count_set sb v) = v mod m ∧
   ext2fs_blocks_count (ext2fs_blocks_count_add sb d) = (ext2fs_blocks_count sb + d) mod m ∧
   ext2fs_r_blocks_count (ext2fs_blocks_count_set sb v) = ext2fs_r_blocks_count sb ∧
   ext2fs_free_blocks_count (ext2fs_blocks_count_set sb v) = ext2fs_free_blocks_count sb) ∧
  (fixed (ext2fs_r_blocks_count_set sb v) ∧
   ext2fs_r_blocks_count (ext2fs_r_blocks_count_set sb v) = v mod m ∧
   ext2fs_r_blocks_count (ext2fs_r_blocks_count_add sb d) = (ext2fs_r_blocks_count sb + d) mod m ∧
   ext2fs_blocks_count (ext2fs_r_blocks_count_set sb v) = ext2fs_blocks_count sb ∧
   ext2fs_free_blocks_count (ext2fs_r_blocks_count_set sb v) = ext2fs_free_blocks_count sb) ∧
  (fixed (ext2fs_free_blocks_count_set sb v) ∧
   ext2fs_free_blocks_count (ext2fs_free_blocks_count_set sb v) = v mod m ∧
   ext2fs_free_blocks_count (ext2fs_free_blocks_count_add sb d) = (ext2fs_free_blocks_count sb + d) mod m ∧
   ext2fs_blocks_count (ext2fs_free_blocks_count_set sb v) = ext2fs_blocks_count sb ∧
   ext2fs_r_blocks_count (ext2fs_free_blocks_count_set sb v) = ext2fs_r_blocks_count sb).
Proof.
  intros Hw Hv.
  assert (O1 : hilo_ok 0x04 0x150) by (unfold hilo_ok; lia).
  assert (O2 : hilo_ok 0x08 0x154) by (unfold hilo_ok; lia).
  assert (O3 : hilo_ok 0x0c 0x158) by (unfold hilo_ok; lia).
  assert (F : ∀ lo hi lo' hi', hilo_ok lo hi → (lo' + 4 <= lo ∨ lo + 4 <= lo')%nat →
    (hi' + 4 <= hi ∨ hi + 4 <= hi')%nat → (lo' + 4 <= hi)%nat → (lo + 4 <= hi')%nat →
    get_hilo lo' hi' (set_hilo lo hi v sb) = get_hilo lo' hi' sb).
  { intros lo hi lo' hi' Ho H1 H2 H3 H4. unfold get_hilo.
    rewrite set_hilo_64bit by done. rewrite !(set_hilo_other lo hi) by (done || lia). done. }
  assert (G : ∀ lo hi, hilo_ok lo hi → super_wf (set_hilo lo hi v sb) ∧
                count_bits (set_hilo lo hi v sb) = count_bits sb).
  { intros lo hi Ho. split; [by apply set_hilo_wf|]. unfold count_bits. by rewrite set_hilo_64bit. }
  cbv zeta.
  split_and!; first [by apply G|by apply get_set_hilo|by apply get_add_hilo|apply F; done || lia].
Qed.

(** C29. The block groups partition the blocks of the file system: each block is in the group
    that ext2fs_group_of_blk2 gives, between the first and the last block of it and of no
    other, and the size of a group is the number of blocks between the two. *)
Theorem block_groups_partition fs blk :
  geometry fs → s_first_data_block (f_super fs) ≤ blk < ext2fs_blocks_count (f_super fs) →
  ∃ g, ext2fs_group_of_blk2 fs blk = Ret g ∧ 0 ≤ g < f_group_desc_count fs ∧
    (∀ g', 0 ≤ g' < f_group_desc_count fs →
       ext2fs_group_first_block2 fs g' ≤ blk ≤ ext2fs_group_last_block2 fs g' ↔ g' = g) ∧
    ext2fs_group_blocks_count fs g =
      Ret (ext2fs_group_last_block2 fs g - ext2fs_group_first_block2 fs g + 1).
Proof.
  intros Hgeo Hb. destruct (group_of_eq fs Hgeo blk Hb) as [E Hg].
  exists ((blk - s_first_data_block (f_super fs)) / s_blocks_per_group (f_super fs)).
  split; [done|]. split; [done|]. split; [|by apply group_size_eq].
  intros g' Hg'. pose proof (geo_count _ Hgeo). pose proof (geo_bpg _ Hgeo).
  rewrite group_last_eq, group_first_eq by (apply Hgeo || done || lia). split.
  - intros Hr.
    apply (Z.div_unique_pos _ _ _ (blk - s_first_data_block (f_super fs) - s_blocks_per_group (f_super fs) * g')); lia.
  - intros ->.
    pose proof (Z.div_mod (blk - s_first_data_block (f_super fs)) (s_blocks_per_group (f_super fs)) ltac:(lia)).
    pose proof (Z.mod_pos_bound (blk - s_first_data_block (f_super fs)) (s_blocks_per_group (f_super fs)) ltac:(lia)).
    lia.
Qed.

(** With the sparse_super feature the copies of the superblock are in the groups 0 and 1
    and in those whose number is a power of 3, 5 or 7; the test ends for every group. *)
Theorem bg_has_super_powers fs g :
  0 ≤ g < 2 ^ 32 → has_feature_sparse_super2 (f_super fs) = false →
  has_feature_sparse_super (f_super fs) = true →
  ∃ r, ext2fs_bg_has_super fs g = Ret r ∧
    (r = true ↔ g ≤ 1 ∨ ∃ k, 0 < k ∧ (g = 3 ^ k ∨ g = 5 ^ k ∨ g = 7 ^ k)).
Proof.
  intros Hg H2 Hs. unfold ext2fs_bg_has_super. rewrite H2, Hs. rewrite orb_false_r.
  destruct (Z.eqb_spec g 0) as [->|Hz]; [exists true; split; [done|split; [lia|done]]|].
  destruct (Z.leb_spec g 1) as [Hle|Hgt]; [exists true; split; [done|split; [lia|done]]|].
  assert (Hodd : ∀ b k, Z.odd b = true → 0 < k → Z.odd (b ^ k) = true) by (intros; by rewrite Z.odd_pow).
  destruct (Z.odd g) eqn:Ho; simpl negb; cbv iota; cycle 1.
  { exists false. split; [done|]. split; [done|].
    intros [?|(k & Hk & [->|[->| ->]])]; [lia|..]; by rewrite Hodd in Ho. }
  destruct (test_root_spec g 3) as (r3 & -> & E3); [lia..|]. cbn [obind].
  destruct (test_root_spec g 5) as (r5 & E5' & E5); [lia..|].
  destruct (test_root_spec g 7) as (r7 & E7' & E7); [lia..|].
  destruct r3; [exists true; naive_solver|]. rewrite E5'. cbn [obind].
  destruct r5; [exists true; naive_solver|]. rewrite E7'. exists r7. naive_solver lia.
Qed.

(** The layout the format prescribes with blocks of 1024 bytes: block 0 belongs to the
    file system when blocks are allocated in clusters, and only then. *)
Definition layout_1k (fs : ext2_filsys) : Prop :=
  f_blocksize fs = 1024 → (s_first_data_block (f_super fs) = 0 ↔ 1 < EXT2FS_CLUSTER_RATIO fs).

(** The descriptors of a meta group: where they are written for a group of it. *)
Lemma bgd_loc_meta fs dpb g has : super_wf (f_super fs) → 0 ≤ g < 2 ^ 32 →
  EXT2_DESC_PER_BLOCK (f_super fs) = Ret dpb → 0 < dpb → has_feature_meta_bg (f_super fs) = true →
  s_first_meta_bg (f_super fs) ≤ g / dpb → g mod dpb = 0 ∨ g mod dpb = 1 →
  ext2fs_bg_has_super fs g = Ret has →
  let first := ext2fs_group_first_block2 fs g in
  let block := if (first =? 0) && (f_blocksize fs =? 1024) then 1 else first in
  ext2fs_super_and_bgd_loc2 fs g =
    Ret (if has then block else 0, 0, u64 (block + (if has then 1 else 0)), (if has then 1 else 0) + 1).
Proof.
  intros Hw Hg Hd Hdpb Hm Hi Hr Hs. cbv zeta. unfold ext2fs_super_and_bgd_loc2. rewrite Hs, Hd, Hm.
  cbn [obind]. destruct (Z.eqb_spec dpb 0); [lia|]. simpl negb. rewrite orb_false_l.
  destruct (Z.ltb_spec (g / dpb) (s_first_meta_bg (f_super fs))); [lia|].
  assert (((g mod dpb =? 0) || (g mod dpb =? 1)) = true) as -> by (destruct Hr as [->| ->]; done).
  done.
Qed.


(** ** Witnesses *)

(** The superblock of a small file system: 3 groups of 8192 blocks of 1024 bytes. *)
Definition sample_fields : list (nat * nat * Z) :=
  [(4%nat, 0x00%nat, 6144); (4%nat, 0x04%nat, 20000); (4%nat, 0x14%nat, 1); (4%nat, 0x18%nat, 0); (4%nat, 0x1c%nat, 0); (4%nat, 0x20%nat, 8192); (4%nat, 0x24%nat, 8192);
   (4%nat, 0x28%nat, 2048); (2%nat, 0x38%nat, EXT2_SUPER_MAGIC); (4%nat, 0x4c%nat, 1); (2%nat, 0x58%nat, 128); (4%nat, 0x60%nat, 0x2); (4%nat, 0x64%nat, 0x1)].
Definition make_super (l : list (nat * nat * Z)) : bytes :=
  foldr (fun '(n, off, v) b => set_fld n off v b) (replicate 1024 0) l.
Definition sample_super : bytes := make_super sample_fields.
(** The same with meta groups. *)
Definition meta_super : bytes := set_fld 4 0x60 0x12 sample_super.
Definition sample_filsys (sb : bytes) : ext2_filsys :=
  MkFilsys 0 sb 1024 3 1 (Some (replicate 1024 0)) 256 0 None None 0 0 0 None.

Lemma sample_geometry : geometry (sample_filsys sample_super).
Proof. split; apply (bool_decide_eq_true_1 _); vm_compute; reflexivity. Qed.

Lemma blocks_count_roundtrip_witness :
  ext2fs_blocks_count (ext2fs_blocks_count_set sample_super (2 ^ 40 + 5)) = 5 ∧ has_feature_64bit sample_super = false.
Proof.
  split; [|vm_compute; reflexivity].
  rewrite (proj1 (proj2 (proj1 (blocks_count_roundtrip sample_super (2 ^ 40 + 5) 0
    ltac:(apply (bool_decide_eq_true_1 _); vm_compute; reflexivity) ltac:(lia))))).
  vm_compute. reflexivity.
Defined.

Lemma block_groups_partition_witness :
  ∃ g, ext2fs_group_of_blk2 (sample_filsys sample_super) 9000 = Ret g ∧ g = 1.
Proof.
  destruct (block_groups_partition (sample_filsys sample_super) 9000 sample_geometry
    ltac:(apply (bool_decide_eq_true_1 _); vm_compute; reflexivity)) as (g & E & _).
  exists g. split; [exact E|]. vm_compute in E. congruence.
Defined.

Lemma bg_has_super_powers_witness :
  ∃ r, ext2fs_bg_has_super (sample_filsys sample_super) 49 = Ret r ∧ r = true.
Proof.
  destruct (bg_has_super_powers (sample_filsys sample_super) 49) as (r & E & Hr);
    [lia|vm_compute; reflexivity..|].
  exists r. split; [exact E|]. apply Hr. right. exists 2. split; [lia|]. right. right. reflexivity.
Defined.

