(* ===== verification/CString.v ===== *)
(** * The C library's string functions, as the sources use them

    A C string is the list of its bytes without the terminating NUL; a function
    that returns a pointer into its argument returns the suffix it points to. *)
From S2P Require Export Prelude.
#[local] Open Scope Z_scope.

(** ** Scanning *)
Fixpoint span (p : Z → bool) (s : bytes) : bytes * bytes :=
  match s with
  | [] => ([], [])
  | c :: s' => if p c then let '(a, b) := span p s' in (c :: a, b) else ([], s)
  end.

Definition drop_while (p : Z → bool) (s : bytes) : bytes := snd (span p s).

Definition isdigit (c : Z) : bool := (48 <=? c) && (c <=? 57).
Definition isspace (c : Z) : bool := (c =? 32) || ((9 <=? c) && (c <=? 13)).
Definition tolower (c : Z) : Z := if (65 <=? c) && (c <=? 90) then c + 32 else c.

Definition strcmp_eq (a b : bytes) : bool := bool_decide (a = b).
Definition strncmp_eq (a b : bytes) (n : Z) : bool :=
  bool_decide (take (Z.to_nat n) a = take (Z.to_nat n) b).
Definition starts_with (p s : bytes) : bool := bool_decide (take (length p) s = p).

Fixpoint strstr (h n : bytes) : option bytes :=
  if starts_with n h then Some h
  else match h with [] => None | _ :: h' => strstr h' n end.

Fixpoint strchr (s : bytes) (c : Z) : option bytes :=
  match s with
  | [] => None
  | x :: s' => if x =? c then Some s else strchr s' c
  end.

Fixpoint strrchr (s : bytes) (c : Z) : option bytes :=
  match s with
  | [] => None
  | x :: s' => match strrchr s' c with
               | Some r => Some r
               | None => if x =? c then Some s else None
               end
  end.

(** [buffer[strcspn(buffer, "\n")] = 0] *)
Definition chop_nl (s : bytes) : bytes := fst (span (fun c => negb (c =? 10)) s).

(** [snprintf(buf, n, ...)] keeps at most [n - 1] bytes of what it formats. *)
Definition snprintf (n : Z) (s : bytes) : bytes := take (Z.to_nat (n - 1)) s.

(** ** Tokens: the first call of [strtok] and the calls with NULL that follow
    work on what the previous one left. *)
Definition in_set (delims : bytes) (c : Z) : bool := bool_decide (c ∈ delims).

Definition strtok (delims s : bytes) : option (bytes * bytes) :=
  match drop_while (in_set delims) s with
  | [] => None
  | s' => let '(tok, r) := span (fun c => negb (in_set delims c)) s' in
          Some (tok, tail r)
  end.

Fixpoint strtok_fuel (n : nat) (delims s : bytes) : list bytes :=
  match n with
  | O => []
  | S n => match strtok delims s with
           | Some (tok, r) => tok :: strtok_fuel n delims r
           | None => []
           end
  end.

(** All the tokens of a string: each call consumes a byte at least. *)
Definition strtok_all (delims s : bytes) : list bytes := strtok_fuel (length s) delims s.

(** ** Numbers *)
Definition digits_val (s : bytes) : Z := foldl (fun acc c => 10 * acc + (c - 48)) 0 s.

(** The sign and the digits [strto*] reads in base 10, and what follows them. *)
Definition strto10 (s : bytes) : (bool * option Z) * bytes :=
  let s1 := drop_while isspace s in
  let '(neg, s2) := match s1 with
                    | c :: r => if c =? 45 then (true, r)
                                else if c =? 43 then (false, r) else (false, s1)
                    | [] => (false, [])
                    end in
  let '(ds, r) := span isdigit s2 in
  match ds with [] => ((neg, None), s) | _ => ((neg, Some (digits_val ds)), r) end.

Definition ULLONG_MAX : Z := 2 ^ 64 - 1.

Definition strtou (max : Z) (s : bytes) : Z :=
  match strto10 s with
  | ((_, None), _) => 0
  | ((neg, Some v), _) =>
      if max <? v then max else if neg then (- v) mod (max + 1) else v
  end.
Definition strtoull (s : bytes) : Z := strtou ULLONG_MAX s.

Definition strtoll (s : bytes) : Z :=
  match strto10 s with
  | ((_, None), _) => 0
  | ((neg, Some v), _) =>
      if neg then Z.max (- 2 ^ 63) (- v) else Z.min (2 ^ 63 - 1) v
  end.

(** [unsigned long] has the width of [size_t] on the three targets. *)
Definition strtoul `{Machine} (s : bytes) : Z := strtou (size_t_mod - 1) s.
Definition strtoul_end (s : bytes) : bytes := snd (strto10 s).

(** [atoi]: [strtol] reduced to an [int]; out of range is undefined in C, and
    in musl and glibc it is this conversion of the saturated value. *)
Definition atoi (s : bytes) : Z := i32 (strtoll s).

(** [%d], [%u], [%llu]: decimal digits. *)
Fixpoint dec_fuel (n : nat) (v : Z) (acc : bytes) : bytes :=
  match n with
  | O => acc
  | S n => if v <? 10 then (48 + v) :: acc
           else dec_fuel n (v / 10) ((48 + v mod 10) :: acc)
  end.
Definition udec (v : Z) : bytes := dec_fuel (S (Z.to_nat (Z.log2 v))) v [].
Definition dec (v : Z) : bytes := if v <? 0 then 45 :: udec (- v) else udec v.

(** [sscanf(s, "%[0-9]...")]: a non-empty run of digits and the rest. *)
Definition scan_digits (s : bytes) : option (bytes * bytes) :=
  match span isdigit s with ([], _) => None | (ds, r) => Some (ds, r) end.

(** [sprintf] into an array of [n] bytes: more is an overflow. *)
Definition sprintf (n : Z) (s : bytes) : outcome bytes := if zlen s <? n then Ret s else Undef.

(** The literal part of a [scanf] format: a space skips any white space. *)
Fixpoint scan_lit (fmt s : bytes) : option bytes :=
  match fmt with
  | [] => Some s
  | f :: fmt =>
      if f =? 32 then scan_lit fmt (drop_while isspace s)
      else match s with
           | c :: s => if c =? f then scan_lit fmt s else None
           | [] => None
           end
  end.

(** [sscanf(s, "%[0-9]<sep>%[0-9]", a, b)] with two arrays of [n] bytes: what is
    stored in [a] and in [b], the number of fields being that of the [Some]s. *)
Definition sscanf2 (n : Z) (sep s : bytes) : outcome (option bytes * option bytes) :=
  match scan_digits s with
  | None => Ret (None, None)
  | Some (a, r) =>
      if n <=? zlen a then Undef else
      match scan_lit sep r with
      | None => Ret (Some a, None)
      | Some r =>
          match scan_digits r with
          | None => Ret (Some a, None)
          | Some (b, _) => if n <=? zlen b then Undef else Ret (Some a, Some b)
          end
      end
  end.

(** ** Lines: [fgets(buf, n, f)] reads up to a newline or [n - 1] bytes. *)
Fixpoint fgets_cut (n : nat) (s : bytes) : bytes * bytes :=
  match n, s with
  | O, _ | _, [] => ([], s)
  | S n, c :: s' => if c =? 10 then ([c], s')
                    else let '(a, b) := fgets_cut n s' in (c :: a, b)
  end.

Definition fgets (n : Z) (s : bytes) : option (bytes * bytes) :=
  match s with [] => None | _ => Some (fgets_cut (Z.to_nat (n - 1)) s) end.

Fixpoint fgets_fuel (k : nat) (n : Z) (s : bytes) : list bytes :=
  match k with
  | O => []
  | S k => match fgets n s with
           | Some (l, r) => c_str l :: fgets_fuel k n r
           | None => []
           end
  end.

(** The strings a loop [while (fgets(line, n, f))] sees. *)
Definition fgets_all (n : Z) (s : bytes) : list bytes := fgets_fuel (length s) n s.

(** ** Facts *)
Lemma span_app p s : fst (span p s) ++ snd (span p s) = s.
Proof.
  induction s as [|c s IH]; [done|]. simpl. destruct (p c); [|done].
  destruct (span p s) as [a b]. simpl in *. by rewrite IH.
Qed.

Lemma span_fst p s : Forall (fun c => p c = true) (fst (span p s)).
Proof.
  induction s as [|c s IH]; simpl; [constructor|].
  destruct (p c) eqn:E; [|constructor].
  destruct (span p s). by constructor.
Qed.

Lemma span_snd p s c r : snd (span p s) = c :: r → p c = false.
Proof.
  induction s as [|x s IH]; simpl; [done|].
  destruct (p x) eqn:E; [by destruct (span p s)|]. simpl. by intros [= <- <-].
Qed.

Lemma span_all p a r :
  Forall (fun c => p c = true) a → match r with [] => True | c :: _ => p c = false end →
  span p (a ++ r) = (a, r).
Proof.
  intros Ha Hr. induction Ha as [|c a Hc _ IH]; simpl.
  - destruct r as [|c r]; [done|]. simpl. by rewrite Hr.
  - by rewrite Hc, IH.
Qed.

Lemma span_nil p a : Forall (fun c => p c = true) a → span p a = (a, []).
Proof. intros Ha. rewrite <- (app_nil_r a) at 1. by apply span_all. Qed.

Lemma drop_while_stop p s c r : s = c :: r → p c = false → drop_while p s = s.
Proof. intros -> E. unfold drop_while. simpl. by rewrite E. Qed.

Lemma drop_while_length p s : (length (drop_while p s) ≤ length s)%nat.
Proof. unfold drop_while. rewrite <- (span_app p s) at 2. rewrite length_app. lia. Qed.

Lemma isdigit_spec c : isdigit c = true ↔ 48 ≤ c ≤ 57.
Proof. unfold isdigit. lia. Qed.

(** *** Decimal round trip *)
Lemma digits_val_snoc s c : digits_val (s ++ [c]) = 10 * digits_val s + (c - 48).
Proof. unfold digits_val. by rewrite foldl_app. Qed.

Lemma log2_div10 v : 10 ≤ v → Z.log2 (v / 10) < Z.log2 v.
Proof.
  intros. apply Z.log2_lt_pow2; [apply Z.div_str_pos; lia|].
  apply Z.div_lt_upper_bound; [lia|].
  pose proof (Z.log2_spec v ltac:(lia)) as [_ Hlt].
  rewrite Z.pow_succ_r in Hlt by apply Z.log2_nonneg. lia.
Qed.

(** The accumulator form: the digits of [v] in front of [acc]. *)
Lemma dec_fuel_spec n v acc :
  0 ≤ v → Z.log2 v < Z.of_nat n →
  ∃ d, dec_fuel n v acc = d ++ acc ∧ digits_val d = v ∧ d ≠ [] ∧
       Forall (fun c => isdigit c = true) d.
Proof.
  revert v acc. induction n as [|n IH]; intros v acc Hv Hn.
  { pose proof (Z.log2_nonneg v). lia. }
  simpl. destruct (Z.ltb_spec v 10).
  - exists [48 + v]. split_and!; [done|unfold digits_val; simpl; lia|done|].
    constructor; [apply isdigit_spec; lia|constructor].
  - pose proof (log2_div10 v ltac:(lia)).
    destruct (IH (v / 10) (48 + v mod 10 :: acc)) as (d & Hd & Hval & Hne & Hall);
      [apply Z.div_pos; lia|lia|].
    exists (d ++ [48 + v mod 10]). rewrite Hd, <- app_assoc. split_and!; [done| |by destruct d|].
    + rewrite digits_val_snoc, Hval. pose proof (Z.div_mod v 10). lia.
    + apply Forall_app. split; [done|]. constructor; [|constructor].
      pose proof (Z.mod_pos_bound v 10). apply isdigit_spec. lia.
Qed.

Lemma udec_spec v :
  0 ≤ v → digits_val (udec v) = v ∧ udec v ≠ [] ∧
          Forall (fun c => isdigit c = true) (udec v).
Proof.
  intros Hv. unfold udec.
  destruct (dec_fuel_spec (S (Z.to_nat (Z.log2 v))) v []) as (d & -> & ? & ? & ?);
    [done|pose proof (Z.log2_nonneg v); lia|].
  by rewrite app_nil_r.
Qed.

Lemma isdigit_not_space c : isdigit c = true → isspace c = false.
Proof. unfold isdigit, isspace. lia. Qed.

(** [strto*] reads back the digits of a number, whatever follows them. *)
Lemma strto10_udec v r :
  0 ≤ v → match r with [] => True | c :: _ => isdigit c = false end →
  strto10 (udec v ++ r) = ((false, Some v), r).
Proof.
  intros Hv Hr. destruct (udec_spec v Hv) as (Hval & Hne & Hall).
  destruct (udec v) as [|c d] eqn:E; [done|].
  pose proof (Forall_inv Hall) as Hc. simpl in Hc.
  unfold strto10.
  rewrite (drop_while_stop _ _ c (d ++ r)) by (try done; by apply isdigit_not_space).
  apply isdigit_spec in Hc as Hc'. simpl app. cbv beta iota.
  rewrite (proj2 (Z.eqb_neq c 45)), (proj2 (Z.eqb_neq c 43)) by lia.
  change (c :: d ++ r) with ((c :: d) ++ r).
  rewrite span_all by done. by rewrite Hval.
Qed.

Lemma strtoull_udec v r :
  0 ≤ v < 2 ^ 64 → match r with [] => True | c :: _ => isdigit c = false end →
  strtoull (udec v ++ r) = v.
Proof.
  intros Hv Hr. unfold strtoull, strtou. rewrite strto10_udec by (done || lia).
  unfold ULLONG_MAX. by rewrite (proj2 (Z.ltb_ge _ _)) by lia.
Qed.

Lemma strtoll_udec v r :
  0 ≤ v < 2 ^ 63 → match r with [] => True | c :: _ => isdigit c = false end →
  strtoll (udec v ++ r) = v.
Proof.
  intros Hv Hr. unfold strtoll. rewrite strto10_udec by (done || lia). lia.
Qed.

Lemma scan_digits_udec v r :
  0 ≤ v → match r with [] => True | c :: _ => isdigit c = false end →
  scan_digits (udec v ++ r) = Some (udec v, r).
Proof.
  intros Hv Hr. destruct (udec_spec v Hv) as (_ & Hne & Hall).
  unfold scan_digits. rewrite span_all by done. by destruct (udec v).
Qed.

(** *** Tokens *)
Lemma strtok_decreases delims s tok r :
  strtok delims s = Some (tok, r) → (length r < length s)%nat.
Proof.
  unfold strtok. pose proof (drop_while_length (in_set delims) s).
  destruct (drop_while (in_set delims) s) as [|c s'] eqn:E; [done|].
  assert (Hc : in_set delims c = false) by (by eapply span_snd).
  simpl. rewrite Hc. simpl.
  destruct (span (fun c => negb (in_set delims c)) s') as [a b] eqn:Esp.
  intros [= <- <-]. pose proof (span_app (fun c => negb (in_set delims c)) s') as Happ.
  rewrite Esp in Happ. simpl in Happ. subst s'. simpl in H. rewrite length_app in H.
  destruct b; simpl in *; lia.
Qed.

Lemma strtok_fuel_enough n m delims s :
  (length s ≤ n)%nat → (length s ≤ m)%nat → strtok_fuel n delims s = strtok_fuel m delims s.
Proof.
  revert m s. induction n as [|n IH]; intros m s Hn Hm; simpl.
  { destruct s; [|simpl in Hn; lia]. by destruct m. }
  destruct (strtok delims s) as [[tok r]|] eqn:E.
  - pose proof (strtok_decreases _ _ _ _ E). destruct m as [|m]; [lia|].
    simpl. rewrite E. f_equal. apply IH; lia.
  - destruct m; simpl; [done|by rewrite E].
Qed.

Lemma strtok_all_unfold delims s :
  strtok_all delims s =
  match strtok delims s with Some (tok, r) => tok :: strtok_all delims r | None => [] end.
Proof.
  unfold strtok_all. destruct s as [|c s].
  { by unfold strtok. }
  cbn [length strtok_fuel]. destruct (strtok delims (c :: s)) as [[tok r]|] eqn:E; [|done].
  f_equal. apply strtok_decreases in E. simpl in E.
  apply strtok_fuel_enough; lia.
Qed.

(** *** Lines, separators and formats *)
Lemma dec_fuel_length n v acc : (length (dec_fuel n v acc) ≤ n + length acc)%nat.
Proof.
  revert v acc. induction n as [|n IH]; intros v acc; simpl; [lia|].
  destruct (v <? 10); simpl; [lia|]. etrans; [apply IH|]. simpl. lia.
Qed.

Lemma udec_length v : 0 ≤ v < 2 ^ 63 → zlen (udec v) < 64.
Proof.
  intros Hv. pose proof (dec_fuel_length (S (Z.to_nat (Z.log2 v))) v []) as Hl.
  assert (Z.log2 v < 63).
  { destruct (decide (v = 0)) as [->|]; [simpl; lia|]. apply Z.log2_lt_pow2; lia. }
  pose proof (Z.log2_nonneg v). unfold udec. simpl length in Hl at 2. lia.
Qed.

Lemma udec_head v : 0 ≤ v → ∃ c d, udec v = c :: d ∧ isdigit c = true.
Proof.
  intros Hv. destruct (udec_spec v Hv) as (_ & Hne & Hall).
  destruct (udec v) as [|c d]; [done|]. exists c, d. split; [done|]. by inversion Hall.
Qed.

(** A text with none of the bytes of [cs]. *)
Definition free_of (cs s : bytes) : Prop := Forall (fun c => c ∉ cs) s.
#[export] Instance free_of_dec cs s : Decision (free_of cs s).
Proof. unfold free_of. apply _. Defined.

Lemma digits_free_of cs s :
  Forall (fun c => isdigit c = true) s → Forall (fun c => isdigit c = false) cs → free_of cs s.
Proof.
  intros Hs Hcs. eapply Forall_impl; [exact Hs|]. intros c Hc Hin.
  rewrite Forall_forall in Hcs. specialize (Hcs c Hin). simpl in *. congruence.
Qed.

Lemma fgets_cut_line n l r :
  free_of [10] l → (length l < n)%nat → fgets_cut n (l ++ 10 :: r) = (l ++ [10], r).
Proof.
  intros Hl. revert n. induction Hl as [|c l Hc _ IH]; intros [|n] Hn; try (simpl in Hn; lia).
  - done.
  - simpl in *. rewrite (proj2 (Z.eqb_neq c 10)) by set_solver. rewrite IH by lia. done.
Qed.

Definition unlines (ls : list bytes) : bytes := concat ((fun l => l ++ [10]) <$> ls).

(** A line that fits in a buffer of [n] bytes. *)
Definition line_wf (n : Z) (l : bytes) : Prop := free_of [10; 0] l ∧ zlen l + 1 < n.

#[export] Instance line_wf_dec n l : Decision (line_wf n l).
Proof. unfold line_wf. apply _. Defined.

Lemma line_wf_free n l : line_wf n l → free_of [10] l ∧ free_of [0] l.
Proof. intros [Hl _]. split; eapply Forall_impl; try exact Hl; set_solver. Qed.

Lemma c_str_free l : free_of [0] l → c_str l = l.
Proof.
  induction 1 as [|c l Hc _ IH]; [done|]. simpl.
  rewrite (proj2 (Z.eqb_neq c 0)) by set_solver. by rewrite IH.
Qed.

Lemma c_str_no_nul b : free_of [0] (c_str b).
Proof.
  induction b as [|c b IH]; simpl; [constructor|]. destruct (Z.eqb_spec c 0); [constructor|].
  constructor; [set_solver|done].
Qed.

(** What a loop over lines sees has no NUL. *)
Lemma fgets_all_no_nul n s : Forall (free_of [0]) (fgets_all n s).
Proof.
  unfold fgets_all. generalize (length s) as k. intros k. revert s.
  induction k as [|k IH]; intros s; simpl; [constructor|].
  destruct (fgets n s) as [[l r]|]; [|constructor]. constructor; [apply c_str_no_nul|apply IH].
Qed.

Lemma fgets_fuel_lines k n ls :
  Forall (line_wf n) ls → (length (unlines ls) ≤ k)%nat →
  fgets_fuel k n (unlines ls) = (fun l => l ++ [10]) <$> ls.
Proof.
  intros Hls. revert k. induction Hls as [|l ls Hl _ IH]; intros k Hk; [by destruct k|].
  unfold unlines in *. rewrite !fmap_cons in *. simpl concat in *.
  rewrite length_app, length_app in Hk. simpl in Hk. destruct k as [|k]; [lia|].
  destruct (line_wf_free _ _ Hl) as [Hnl Hnul]. destruct Hl as [_ Hlen].
  cbn [fgets_fuel]. rewrite <- app_assoc.
  change ([10] ++ ?x) with (10 :: x).
  assert (Hg : fgets n (l ++ 10 :: concat ((fun l => l ++ [10]) <$> ls)) =
               Some (l ++ [10], concat ((fun l => l ++ [10]) <$> ls))).
  { unfold fgets. rewrite fgets_cut_line by (done || lia). by destruct l. }
  rewrite Hg, IH by lia. f_equal. apply c_str_free, Forall_app. split; [done|].
  constructor; [set_solver|constructor].
Qed.

(** A loop over the lines of a text sees the lines. *)
Lemma fgets_all_lines n ls :
  Forall (line_wf n) ls → fgets_all n (unlines ls) = (fun l => l ++ [10]) <$> ls.
Proof. intros. by apply fgets_fuel_lines. Qed.

Lemma chop_nl_line l : free_of [10] l → chop_nl (l ++ [10]) = l.
Proof.
  intros Hl. unfold chop_nl. rewrite span_all; [done| |done].
  eapply Forall_impl; [exact Hl|]. intros c Hc. simpl.
  rewrite (proj2 (Z.eqb_neq c 10)); [done|set_solver].
Qed.

Lemma unlines_app a b : unlines (a ++ b) = unlines a ++ unlines b.
Proof. unfold unlines. by rewrite fmap_app, concat_app. Qed.

(** A search skips a text without the first byte of what it looks for. *)
Lemma strstr_skip c n pre r :
  free_of [c] pre → strstr (pre ++ c :: n ++ r) (c :: n) = Some (c :: n ++ r).
Proof.
  intros Hpre. induction Hpre as [|x pre Hx _ IH].
  - simpl app. unfold strstr. cbn [length]. unfold starts_with.
    rewrite bool_decide_true; [done|]. simpl. by rewrite take_app_length.
  - simpl. unfold starts_with. simpl. rewrite bool_decide_false; [done|].
    intros [= -> _]. set_solver.
Qed.

(** Tokens separated by one delimiter. *)
Lemma strtok_all_join d t ts :
  Forall (fun t => t ≠ [] ∧ free_of [d] t) (t :: ts) →
  strtok_all [d] (t ++ concat (cons d <$> ts)) = t :: ts.
Proof.
  revert t. induction ts as [|t' ts IH]; intros t Hts;
    apply Forall_cons in Hts as [[Hne Ht] Hts].
  all: assert (Hin : ∀ c, c ∉ [d] → in_set [d] c = false)
    by (intros c Hc; unfold in_set; by rewrite bool_decide_false).
  all: assert (Hspan : Forall (fun c => negb (in_set [d] c) = true) t)
    by (eapply Forall_impl; [exact Ht|]; intros c Hc; simpl; by rewrite Hin).
  all: rewrite strtok_all_unfold; unfold strtok.
  all: destruct t as [|c t]; [done|]; pose proof (Forall_inv Ht) as Hc.
  - simpl concat. rewrite app_nil_r.
    rewrite (drop_while_stop _ _ c t) by (done || by apply Hin).
    by rewrite span_nil.
  - rewrite fmap_cons. simpl concat. simpl app at 1.
    rewrite (drop_while_stop _ _ c (t ++ d :: t' ++ concat (cons d <$> ts)))
      by (done || by apply Hin).
    change (c :: t ++ d :: t' ++ concat (cons d <$> ts))
      with ((c :: t) ++ d :: t' ++ concat (cons d <$> ts)).
    rewrite span_all by (done || unfold in_set; rewrite bool_decide_true; set_solver).
    simpl tail. by rewrite IH.
Qed.

(** *** [%[0-9]<sep>%[0-9]] reads back one number or two *)
Lemma sscanf2_one sep v r :
  0 ≤ v < 2 ^ 63 → match r with [] => True | c :: _ => isdigit c = false end →
  scan_lit sep r = None → sscanf2 64 sep (udec v ++ r) = Ret (Some (udec v), None).
Proof.
  intros Hv Hr Hsep. unfold sscanf2. rewrite scan_digits_udec by (done || lia).
  pose proof (udec_length v Hv). rewrite (proj2 (Z.leb_gt _ _)) by lia. by rewrite Hsep.
Qed.

Lemma sscanf2_two sep v w mid r :
  0 ≤ v < 2 ^ 63 → 0 ≤ w < 2 ^ 63 →
  match mid with [] => False | c :: _ => isdigit c = false end →
  match r with [] => True | c :: _ => isdigit c = false end →
  scan_lit sep (mid ++ udec w ++ r) = Some (udec w ++ r) →
  sscanf2 64 sep (udec v ++ mid ++ udec w ++ r) = Ret (Some (udec v), Some (udec w)).
Proof.
  intros Hv Hw Hmid Hr Hsep. unfold sscanf2.
  rewrite scan_digits_udec; [|lia|by destruct mid].
  pose proof (udec_length v Hv). pose proof (udec_length w Hw).
  rewrite (proj2 (Z.leb_gt _ _)) by lia. rewrite Hsep, scan_digits_udec by (done || lia).
  by rewrite (proj2 (Z.leb_gt _ _)) by lia.
Qed.

Lemma strtoull_udec_nil v : 0 ≤ v < 2 ^ 64 → strtoull (udec v) = v.
Proof. intros. rewrite <- (app_nil_r (udec v)). by apply strtoull_udec. Qed.

Lemma strtoll_udec_nil v : 0 ≤ v < 2 ^ 63 → strtoll (udec v) = v.
Proof. intros. rewrite <- (app_nil_r (udec v)). by apply strtoll_udec. Qed.

(** *** Lines followed by other text *)
Lemma fgets_cut_length n s : (length (fgets_cut n s).2 ≤ length s)%nat.
Proof.
  revert s. induction n as [|n IH]; intros [|c s]; simpl; try lia.
  destruct (c =? 10); simpl; [lia|]. specialize (IH s). destruct (fgets_cut n s). simpl in *. lia.
Qed.

Lemma fgets_consumes n s l r : 2 ≤ n → fgets n s = Some (l, r) → (length r < length s)%nat.
Proof.
  intros Hn. unfold fgets. destruct s as [|c s]; [done|].
  destruct (Z.to_nat (n - 1)) as [|m] eqn:Em; [lia|]. simpl. destruct (c =? 10).
  - intros [= <- <-]. simpl. lia.
  - pose proof (fgets_cut_length m s). destruct (fgets_cut m s). intros [= <- <-]. simpl in *. lia.
Qed.

Lemma fgets_fuel_enough k k' n s :
  2 ≤ n → (length s ≤ k)%nat → (length s ≤ k')%nat → fgets_fuel k n s = fgets_fuel k' n s.
Proof.
  intros Hn. revert k' s. induction k as [|k IH]; intros k' s Hk Hk'.
  { destruct s; [|simpl in Hk; lia]. by destruct k'. }
  destruct k' as [|k']; [destruct s; [done|simpl in Hk'; lia]|]. cbn [fgets_fuel].
  destruct (fgets n s) as [[l r]|] eqn:E; [|done].
  pose proof (fgets_consumes _ _ _ _ Hn E). f_equal. apply IH; lia.
Qed.

Lemma fgets_all_unfold n s :
  2 ≤ n → fgets_all n s =
  match fgets n s with Some (l, r) => c_str l :: fgets_all n r | None => [] end.
Proof.
  intros Hn. unfold fgets_all at 1. destruct s as [|c s]; [done|]. cbn [length fgets_fuel].
  destruct (fgets n (c :: s)) as [[l r]|] eqn:E; [|done].
  pose proof (fgets_consumes _ _ _ _ Hn E) as Hl. f_equal.
  apply fgets_fuel_enough; [done|simpl in Hl; lia|done].
Qed.

Lemma fgets_all_app n ls r :
  2 ≤ n → Forall (line_wf n) ls →
  fgets_all n (unlines ls ++ r) = ((fun l => l ++ [10]) <$> ls) ++ fgets_all n r.
Proof.
  intros Hn. induction 1 as [|l ls Hl _ IH]; [done|].
  destruct (line_wf_free _ _ Hl) as [Hnl Hnul]. destruct Hl as [_ Hlen].
  rewrite fgets_all_unfold by done. unfold unlines in *. rewrite fmap_cons. cbn [concat].
  rewrite <- !app_assoc. change ([10] ++ ?x) with (10 :: x).
  unfold fgets. rewrite fgets_cut_line by (done || lia).
  destruct (l ++ 10 :: _) eqn:E; [by destruct l|]. rewrite IH. simpl. f_equal.
  apply c_str_free, Forall_app. split; [done|]. constructor; [set_solver|constructor].
Qed.

(** A line that does not fit is cut. *)
Lemma fgets_cut_long n l r : free_of [10] l → (n ≤ length l)%nat → (fgets_cut n (l ++ r)).1 = take n l.
Proof.
  intros Hl. revert n. induction Hl as [|c l Hc _ IH]; intros [|n] Hn; try done.
  { simpl in Hn. lia. }
  simpl in *. rewrite (proj2 (Z.eqb_neq c 10)) by set_solver.
  specialize (IH n ltac:(lia)). destruct (fgets_cut n (l ++ r)). simpl in *. by rewrite IH.
Qed.
