(* ===== verification/Prog.v ===== *)
(** * Programs with memory, an operating system and an output

    The monad in which the stateful code is translated: a heap of the objects
    the program allocates, the operating system it runs on (an arbitrary type
    [W], so that a theorem quantifies over what the kernel answers, a rootkit
    included) and the log of what it prints. *)
From S2P Require Export Prelude.
#[local] Open Scope Z_scope.

(** ** Heap objects *)

(** [struct my_dir_entry] (fs.h): one name of a directory.  [name] is the
    [name_len + 1] bytes that follow the header. *)
Record my_dir_entry : Type := MkEntry {
  inode : Z;
  name_len : Z;
  file_type : Z;
  myflags : Z;
  name : bytes;
}.

#[export] Instance my_dir_entry_eq_dec : EqDecision my_dir_entry.
Proof. solve_decision. Defined.

Inductive obj : Type :=
  | OEntry (e : my_dir_entry)
  | OBlock (b : bytes).

(** The heap: objects by base address, and the next free address. *)
Record heap : Type := MkHeap { objs : gmap Z obj; brk : Z }.

(** [sizeof(struct my_dir_entry)], name[1] and its padding included. *)
Definition sizeof_my_dir_entry `{Machine} : Z := if long64 then 24 else 20.

(** The bytes of an object of the heap. *)
Definition obj_size `{Machine} (o : obj) : Z :=
  match o with
  | OEntry e => sizeof_my_dir_entry + name_len e
  | OBlock b => zlen b
  end.

Inductive event : Type :=
  | Stdout (b : bytes)
  | Stderr (b : bytes).

Record state (W : Type) : Type := MkState {
  st_heap : heap;
  st_os : W;
  st_log : list event;
}.
Arguments MkState {W} _ _ _.
Arguments st_heap {W} _.
Arguments st_os {W} _.
Arguments st_log {W} _.

Definition prog (W A : Type) : Type := state W → outcome (A * state W).

Section Monad.
  Context {W : Type}.

Definition ret {A} (a : A) : prog W A := fun s => Ret (a, s).
Definition bind {A B} (m : prog W A) (k : A → prog W B) : prog W B :=
  fun s => obind (m s) (fun '(a, s') => k a s').
Definition lift {A} (o : outcome A) : prog W A :=
  fun s => obind o (fun a => Ret (a, s)).
Definition exit {A} (code : Z) : prog W A := fun _ => Exit code.
Definition undef {A} : prog W A := fun _ => Undef.
Definition spin {A} : prog W A := fun _ => Spin.

(** A system call: the operating system answers and moves to its next state. *)
Definition sys {A} (call : W → A * W) : prog W A :=
  fun s => let '(a, w) := call (st_os s) in Ret (a, MkState (st_heap s) w (st_log s)).

(** A call that leaves the operating system as it was. *)
Lemma bind_sys {A B} (call : W → A * W) a (k : A → prog W B) s :
  call (st_os s) = (a, st_os s) → bind (sys call) k s = k a s.
Proof. intros E. unfold bind, sys. rewrite E. cbn [obind]. by destruct s. Qed.

Definition log (e : event) : prog W unit :=
  fun s => Ret (tt, MkState (st_heap s) (st_os s) (st_log s ++ [e])).
Definition print (b : bytes) : prog W unit := log (Stdout b).
Definition eprint (b : bytes) : prog W unit := log (Stderr b).

Lemma bind_ret_l {A B} (a : A) (k : A → prog W B) s : bind (ret a) k s = k a s.
Proof. reflexivity. Qed.
Lemma bind_assoc {A B C} (m : prog W A) (f : A → prog W B) (g : B → prog W C) s :
  bind (bind m f) g s = bind m (fun a => bind (f a) g) s.
Proof. unfold bind. destruct (m s) as [[a s']| | |]; reflexivity. Qed.
Lemma bind_eq {A B} (m : prog W A) (k : A → prog W B) s a s' :
  m s = Ret (a, s') → bind m k s = k a s'.
Proof. unfold bind. by intros ->. Qed.
Lemma bind_ext {A B} (m : prog W A) (k k' : A → prog W B) s :
  (∀ a s', k a s' = k' a s') → bind m k s = bind m k' s.
Proof. intros Hk. unfold bind. destruct (m s) as [[a s']| | |]; simpl; [apply Hk|done..]. Qed.
Lemma bind_inv {A B} (m : prog W A) (k : A → prog W B) s b s' :
  bind m k s = Ret (b, s') → ∃ a s1, m s = Ret (a, s1) ∧ k a s1 = Ret (b, s').
Proof. unfold bind. intros ([a s1]&?&?)%obind_ret_inv. eauto. Qed.

End Monad.

Declare Scope prog_scope.
Notation "'let!' x ':=' m 'in' k" := (bind m (fun x => k))
  (at level 10, x name, m at level 100, k at level 200,
   format "'let!'  x  ':='  m  'in' '//' k") : prog_scope.
Notation "'let!' ' p ':=' m 'in' k" := (bind m (fun x => match x with p => k end))
  (at level 10, p pattern, m at level 100, k at level 200,
   format "'let!'  ' p  ':='  m  'in' '//' k") : prog_scope.
Notation "'do!' m 'in' k" := (bind m (fun _ => k))
  (at level 10, m at level 100, k at level 200,
   format "'do!'  m  'in' '//' k") : prog_scope.
Open Scope prog_scope.

(** ** Allocation

    A bump allocator: an address is never used twice, NULL is 0. *)
Section Heap.
  Context `{Machine} {W : Type}.

Definition set_heap (h : heap) (s : state W) : state W := MkState h (st_os s) (st_log s).

Definition alloc_in (o : obj) (h : heap) : heap :=
  MkHeap (<[brk h := o]> (objs h)) (brk h + obj_size o + 1).

(** [malloc] followed by the initialisation of the object: the sources never
    test the result, so a failure is a store through NULL. *)
Definition malloc (o : obj) : prog W Z := fun s =>
  if mem_ok (obj_size o)
  then Ret (brk (st_heap s), set_heap (alloc_in o (st_heap s)) s)
  else Undef.

(** [free]: NULL is ignored, a pointer that is not live is undefined. *)
Definition free (p : Z) : prog W unit := fun s =>
  if p =? 0 then Ret (tt, s)
  else match objs (st_heap s) !! p with
       | Some _ => Ret (tt, set_heap (MkHeap (delete p (objs (st_heap s))) (brk (st_heap s))) s)
       | None => Undef
       end.

(** [free] of every pointer of a list, in order. *)
Fixpoint free_all (ps : list Z) : prog W unit :=
  match ps with
  | [] => ret tt
  | p :: ps => do! free p in free_all ps
  end.

Definition load_entry (p : Z) : prog W my_dir_entry := fun s =>
  match objs (st_heap s) !! p with
  | Some (OEntry e) => Ret (e, s)
  | _ => Undef
  end.

(** The bytes from [p] to the end of the object [p] points into. *)
Definition points_into (p : Z) (ao : Z * obj) : Prop :=
  match ao with
  | (a, OBlock b) => a ≤ p ∧ p < a + zlen b
  | (_, OEntry _) => False
  end.
#[export] Instance points_into_dec p ao : Decision (points_into p ao).
Proof. destruct ao as [a [e|b]]; simpl; apply _. Defined.

Definition block_at (h : heap) (p : Z) : bytes :=
  match list_find (points_into p) (map_to_list (objs h)) with
  | Some (_, (a, OBlock b)) => drop (Z.to_nat (p - a)) b
  | _ => []
  end.
(** A store of [data] at offset [off] of the block at [p]. *)
Definition store_block (p off : Z) (data : bytes) : prog W unit := fun s =>
  match objs (st_heap s) !! p with
  | Some (OBlock b) =>
      if bool_decide (0 ≤ off ∧ off + zlen data ≤ zlen b)
      then Ret (tt, set_heap (MkHeap (<[p := OBlock (take (Z.to_nat off) b ++ data ++
                 drop (Z.to_nat (off + zlen data)) b)]> (objs (st_heap s)))
                 (brk (st_heap s))) s)
      else Undef
  | _ => Undef
  end.

Definition load_block (p : Z) : prog W bytes := fun s => Ret (block_at (st_heap s) p, s).

(** ** Well-formed heaps: live objects lie below [brk] and do not overlap. *)
Definition heap_wf (h : heap) : Prop :=
  0 < brk h ∧
  (∀ a o, objs h !! a = Some o → 0 < a ∧ a + obj_size o < brk h ∧ 0 ≤ obj_size o) ∧
  (∀ a a' o o', objs h !! a = Some o → objs h !! a' = Some o' → a < a' → a + obj_size o < a').

(** Every object of [h] is still there in [h'], at the same address. *)
Definition heap_le (h h' : heap) : Prop := objs h ⊆ objs h' ∧ brk h ≤ brk h'.

#[export] Instance heap_le_preorder : PreOrder heap_le.
Proof.
  split; [by intros h; split; [|lia]|].
  intros h1 h2 h3 [H1 ?] [H2 ?]. split; [by etrans|lia].
Qed.

Lemma alloc_wf o h : heap_wf h → 0 ≤ obj_size o → heap_wf (alloc_in o h).
Proof.
  intros (Hb & Hobj & Hdis) Ho. unfold alloc_in. split; [|split]; simpl.
  - lia.
  - intros a o' [[<- <-]|[? Ha]]%lookup_insert_Some; [lia|].
    specialize (Hobj _ _ Ha). lia.
  - intros a a' o1 o2 [[<- <-]|[? Ha]]%lookup_insert_Some
      [[<- <-]|[? Ha']]%lookup_insert_Some Hlt; [lia| | |by eauto].
    + specialize (Hobj _ _ Ha'). lia.
    + specialize (Hobj _ _ Ha). lia.
Qed.

Lemma alloc_fresh h : heap_wf h → objs h !! brk h = None.
Proof.
  intros (_ & Hobj & _). destruct (objs h !! brk h) as [o|] eqn:E; [|done].
  specialize (Hobj _ _ E). lia.
Qed.

Lemma alloc_le o h : heap_wf h → 0 ≤ obj_size o → heap_le h (alloc_in o h).
Proof.
  intros Hwf Ho. split; simpl; [by apply insert_subseteq, alloc_fresh|lia].
Qed.

Lemma block_at_eq h a b p :
  heap_wf h → objs h !! a = Some (OBlock b) → a ≤ p < a + zlen b →
  block_at h p = drop (Z.to_nat (p - a)) b.
Proof.
  intros (_ & _ & Hdis) Ha Hp. unfold block_at.
  destruct (list_find _ _) as [[i [a' o]]|] eqn:E; cycle 1.
  { eapply list_find_None in E. rewrite Forall_forall in E.
    apply elem_of_map_to_list in Ha. specialize (E _ Ha). simpl in E. tauto. }
  apply list_find_Some in E as (Hi & HP & _).
  apply list_elem_of_lookup_2, elem_of_map_to_list in Hi.
  destruct o as [|b']; [done|]. simpl in HP.
  destruct (Z.lt_trichotomy a a') as [Hlt|[->|Hlt]].
  - specialize (Hdis _ _ _ _ Ha Hi Hlt). simpl in Hdis. lia.
  - by simplify_eq.
  - specialize (Hdis _ _ _ _ Hi Ha Hlt). simpl in Hdis. lia.
Qed.

(** Freeing live objects, each once. *)
Lemma free_all_run ps (s : state W) :
  NoDup ps → Forall (fun p => p ≠ 0 ∧ is_Some (objs (st_heap s) !! p)) ps →
  ∃ s', free_all ps s = Ret (tt, s') ∧
    (∀ a, objs (st_heap s') !! a = if bool_decide (a ∈ ps) then None else objs (st_heap s) !! a) ∧
    brk (st_heap s') = brk (st_heap s) ∧ st_os s' = st_os s ∧ st_log s' = st_log s.
Proof.
  intros Hnd. revert s. induction Hnd as [|p ps Hp _ IH]; intros s Hlive.
  { by exists s. }
  apply Forall_cons in Hlive as [[Hp0 [o Ho]] Hlive].
  set (s1 := set_heap (MkHeap (delete p (objs (st_heap s))) (brk (st_heap s))) s).
  destruct (IH s1) as (s' & Hrun & Hobjs & Hb & Hw & Hlog).
  { rewrite Forall_forall in *. intros q Hq. destruct (Hlive q Hq) as [? ?].
    split; [done|]. simpl. rewrite lookup_delete_ne by (intros ->; done). done. }
  exists s'. split_and!; [|intros a; rewrite Hobjs|done..].
  - cbn [free_all]. rewrite (bind_eq (free p) _ s tt s1); [done|].
    unfold free. rewrite (proj2 (Z.eqb_neq _ _)), Ho by done. done.
  - simpl. destruct (decide (a = p)) as [->|Hne].
    + rewrite lookup_delete_eq. rewrite (bool_decide_true (p ∈ p :: ps)) by set_solver.
      by destruct (bool_decide _).
    + rewrite lookup_delete_ne by done. repeat case_bool_decide; set_solver.
Qed.

End Heap.

(** ** Total correctness

    [total m Q s]: from [s] the program [m] returns, in a state and with a value that
    satisfy [Q]; in particular it neither exits, nor runs into undefined behaviour,
    nor loops. *)
Section Total.
  Context {W : Type}.

Definition total {A} (m : prog W A) (Q : A → state W → Prop) (s : state W) : Prop :=
  match m s with Ret (a, s') => Q a s' | _ => False end.

Lemma total_run {A} (m : prog W A) Q s :
  total m Q s → ∃ a s', m s = Ret (a, s') ∧ Q a s'.
Proof. unfold total. destruct (m s) as [[a s']| | |]; [by exists a, s'|done..]. Qed.

Lemma total_mono {A} (m : prog W A) (Q Q' : A → state W → Prop) s :
  (∀ a s', Q a s' → Q' a s') → total m Q s → total m Q' s.
Proof. intros HQ. unfold total. destruct (m s) as [[a s']| | |]; auto. Qed.

Lemma total_ret {A} (a : A) (Q : A → state W → Prop) s : Q a s → total (ret a) Q s.
Proof. done. Qed.

Lemma total_bind {A B} (m : prog W A) (k : A → prog W B) Q s :
  total m (fun a s' => total (k a) Q s') s → total (bind m k) Q s.
Proof. unfold total, bind. by destruct (m s) as [[a s']| | |]. Qed.

Lemma total_lift {A} (o : outcome A) (a : A) (Q : A → state W → Prop) s :
  o = Ret a → Q a s → total (lift o) Q s.
Proof. by intros ->. Qed.

Lemma total_sys {A} (call : W → A * W) (Q : A → state W → Prop) s :
  (∀ a w, call (st_os s) = (a, w) → Q a (MkState (st_heap s) w (st_log s))) →
  total (sys call) Q s.
Proof. intros HQ. unfold total, sys. destruct (call (st_os s)) as [a w] eqn:E. by apply HQ. Qed.

Lemma total_print b (Q : unit → state W → Prop) s :
  Q tt (MkState (st_heap s) (st_os s) (st_log s ++ [Stdout b])) → total (print b) Q s.
Proof. done. Qed.

Lemma total_eprint b (Q : unit → state W → Prop) s :
  Q tt (MkState (st_heap s) (st_os s) (st_log s ++ [Stderr b])) → total (eprint b) Q s.
Proof. done. Qed.

End Total.

(** Runs one step of a program whose first action is known to return. *)
Ltac inv_prog :=
  repeat match goal with
  | H : bind _ _ _ = Ret (_, _) |- _ =>
      let a := fresh "a" in let s := fresh "st" in let H1 := fresh "Hrun" in
      apply bind_inv in H as (a & s & H1 & H)
  | H : ret _ _ = Ret _ |- _ => unfold ret in H
  | H : exit _ _ = Ret _ |- _ => discriminate H
  | H : undef _ = Ret _ |- _ => discriminate H
  | H : spin _ = Ret _ |- _ => discriminate H
  | H : lift _ _ = Ret _ |- _ => unfold lift in H
  | H : Ret (_, _) = Ret (_, _) |- _ => injection H as H; subst
  end; inv_outcome.
