(* ===== verification/Desc.v ===== *)
(** * Group descriptors: e2fsprogs/lib/ext2fs/blknum.c

    The I/O channel below the library, the descriptor of a group, wherever it is (in
    memory, or on the disk when it has not been read), and the functions that read and
    change its fields. *)
From S2P Require Export Super Prog.
#[local] Open Scope Z_scope.

(** ** What is below: an I/O channel

    [io_channel_read_blk64] and [io_channel_write_blk64] of an open channel: the block
    size it is set to, a block, a count of blocks (of bytes when it is negative).  The
    manager behind it (unix_io.c and its cache) is not modelled. *)
Class IoChannel (W : Type) : Type := {
  io_read_blk64 : Z → Z → Z → W → (Z * bytes) * W;
  io_write_blk64 : Z → Z → Z → bytes → W → Z * W;
}.

(** ** struct ext4_group_desc *)
Definition bg_block_bitmap : nat := 0x00.
Definition bg_inode_bitmap : nat := 0x04.
Definition bg_inode_table : nat := 0x08.
Definition bg_free_blocks_count : nat := 0x0c.
Definition bg_free_inodes_count : nat := 0x0e.
Definition bg_used_dirs_count : nat := 0x10.
Definition bg_flags : nat := 0x12.
Definition bg_block_bitmap_csum_lo : nat := 0x18.
Definition bg_inode_bitmap_csum_lo : nat := 0x1a.
Definition bg_itable_unused : nat := 0x1c.
Definition bg_checksum : nat := 0x1e.
Definition bg_block_bitmap_hi : nat := 0x20.
Definition bg_inode_bitmap_hi : nat := 0x24.
Definition bg_inode_table_hi : nat := 0x28.
Definition bg_free_blocks_count_hi : nat := 0x2c.
Definition bg_free_inodes_count_hi : nat := 0x2e.
Definition bg_used_dirs_count_hi : nat := 0x30.
Definition bg_itable_unused_hi : nat := 0x32.
Definition bg_block_bitmap_csum_hi : nat := 0x38.
Definition bg_inode_bitmap_csum_hi : nat := 0x3a.
Definition EXT4_BG_INODE_BITMAP_CSUM_HI_END : Z := 0x3c.
Definition EXT4_BG_BLOCK_BITMAP_CSUM_HI_LOCATION : Z := 0x3a.

(** A field at a pointer, undefined outside of the buffer. *)
Definition desc_get (n off : nat) (d : bytes) : outcome Z :=
  if bool_decide (off + n <= length d)%nat then Ret (fld n off d) else Undef.
Definition desc_set (n off : nat) (v : Z) (d : bytes) : outcome bytes :=
  if bool_decide (off + n <= length d)%nat then Ret (set_fld n off v d) else Undef.

(** Two halves of [n] bytes, the high one under a condition. *)
Definition pair_get (wide : bool) (n lo hi : nat) (d : bytes) : outcome Z :=
  let? l := desc_get n lo d in
  if wide then let? h := desc_get n hi d in Ret (Z.lor l (Z.shiftl h (8 * Z.of_nat n))) else Ret l.
Definition pair_set (wide : bool) (n lo hi : nat) (v : Z) (d : bytes) : outcome bytes :=
  let? d := desc_set n lo v d in
  if wide then desc_set n hi (Z.shiftr v (8 * Z.of_nat n)) d else Ret d.

Section Desc.
  Context `{Machine} {W : Type} `{IoChannel W}.

(** The size of a descriptor in memory. *)
Definition desc_size_of (fs : ext2_filsys) : Z := Z.land (EXT2_DESC_SIZE (f_super fs)) (Z.lnot 7).

(** The bytes from the descriptor on, [None] for NULL.  When the descriptors have not been
    read, the block that holds it is read into a buffer of the function. *)
Definition ext2fs_group_desc (fs : ext2_filsys) (group : Z) : prog W (option bytes) :=
  let desc_size := desc_size_of fs in
  let! desc_per_blk := lift (EXT2_DESC_PER_BLOCK (f_super fs)) in
  if f_group_desc_count fs <? group then ret None else
  match f_group_desc fs with
  | Some gdp => ret (Some (drop (Z.to_nat (u32 (group * desc_size))) gdp))
  | None =>
      if negb (mem_ok (f_blocksize fs)) then ret None else
      if desc_per_blk =? 0 then undef else
      let! blk := lift (ext2fs_descriptor_block_loc2 fs (s_first_data_block (f_super fs)) (group / desc_per_blk)) in
      let! '(retval, buf) := sys (io_read_blk64 (f_blocksize fs) (if long64 then blk else u32 blk) 1) in
      if negb (retval =? 0) then ret None else
      ret (Some (drop (Z.to_nat (group mod desc_per_blk * desc_size)) buf))
  end.

(** A function of a descriptor: NULL is not tested. *)
Definition with_desc {A} (fs : ext2_filsys) (group : Z) (f : bytes → outcome A) : prog W A :=
  let! gdp := ext2fs_group_desc fs group in
  match gdp with Some d => lift (f d) | None => undef end.
(** A change of a descriptor: of the table in memory, or of the buffer, which is lost. *)
Definition set_desc (fs : ext2_filsys) (group : Z) (f : bytes → outcome bytes) : prog W ext2_filsys :=
  let! d := with_desc fs group f in
  match f_group_desc fs with
  | Some gdp => ret (set_group_desc (Some (take (Z.to_nat (u32 (group * desc_size_of fs))) gdp ++ d)) fs)
  | None => ret fs
  end.

Definition wide (fs : ext2_filsys) : bool := has_feature_64bit (f_super fs).

(** ** The accessors *)
Definition ext2fs_block_bitmap_checksum (fs : ext2_filsys) (group : Z) : prog W Z :=
  with_desc fs group
    (pair_get (EXT4_BG_BLOCK_BITMAP_CSUM_HI_LOCATION <=? EXT2_DESC_SIZE (f_super fs))
       2 bg_block_bitmap_csum_lo bg_block_bitmap_csum_hi).
Definition ext2fs_inode_bitmap_checksum (fs : ext2_filsys) (group : Z) : prog W Z :=
  with_desc fs group
    (pair_get (EXT4_BG_INODE_BITMAP_CSUM_HI_END <=? EXT2_DESC_SIZE (f_super fs))
       2 bg_inode_bitmap_csum_lo bg_inode_bitmap_csum_hi).

Definition ext2fs_block_bitmap_loc (fs : ext2_filsys) (group : Z) : prog W Z :=
  with_desc fs group (pair_get (wide fs) 4 bg_block_bitmap bg_block_bitmap_hi).
Definition ext2fs_block_bitmap_loc_set (fs : ext2_filsys) (group blk : Z) : prog W ext2_filsys :=
  set_desc fs group (pair_set (wide fs) 4 bg_block_bitmap bg_block_bitmap_hi blk).
Definition ext2fs_inode_bitmap_loc (fs : ext2_filsys) (group : Z) : prog W Z :=
  with_desc fs group (pair_get (wide fs) 4 bg_inode_bitmap bg_inode_bitmap_hi).
Definition ext2fs_inode_bitmap_loc_set (fs : ext2_filsys) (group blk : Z) : prog W ext2_filsys :=
  set_desc fs group (pair_set (wide fs) 4 bg_inode_bitmap bg_inode_bitmap_hi blk).
Definition ext2fs_inode_table_loc (fs : ext2_filsys) (group : Z) : prog W Z :=
  with_desc fs group (pair_get (wide fs) 4 bg_inode_table bg_inode_table_hi).
Definition ext2fs_inode_table_loc_set (fs : ext2_filsys) (group blk : Z) : prog W ext2_filsys :=
  set_desc fs group (pair_set (wide fs) 4 bg_inode_table bg_inode_table_hi blk).
Definition ext2fs_bg_free_blocks_count (fs : ext2_filsys) (group : Z) : prog W Z :=
  with_desc fs group (pair_get (wide fs) 2 bg_free_blocks_count bg_free_blocks_count_hi).
Definition ext2fs_bg_free_blocks_count_set (fs : ext2_filsys) (group n : Z) : prog W ext2_filsys :=
  set_desc fs group (pair_set (wide fs) 2 bg_free_blocks_count bg_free_blocks_count_hi n).
Definition ext2fs_bg_free_inodes_count (fs : ext2_filsys) (group : Z) : prog W Z :=
  with_desc fs group (pair_get (wide fs) 2 bg_free_inodes_count bg_free_inodes_count_hi).
Definition ext2fs_bg_free_inodes_count_set (fs : ext2_filsys) (group n : Z) : prog W ext2_filsys :=
  set_desc fs group (pair_set (wide fs) 2 bg_free_inodes_count bg_free_inodes_count_hi n).
Definition ext2fs_bg_used_dirs_count (fs : ext2_filsys) (group : Z) : prog W Z :=
  with_desc fs group (pair_get (wide fs) 2 bg_used_dirs_count bg_used_dirs_count_hi).
Definition ext2fs_bg_used_dirs_count_set (fs : ext2_filsys) (group n : Z) : prog W ext2_filsys :=
  set_desc fs group (pair_set (wide fs) 2 bg_used_dirs_count bg_used_dirs_count_hi n).
Definition ext2fs_bg_itable_unused (fs : ext2_filsys) (group : Z) : prog W Z :=
  with_desc fs group (pair_get (wide fs) 2 bg_itable_unused bg_itable_unused_hi).
Definition ext2fs_bg_itable_unused_set (fs : ext2_filsys) (group n : Z) : prog W ext2_filsys :=
  set_desc fs group (pair_set (wide fs) 2 bg_itable_unused bg_itable_unused_hi n).

Definition ext2fs_bg_flags (fs : ext2_filsys) (group : Z) : prog W Z :=
  with_desc fs group (desc_get 2 bg_flags).
Definition ext2fs_bg_flags_zap (fs : ext2_filsys) (group : Z) : prog W ext2_filsys :=
  set_desc fs group (desc_set 2 bg_flags 0).
Definition ext2fs_bg_flags_test (fs : ext2_filsys) (group bg_flag : Z) : prog W Z :=
  with_desc fs group (fun d => let? f := desc_get 2 bg_flags d in Ret (Z.land f bg_flag)).
Definition ext2fs_bg_flags_set (fs : ext2_filsys) (group flags : Z) : prog W ext2_filsys :=
  set_desc fs group (fun d => let? f := desc_get 2 bg_flags d in desc_set 2 bg_flags (Z.lor f flags) d).
Definition ext2fs_bg_flags_clear (fs : ext2_filsys) (group flags : Z) : prog W ext2_filsys :=
  set_desc fs group (fun d => let? f := desc_get 2 bg_flags d in desc_set 2 bg_flags (Z.land f (Z.lnot flags)) d).
Definition ext2fs_bg_checksum (fs : ext2_filsys) (group : Z) : prog W Z :=
  with_desc fs group (desc_get 2 bg_checksum).
Definition ext2fs_bg_checksum_set (fs : ext2_filsys) (group checksum : Z) : prog W ext2_filsys :=
  set_desc fs group (desc_set 2 bg_checksum checksum).
End Desc.

(** ** The table in memory *)
Lemma set_fld_app n off v k g : (k + off + n <= length g)%nat →
  take k g ++ set_fld n off v (drop k g) = set_fld n (k + off) v g.
Proof.
  intros Hl. unfold set_fld. rewrite drop_drop, app_assoc, take_take_drop. do 3 f_equal. lia.
Qed.
Lemma fld_drop n off k g : fld n off (drop k g) = fld n (k + off) g.
Proof. unfold fld. by rewrite drop_drop. Qed.
Lemma drop_set_fld n off v k g : (k + off + n <= length g)%nat →
  drop k (set_fld n (k + off) v g) = set_fld n off v (drop k g).
Proof.
  intros Hl. rewrite <- set_fld_app by done. rewrite drop_app_length'; [done|].
  rewrite length_take. lia.
Qed.

Definition pair_val (wide : bool) (n lo hi k : nat) (gd : bytes) : Z :=
  if wide then Z.lor (fld n (k + lo) gd) (Z.shiftl (fld n (k + hi) gd) (8 * Z.of_nat n)) else fld n (k + lo) gd.
Definition pair_upd (wide : bool) (n lo hi : nat) (v : Z) (k : nat) (gd : bytes) : bytes :=
  let gd := set_fld n (k + lo) v gd in
  if wide then set_fld n (k + hi) (Z.shiftr v (8 * Z.of_nat n)) gd else gd.

Lemma pair_get_run wide n lo hi k gd :
  (k + lo + n <= length gd)%nat → (wide = true → k + hi + n <= length gd)%nat →
  pair_get wide n lo hi (drop k gd) = Ret (pair_val wide n lo hi k gd).
Proof.
  intros Hlo Hhi. unfold pair_get, desc_get. rewrite length_drop, bool_decide_true by lia.
  cbn [obind]. unfold pair_val. destruct wide; [|by rewrite fld_drop].
  specialize (Hhi eq_refl). rewrite bool_decide_true by lia. cbn [obind]. by rewrite !fld_drop.
Qed.
Lemma pair_set_run wide n lo hi v k gd :
  (k + lo + n <= length gd)%nat → (wide = true → k + hi + n <= length gd)%nat →
  ∃ d, pair_set wide n lo hi v (drop k gd) = Ret d ∧ take k gd ++ d = pair_upd wide n lo hi v k gd.
Proof.
  intros Hlo Hhi. unfold pair_set, desc_set. rewrite length_drop, bool_decide_true by lia.
  cbn [obind]. unfold pair_upd. destruct wide; cycle 1.
  { eexists. split; [done|]. apply set_fld_app. lia. }
  specialize (Hhi eq_refl). rewrite set_fld_length, length_drop, bool_decide_true by (rewrite ?length_drop; lia).
  eexists. split; [done|].
  rewrite <- drop_set_fld by lia.
  rewrite <- (set_fld_app n hi _ k) by (rewrite set_fld_length; lia). f_equal.
  unfold set_fld. rewrite take_app_le by (rewrite length_take; lia). rewrite take_take. f_equal. lia.
Qed.

Lemma pair_upd_length wide n lo hi v k gd :
  (k + lo + n <= length gd)%nat → (wide = true → k + hi + n <= length gd)%nat →
  length (pair_upd wide n lo hi v k gd) = length gd.
Proof.
  intros Hlo Hhi. unfold pair_upd. destruct wide; [specialize (Hhi eq_refl)|];
    rewrite ?set_fld_length; rewrite ?set_fld_length; lia.
Qed.
Lemma pair_upd_other wide n lo hi v k gd m off :
  (k + lo + n <= length gd)%nat → (wide = true → k + hi + n <= length gd)%nat →
  (off + m <= k + lo ∨ k + lo + n <= off)%nat → (wide = true → off + m <= k + hi ∨ k + hi + n <= off)%nat →
  fld m off (pair_upd wide n lo hi v k gd) = fld m off gd.
Proof.
  intros Hlo Hhi H1 H2. unfold pair_upd. destruct wide.
  - specialize (Hhi eq_refl). specialize (H2 eq_refl).
    rewrite !fld_set_other by (rewrite ?set_fld_length; lia). done.
  - by rewrite fld_set_other by lia.
Qed.

Lemma lor_pair n a b : 0 ≤ n → 0 ≤ a < 2 ^ n → Z.lor a (Z.shiftl b n) = a + 2 ^ n * b.
Proof. intros. rewrite Z.shiftl_mul_pow2, lor_add_disjoint by lia. lia. Qed.

Lemma pair_val_upd wide n lo hi v k gd :
  (k + lo + n <= length gd)%nat → (wide = true → k + hi + n <= length gd)%nat → (lo + n <= hi)%nat →
  pair_val wide n lo hi k (pair_upd wide n lo hi v k gd) =
  v mod 2 ^ (8 * Z.of_nat n * (if wide then 2 else 1)).
Proof.
  intros Hlo Hhi Hd. unfold pair_val, pair_upd.
  assert (E : 256 ^ Z.of_nat n = 2 ^ (8 * Z.of_nat n)) by (by rewrite Z.pow_mul_r by lia).
  destruct wide.
  - specialize (Hhi eq_refl).
    rewrite (fld_set_other n (k + hi)), !fld_set, !E by (rewrite ?set_fld_length; lia).
    set (q := 8 * Z.of_nat n). assert (0 ≤ q) by lia. pose proof (Z.mod_pos_bound v (2 ^ q)).
    rewrite lor_pair, Z.shiftr_div_pow2 by lia.
    replace (q * 2) with (q + q) by lia. rewrite Z.pow_add_r, Z.rem_mul_r by lia. done.
  - rewrite fld_set, E by lia. f_equal. f_equal. lia.
Qed.

(** ** The items of a descriptor *)
Inductive bg_item : Type :=
  | BlockBitmap | InodeBitmap | InodeTable | FreeBlocks | FreeInodes | UsedDirs | ItableUnused | Checksum.
#[export] Instance bg_item_eq_dec : EqDecision bg_item.
Proof. solve_decision. Defined.

Definition item_size (it : bg_item) : nat :=
  match it with BlockBitmap | InodeBitmap | InodeTable => 4 | _ => 2 end.
Definition item_lo (it : bg_item) : nat :=
  match it with
  | BlockBitmap => bg_block_bitmap | InodeBitmap => bg_inode_bitmap | InodeTable => bg_inode_table
  | FreeBlocks => bg_free_blocks_count | FreeInodes => bg_free_inodes_count
  | UsedDirs => bg_used_dirs_count | ItableUnused => bg_itable_unused | Checksum => bg_checksum
  end.
Definition item_hi (it : bg_item) : nat :=
  match it with
  | BlockBitmap => bg_block_bitmap_hi | InodeBitmap => bg_inode_bitmap_hi | InodeTable => bg_inode_table_hi
  | FreeBlocks => bg_free_blocks_count_hi | FreeInodes => bg_free_inodes_count_hi
  | UsedDirs => bg_used_dirs_count_hi | ItableUnused => bg_itable_unused_hi | Checksum => 0x40
  end.
(** A checksum has no high half. *)
Definition item_wide (fs : ext2_filsys) (it : bg_item) : bool :=
  match it with Checksum => false | _ => wide fs end.
Definition item_bits (fs : ext2_filsys) (it : bg_item) : Z :=
  8 * Z.of_nat (item_size it) * (if item_wide fs it then 2 else 1).

(** Halves of items lie within the descriptor and apart. *)
Lemma item_layout it it' :
  (item_lo it + item_size it <= 32)%nat ∧ (it ≠ Checksum → item_hi it + item_size it <= 64)%nat ∧
  (32 <= item_hi it)%nat ∧
  (it ≠ it' → (item_lo it + item_size it <= item_lo it' ∨ item_lo it' + item_size it' <= item_lo it)%nat ∧
              (item_hi it + item_size it <= item_hi it' ∨ item_hi it' + item_size it' <= item_hi it)%nat).
Proof.
  split_and!; [by destruct it; apply Nat.leb_le|destruct it; intros; by apply Nat.leb_le || done
              |by destruct it; apply Nat.leb_le|].
  intros Hne. destruct it, it'; try done; split; first [left; by apply Nat.leb_le|right; by apply Nat.leb_le].
Qed.

(** The descriptors are in memory, every group has its own. *)
Record descs_ready (fs : ext2_filsys) (gd : bytes) : Prop := {
  dr_desc : f_group_desc fs = Some gd;
  dr_size : 32 ≤ desc_size_of fs;
  dr_wide : wide fs = true → 64 ≤ desc_size_of fs;
  dr_positive : 0 < EXT2_DESC_SIZE (f_super fs);
  dr_room : f_group_desc_count fs * desc_size_of fs ≤ zlen gd;
  dr_32 : f_group_desc_count fs * desc_size_of fs < 2 ^ 32;
}.

Section Ready.
  Context `{Machine} {W : Type} `{IoChannel W}.

Definition item_get (it : bg_item) : ext2_filsys → Z → prog W Z :=
  match it with
  | BlockBitmap => ext2fs_block_bitmap_loc | InodeBitmap => ext2fs_inode_bitmap_loc
  | InodeTable => ext2fs_inode_table_loc | FreeBlocks => ext2fs_bg_free_blocks_count
  | FreeInodes => ext2fs_bg_free_inodes_count | UsedDirs => ext2fs_bg_used_dirs_count
  | ItableUnused => ext2fs_bg_itable_unused | Checksum => ext2fs_bg_checksum
  end.
Definition item_set (it : bg_item) : ext2_filsys → Z → Z → prog W ext2_filsys :=
  match it with
  | BlockBitmap => ext2fs_block_bitmap_loc_set | InodeBitmap => ext2fs_inode_bitmap_loc_set
  | InodeTable => ext2fs_inode_table_loc_set | FreeBlocks => ext2fs_bg_free_blocks_count_set
  | FreeInodes => ext2fs_bg_free_inodes_count_set | UsedDirs => ext2fs_bg_used_dirs_count_set
  | ItableUnused => ext2fs_bg_itable_unused_set | Checksum => ext2fs_bg_checksum_set
  end.

Context (fs : ext2_filsys) (gd : bytes) (Hr : descs_ready fs gd).
Abbreviation ds := (Z.to_nat (desc_size_of fs)).

Lemma desc_run g (s : state W) : 0 ≤ g < f_group_desc_count fs →
  ext2fs_group_desc fs g s = Ret (Some (drop (Z.to_nat g * ds) gd), s).
Proof.
  intros Hg. destruct Hr as [E Hs Hw Hp Hroom H32]. unfold ext2fs_group_desc, EXT2_DESC_PER_BLOCK.
  destruct (Z.eqb_spec (EXT2_DESC_SIZE (f_super fs)) 0); [lia|]. unfold bind, lift. cbn [obind].
  destruct (Z.ltb_spec (f_group_desc_count fs) g); [lia|]. rewrite E. unfold ret.
  assert (g * desc_size_of fs ≤ f_group_desc_count fs * desc_size_of fs) by (apply Z.mul_le_mono_nonneg_r; lia).
  rewrite u32_small by lia. do 4 f_equal. lia.
Qed.

(** A descriptor is inside of the table. *)
Lemma desc_room g : 0 ≤ g < f_group_desc_count fs → (Z.to_nat g * ds + ds <= length gd)%nat.
Proof.
  intros Hg. destruct Hr as [E Hs Hw Hp Hroom H32].
  assert ((g + 1) * desc_size_of fs ≤ f_group_desc_count fs * desc_size_of fs) by (apply Z.mul_le_mono_nonneg_r; lia).
  nia.
Qed.

Lemma item_in g it : 0 ≤ g < f_group_desc_count fs →
  (Z.to_nat g * ds + item_lo it + item_size it <= length gd)%nat ∧
  (item_wide fs it = true → Z.to_nat g * ds + item_hi it + item_size it <= length gd)%nat.
Proof.
  intros Hg. pose proof (desc_room g Hg). destruct Hr as [E Hs Hw Hp Hroom H32].
  destruct (item_layout it it) as (? & H2 & _). split; [lia|]. intros Hwide.
  assert (it ≠ Checksum ∧ wide fs = true) as [Hc ?] by (by destruct it).
  specialize (Hw ltac:(done)). specialize (H2 Hc). lia.
Qed.

Definition item_val (it : bg_item) (g : Z) (gd : bytes) : Z :=
  pair_val (item_wide fs it) (item_size it) (item_lo it) (item_hi it) (Z.to_nat g * ds) gd.

Lemma item_get_run it g (s : state W) : 0 ≤ g < f_group_desc_count fs →
  item_get it fs g s = Ret (item_val it g gd, s).
Proof.
  intros Hg. destruct (item_in g it Hg) as [H1 H2].
  assert (E : item_get it fs g s = with_desc fs g
    (pair_get (item_wide fs it) (item_size it) (item_lo it) (item_hi it)) s).
  { destruct it; try reflexivity. unfold pair_get. cbn.
    unfold ext2fs_bg_checksum, with_desc. apply bind_ext. intros [d|] s'; [|done].
    unfold lift. by rewrite obind_ret_r. }
  rewrite E. unfold with_desc. rewrite (bind_eq _ _ _ _ _ (desc_run g s Hg)).
  unfold lift. by rewrite pair_get_run.
Qed.

Lemma item_set_run it g v (s : state W) : 0 ≤ g < f_group_desc_count fs →
  item_set it fs g v s =
    Ret (set_group_desc (Some (pair_upd (item_wide fs it) (item_size it) (item_lo it) (item_hi it) v
                                 (Z.to_nat g * ds) gd)) fs, s).
Proof.
  intros Hg. destruct (item_in g it Hg) as [H1 H2].
  destruct (pair_set_run (item_wide fs it) (item_size it) (item_lo it) (item_hi it) v
              (Z.to_nat g * ds) gd H1 H2) as (d & Ed & Eu).
  assert (E : item_set it fs g v s = set_desc fs g
    (pair_set (item_wide fs it) (item_size it) (item_lo it) (item_hi it) v) s).
  { destruct it; try reflexivity. cbn. unfold pair_set, ext2fs_bg_checksum_set, set_desc, with_desc, bind.
    destruct (ext2fs_group_desc fs g s) as [[[d'|] s']| | |]; try done. cbn [obind]. unfold lift.
    by rewrite obind_ret_r. }
  rewrite E. unfold set_desc, with_desc. rewrite bind_assoc, (bind_eq _ _ _ _ _ (desc_run g s Hg)).
  unfold bind, lift. rewrite Ed. cbn [obind]. destruct Hr as [Egd Hs Hw Hp Hroom H32]. rewrite Egd. unfold ret.
  assert (g * desc_size_of fs ≤ f_group_desc_count fs * desc_size_of fs) by (apply Z.mul_le_mono_nonneg_r; lia).
  rewrite u32_small by lia. rewrite <- Eu. do 6 f_equal. lia.
Qed.
End Ready.

(** ** Property *)
Section Property.
  Context `{Machine} {W : Type} `{IoChannel W}.

(** A descriptor does not overlap another one. *)
Lemma items_apart fs gd it g it' g' : descs_ready fs gd →
  0 ≤ g < f_group_desc_count fs → 0 ≤ g' < f_group_desc_count fs → (it', g') ≠ (it, g) →
  let ds := Z.to_nat (desc_size_of fs) in
  let apart o n o' n' := (o' + n' <= o ∨ o + n <= o')%nat in
  ∀ o o', o = item_lo it ∨ (item_wide fs it = true ∧ o = item_hi it) →
          o' = item_lo it' ∨ (item_wide fs it' = true ∧ o' = item_hi it') →
  apart (Z.to_nat g * ds + o)%nat (item_size it) (Z.to_nat g' * ds + o')%nat (item_size it').
Proof.
  intros Hr Hg Hg' Hne. cbv zeta. intros o o' Ho Ho'.
  assert (Hin : ∀ it o, o = item_lo it ∨ (item_wide fs it = true ∧ o = item_hi it) →
                (o + item_size it <= Z.to_nat (desc_size_of fs))%nat).
  { intros i p Hp. destruct (item_layout i i) as (? & H2 & _). destruct Hr as [_ Hs Hw _ _ _].
    destruct Hp as [->|[Hwi ->]]; [lia|].
    assert (i ≠ Checksum ∧ wide fs = true) as [Hc ?] by (by destruct i).
    specialize (Hw ltac:(done)). specialize (H2 Hc). lia. }
  pose proof (Hin it o Ho). pose proof (Hin it' o' Ho').
  destruct (decide (g' = g)) as [->|Hgg].
  - assert (Hit : it ≠ it') by congruence.
    destruct (item_layout it it') as (? & ? & ? & Hap). destruct (Hap Hit) as [? ?].
    destruct (item_layout it' it) as (? & ? & ? & _).
    destruct Ho as [->|[_ ->]], Ho' as [->|[_ ->]]; lia.
  - assert (Z.to_nat g' < Z.to_nat g ∨ Z.to_nat g < Z.to_nat g')%nat as [Hlt|Hlt] by lia.
    + left. assert ((Z.to_nat g' + 1) * Z.to_nat (desc_size_of fs) <= Z.to_nat g * Z.to_nat (desc_size_of fs))%nat
        by (apply Nat.mul_le_mono_r; lia). lia.
    + right. assert ((Z.to_nat g + 1) * Z.to_nat (desc_size_of fs) <= Z.to_nat g' * Z.to_nat (desc_size_of fs))%nat
        by (apply Nat.mul_le_mono_r; lia). lia.
Qed.

(** C28. With the descriptors in memory, each of the locations, counters and the checksum of a
    group that is set is read back, modulo its width (twice as many bits with the 64bit
    feature, except for the checksum), and nothing else changes: no other item of the
    group and no item of another group. *)
Theorem group_desc_roundtrip fs gd it g v (s : state W) :
  descs_ready fs gd → 0 ≤ g < f_group_desc_count fs →
  ∃ fs' gd', item_set it fs g v s = Ret (fs', s) ∧ descs_ready fs' gd' ∧ f_super fs' = f_super fs ∧
    f_group_desc_count fs' = f_group_desc_count fs ∧
    item_get it fs' g s = Ret (v mod 2 ^ item_bits fs it, s) ∧
    ∀ it' g', 0 ≤ g' < f_group_desc_count fs → (it', g') ≠ (it, g) →
      item_get it' fs' g' s = item_get it' fs g' s.
Proof.
  intros Hr Hg. rewrite (item_set_run fs gd) by done.
  destruct (item_in fs gd Hr g it Hg) as [H1 H2].
  set (k := (Z.to_nat g * Z.to_nat (desc_size_of fs))%nat) in *.
  set (gd' := pair_upd _ _ _ _ v k gd). set (fs' := set_group_desc (Some gd') fs).
  assert (Hl : length gd' = length gd) by (by apply pair_upd_length).
  assert (Hr' : descs_ready fs' gd').
  { destruct Hr. split; [done|done|done|done| |done]. by rewrite Hl. }
  exists fs', gd'. split; [done|]. split; [done|]. do 2 (split; [done|]). split.
  - rewrite (item_get_run fs' gd') by done. unfold item_val.
    change (desc_size_of fs') with (desc_size_of fs). change (item_wide fs' it) with (item_wide fs it). fold k.
    subst gd'. rewrite pair_val_upd; [done|done|done|].
    destruct (item_layout it it) as (? & _ & ? & _). lia.
  - intros it' g' Hg' Hne. rewrite (item_get_run fs' gd'), (item_get_run fs gd) by done.
    do 2 f_equal. unfold item_val. change (desc_size_of fs') with (desc_size_of fs).
    change (item_wide fs' it') with (item_wide fs it').
    pose proof (items_apart fs gd it g it' g' Hr Hg Hg' Hne) as Hap. cbv zeta in Hap. fold k in Hap.
    unfold pair_val. subst gd'. destruct (item_wide fs it') eqn:Hw';
    rewrite !pair_upd_other by first [done|apply Hap; tauto|intros Hw; apply Hap; tauto]; done.
Qed.
End Property.

(** ** Witness *)
Definition sample_gd : bytes := replicate 1024 0.
#[export] Instance no_channel : IoChannel unit := {
  io_read_blk64 _ _ _ w := ((0, []), w);
  io_write_blk64 _ _ _ _ w := (0, w);
}.
Lemma sample_ready : descs_ready (sample_filsys sample_super) sample_gd.
Proof. split; [reflexivity|apply (bool_decide_eq_true_1 _); vm_compute; reflexivity..]. Qed.

Lemma group_desc_roundtrip_witness :
  ∃ fs', item_set (H := x86_64) InodeTable (sample_filsys sample_super) 2 70000 (MkState (MkHeap ∅ 1) tt []) =
    Ret (fs', MkState (MkHeap ∅ 1) tt []) ∧
    item_get (H := x86_64) InodeTable fs' 2 (MkState (MkHeap ∅ 1) tt []) = Ret (70000, MkState (MkHeap ∅ 1) tt []).
Proof.
  destruct (group_desc_roundtrip (H := x86_64) (sample_filsys sample_super) sample_gd InodeTable 2 70000
    (MkState (MkHeap ∅ 1) tt []) sample_ready ltac:(apply (bool_decide_eq_true_1 _); vm_compute; reflexivity))
    as (fs' & gd' & E & _ & _ & _ & G & _).
  exists fs'. split; [exact E|]. rewrite G. vm_compute. reflexivity.
Defined.
