(* ===== verification/Csum.v ===== *)
(** * Checksums of metadata: e2fsprogs/lib/ext2fs/csum.c

    The checksums of the superblock, of the block of multiple-mount protection, of a
    block of extended attributes, of an inode, of the bitmaps and of a group descriptor:
    for each, its computation, its test and its update.  Where the buffer is in memory
    does not matter to the CRC (Crc.v): the address is taken to be 0. *)
From S2P Require Export Crc Desc.
#[local] Open Scope Z_scope.

Definition EXT2_CRC32C_CHKSUM : Z := 1.
Definition crc32c (crc : Z) (p : bytes) : Z := ext2fs_crc32c_le 0 crc p.
(** [~0], as a seed *)
Definition ONES : Z := 2 ^ 32 - 1.

(** [s_checksum_seed], or the checksum of the UUID. *)
Definition ext2fs_init_csum_seed (fs : ext2_filsys) : ext2_filsys :=
  let sb := f_super fs in
  if has_feature_csum_seed sb then set_csum_seed (s_checksum_seed sb) fs
  else if has_feature_metadata_csum sb || has_feature_ea_inode sb
  then set_csum_seed (crc32c ONES (s_uuid sb)) fs else fs.

(** ** Multiple-mount protection *)
Definition mmp_checksum : nat := 1020.
Definition ext2fs_mmp_csum (fs : ext2_filsys) (mmp : bytes) : Z := crc32c (f_csum_seed fs) (take mmp_checksum mmp).
Definition ext2fs_mmp_csum_verify (fs : ext2_filsys) (mmp : bytes) : bool :=
  if negb (has_feature_metadata_csum (f_super fs)) then true
  else fld 4 mmp_checksum mmp =? ext2fs_mmp_csum fs mmp.
Definition ext2fs_mmp_csum_set (fs : ext2_filsys) (mmp : bytes) : bytes :=
  if negb (has_feature_metadata_csum (f_super fs)) then mmp
  else set_fld 4 mmp_checksum (ext2fs_mmp_csum fs mmp) mmp.

(** ** The superblock *)
Definition ext2fs_verify_csum_type (fs : ext2_filsys) (sb : bytes) : bool :=
  if negb (has_feature_metadata_csum (f_super fs)) then true
  else s_checksum_type sb =? EXT2_CRC32C_CHKSUM.
Definition ext2fs_superblock_csum (sb : bytes) : Z := crc32c ONES (take 0x3fc sb).
Definition ext2fs_superblock_csum_verify (fs : ext2_filsys) (sb : bytes) : bool :=
  if negb (has_feature_metadata_csum (f_super fs)) then true
  else s_checksum sb =? ext2fs_superblock_csum sb.
Definition ext2fs_superblock_csum_set (fs : ext2_filsys) (sb : bytes) : bytes :=
  if negb (has_feature_metadata_csum (f_super fs)) then sb
  else set_fld 4 0x3fc (ext2fs_superblock_csum sb) sb.

(** ** A block of extended attributes *)
Definition h_checksum : nat := 0x10.
Definition ext2fs_ext_attr_block_csum (fs : ext2_filsys) (block : Z) (hdr : bytes) : Z :=
  let buf := set_fld 4 h_checksum 0 hdr in
  crc32c (crc32c (f_csum_seed fs) (le_split 8 block)) buf.
Definition ext2fs_ext_attr_block_csum_verify (fs : ext2_filsys) (block : Z) (hdr : bytes) : bool :=
  if negb (has_feature_metadata_csum (f_super fs)) then true
  else fld 4 h_checksum hdr =? ext2fs_ext_attr_block_csum fs block hdr.
Definition ext2fs_ext_attr_block_csum_set (fs : ext2_filsys) (block : Z) (hdr : bytes) : bytes :=
  if negb (has_feature_metadata_csum (f_super fs)) then hdr
  else set_fld 4 h_checksum (ext2fs_ext_attr_block_csum fs block hdr) hdr.

(** ** An inode *)
Definition i_checksum_lo : nat := 0x7c.
Definition i_checksum_hi : nat := 0x82.
Definition i_extra_isize : bytes → Z := fld 2 0x80.
Definition i_generation : bytes → Z := fld 4 0x64.
Definition EXT4_INODE_CSUM_HI_EXTRA_END : Z := 4.

Definition csum_has_hi (fs : ext2_filsys) (inode : bytes) : bool :=
  (EXT2_GOOD_OLD_INODE_SIZE <? EXT2_INODE_SIZE (f_super fs)) &&
  (EXT4_INODE_CSUM_HI_EXTRA_END <=? i_extra_isize inode).

(** The checksum fields are 0 while it is computed. *)
Definition ext2fs_inode_csum (fs : ext2_filsys) (inum : Z) (inode : bytes) (has_hi : bool) : Z :=
  let desc := set_fld 2 i_checksum_lo 0 inode in
  let desc := if has_hi then set_fld 2 i_checksum_hi 0 desc else desc in
  let crc := crc32c (f_csum_seed fs) (le_split 4 inum) in
  let crc := crc32c crc (le_split 4 (i_generation desc)) in
  crc32c crc (take (Z.to_nat (EXT2_INODE_SIZE (f_super fs))) desc).

Definition ext2fs_inode_csum_verify (fs : ext2_filsys) (inum : Z) (inode : bytes) : bool :=
  if negb (has_feature_metadata_csum (f_super fs)) then true else
  let has_hi := csum_has_hi fs inode in
  let provided := fld 2 i_checksum_lo inode in
  let calculated := ext2fs_inode_csum fs inum inode has_hi in
  let provided := if has_hi then Z.lor provided (Z.shiftl (fld 2 i_checksum_hi inode) 16) else provided in
  let calculated := if has_hi then calculated else Z.land calculated 0xffff in
  if provided =? calculated then true
  (** an inode of zeros *)
  else forallb (fun c => c =? 0) (take 128 inode).

Definition ext2fs_inode_csum_set (fs : ext2_filsys) (inum : Z) (inode : bytes) : bytes :=
  if negb (has_feature_metadata_csum (f_super fs)) then inode else
  let has_hi := csum_has_hi fs inode in
  let crc := ext2fs_inode_csum fs inum inode has_hi in
  let inode := set_fld 2 i_checksum_lo (Z.land crc 0xffff) inode in
  if has_hi then set_fld 2 i_checksum_hi (Z.shiftr crc 16) inode else inode.

(** ** Bitmaps and group descriptors *)
Section Group.
  Context `{Machine} {W : Type} `{IoChannel W}.

Definition bitmap_csum_hi_fits (fs : ext2_filsys) (limit : Z) : bool := limit <=? EXT2_DESC_SIZE (f_super fs).

(** The descriptor is looked up first, and used unless there are no checksums. *)
Definition bitmap_csum_verify (lo hi : nat) (limit : Z) (fs : ext2_filsys) (group : Z) (bitmap : bytes) : prog W bool :=
  let! gdp := ext2fs_group_desc fs group in
  if negb (has_feature_metadata_csum (f_super fs)) then ret true else
  match gdp with
  | None => undef
  | Some d =>
      let! provided := lift (pair_get (bitmap_csum_hi_fits fs limit) 2 lo hi d) in
      let calculated := crc32c (f_csum_seed fs) bitmap in
      let calculated := if bitmap_csum_hi_fits fs limit then calculated else Z.land calculated 0xffff in
      ret (provided =? calculated)
  end.
Definition bitmap_csum_set (lo hi : nat) (limit : Z) (fs : ext2_filsys) (group : Z) (bitmap : bytes) :
    prog W ext2_filsys :=
  if negb (has_feature_metadata_csum (f_super fs)) then
    do! ext2fs_group_desc fs group in ret fs
  else set_desc fs group (pair_set (bitmap_csum_hi_fits fs limit) 2 lo hi (crc32c (f_csum_seed fs) bitmap)).

Definition ext2fs_inode_bitmap_csum_verify :=
  bitmap_csum_verify bg_inode_bitmap_csum_lo bg_inode_bitmap_csum_hi EXT4_BG_INODE_BITMAP_CSUM_HI_END.
Definition ext2fs_inode_bitmap_csum_set :=
  bitmap_csum_set bg_inode_bitmap_csum_lo bg_inode_bitmap_csum_hi EXT4_BG_INODE_BITMAP_CSUM_HI_END.
Definition ext2fs_block_bitmap_csum_verify :=
  bitmap_csum_verify bg_block_bitmap_csum_lo bg_block_bitmap_csum_hi EXT4_BG_BLOCK_BITMAP_CSUM_HI_LOCATION.
Definition ext2fs_block_bitmap_csum_set :=
  bitmap_csum_set bg_block_bitmap_csum_lo bg_block_bitmap_csum_hi EXT4_BG_BLOCK_BITMAP_CSUM_HI_LOCATION.

(** The checksum of the bytes of a descriptor: a CRC-32C of which 16 bits are kept, or a
    CRC-16. *)
Definition desc_csum (fs : ext2_filsys) (group : Z) (d : bytes) : outcome Z :=
  let size := EXT2_DESC_SIZE (f_super fs) in
  if has_feature_metadata_csum (f_super fs) then
    let? zeroed := desc_set 2 bg_checksum 0 d in
    let? desc := of_option (slice 0 size zeroed) in
    let crc32 := crc32c (f_csum_seed fs) (le_split 4 group) in
    Ret (Z.land (crc32c crc32 desc) 0xffff)
  else
    let? head := of_option (slice 0 0x1e d) in
    let? rest := (if 0x20 <? size then of_option (slice 0x20 (size - 0x20) d) else Ret []) in
    let crc := ext2fs_crc16 0xffff (s_uuid (f_super fs)) in
    let crc := ext2fs_crc16 crc (le_split 4 group) in
    Ret (ext2fs_crc16 (ext2fs_crc16 crc head) rest).

Definition ext2fs_group_desc_csum (fs : ext2_filsys) (group : Z) : prog W Z :=
  with_desc fs group (desc_csum fs group).
Definition ext2fs_group_desc_csum_verify (fs : ext2_filsys) (group : Z) : prog W bool :=
  if negb (ext2fs_has_group_desc_csum fs) then ret true else
  let! provided := ext2fs_bg_checksum fs group in
  let! calculated := ext2fs_group_desc_csum fs group in
  ret (provided =? calculated).
Definition ext2fs_group_desc_csum_set (fs : ext2_filsys) (group : Z) : prog W ext2_filsys :=
  if negb (ext2fs_has_group_desc_csum fs) then ret fs else
  let! crc := ext2fs_group_desc_csum fs group in
  ext2fs_bg_checksum_set fs group crc.
End Group.

(** ** Fields, set twice *)
Lemma set_fld_parts n off v (p x q : bytes) : length p = off → length x = n →
  set_fld n off v (p ++ x ++ q) = p ++ le_split n v ++ q.
Proof.
  intros <- <-. unfold set_fld. rewrite take_app_length, drop_app_add, drop_app_length. done.
Qed.
Lemma fld_parts n off (p x q : bytes) : length p = off → length x = n → fld n off (p ++ x ++ q) = le x.
Proof. intros <- <-. unfold fld. by rewrite drop_app_length, take_app_length. Qed.
Lemma split_parts n off (b : bytes) : (off + n <= length b)%nat →
  ∃ p x q, b = p ++ x ++ q ∧ length p = off ∧ length x = n.
Proof.
  intros Hl. exists (take off b), (take n (drop off b)), (drop n (drop off b)).
  split; [by rewrite !take_drop|]. rewrite !length_take, length_drop. lia.
Qed.
Lemma set_fld_twice n off v w b : (off + n <= length b)%nat →
  set_fld n off v (set_fld n off w b) = set_fld n off v b.
Proof.
  intros (p & x & q & -> & Hp & Hx)%split_parts.
  rewrite !(set_fld_parts n off); done || apply le_split_length.
Qed.
Lemma set_fld_comm n off v m off' w b : (off + n <= off')%nat → (off' + m <= length b)%nat →
  set_fld n off v (set_fld m off' w b) = set_fld m off' w (set_fld n off v b).
Proof.
  intros Ho Hl. destruct (split_parts m off' b Hl) as (p & x & q & -> & Hp & Hx).
  destruct (split_parts n off p) as (p1 & y & p2 & -> & Hp1 & Hy); [lia|].
  rewrite (set_fld_parts m off') by done. rewrite <- !app_assoc.
  rewrite !(set_fld_parts n off) by done. rewrite !app_assoc, <- (app_assoc _ x).
  rewrite (set_fld_parts m off'); [by rewrite <- !app_assoc| |done].
  rewrite <- Hp, !length_app, le_split_length. lia.
Qed.
Lemma take_set_fld n off v b k : (k <= off)%nat → (off <= length b)%nat → take k (set_fld n off v b) = take k b.
Proof.
  intros Hk Ho. unfold set_fld. rewrite take_app_le by (rewrite length_take; lia). rewrite take_take. f_equal. lia.
Qed.

(** Lengths of buffers with fields set. *)
Ltac fld_len := first [lia | rewrite set_fld_length; fld_len].

(** ** Set, then verified *)
Lemma crc32c_word crc p : word crc → Forall is_byte p → word (crc32c crc p).
Proof. apply crc32c_range. Qed.
Lemma mod_word v : word v → v mod 256 ^ Z.of_nat 4 = v.
Proof. intros. by apply Z.mod_small. Qed.

Lemma superblock_csum_ok fs sb : super_wf sb →
  ext2fs_superblock_csum_verify fs (ext2fs_superblock_csum_set fs sb) = true.
Proof.
  intros [Hl Hb]. unfold ext2fs_superblock_csum_verify, ext2fs_superblock_csum_set.
  destruct (has_feature_metadata_csum _); [|done]. simpl negb. cbv iota. apply Z.eqb_eq.
  unfold s_checksum. rewrite fld_set by lia. unfold ext2fs_superblock_csum.
  rewrite take_set_fld, mod_word by (lia || (apply crc32c_word; [done|by apply Forall_take])). done.
Qed.
Lemma mmp_csum_ok fs mmp : word (f_csum_seed fs) → Forall is_byte mmp → length mmp = 1024%nat →
  ext2fs_mmp_csum_verify fs (ext2fs_mmp_csum_set fs mmp) = true.
Proof.
  intros Hs Hb Hl. unfold ext2fs_mmp_csum_verify, ext2fs_mmp_csum_set, mmp_checksum.
  destruct (has_feature_metadata_csum _); [|done]. simpl negb. cbv iota. apply Z.eqb_eq.
  rewrite fld_set by lia. unfold ext2fs_mmp_csum, mmp_checksum.
  rewrite take_set_fld, mod_word by (lia || (apply crc32c_word; [done|by apply Forall_take])). done.
Qed.
Lemma ext_attr_csum_ok fs block hdr : word (f_csum_seed fs) → Forall is_byte hdr → (32 <= length hdr)%nat →
  ext2fs_ext_attr_block_csum_verify fs block (ext2fs_ext_attr_block_csum_set fs block hdr) = true.
Proof.
  intros Hs Hb Hl. unfold ext2fs_ext_attr_block_csum_verify, ext2fs_ext_attr_block_csum_set, h_checksum.
  destruct (has_feature_metadata_csum _); [|done]. simpl negb. cbv iota. apply Z.eqb_eq.
  rewrite fld_set by lia. unfold ext2fs_ext_attr_block_csum, h_checksum. rewrite set_fld_twice by lia.
  apply mod_word. apply crc32c_word; [apply crc32c_word; [done|apply le_split_bytes]|by apply set_fld_bytes].
Qed.

(** An inode of the size the superblock says. *)
Definition inode_wf (fs : ext2_filsys) (inode : bytes) : Prop :=
  Forall is_byte inode ∧ zlen inode = EXT2_INODE_SIZE (f_super fs) ∧
  (128 <= length inode)%nat ∧ (zlen inode = 128 ∨ (132 <= length inode)%nat).

(** The bytes the checksum of an inode is taken of, its fields cleared. *)
Definition inode_cleared (inode : bytes) (has_hi : bool) : bytes :=
  let desc := set_fld 2 i_checksum_lo 0 inode in
  if has_hi then set_fld 2 i_checksum_hi 0 desc else desc.
Lemma inode_csum_eq fs inum inode has_hi : inode_wf fs inode →
  (has_hi = true → 132 <= length inode)%nat →
  ext2fs_inode_csum fs inum inode has_hi =
  crc32c (crc32c (crc32c (f_csum_seed fs) (le_split 4 inum)) (le_split 4 (i_generation inode)))
    (inode_cleared inode has_hi).
Proof.
  intros (Hb & Hl & H128 & _) Hhi. unfold ext2fs_inode_csum. fold (inode_cleared inode has_hi).
  assert (i_generation (inode_cleared inode has_hi) = i_generation inode ∧
               length (inode_cleared inode has_hi) = length inode) as [Eg El].
  { unfold inode_cleared, i_checksum_lo, i_checksum_hi, i_generation.
    destruct has_hi; [specialize (Hhi eq_refl)|]; rewrite ?fld_set_other, ?set_fld_length;
      rewrite ?fld_set_other, ?set_fld_length; try lia; done. }
  unfold inode_cleared in *. rewrite Eg. f_equal. apply take_ge. lia.
Qed.
Lemma inode_csum_word fs inum inode has_hi : word (f_csum_seed fs) → inode_wf fs inode →
  (has_hi = true → 132 <= length inode)%nat → word (ext2fs_inode_csum fs inum inode has_hi).
Proof.
  intros Hs Hw Hhi. rewrite inode_csum_eq by done. destruct Hw as (Hb & _).
  repeat (apply crc32c_word); try apply le_split_bytes; [done|].
  unfold inode_cleared. destruct has_hi; repeat apply set_fld_bytes; done.
Qed.

Lemma csum_has_hi_room fs inode : inode_wf fs inode → csum_has_hi fs inode = true → (132 <= length inode)%nat.
Proof.
  intros (_ & Hl & _ & [E|?]) Hh; [|done]. unfold csum_has_hi, EXT2_GOOD_OLD_INODE_SIZE in Hh.
  apply andb_prop in Hh as [?%Z.ltb_lt _]. lia.
Qed.

Lemma inode_csum_ok fs inum inode : word (f_csum_seed fs) → inode_wf fs inode →
  ext2fs_inode_csum_verify fs inum (ext2fs_inode_csum_set fs inum inode) = true.
Proof.
  intros Hs Hw. pose proof (csum_has_hi_room fs inode Hw) as Hroom.
  unfold ext2fs_inode_csum_verify, ext2fs_inode_csum_set.
  destruct (has_feature_metadata_csum _); [|done]. simpl negb. cbv iota.
  pose proof (inode_csum_word fs inum inode (csum_has_hi fs inode) Hs Hw Hroom) as Hc.
  set (crc := ext2fs_inode_csum fs inum inode (csum_has_hi fs inode)) in *.
  destruct Hw as (Hb & Hl & H128 & Hx).
  assert (Ehi : ∀ i, length i = length inode → i_extra_isize i = i_extra_isize inode →
            csum_has_hi fs i = csum_has_hi fs inode) by (intros i _ E; unfold csum_has_hi; by rewrite E).
  change 0xffff with (2 ^ 16 - 1). rewrite !land_ones_mod by lia.
  unfold i_checksum_lo, i_checksum_hi in *. unfold word in Hc.
  pose proof (Z.mod_pos_bound crc (2 ^ 16)).
  destruct (csum_has_hi fs inode) eqn:Eh.
  - specialize (Hroom eq_refl). rewrite Ehi; cycle 1.
    { fld_len. }
    { unfold i_extra_isize. by rewrite !fld_set_other by fld_len. }
    assert (E : ext2fs_inode_csum fs inum (set_fld 2 130 (Z.shiftr crc 16) (set_fld 2 124 (crc mod 2 ^ 16) inode)) true = crc).
    { unfold crc, ext2fs_inode_csum, i_checksum_lo, i_checksum_hi.
      rewrite (set_fld_comm 2 124 0 2 130), set_fld_twice by fld_len.
      rewrite set_fld_twice by fld_len. done. }
    rewrite E. rewrite (fld_set_other 2 130), !fld_set by fld_len.
    change (256 ^ Z.of_nat 2) with (2 ^ 16). rewrite Z.shiftr_div_pow2, Z.mod_mod by lia.
    rewrite (Z.mod_small (crc / 2 ^ 16)) by (split; [apply Z.div_pos|apply Z.div_lt_upper_bound]; lia).
    rewrite lor_pair by lia. pose proof (Z.div_mod crc (2 ^ 16)).
    destruct (Z.eqb_spec (crc mod 2 ^ 16 + 2 ^ 16 * (crc / 2 ^ 16)) crc); [done|lia].
  - rewrite Ehi; cycle 1.
    { rewrite set_fld_length; lia. }
    { unfold i_extra_isize. rewrite fld_set_other; lia || done. }
    assert (E : ext2fs_inode_csum fs inum (set_fld 2 124 (crc mod 2 ^ 16) inode) false = crc).
    { unfold crc, ext2fs_inode_csum, i_checksum_lo. by rewrite set_fld_twice by lia. }
    rewrite E, fld_set by lia. change (256 ^ Z.of_nat 2) with (2 ^ 16). by rewrite Z.mod_mod, Z.eqb_refl.
Qed.

(** ** Group descriptors and bitmaps *)
Lemma crc16_range p : ∀ crc, 0 ≤ crc < 2 ^ 16 → 0 ≤ ext2fs_crc16 crc p < 2 ^ 16.
Proof.
  induction p as [|x p IH]; intros crc Hc; [done|]. cbn [ext2fs_crc16]. apply IH.
  change 0xffff with (2 ^ 16 - 1). rewrite land_ones_mod by lia. apply Z.mod_pos_bound. lia.
Qed.
Lemma slice_set_fld o m n off v (b : bytes) : (off + n <= length b)%nat →
  o + m ≤ Z.of_nat off ∨ Z.of_nat (off + n) ≤ o → slice o m (set_fld n off v b) = slice o m b.
Proof.
  intros Hl Ho. unfold slice. rewrite set_fld_length by lia. case_bool_decide as Hb; [|done]. f_equal.
  unfold set_fld. destruct Ho as [Ho|Ho].
  - rewrite !take_drop_commute. f_equal. rewrite take_app_le, take_take by (rewrite length_take; lia). f_equal. lia.
  - f_equal. rewrite app_assoc, drop_app_ge; rewrite length_app, length_take, le_split_length; [|lia].
    rewrite drop_drop. f_equal. lia.
Qed.
Lemma desc_csum_clear fs g v d : (32 <= length d)%nat → desc_csum fs g (set_fld 2 bg_checksum v d) = desc_csum fs g d.
Proof.
  intros Hd. unfold desc_csum, desc_set, bg_checksum. rewrite set_fld_length by lia.
  destruct (has_feature_metadata_csum _).
  - rewrite bool_decide_true by lia. by rewrite set_fld_twice by lia.
  - by rewrite !slice_set_fld by lia.
Qed.

Section GroupFacts.
  Context `{Machine} {W : Type} `{IoChannel W}.
  Context (fs : ext2_filsys) (gd : bytes) (Hr : descs_ready fs gd) (Hds : desc_size_of fs = EXT2_DESC_SIZE (f_super fs)).

Lemma desc_csum_run g (s : state W) : 0 ≤ g < f_group_desc_count fs →
  ∃ c, 0 ≤ c < 2 ^ 16 ∧ desc_csum fs g (drop (Z.to_nat g * Z.to_nat (desc_size_of fs)) gd) = Ret c ∧
    ext2fs_group_desc_csum fs g s = Ret (c, s).
Proof.
  intros Hg. pose proof (desc_room fs gd Hr g Hg) as Hroom. pose proof (dr_size _ _ Hr).
  unfold ext2fs_group_desc_csum, with_desc. rewrite (bind_eq _ _ _ _ _ (desc_run fs gd Hr g s Hg)).
  set (d := drop _ gd). assert (Hl : (Z.to_nat (desc_size_of fs) <= length d)%nat) by (subst d; rewrite length_drop; lia).
  assert (∃ c, 0 ≤ c < 2 ^ 16 ∧ desc_csum fs g d = Ret c) as (c & Hc & E); cycle 1.
  { exists c. split; [done|]. split; [done|]. unfold lift. by rewrite E. }
  unfold desc_csum, desc_set, bg_checksum. rewrite Hds in *. destruct (has_feature_metadata_csum _).
  - rewrite bool_decide_true by lia. cbn [obind].
    destruct (slice_is_Some 0 (EXT2_DESC_SIZE (f_super fs)) (set_fld 2 0x1e 0 d)) as [x ->];
      [lia|lia|rewrite set_fld_length; lia|].
    eexists. split; [|done]. change 0xffff with (2 ^ 16 - 1). rewrite land_ones_mod by lia.
    apply Z.mod_pos_bound. lia.
  - destruct (slice_is_Some 0 0x1e d) as [x ->]; [lia..|]. cbn [obind of_option].
    assert (∃ r, (if 0x20 <? EXT2_DESC_SIZE (f_super fs)
                  then of_option (slice 0x20 (EXT2_DESC_SIZE (f_super fs) - 0x20) d) else Ret []) = Ret r) as [r ->].
    { destruct (Z.ltb_spec 0x20 (EXT2_DESC_SIZE (f_super fs))); [|by eexists].
      destruct (slice_is_Some 0x20 (EXT2_DESC_SIZE (f_super fs) - 0x20) d) as [y ->]; [lia..|]. by exists y. }
    eexists. split; [|done]. repeat apply crc16_range. lia.
Qed.

Lemma group_desc_csum_ok g (s : state W) : 0 ≤ g < f_group_desc_count fs →
  ∃ fs', ext2fs_group_desc_csum_set fs g s = Ret (fs', s) ∧ ext2fs_group_desc_csum_verify fs' g s = Ret (true, s).
Proof.
  intros Hg. unfold ext2fs_group_desc_csum_set, ext2fs_group_desc_csum_verify.
  destruct (ext2fs_has_group_desc_csum fs) eqn:Eh; cbn [negb]; cycle 1.
  { exists fs. split; [done|]. by rewrite Eh. }
  destruct (desc_csum_run g s Hg) as (c & Hc & Ed & Er). rewrite (bind_eq _ _ _ _ _ Er).
  change ext2fs_bg_checksum_set with (item_set (W := W) Checksum). rewrite (item_set_run fs gd) by done.
  set (gd' := pair_upd _ _ _ _ _ _ _).
  destruct (item_in fs gd Hr g Checksum Hg) as [H1 H2].
  pose proof (desc_room fs gd Hr g Hg) as Hroom. pose proof (dr_size _ _ Hr).
  set (fs' := set_group_desc (Some gd') fs). exists fs'. split; [done|].
  change (ext2fs_has_group_desc_csum fs') with (ext2fs_has_group_desc_csum fs). rewrite Eh. cbn [negb].
  assert (Hl : length gd' = length gd) by (by apply pair_upd_length).
  assert (Hr' : descs_ready fs' gd').
  { destruct Hr. split; [done|done|done|done| |done]. by rewrite Hl. }
  assert (Ev : ext2fs_bg_checksum fs' g s = Ret (c, s)).
  { change ext2fs_bg_checksum with (item_get (W := W) Checksum). rewrite (item_get_run fs' gd') by done.
    unfold item_val. change (desc_size_of fs') with (desc_size_of fs). subst gd'.
    rewrite pair_val_upd by (done || apply Nat.leb_le; reflexivity). simpl. by rewrite Z.mod_small. }
  rewrite (bind_eq _ _ _ _ _ Ev).
  assert (Ec : ext2fs_group_desc_csum fs' g s = Ret (c, s)).
  { unfold ext2fs_group_desc_csum, with_desc. rewrite (bind_eq _ _ _ _ _ (desc_run fs' gd' Hr' g s Hg)).
    change (desc_size_of fs') with (desc_size_of fs). subst gd'. unfold pair_upd. simpl item_wide. cbv iota.
    change (item_lo Checksum) with bg_checksum. change (item_size Checksum) with 2%nat. unfold bg_checksum.
    rewrite drop_set_fld by lia. unfold lift. change 0x1e%nat with bg_checksum.
    rewrite desc_csum_clear by (rewrite length_drop; lia).
    assert (Efs : ∀ d, desc_csum fs' g d = desc_csum fs g d) by reflexivity. by rewrite Efs, Ed. }
  rewrite (bind_eq _ _ _ _ _ Ec). unfold ret. by rewrite Z.eqb_refl.
Qed.

(** The checksum of a bitmap, with its halves at [lo] and [hi]. *)
Lemma bitmap_csum_ok lo hi limit g bitmap (s : state W) :
  0 ≤ g < f_group_desc_count fs → word (f_csum_seed fs) → Forall is_byte bitmap →
  (lo + 2 <= 32)%nat → (lo + 2 <= hi)%nat → (hi + 2 <= 64)%nat → desc_size_of fs < limit ∨ 64 ≤ desc_size_of fs →
  ∃ fs', bitmap_csum_set lo hi limit fs g bitmap s = Ret (fs', s) ∧
         bitmap_csum_verify lo hi limit fs' g bitmap s = Ret (true, s).
Proof.
  intros Hg Hs Hb Hlo Hd Hhi Hlim. unfold bitmap_csum_set, bitmap_csum_verify.
  pose proof (desc_room fs gd Hr g Hg) as Hroom. pose proof (dr_size _ _ Hr).
  destruct (has_feature_metadata_csum (f_super fs)) eqn:Em; cbn [negb]; cycle 1.
  { rewrite (bind_eq _ _ _ _ _ (desc_run fs gd Hr g s Hg)). exists fs. split; [done|].
    by rewrite (bind_eq _ _ _ _ _ (desc_run fs gd Hr g s Hg)), Em. }
  set (w := bitmap_csum_hi_fits fs limit). set (v := crc32c (f_csum_seed fs) bitmap).
  assert (Hv : word v) by (by apply crc32c_word). unfold word in Hv.
  set (k := (Z.to_nat g * Z.to_nat (desc_size_of fs))%nat) in *.
  assert (Hw : w = true → 64 ≤ desc_size_of fs).
  { unfold w, bitmap_csum_hi_fits. rewrite <- Hds. intros ?%Z.leb_le. lia. }
  assert (Hin1 : (k + lo + 2 <= length gd)%nat) by lia.
  assert (Hin2 : (w = true → k + hi + 2 <= length gd)%nat) by (intros ?%Hw; lia).
  destruct (pair_set_run w 2 lo hi v k gd Hin1 Hin2) as (d & Ed & Eu).
  set (gd' := pair_upd w 2 lo hi v k gd) in *. set (fs' := set_group_desc (Some gd') fs).
  assert (Hset : set_desc fs g (pair_set w 2 lo hi v) s = Ret (fs', s)).
  { unfold set_desc, with_desc. rewrite bind_assoc, (bind_eq _ _ _ _ _ (desc_run fs gd Hr g s Hg)).
    unfold bind, lift. fold k. rewrite Ed. cbn [obind]. rewrite (dr_desc _ _ Hr). unfold ret.
    assert (g * desc_size_of fs ≤ f_group_desc_count fs * desc_size_of fs) by (apply Z.mul_le_mono_nonneg_r; lia).
    pose proof (dr_32 _ _ Hr). rewrite u32_small by lia. unfold fs'. rewrite <- Eu. do 6 f_equal. lia. }
  exists fs'. split; [done|].
  assert (Hl : length gd' = length gd) by (by apply pair_upd_length).
  assert (Hr' : descs_ready fs' gd').
  { destruct Hr. split; [done|done|done|done| |done]. by rewrite Hl. }
  change (f_super fs') with (f_super fs). rewrite Em. cbn [negb].
  rewrite (bind_eq _ _ _ _ _ (desc_run fs' gd' Hr' g s Hg)).
  change (desc_size_of fs') with (desc_size_of fs). fold k.
  change (bitmap_csum_hi_fits fs' limit) with w. change (f_csum_seed fs') with (f_csum_seed fs). fold v.
  unfold bind, lift. rewrite pair_get_run by (by rewrite Hl). cbn [obind]. subst gd'.
  rewrite pair_val_upd by done. unfold ret. do 2 f_equal. apply Z.eqb_eq. destruct w.
  - apply Z.mod_small. simpl. lia.
  - change 0xffff with (2 ^ 16 - 1). by rewrite land_ones_mod by lia.
Qed.
End GroupFacts.

(** ** Properties *)

(** C24. Every checksum that is set verifies: of the superblock, of the block of multiple-mount
    protection, of a block of extended attributes, of an inode with or without the high
    half, of a group descriptor (CRC-32C or CRC-16) and of both bitmaps of a group, whether
    the features of the file system ask for them or not. *)
Theorem csum_set_verifies `{Machine} {W} `{IoChannel W} fs gd sb mmp block hdr inum inode g bitmap (s : state W) :
  word (f_csum_seed fs) → super_wf sb → Forall is_byte mmp → length mmp = 1024%nat →
  Forall is_byte hdr → (32 <= length hdr)%nat → inode_wf fs inode →
  descs_ready fs gd → desc_size_of fs = EXT2_DESC_SIZE (f_super fs) → desc_size_of fs < 58 ∨ 64 ≤ desc_size_of fs →
  0 ≤ g < f_group_desc_count fs → Forall is_byte bitmap →
  ext2fs_superblock_csum_verify fs (ext2fs_superblock_csum_set fs sb) = true ∧
  ext2fs_mmp_csum_verify fs (ext2fs_mmp_csum_set fs mmp) = true ∧
  ext2fs_ext_attr_block_csum_verify fs block (ext2fs_ext_attr_block_csum_set fs block hdr) = true ∧
  ext2fs_inode_csum_verify fs inum (ext2fs_inode_csum_set fs inum inode) = true ∧
  (∃ fs', ext2fs_group_desc_csum_set fs g s = Ret (fs', s) ∧
     ext2fs_group_desc_csum_verify fs' g s = Ret (true, s)) ∧
  (∃ fs', ext2fs_inode_bitmap_csum_set fs g bitmap s = Ret (fs', s) ∧
     ext2fs_inode_bitmap_csum_verify fs' g bitmap s = Ret (true, s)) ∧
  (∃ fs', ext2fs_block_bitmap_csum_set fs g bitmap s = Ret (fs', s) ∧
     ext2fs_block_bitmap_csum_verify fs' g bitmap s = Ret (true, s)).
Proof.
  intros Hs Hsb Hmb Hml Hhb Hhl Hi Hr Hds Hsz Hg Hb. split_and!.
  - by apply superblock_csum_ok.
  - by apply mmp_csum_ok.
  - by apply ext_attr_csum_ok.
  - by apply inode_csum_ok.
  - by apply (group_desc_csum_ok fs gd).
  - apply (bitmap_csum_ok fs gd); [done..|by apply Nat.leb_le|by apply Nat.leb_le|by apply Nat.leb_le|].
    unfold EXT4_BG_INODE_BITMAP_CSUM_HI_END. lia.
  - apply (bitmap_csum_ok fs gd); [done..|by apply Nat.leb_le|by apply Nat.leb_le|by apply Nat.leb_le|].
    unfold EXT4_BG_BLOCK_BITMAP_CSUM_HI_LOCATION. lia.
Qed.

(** ** Damage *)

(** Bytes around a window of [len] bytes, whatever the window holds. *)
Definition around (len : nat) (pre : bytes) (f : bytes → bytes) : Prop :=
  ∃ pre' post, length pre' = length pre ∧ Forall is_byte pre' ∧ Forall is_byte post ∧
    ∀ x, length x = len → f x = pre' ++ x ++ post.

Lemma around_set len pre f n off v : around len pre f →
  (off + n <= length pre ∨ length pre + len <= off)%nat → (∀ x, length x = len → off + n <= length (f x))%nat →
  around len pre (fun x => set_fld n off v (f x)).
Proof.
  intros (p & q & Hp & Hpb & Hqb & Hf) Ho Hl.
  assert (Hx : (off + n <= length p + (len + length q))%nat).
  { specialize (Hl (replicate len 0)). rewrite Hf, !length_app, length_replicate in Hl by apply length_replicate.
    by apply Hl. }
  destruct Ho as [Ho|Ho].
  - exists (set_fld n off v p), q. split_and!; [rewrite set_fld_length; lia|by apply set_fld_bytes|done|].
    intros x Ex. rewrite Hf by done. destruct (split_parts n off p) as (p1 & y & p2 & -> & H1 & H2); [lia|].
    rewrite <- !app_assoc, !(set_fld_parts n off) by done. by rewrite <- !app_assoc.
  - exists p, (set_fld n (off - (length pre + len)) v q). split_and!; [done|done|by apply set_fld_bytes|].
    intros x Ex. rewrite Hf by done.
    destruct (split_parts n (off - (length pre + len)) q) as (q1 & y & q2 & -> & H1 & H2); [lia|].
    rewrite (set_fld_parts n (off - _)) by done. rewrite !app_assoc, <- (app_assoc _ y).
    rewrite (set_fld_parts n off); [by rewrite <- !app_assoc|rewrite !length_app; lia|done].
Qed.
Lemma around_take len pre f k : around len pre f → (length pre + len <= k)%nat →
  around len pre (fun x => take k (f x)).
Proof.
  intros (p & q & Hp & Hpb & Hqb & Hf) Hk. exists p, (take (k - (length p + len)) q).
  split_and!; [done|done|by apply Forall_take|]. intros x Ex. rewrite Hf by done.
  rewrite take_app_ge by lia. rewrite take_app_ge by lia. do 3 f_equal. lia.
Qed.
(** What is read outside of the window. *)
Lemma around_fld len pre f n off x y : around len pre f →
  (off + n <= length pre ∨ length pre + len <= off)%nat → length x = len → length y = len →
  fld n off (f x) = fld n off (f y).
Proof.
  intros (p & q & Hp & _ & _ & Hf) Ho Hx Hy. rewrite !Hf by done. unfold fld. f_equal.
  destruct Ho as [Ho|Ho].
  - rewrite !take_drop_commute. f_equal. rewrite !take_app_le by lia. done.
  - rewrite !app_assoc, !(drop_app_ge (_ ++ _)); rewrite ?length_app; [|lia..]. do 2 f_equal. lia.
Qed.
(** The checksum of two buffers that differ in the window. *)
Lemma around_crc len pre f seed x y : around len pre f → word seed → (len <= 4)%nat →
  length x = len → length y = len → Forall is_byte x → Forall is_byte y → x ≠ y →
  crc32c seed (f x) ≠ crc32c seed (f y).
Proof.
  intros (p & q & _ & Hpb & Hqb & Hf) Hs H4 Hx Hy Hxb Hyb Hne. rewrite !Hf by done.
  apply crc32c_window; [done|by rewrite !Forall_app|done|congruence|lia|done].
Qed.
Lemma around_id len pre post : Forall is_byte pre → Forall is_byte post →
  around len pre (fun x => pre ++ x ++ post).
Proof. intros. exists pre, post. done. Qed.

(** Outside of a field. *)
Definition outside (n off : nat) (pre x : bytes) : Prop :=
  (off + n <= length pre ∨ length pre + length x <= off)%nat.
#[export] Instance outside_dec n off pre x : Decision (outside n off pre x).
Proof. unfold outside. apply _. Defined.


(** ** Witnesses *)
Definition csum_super : bytes := set_fld 4 0x64 0x401 sample_super.
Definition csum_fs : ext2_filsys :=
  MkFilsys 0 csum_super 1024 3 1 (Some sample_gd) 256 0 None None 0 0 77 None.
Definition small_state : state unit := MkState (MkHeap ∅ 1) tt [].
Definition sample_inode_bytes : bytes := set_fld 2 0 0x81a4 (replicate 128 0).

Lemma csum_ready : descs_ready csum_fs sample_gd.
Proof. split; [reflexivity|apply (bool_decide_eq_true_1 _); vm_compute; reflexivity..]. Qed.
Lemma sample_inode_wf : inode_wf csum_fs sample_inode_bytes.
Proof.
  split; [apply (bool_decide_eq_true_1 _); vm_compute; reflexivity|].
  split; [vm_compute; reflexivity|]. split; [by apply Nat.leb_le|left; reflexivity].
Qed.

Lemma csum_set_verifies_witness :
  ext2fs_inode_csum_verify csum_fs 12 (ext2fs_inode_csum_set csum_fs 12 sample_inode_bytes) = true ∧
  ext2fs_inode_csum_verify csum_fs 12 sample_inode_bytes = false.
Proof.
  split; [|vm_compute; reflexivity].
  apply (csum_set_verifies (H := x86_64) csum_fs sample_gd csum_super (replicate 1024 0) 5 (replicate 32 0) 12
    sample_inode_bytes 1 [1; 2] small_state); try exact csum_ready; try exact sample_inode_wf.
  all: try (apply (bool_decide_eq_true_1 _); vm_compute; reflexivity).
Defined.

