(* ===== verification/Os.v ===== *)
(** * The operating system as the program sees it

    A class of system calls over an abstract state [W].  Every call may answer
    anything and change the state, so that what is proved holds on a system whose
    kernel lies; a theorem that needs an honest or an unchanging system says so
    in its hypotheses.  A directory, a text file and the output of a command are
    what they are when they are opened. *)
From S2P Require Export CString Prog.
#[local] Open Scope Z_scope.

(** ** stat(2) *)
Record stat : Type := MkStat {
  st_mode : Z;
  st_dev : Z;
  st_rdev : Z;
  st_ino : Z;
  st_blksize : Z;
  st_blocks : Z;
}.

Definition S_IFMT : Z := 61440.
Definition S_ISDIR (mode : Z) : bool := Z.land mode S_IFMT =? 16384.
Definition S_ISLNK (mode : Z) : bool := Z.land mode S_IFMT =? 40960.
Definition S_ISREG (mode : Z) : bool := Z.land mode S_IFMT =? 32768.
Definition S_ISBLK (mode : Z) : bool := Z.land mode S_IFMT =? 24576.

(** [major], [minor] and [makedev] of the C library. *)
Definition major (dev : Z) : Z :=
  Z.lor (Z.land (Z.shiftr dev 32) 4294963200) (Z.land (Z.shiftr dev 8) 4095).
Definition minor (dev : Z) : Z :=
  Z.lor (Z.land (Z.shiftr dev 12) 4294967040) (Z.land dev 255).
Definition makedev (maj min : Z) : Z :=
  Z.lor (Z.shiftl (Z.land maj 4294963200) 32)
    (Z.lor (Z.shiftl (Z.land maj 4095) 8)
      (Z.lor (Z.shiftl (Z.land min 4294967040) 12) (Z.land min 255))).

(** ** readdir(3) *)
Record os_dirent : Type := MkDirent { d_name : bytes; d_ino : Z; d_type : Z }.

Definition F_OK : Z := 0.
Definition X_OK : Z := 1.

(** The answer of [open(path, O_CREAT | O_EXCL | O_WRONLY, mode)]. *)
Inductive open_result : Type := Opened (fd : Z) | FileExists | OpenError.

Class OS (W : Type) : Type := {
  sys_getenv : bytes → W → option bytes * W;
  sys_access : bytes → Z → W → bool * W;
  sys_stat : bytes → W → option stat * W;
  sys_lstat : bytes → W → option stat * W;
  sys_opendir : bytes → W → option (list os_dirent) * W;
  sys_read_text : bytes → W → option bytes * W;
  sys_stdin : W → bytes * W;
  sys_realpath : bytes → W → option bytes * W;
  (** popen, the output of the command and the result of pclose *)
  sys_popen : bytes → W → option (bytes * Z) * W;
  (** fopen(path, "rb"), then fseeko and fread of one item of [n] bytes *)
  sys_fopen_rb : bytes → W → bool * W;
  sys_fread_at : bytes → Z → Z → W → option bytes * W;
  sys_fopen_wb : bytes → W → bool * W;
  (** fwrite(pos, 1, n, fp): how many bytes were written *)
  sys_fwrite : bytes → bytes → W → Z * W;
  (** the message of the last error *)
  sys_strerror : W → bytes * W;
  sys_sleep : Z → W → unit * W;
  sys_kill0 : Z → W → bool * W;
  sys_open_excl : bytes → W → open_result * W;
  sys_unlink : bytes → W → unit * W;
  sys_chdir : bytes → W → bool * W;
  sys_getcwd : W → bytes * W;
  (** pipe: the two descriptors; read: what a descriptor holds, at most n bytes *)
  sys_pipe : W → option (Z * Z) * W;
  sys_read : Z → Z → W → bytes * W;
  sys_close : Z → W → unit * W;
}.

(** The exit status of a child, as pclose returns it. *)
Definition WIFEXITED (status : Z) : bool := Z.land status 127 =? 0.
Definition WEXITSTATUS (status : Z) : Z := Z.land (Z.shiftr status 8) 255.

(** ** The effects of the sources over them *)
Section Calls.
  Context {W : Type} `{OS W}.

(** [access(path, mode) == 0] *)
Definition access (path : bytes) (mode : Z) : prog W bool := sys (sys_access path mode).
Definition getenv (var : bytes) : prog W (option bytes) := sys (sys_getenv var).
Definition do_stat (path : bytes) : prog W (option stat) := sys (sys_stat path).
Definition lstat (path : bytes) : prog W (option stat) := sys (sys_lstat path).
Definition opendir (path : bytes) : prog W (option (list os_dirent)) := sys (sys_opendir path).
Definition fopen_r (path : bytes) : prog W (option bytes) := sys (sys_read_text path).
Definition realpath (path : bytes) : prog W (option bytes) := sys (sys_realpath path).
Definition popen (cmd : bytes) : prog W (option (bytes * Z)) := sys (sys_popen cmd).

(** [fprintf(stderr, "<text>: %s\n", strerror(errno))] and [perror]. *)
Definition eprint_errno (text : bytes) : prog W unit :=
  let! msg := sys sys_strerror in eprint (text ++ bs ": " ++ msg ++ [10]).
Definition eprintln (text : bytes) : prog W unit := eprint (text ++ [10]).
Definition println (text : bytes) : prog W unit := print (text ++ [10]).

Definition pipe : prog W (option (Z * Z)) := sys sys_pipe.
Definition read (fd n : Z) : prog W bytes := sys (sys_read fd n).
Definition close (fd : Z) : prog W unit := sys (sys_close fd).
Definition sleep (sec : Z) : prog W unit := sys (sys_sleep sec).

(** A loop over the entries or lines of something already read. *)
Fixpoint fold_prog {A S} (f : S → A → prog W S) (s : S) (l : list A) : prog W S :=
  match l with
  | [] => ret s
  | a :: l => let! s' := f s a in fold_prog f s' l
  end.

End Calls.

(** An operating system whose answers do not depend on when they are asked:
    the state of every call is the state it started from. *)
Class StaticOS (W : Type) `{OS W} : Prop := {
  static_access p m w : snd (sys_access p m w) = w;
  static_getenv p w : snd (sys_getenv p w) = w;
  static_stat p w : snd (sys_stat p w) = w;
  static_lstat p w : snd (sys_lstat p w) = w;
  static_opendir p w : snd (sys_opendir p w) = w;
  static_read p w : snd (sys_read_text p w) = w;
  static_realpath p w : snd (sys_realpath p w) = w;
}.

(** The state after the lines [ls] have been printed. *)
Definition says {W} (ls : list bytes) (s : state W) : state W :=
  MkState (st_heap s) (st_os s) (st_log s ++ ((fun l => Stdout (l ++ [10])) <$> ls)).

Lemma says_nil {W} (s : state W) : says [] s = s.
Proof. unfold says. simpl. rewrite app_nil_r. by destruct s. Qed.

Lemma says_says {W} a b (s : state W) : says b (says a s) = says (a ++ b) s.
Proof. unfold says. simpl. by rewrite fmap_app, app_assoc. Qed.

Lemma println_says {W} l (s : state W) : println l s = Ret (tt, says [l] s).
Proof. done. Qed.

Lemma bind_println {W B} l (k : unit → prog W B) (s : state W) :
  bind (println l) k s = k tt (says [l] s).
Proof. done. Qed.

