(* ===== verification/SampleOs.v ===== *)
(** * A small operating system for the examples

    Tables of files, directories, links, commands and processes, which nothing the
    program does changes, and what it wrote to files.  The theorems never use it: they hold for every
    instance of [OS]. *)
From S2P Require Export Os.
#[local] Open Scope Z_scope.

(** The open descriptors, their peers (address and port), what epoll watches, the TCP
    ports that accept connections and the UDP ports that are bound. *)
Record sample_net : Type := MkNet {
  nt_fds : gset Z;
  nt_peers : list (Z * (bytes * Z));
  nt_watched : list Z;
  nt_tcp : list Z;
  nt_udp : list Z;
}.

Record sample : Type := MkWriter {
  sa_env : list (bytes * bytes);
  sa_stats : list (bytes * stat);
  sa_dirs : list (bytes * list os_dirent);
  sa_files : list (bytes * bytes);
  sa_links : list (bytes * bytes);
  sa_cmds : list (bytes * (bytes * Z));
  sa_devs : list (bytes * bytes);
  sa_pids : list Z;
  (** what was written to files, and the most one fwrite accepts *)
  sa_out : bytes;
  sa_chunk : Z;
  sa_net : sample_net;
}.

Definition MkSample env stats dirs files links cmds devs pids : sample :=
  MkWriter env stats dirs files links cmds devs pids [] 4096 (MkNet ∅ [] [] [] []).

Definition sample_write (data : bytes) (w : sample) : sample :=
  MkWriter (sa_env w) (sa_stats w) (sa_dirs w) (sa_files w) (sa_links w) (sa_cmds w) (sa_devs w)
           (sa_pids w) (sa_out w ++ data) (sa_chunk w) (sa_net w).

Definition set_net (f : sample_net → sample_net) (w : sample) : sample :=
  MkWriter (sa_env w) (sa_stats w) (sa_dirs w) (sa_files w) (sa_links w) (sa_cmds w) (sa_devs w)
           (sa_pids w) (sa_out w) (sa_chunk w) (f (sa_net w)).

Definition net_close (fd : Z) (n : sample_net) : sample_net :=
  MkNet (nt_fds n ∖ {[fd]}) (filter (fun x => x.1 ≠ fd) (nt_peers n))
        (filter (fun x => x ≠ fd) (nt_watched n)) (nt_tcp n) (nt_udp n).

Fixpoint assoc {A} (key : bytes) (l : list (bytes * A)) : option A :=
  match l with
  | [] => None
  | (k, v) :: l => if bool_decide (k = key) then Some v else assoc key l
  end.

Definition known (w : sample) (path : bytes) : bool :=
  bool_decide (path ∈ (sa_stats w).*1 ++ (sa_dirs w).*1 ++ (sa_files w).*1 ++
                      (sa_links w).*1 ++ (sa_devs w).*1).

Definition set_files (f : list (bytes * bytes) → list (bytes * bytes)) (w : sample) : sample :=
  MkWriter (sa_env w) (sa_stats w) (sa_dirs w) (f (sa_files w)) (sa_links w) (sa_cmds w) (sa_devs w)
           (sa_pids w) (sa_out w) (sa_chunk w) (sa_net w).

(** The tables without the entries of a path. *)
Definition forget (path : bytes) (w : sample) : sample :=
  let drop {A} (l : list (bytes * A)) := filter (fun x => x.1 ≠ path) l in
  MkWriter (sa_env w) (drop (sa_stats w)) (drop (sa_dirs w)) (drop (sa_files w)) (drop (sa_links w))
           (sa_cmds w) (drop (sa_devs w)) (sa_pids w) (sa_out w) (sa_chunk w) (sa_net w).

#[export] Instance sample_os : OS sample := {
  sys_getenv var w := (assoc var (sa_env w), w);
  sys_access path _ w := (known w path, w);
  sys_stat path w := (assoc path (sa_stats w), w);
  sys_lstat path w := (assoc path (sa_stats w), w);
  sys_opendir path w := (assoc path (sa_dirs w), w);
  sys_read_text path w := (assoc path (sa_files w), w);
  sys_stdin w := (default [] (assoc (bs "<stdin>") (sa_files w)), w);
  sys_realpath path w := (assoc path (sa_links w), w);
  sys_popen cmd w := (assoc cmd (sa_cmds w), w);
  sys_fopen_rb path w := (bool_decide (path ∈ (sa_devs w).*1), w);
  sys_fread_at path off n w :=
    (match assoc path (sa_devs w) with Some dev => slice off n dev | None => None end, w);
  sys_fopen_wb path w := (true, w);
  sys_fwrite path data w :=
    let n := Z.max 0 (Z.min (zlen data) (sa_chunk w)) in (n, sample_write (take (Z.to_nat n) data) w);
  sys_strerror w := (bs "error", w);
  sys_sleep _ w := (tt, w);
  sys_kill0 pid w := (bool_decide (pid ∈ sa_pids w), w);
  sys_open_excl path w :=
    if known w path then (FileExists, w) else (Opened 3, set_files (cons (path, [])) w);
  sys_unlink path w := (tt, forget path w);
  sys_chdir path w := (bool_decide (path ∈ (sa_dirs w).*1), w);
  sys_getcwd w := (bs "/", w);
  sys_pipe w := (Some (3, 4), w);
  sys_read _ _ w := ([], w);
  sys_close fd w := (tt, set_net (net_close fd) w);
}.

#[export] Instance sample_static : StaticOS sample.
Proof. split; reflexivity. Qed.

Definition empty_sample : sample := MkSample [] [] [] [] [] [] [] [].
