(* ===== verification/Vector.v ===== *)
(** * The growable array of utils.c

    [Module Impl] is the code of [struct Vector]: a buffer of [capacity] cells,
    of which the first [size] hold values and the others are indeterminate.
    [VecOps] and [VecLaws] are what the array promises to the parsers and to the
    scanner: it behaves as a list.  [Impl] discharges them. *)
From S2P Require Export Prog.
#[local] Open Scope Z_scope.

(** ** The interface *)
Class VecOps (V : Type) : Type := {
  vec_init : V;
  vec_push : V → Z → outcome V;
  vec_get : V → Z → outcome Z;
  vec_count : V → Z;
  (** [vector_free(v, freeitems)], with what is left of [v] *)
  vec_free {W : Type} : V → bool → prog W V;
}.

(** [vec_rep v l]: the array [v] holds the values [l], oldest first.  A push
    succeeds while memory lasts; [2 ^ 28] elements are the bound below which
    the byte count of a growing array stays in a 32-bit [size_t]. *)
Class VecLaws (V : Type) `{Machine, VecOps V} : Type := {
  vec_rep : V → list Z → Prop;
  vec_rep_init : vec_rep vec_init [];
  vec_rep_count v l : vec_rep v l → vec_count v = zlen l;
  vec_rep_get v l i :
    vec_rep v l → 0 ≤ i →
    vec_get v i = match l !! Z.to_nat i with Some x => Ret x | None => Exit 1 end;
  vec_rep_push v l x :
    (∀ n, mem_ok n = true) → vec_rep v l → zlen l < 2 ^ 28 →
    ∃ v', vec_push v x = Ret v' ∧ vec_rep v' (l ++ [u64 x]);
  vec_rep_free {W : Type} v l freeitems (s : state W) :
    vec_rep v l →
    vec_free v freeitems s =
    bind (if freeitems then free_all l else ret tt) (fun _ => ret vec_init) s;
}.

Module Impl.

(** [data] has one cell per slot of the allocated buffer, [None] when the slot
    was never written. *)
Record Vector : Type := MkVector {
  data : list (option Z);
  size : Z;
  capacity : Z;
}.

Section Ops.
  Context `{Machine}.

Definition vector_init : Vector := MkVector [] 0 0.

(** [realloc(data, bytes)]: [None] on failure. *)
Definition realloc (cells : list (option Z)) (nbytes : Z) : option (list (option Z)) :=
  if mem_ok nbytes then Some (resize (Z.to_nat (nbytes / 8)) None cells) else None.

(** [vector->data[vector->size++] = value] *)
Definition store_next (v : Vector) (value : Z) : outcome Vector :=
  if bool_decide (0 ≤ size v < zlen (data v))
  then Ret (MkVector (<[Z.to_nat (size v) := Some value]> (data v))
                     (size_t (size v + 1)) (capacity v))
  else Undef.

Definition vector_pushBack (v : Vector) (value : Z) : outcome Vector :=
  let value := u64 value in
  if size v =? capacity v then
    let newCapacity := if capacity v =? 0 then 1 else size_t (capacity v * 2) in
    match realloc (data v) (size_t (newCapacity * 8)) with
    | None => Exit 1
    | Some newData => store_next (MkVector newData (size v) newCapacity) value
    end
  else store_next v value.

Definition vector_popBack (v : Vector) : Vector :=
  if 0 <? size v then
    let size' := size v - 1 in
    if size' <=? capacity v / 4 then
      let newCapacity := capacity v / 2 in
      match realloc (data v) (size_t (newCapacity * 8)) with
      | Some newData => MkVector newData size' newCapacity
      | None =>
          if newCapacity =? 0 then MkVector [] size' newCapacity
          else MkVector (data v) size' (capacity v)
      end
    else MkVector (data v) size' (capacity v)
  else v.

Definition vector_get (v : Vector) (index : Z) : outcome Z :=
  if index <? size v then
    match data v !! Z.to_nat index with Some (Some x) => Ret x | _ => Undef end
  else Exit 1.

(** [vector_pushBackp] and [vector_getp] cast pointers to [uint64_t] and back. *)
Definition vector_pushBackp (v : Vector) (p : Z) : outcome Vector := vector_pushBack v p.
Definition vector_getp (v : Vector) (index : Z) : outcome Z := vector_get v index.

(** The loop [for (i=0; i<size; i++) free(data[i])] of [vector_free]. *)
Fixpoint free_items {W} (n : nat) (i : Z) (v : Vector) : prog W unit :=
  match n with
  | O => ret tt
  | S n =>
      let! p := lift (match data v !! Z.to_nat i with
                      | Some (Some x) => Ret x | _ => Undef end) in
      do! free p in
      free_items n (i + 1) v
  end.

Definition vector_free {W} (v : Vector) (freeitems : bool) : prog W Vector :=
  do! (if freeitems && negb (bool_decide (data v = []))
       then free_items (Z.to_nat (size v)) 0 v else ret tt) in
  ret (MkVector [] 0 0).

(** ** The invariant of the array and the list it stands for *)
Definition rep (v : Vector) (l : list Z) : Prop :=
  capacity v = zlen (data v) ∧ size v = zlen l ∧
  take (length l) (data v) = Some <$> l ∧ Forall (fun x => 0 ≤ x < 2 ^ 64) l.

Lemma rep_length v l : rep v l → (length l ≤ length (data v))%nat.
Proof.
  intros (_ & _ & Htake & _).
  apply (f_equal length) in Htake. rewrite length_take, length_fmap in Htake. lia.
Qed.

Lemma rep_lookup v l i x : rep v l → l !! i = Some x → data v !! i = Some (Some x).
Proof.
  intros (_ & _ & Htake & _) Hi.
  rewrite <- (lookup_take_lt _ (length l)) by (by eapply lookup_lt_Some).
  by rewrite Htake, list_lookup_fmap, Hi.
Qed.

Lemma rep_init : rep vector_init [].
Proof. by repeat split. Qed.

Lemma rep_get v l i :
  rep v l → 0 ≤ i →
  vector_get v i = match l !! Z.to_nat i with Some x => Ret x | None => Exit 1 end.
Proof.
  intros Hr Hi. pose proof Hr as (_ & Hs & _ & _). unfold vector_get. rewrite Hs.
  destruct (l !! Z.to_nat i) as [x|] eqn:E.
  - pose proof (lookup_lt_Some _ _ _ E).
    rewrite (proj2 (Z.ltb_lt _ _)) by lia. by rewrite (rep_lookup _ _ _ _ Hr E).
  - apply lookup_ge_None in E. by rewrite (proj2 (Z.ltb_ge _ _)) by lia.
Qed.

(** Storing the next element needs only a buffer with a free cell. *)
Lemma store_next_rep v l x :
  rep v l → (length l < length (data v))%nat → zlen l + 1 < 2 ^ 32 →
  ∃ v', store_next v (u64 x) = Ret v' ∧ rep v' (l ++ [u64 x]) ∧ capacity v' = capacity v.
Proof.
  intros (Hc & Hs & Htake & Hall) Hlt Hb. unfold store_next.
  rewrite bool_decide_true by lia. eexists. split; [done|].
  split; [|done]. unfold rep; simpl.
  rewrite length_insert, size_t_small by lia.
  rewrite Hs, Nat2Z.id, length_app. split_and!; [done|simpl; lia| |].
  - simpl. rewrite Nat.add_1_r, fmap_app. simpl.
    erewrite take_S_r by (by apply list_lookup_insert_eq).
    f_equal. rewrite take_insert_ge by lia. done.
  - apply Forall_app. split; [done|]. constructor; [apply u64_bound|done].
Qed.

(** Growing keeps the elements: the buffer is extended, never cut. *)
Lemma rep_grow v l n :
  rep v l → (length (data v) ≤ n)%nat →
  rep (MkVector (resize n None (data v)) (size v) (Z.of_nat n)) l.
Proof.
  intros Hr Hn. pose proof (rep_length _ _ Hr). destruct Hr as (_ & Hs & Htake & Hall).
  unfold rep; simpl. rewrite length_resize. split_and!; try done.
  rewrite resize_ge by done. by rewrite take_app_le by lia.
Qed.

Lemma rep_push_capacity v l x :
  (∀ n, mem_ok n = true) → rep v l → zlen l < 2 ^ 28 →
  ∃ v', vector_pushBack v x = Ret v' ∧ rep v' (l ++ [u64 x]) ∧
        capacity v' ≤ Z.max (capacity v) (2 * zlen l + 1).
Proof.
  intros Hmem Hr Hl. pose proof (rep_length _ _ Hr) as Hlen.
  unfold vector_pushBack. destruct (Z.eqb_spec (size v) (capacity v)) as [Heq|Hne].
  - pose proof Hr as (Hc & Hs & _ & _).
    set (c := if capacity v =? 0 then 1 else size_t (capacity v * 2)).
    assert (Hcv : c = if capacity v =? 0 then 1 else 2 * zlen l).
    { unfold c. destruct (Z.eqb_spec (capacity v) 0); [done|].
      rewrite size_t_small; lia. }
    assert (Hcb : zlen l < c < 2 ^ 29).
    { rewrite Hcv. destruct (Z.eqb_spec (capacity v) 0); lia. }
    unfold realloc. rewrite Hmem, size_t_small by lia.
    rewrite Z.div_mul by lia.
    destruct (store_next_rep (MkVector (resize (Z.to_nat c) None (data v)) (size v) c) l x)
      as (v' & Hv' & Hr' & Hcap).
    + replace c with (Z.of_nat (Z.to_nat c)) at 2 by lia. apply rep_grow; [done|lia].
    + simpl. rewrite length_resize. lia.
    + lia.
    + exists v'. split_and!; [done|done|]. rewrite Hcap, Hcv. simpl.
      destruct (Z.eqb_spec (capacity v) 0); lia.
  - destruct (store_next_rep v l x Hr) as (v' & Hv' & Hr' & Hcap);
      [destruct Hr as (Hc & Hs & _ & _); lia|lia|].
    exists v'. split_and!; [done|done|lia].
Qed.

Lemma rep_push v l x :
  (∀ n, mem_ok n = true) → rep v l → zlen l < 2 ^ 28 →
  ∃ v', vector_pushBack v x = Ret v' ∧ rep v' (l ++ [u64 x]).
Proof. intros. edestruct rep_push_capacity as (v' & ? & ? & _); eauto. Qed.

(** Popping drops the newest element, whether the buffer shrinks or not. *)
Lemma rep_pop v l x :
  rep v (l ++ [x]) → capacity v < 2 ^ 28 → rep (vector_popBack v) l.
Proof.
  intros Hr Hcap. pose proof (rep_length _ _ Hr) as Hlen.
  destruct Hr as (Hc & Hs & Htake & Hall).
  rewrite length_app in Hs, Hlen; simpl in Hs, Hlen.
  apply Forall_app in Hall as [Hall _].
  assert (Htake' : take (length l) (data v) = Some <$> l).
  { apply (f_equal (take (length l))) in Htake.
    rewrite take_take, length_app, fmap_app, Nat.min_l in Htake by lia.
    rewrite Htake, take_app_le by (by rewrite length_fmap).
    by rewrite take_ge by (by rewrite length_fmap). }
  unfold vector_popBack. rewrite (proj2 (Z.ltb_lt _ _)) by lia.
  assert (Hkeep : rep (MkVector (data v) (size v - 1) (capacity v)) l).
  { unfold rep; simpl. split_and!; [done|lia|done|done]. }
  destruct (Z.leb_spec (size v - 1) (capacity v / 4)); [|done].
  assert (0 ≤ capacity v / 2 ≤ capacity v) by (split; [apply Z.div_pos|apply Z.div_le_upper_bound]; lia).
  assert (zlen l ≤ capacity v / 2).
  { rewrite Hs in *. etrans; [|apply (Z.div_le_compat_l _ 2 4); lia]. lia. }
  unfold realloc. rewrite size_t_small by lia. rewrite Z.div_mul by lia.
  destruct (mem_ok _).
  - unfold rep; simpl. rewrite length_resize. split_and!; [lia|lia| |done].
    rewrite resize_le by lia. rewrite take_take. by rewrite Nat.min_l by lia.
  - destruct (Z.eqb_spec (capacity v / 2) 0) as [Hz|]; [|done].
    destruct l; [|simpl in *; lia]. unfold rep; simpl. split_and!; [lia|simpl in *; lia|done|done].
Qed.

(** [vector_free] frees the elements in order and empties the array. *)
Lemma free_items_all {W} l n i v (s : state W) :
  (∀ j x, l !! j = Some x → data v !! (i + j)%nat = Some (Some x)) → n = length l →
  free_items n (Z.of_nat i) v s = free_all l s.
Proof.
  revert n i s. induction l as [|x l IH]; intros n i s Hl ->; [done|].
  cbn [length free_items free_all]. rewrite Nat2Z.id.
  specialize (Hl 0%nat x eq_refl) as Hx. rewrite Nat.add_0_r in Hx. rewrite Hx.
  unfold bind at 1, lift. cbn [obind]. unfold bind. destruct (free x s) as [[[] s']| | |]; try done.
  cbn [obind]. replace (Z.of_nat i + 1) with (Z.of_nat (S i)) by lia. apply IH; [|done].
  intros j y Hj. replace (S i + j)%nat with (i + S j)%nat by lia. by apply Hl.
Qed.

Lemma rep_free {W} v l freeitems (s : state W) :
  rep v l →
  vector_free v freeitems s =
  bind (if freeitems then free_all l else ret tt) (fun _ => ret vector_init) s.
Proof.
  intros Hr. unfold vector_free. destruct freeitems; [|done]. cbn [andb].
  pose proof Hr as (_ & Hs & Htake & _). rewrite Hs, Nat2Z.id.
  case_bool_decide as E; cbn [negb].
  - rewrite E, take_nil in Htake. destruct l; [done|discriminate].
  - unfold bind. change 0 with (Z.of_nat 0). rewrite (free_items_all l) by
      (try done; intros j x Hj; by eapply rep_lookup).
    done.
Qed.

End Ops.

#[export] Instance Vector_ops `{Machine} : VecOps Vector := {
  vec_init := vector_init;
  vec_push := vector_pushBack;
  vec_get := vector_get;
  vec_count := size;
  vec_free W := vector_free;
}.

#[export] Instance Vector_laws `{Machine} : VecLaws Vector.
Proof.
  refine {| vec_rep := rep |}.
  - exact rep_init.
  - by intros v l (_ & Hs & _).
  - exact rep_get.
  - exact rep_push.
  - intros W. exact rep_free.
Defined.

(** ** Any sequence of operations *)
Inductive vop : Type := Push (x : Z) | Pop.

Section Runs.
  Context `{Machine}.

Definition step_impl (v : Vector) (o : vop) : outcome Vector :=
  match o with Push x => vector_pushBack v x | Pop => Ret (vector_popBack v) end.

(** The stack of [uint64_t] the array implements. *)
Definition step_spec (l : list Z) (o : vop) : list Z :=
  match o with Push x => l ++ [u64 x] | Pop => take (length l - 1) l end.

Fixpoint run_impl (v : Vector) (os : list vop) : outcome Vector :=
  match os with
  | [] => Ret v
  | o :: os => let? v' := step_impl v o in run_impl v' os
  end.
Definition run_spec (l : list Z) (os : list vop) : list Z := foldl step_spec l os.

Lemma popBack_capacity v : 0 ≤ capacity v → capacity (vector_popBack v) ≤ capacity v.
Proof.
  intros. unfold vector_popBack.
  assert (capacity v / 2 ≤ capacity v) by (apply Z.div_le_upper_bound; lia).
  repeat case_match; simpl; lia.
Qed.

Lemma step_spec_length l o : (length (step_spec l o) ≤ S (length l))%nat.
Proof. destruct o; simpl; [rewrite length_app; simpl|rewrite length_take]; lia. Qed.

Lemma popBack_rep v l :
  rep v l → capacity v < 2 ^ 28 → rep (vector_popBack v) (step_spec l Pop).
Proof.
  intros Hr Hcap. simpl. destruct l as [|x l' _] using rev_ind.
  - unfold vector_popBack. destruct Hr as (? & Hs & ? & ?). simpl in Hs.
    rewrite Hs. simpl. by repeat split.
  - rewrite length_app, Nat.add_sub, take_app_length. by eapply rep_pop.
Qed.

(** The run never fails, and the array stands for the list the specification
    computes; [k] bounds the elements and the capacity so far. *)
Lemma run_refines os v l k :
  (∀ n, mem_ok n = true) → rep v l → zlen l ≤ k → capacity v ≤ 2 * k + 1 →
  0 ≤ k → k + zlen os < 2 ^ 26 →
  ∃ v', run_impl v os = Ret v' ∧ rep v' (run_spec l os) ∧ capacity v' ≤ 2 * (k + zlen os) + 1.
Proof.
  intros Hmem. revert v l k. induction os as [|o os IH]; intros v l k Hr Hl Hc Hk Hb.
  { exists v. split_and!; [done|done|simpl; lia]. }
  rewrite length_cons, Nat2Z.inj_succ in Hb. pose proof (step_spec_length l o).
  assert (∃ v1, step_impl v o = Ret v1 ∧ rep v1 (step_spec l o) ∧ capacity v1 ≤ 2 * k + 1)
    as (v1 & Hs1 & Hr1 & Hc1).
  { destruct o as [x|]; simpl.
    - destruct (rep_push_capacity v l x) as (v1 & ? & ? & ?); [done..|lia|].
      exists v1. split_and!; [done|done|lia].
    - exists (vector_popBack v). split_and!; [done|apply popBack_rep; [done|lia]|].
      pose proof Hr as (? & ? & _). pose proof (popBack_capacity v). lia. }
  destruct (IH v1 (step_spec l o) (k + 1)) as (v' & Hrun & Hr' & Hc'); [done|lia..|].
  exists v'. simpl. rewrite Hs1. split_and!; [done|done|lia].
Qed.

End Runs.

(** C21. The array of utils.c refines a stack of 64-bit values: while memory
    lasts, any sequence of fewer than 2^26 pushes and pops runs to the end without
    touching a cell outside of its buffer, leaves an array whose elements are those
    of the list specification, and whose capacity is at most twice their number of
    operations plus one. *)
Theorem vector_refines_stack `{Machine} (ops : list vop) :
  (∀ n, mem_ok n = true) → zlen ops < 2 ^ 26 →
  ∃ v, run_impl vector_init ops = Ret v ∧ rep v (run_spec [] ops) ∧
       size v = zlen (run_spec [] ops) ∧ capacity v ≤ 2 * zlen ops + 1.
Proof.
  intros Hmem Hlen.
  destruct (run_refines ops vector_init [] 0) as (v & Hrun & Hr & Hc);
    [done|exact rep_init|simpl; lia..|].
  exists v. split_and!; [done|done|by destruct Hr as (_ & Hs & _)|lia].
Qed.

Lemma vector_refines_stack_witness :
  ∃ v, @run_impl x86_64 vector_init [Push 5; Push (-1); Pop; Push 7] = Ret v ∧
       @rep v [5; 7] ∧ size v = 2 ∧ capacity v ≤ 9.
Proof.
  exact (@vector_refines_stack x86_64 [Push 5; Push (-1); Pop; Push 7]
           (fun _ => eq_refl) eq_refl).
Defined.

End Impl.
