(* ===== verification/Utils.v ===== *)
(** * The string helpers of utils.c *)
From S2P Require Export Os.
#[local] Open Scope Z_scope.

Section Defs.
  Context `{Machine}.

(** [!*ptr] where [ptr] is the first byte of the [int] 1. *)
Definition isBigEndian : bool :=
  let num := if big_endian then be_split 4 1 else le_split 4 1 in
  bool_decide (num !! 0%nat = Some 0).

(** The first loop of [trimch]: [pos] walks back from the last byte while it is
    [ch] and lies after the first one, writing NULs. *)
Fixpoint trim_back (pos : nat) (ch : Z) (buffer : bytes) : bytes :=
  match pos with
  | O => buffer
  | S pos' => if bool_decide (buffer !! pos = Some ch)
              then trim_back pos' ch (<[pos := 0]> buffer) else buffer
  end.

(** The second loop: [pos] walks forward from the first byte while it is [ch];
    [n] counts the bytes left before [buffer + nLen]. *)
Fixpoint trim_front (n : nat) (ch : Z) (pos : nat) (buffer : bytes) : nat :=
  match n with
  | O => pos
  | S n => if bool_decide (buffer !! pos = Some ch)
           then trim_front n ch (S pos) buffer else pos
  end.

(** [trimch(buffer, ch)]: the string at the returned pointer. *)
Definition trimch (buffer : bytes) (ch : Z) : bytes :=
  let nLen := length buffer in
  let buffer := trim_back (nLen - 1) ch buffer in
  let pos := trim_front nLen ch 0 buffer in
  c_str (drop pos buffer).

Definition toLowerCase (str : bytes) : bytes := map tolower str.

(** [path_join]: the string left in [buffer], of which [size] bytes may be used. *)
Definition path_join (path1 path2 : bytes) (size : Z) : bytes :=
  match path1, path2 with
  | [], _ => snprintf (size - 1) path2
  | _, 47 :: _ => snprintf (size - 1) path2
  | _, _ =>
      if bool_decide (last path1 = Some 47)
      then snprintf (size - 1) (path1 ++ path2)
      else snprintf (size - 1) (path1 ++ [47] ++ path2)
  end.

End Defs.

Section FindCommand.
  Context `{Machine} {W : Type} `{OS W}.

Definition path_add : bytes :=
  bs ":/bin:/sbin:/usr/bin:/usr/sbin:/usr/local/bin:/usr/local/sbin".

(** The loop of [find_command] over the tokens of the path. *)
Fixpoint find_in (tokens : list bytes) (cname : bytes) (bufsize : Z) : prog W (option bytes) :=
  match tokens with
  | [] => ret None
  | token :: tokens =>
      let fullPathBuf := snprintf (bufsize - 1) (token ++ [47] ++ cname) in
      let! ok := access fullPathBuf (Z.lor F_OK X_OK) in
      if ok then ret (Some fullPathBuf) else find_in tokens cname bufsize
  end.

(** [find_command]: [Some] of what is left in [fullPathBuf] when it returns 1. *)
Definition find_command (cname : bytes) (bufsize : Z) : prog W (option bytes) :=
  let! path := getenv (bs "PATH") in
  match path with
  | None => ret None
  | Some path =>
      if mem_ok (zlen path + zlen path_add + 1)
      then find_in (strtok_all (bs ":") (path ++ path_add)) cname bufsize
      else ret None
  end.

End FindCommand.

(** ** trimch removes the byte at both ends *)
Definition strip (ch : Z) (s : bytes) : bytes :=
  reverse (drop_while (Z.eqb ch) (reverse (drop_while (Z.eqb ch) s))).

Section TrimFacts.
  Context (ch : Z).
  Hypothesis Hch : ch ≠ 0.

Lemma drop_while_repeat n s :
  match s with [] => True | c :: _ => c ≠ ch end →
  drop_while (Z.eqb ch) (replicate n ch ++ s) = s.
Proof.
  intros Hs. unfold drop_while.
  rewrite (span_all (Z.eqb ch) (replicate n ch)); [done| |].
  - apply Forall_replicate. apply Z.eqb_refl.
  - destruct s; [done|]. apply Z.eqb_neq. congruence.
Qed.

(** Every string is a core without [ch] at its ends, between runs of [ch]. *)
Lemma ends_decompose s :
  ∃ n m core, s = replicate n ch ++ core ++ replicate m ch ∧
    match core with [] => m = 0%nat | c :: _ => c ≠ ch end ∧
    match last core with None => True | Some c => c ≠ ch end.
Proof.
  assert (Hf : ∃ n r, s = replicate n ch ++ r ∧ match r with [] => True | c :: _ => c ≠ ch end).
  { induction s as [|c s (n & r & -> & Hr)].
    - by exists 0%nat, [].
    - destruct (decide (c = ch)) as [->|].
      + by exists (S n), r.
      + by exists 0%nat, (c :: replicate n ch ++ r). }
  destruct Hf as (n & r & -> & Hr). exists n.
  assert (Hb : ∃ m core, r = core ++ replicate m ch ∧
                 match last core with None => True | Some c => c ≠ ch end).
  { clear Hr. induction r as [|c r (m & core & -> & Hl)] using rev_ind.
    - by exists 0%nat, [].
    - destruct (decide (c = ch)) as [->|].
      + exists (S m), core. rewrite <- app_assoc, replicate_S_end. done.
      + exists 0%nat, ((core ++ replicate m ch) ++ [c]).
        rewrite app_nil_r, last_snoc. done. }
  destruct Hb as (m & core & -> & Hl). exists m, core.
  split_and!; [done| |done]. destruct core; [|done]. by destruct m.
Qed.

Lemma strip_decomposed n m core :
  match core with [] => m = 0%nat | c :: _ => c ≠ ch end →
  match last core with None => True | Some c => c ≠ ch end →
  strip ch (replicate n ch ++ core ++ replicate m ch) = core.
Proof.
  intros Hc Hl. unfold strip. rewrite drop_while_repeat; cycle 1.
  { destruct core; [by subst m|done]. }
  rewrite reverse_app, reverse_replicate, drop_while_repeat; [apply reverse_involutive|].
  destruct core as [|c core _] using rev_ind; [done|].
  rewrite last_snoc in Hl. by rewrite reverse_snoc.
Qed.

(** The backward loop cuts the trailing run, the first byte apart. *)
Lemma trim_back_spec a k :
  a ≠ [] → (match last a with None => True | Some c => c ≠ ch end ∨ length a = 1%nat) →
  trim_back (length (a ++ replicate k ch) - 1) ch (a ++ replicate k ch) = a ++ replicate k 0.
Proof.
  intros Ha Hl.
  enough (∀ j, trim_back (length a + k - 1) ch (a ++ replicate k ch ++ replicate j 0)
               = a ++ replicate (k + j) 0) as Hj.
  { specialize (Hj 0%nat). rewrite app_nil_r, Nat.add_0_r in Hj.
    by rewrite length_app, length_replicate. }
  induction k as [|k IH]; intros j.
  - simpl. rewrite Nat.add_0_r. destruct (length a - 1)%nat as [|p] eqn:Ep; [done|]. simpl.
    destruct Hl as [Hl|]; [|lia].
    rewrite lookup_app_l by lia. rewrite last_lookup in Hl.
    replace (pred (length a)) with (S p) in Hl by lia.
    rewrite bool_decide_false; [done|]. intros E. rewrite E in Hl. done.
  - replace (length a + S k - 1)%nat with (S (length a + k - 1)); cycle 1.
    { destruct a; [done|]. simpl. lia. }
    cbn [trim_back]. replace (S (length a + k - 1)) with (length a + k)%nat; cycle 1.
    { destruct a; [done|]. simpl. lia. }
    rewrite replicate_S_end, <- !app_assoc. simpl.
    rewrite lookup_app_r by lia. replace (length a + k - length a)%nat with k by lia.
    rewrite lookup_app_r, length_replicate, Nat.sub_diag by (rewrite length_replicate; lia).
    rewrite bool_decide_true by done.
    rewrite insert_app_r_alt by lia. replace (length a + k - length a)%nat with k by lia.
    rewrite (insert_app_r_alt (replicate k ch)) by (by rewrite length_replicate).
    rewrite length_replicate, Nat.sub_diag.
    simpl. specialize (IH (S j)). simpl in IH. rewrite IH. by rewrite Nat.add_succ_r.
Qed.

(** The forward loop counts the leading run. *)
Lemma trim_front_spec n r k pos pre :
  pos = length pre → match r with [] => True | c :: _ => c ≠ ch end → (n ≤ k)%nat →
  trim_front k ch pos (pre ++ replicate n ch ++ r) = (pos + n)%nat.
Proof.
  revert k pos pre. induction n as [|n IH]; intros k pos pre Hp Hr Hk.
  - rewrite Nat.add_0_r. destruct k; simpl; [done|].
    rewrite lookup_app_r, Hp, Nat.sub_diag by lia.
    rewrite bool_decide_false; [done|]. destruct r; simpl; congruence.
  - destruct k as [|k]; [lia|]. simpl.
    rewrite lookup_app_r, Hp, Nat.sub_diag by lia. simpl.
    rewrite bool_decide_true by done.
    rewrite (cons_middle ch pre), (app_assoc pre).
    rewrite IH; [lia|by rewrite length_app; simpl; lia|done|lia].
Qed.

Lemma trimch_decomposed n m core :
  is_cstr (replicate n ch ++ core ++ replicate m ch) →
  match core with [] => m = 0%nat | c :: _ => c ≠ ch end →
  match last core with None => True | Some c => c ≠ ch end →
  trimch (replicate n ch ++ core ++ replicate m ch) ch = core.
Proof.
  intros Hs Hc Hl. unfold trimch.
  destruct core as [|c core].
  - subst m. rewrite !app_nil_r. destruct n as [|n]; [done|].
    change (replicate (S n) ch) with ([ch] ++ replicate n ch).
    rewrite (trim_back_spec [ch]) by (done || by right).
    assert (Hz : match replicate n 0 with [] => True | c :: _ => c ≠ ch end) by (by destruct n).
    change ([ch] ++ replicate n 0) with ([] ++ replicate 1 ch ++ replicate n 0).
    rewrite trim_front_spec by (done || rewrite length_app; simpl; lia).
    simpl. by destruct n.
  - rewrite app_assoc. rewrite (trim_back_spec (replicate n ch ++ c :: core)); cycle 1.
    { by destruct n. }
    { left. by rewrite last_app_cons. }
    rewrite <- !app_assoc.
    pose proof (trim_front_spec n ((c :: core) ++ replicate m 0)
      (length (replicate n ch ++ (c :: core) ++ replicate m ch)) 0 []) as Hfront.
    rewrite app_nil_l in Hfront. rewrite Hfront by (done || rewrite length_app, length_replicate; lia).
    simpl. rewrite drop_app_length' by (by rewrite length_replicate).
    apply Forall_app in Hs as [_ [Hs _]%Forall_app].
    destruct m as [|m]; [by rewrite app_nil_r, c_str_cstr|].
    by apply (c_str_terminated (c :: core)).
Qed.

End TrimFacts.

(** [trimch] returns the string without the leading and the trailing run of
    the byte, also when the string is empty or is nothing but that byte, where its
    backward loop stops one byte early. *)
Theorem trimch_strip (s : bytes) (ch : Z) :
  is_cstr s → ch ≠ 0 → trimch s ch = strip ch s.
Proof.
  intros Hs Hch. destruct (ends_decompose ch s) as (n & m & core & -> & Hc & Hl).
  rewrite (strip_decomposed ch) by done. by apply trimch_decomposed.
Qed.

Lemma trimch_strip_witness :
  is_cstr (bs "  a b  ") ∧ trimch (bs "  a b  ") 32 = bs "a b".
Proof.
  split; [by apply (bool_decide_eq_true_1 _); vm_compute|].
  rewrite (trimch_strip (bs "  a b  ") 32); [reflexivity| |lia].
  apply (bool_decide_eq_true_1 _). vm_compute. reflexivity.
Defined.
