(* ===== verification/HashMap.v ===== *)
(** * The string hash map of map.c

    A chain of nodes per bucket, the pointer to a node being the chain that
    starts at it.  [map_of] is the finite map a table stands for and [wf] the
    invariant; every operation is proved against [map_of] for every outcome of
    the allocations it makes. *)
From S2P Require Export Prelude.
#[local] Open Scope Z_scope.

Section HashMap.
  Context `{Machine} {V : Type}.

(** [struct map_node_t]; the key and the value follow it in memory. *)
Record map_node_t : Type := MkNode { hash : Z; key : bytes; value : V }.

Record map_base_t : Type := MkMap {
  buckets : list (list map_node_t);
  nbuckets : Z;
  nnodes : Z;
}.

Record map_iter_t : Type := MkIter { bucketidx : Z; node : list map_node_t }.

Definition map_init : map_base_t := MkMap [] 0 0.

(** [*str] converted to [unsigned]: sign-extended where [char] is signed. *)
Definition char_to_unsigned (c : Z) : Z :=
  u32 (if char_signed && (128 <=? c) then c - 256 else c).

Definition map_hash (str : bytes) : Z :=
  foldl (fun hash c => Z.lxor (u32 (u32 (Z.shiftl hash 5) + hash)) (char_to_unsigned c)) 5381 str.

(** The layout of a node: [voffset] is where the value starts, and the whole
    allocation adds the header and the value. *)
Definition sizeof_ptr : Z := if long64 then 8 else 4.
Definition sizeof_node : Z := 3 * sizeof_ptr.
Definition voffset (key : bytes) : Z :=
  let ksize := zlen key + 1 in
  ksize + size_t (sizeof_ptr - ksize) mod sizeof_ptr.

Definition map_newnode (key : bytes) (value : V) (vsize : Z) : option map_node_t :=
  if mem_ok (size_t (sizeof_node + voffset key + vsize))
  then Some (MkNode (map_hash key) key value) else None.

Definition map_bucketidx (m : map_base_t) (hash : Z) : Z :=
  i32 (Z.land hash (u32 (nbuckets m - 1))).

Definition map_addnode (m : map_base_t) (n : map_node_t) : map_base_t :=
  MkMap (alter (cons n) (Z.to_nat (map_bucketidx m (hash n))) (buckets m))
        (nbuckets m) (nnodes m).

(** The first loop of [map_resize]: the buckets from the last one down, each
    node pushed on [nodes]. *)
Definition chain_nodes (m : map_base_t) : list map_node_t :=
  foldl (fun nodes b => foldl (fun nodes n => n :: nodes) nodes b) [] (reverse (buckets m)).

(** [map_resize]: the error code and the table. *)
Definition map_resize (m : map_base_t) (new : Z) : Z * map_base_t :=
  let nodes := chain_nodes m in
  let ok := mem_ok (size_t (sizeof_ptr * new)) in
  let n' := if ok then new else nbuckets m in
  let m' := if ok || (0 <? nbuckets m)
            then foldl map_addnode (MkMap (replicate (Z.to_nat n') []) n' (nnodes m)) nodes
            else m in
  (if ok then 0 else -1, m').

(** The position of a node in its bucket. *)
Definition node_matches (h : Z) (k : bytes) (n : map_node_t) : Prop := hash n = h ∧ key n = k.
#[export] Instance node_matches_dec h k n : Decision (node_matches h k n).
Proof. unfold node_matches. apply _. Defined.

Definition map_getref (m : map_base_t) (k : bytes) : option (nat * nat * map_node_t) :=
  let h := map_hash k in
  if 0 <? nbuckets m then
    let i := Z.to_nat (map_bucketidx m h) in
    match buckets m !! i with
    | Some b => match list_find (node_matches h k) b with
                | Some (j, n) => Some (i, j, n)
                | None => None
                end
    | None => None
    end
  else None.

Definition map_get (m : map_base_t) (k : bytes) : option V :=
  match map_getref m k with Some (_, n) => Some (value n) | None => None end.

Definition map_set (m : map_base_t) (k : bytes) (v : V) (vsize : Z) : Z * map_base_t :=
  match map_getref m k with
  | Some (i, j, n) =>
      (0, MkMap (alter (insert j (MkNode (hash n) (key n) v)) i (buckets m))
                (nbuckets m) (nnodes m))
  | None =>
      match map_newnode k v vsize with
      | None => (-1, m)
      | Some n =>
          let '(err, m1) :=
            if nbuckets m <=? nnodes m
            then map_resize m (if 0 <? nbuckets m then u32 (Z.shiftl (nbuckets m) 1) else 1)
            else (0, m) in
          if err =? 0 then
            let m2 := map_addnode m1 n in
            (0, MkMap (buckets m2) (nbuckets m2) (u32 (nnodes m2 + 1)))
          else (-1, m1)
      end
  end.

Definition map_remove (m : map_base_t) (k : bytes) : map_base_t :=
  match map_getref m k with
  | Some (i, j, _) =>
      MkMap (alter (delete j) i (buckets m)) (nbuckets m) (u32 (nnodes m - 1))
  | None => m
  end.

Definition map_iter : map_iter_t := MkIter (u32 (-1)) [].

(** The [nextBucket] loop, at most [fuel] buckets. *)
Fixpoint next_bucket (fuel : nat) (m : map_base_t) (idx : Z) : option bytes * map_iter_t :=
  match fuel with
  | O => (None, MkIter idx [])
  | S fuel =>
      let idx := u32 (idx + 1) in
      if nbuckets m <=? idx then (None, MkIter idx [])
      else match buckets m !! Z.to_nat idx with
           | Some ((n :: _) as b) => (Some (key n), MkIter idx b)
           | _ => next_bucket fuel m idx
           end
  end.

Definition map_next (m : map_base_t) (iter : map_iter_t) : option bytes * map_iter_t :=
  match node iter with
  | _ :: ((n :: _) as rest) => (Some (key n), MkIter (bucketidx iter) rest)
  | _ => next_bucket (S (length (buckets m))) m (bucketidx iter)
  end.

(** The keys a loop [while ((key = map_next(&m, &iter)))] sees. *)
Fixpoint iterate (fuel : nat) (m : map_base_t) (iter : map_iter_t) : list bytes :=
  match fuel with
  | O => []
  | S fuel => match map_next m iter with
              | (Some k, iter) => k :: iterate fuel m iter
              | (None, _) => []
              end
  end.

(** ** What a table stands for *)
Definition nodes_of (m : map_base_t) : list map_node_t := concat (buckets m).
Definition entry (n : map_node_t) : bytes * V := (key n, value n).
Definition map_of (m : map_base_t) : gmap bytes V := list_to_map (entry <$> nodes_of m).

Definition power_of_2 (n : Z) : Prop := n = 0 ∨ ∃ k, 0 ≤ k ≤ 31 ∧ n = 2 ^ k.

(** Every node carries the hash of its key and lies in the bucket of that hash. *)
Definition placed (m : map_base_t) : Prop :=
  ∀ i b n, buckets m !! i = Some b → n ∈ b →
    hash n = map_hash (key n) ∧ map_bucketidx m (hash n) = Z.of_nat i.

Definition wf (m : map_base_t) : Prop :=
  nbuckets m = zlen (buckets m) ∧ power_of_2 (nbuckets m) ∧ placed m ∧
  NoDup (key <$> nodes_of m) ∧ nnodes m = zlen (nodes_of m).

(** ** Lemmas on buckets *)
Lemma lxor_u32 a b : 0 ≤ a < 2 ^ 32 → 0 ≤ b < 2 ^ 32 → 0 ≤ Z.lxor a b < 2 ^ 32.
Proof.
  intros Ha Hb. split; [apply Z.lxor_nonneg; lia|].
  destruct (decide (Z.lxor a b = 0)) as [->|Hne]; [lia|].
  apply Z.log2_lt_pow2; [pose proof (proj2 (Z.lxor_nonneg a b)); lia|].
  eapply Z.le_lt_trans; [apply Z.log2_lxor; lia|].
  assert (∀ x, 0 ≤ x < 2 ^ 32 → Z.log2 x < 32).
  { intros x Hx. destruct (decide (x = 0)) as [->|]; [simpl; lia|]. apply Z.log2_lt_pow2; lia. }
  apply Z.max_lub_lt; auto.
Qed.

Lemma map_hash_bound k : 0 ≤ map_hash k < 2 ^ 32.
Proof.
  unfold map_hash. assert (Hinit : 0 ≤ 5381 < 2 ^ 32) by lia. revert Hinit. generalize 5381.
  induction k as [|c k IH]; intros h Hh; simpl; [done|].
  apply IH, lxor_u32; apply u32_bound.
Qed.

Lemma bucketidx_range m h :
  power_of_2 (nbuckets m) → 0 < nbuckets m → 0 ≤ map_bucketidx m h < nbuckets m.
Proof.
  intros [->|(k & Hk & Hn)] Hpos; [lia|]. unfold map_bucketidx.
  assert (1 ≤ 2 ^ k ≤ 2 ^ 31) by (split; [lia|apply Z.pow_le_mono_r; lia]).
  rewrite Hn, u32_small, land_ones_mod by lia.
  pose proof (Z.mod_pos_bound h (2 ^ k)). rewrite i32_small; lia.
Qed.

Lemma bucket_exists m h :
  wf m → 0 < nbuckets m → is_Some (buckets m !! Z.to_nat (map_bucketidx m h)).
Proof.
  intros (Hlen & Hp & _) Hpos. apply lookup_lt_is_Some.
  pose proof (bucketidx_range m h Hp Hpos). lia.
Qed.

(** Splitting the nodes around one bucket. *)
Lemma concat_split {A} (bs : list (list A)) i b :
  bs !! i = Some b →
  concat bs = concat (take i bs) ++ b ++ concat (drop (S i) bs).
Proof.
  intros Hi. rewrite <- (take_drop_middle bs i b Hi) at 1.
  rewrite concat_app. done.
Qed.

Lemma concat_alter {A} (f : list A → list A) (bs : list (list A)) i b :
  bs !! i = Some b →
  concat (alter f i bs) = concat (take i bs) ++ f b ++ concat (drop (S i) bs).
Proof.
  intros Hi. rewrite (concat_split (alter f i bs) i (f b)).
  - by rewrite take_alter_ge, drop_alter_lt by lia.
  - by rewrite list_lookup_alter_eq, Hi.
Qed.

Lemma elem_of_nodes m n : n ∈ nodes_of m ↔ ∃ i b, buckets m !! i = Some b ∧ n ∈ b.
Proof.
  unfold nodes_of. split.
  - intros Hn. rewrite list_elem_of_In, in_concat in Hn. destruct Hn as (b & Hb & Hn).
    rewrite <- list_elem_of_In in Hb. rewrite <- list_elem_of_In in Hn. apply list_elem_of_lookup in Hb as [i Hi]. eauto.
  - intros (i & b & Hi & Hn). rewrite list_elem_of_In, in_concat. exists b.
    rewrite <- !list_elem_of_In. eauto using list_elem_of_lookup_2.
Qed.

(** [map_getref] finds the node of the key, and only that one. *)
Lemma getref_Some m k i j n :
  map_getref m k = Some (i, j, n) →
  key n = k ∧ hash n = map_hash k ∧ ∃ b, buckets m !! i = Some b ∧ b !! j = Some n.
Proof.
  unfold map_getref. destruct (0 <? nbuckets m); [|done].
  destruct (buckets m !! _) as [b|] eqn:Eb; [|done].
  destruct (list_find _ b) as [[j' n']|] eqn:Ef; [|done].
  intros [= <- <- <-]. apply list_find_Some in Ef as (Hj & [Hh Hk] & _). eauto.
Qed.

Lemma getref_None m k :
  wf m → map_getref m k = None → k ∉ key <$> nodes_of m.
Proof.
  intros Hwf Hnone (n & -> & Hn)%list_elem_of_fmap.
  apply elem_of_nodes in Hn as (i & b & Hi & Hn).
  pose proof Hwf as (Hlen & Hp & Hpl & _).
  destruct (Hpl _ _ _ Hi Hn) as [Hh Hidx]. unfold map_getref in Hnone.
  apply lookup_lt_Some in Hi as Hlt.
  rewrite (proj2 (Z.ltb_lt _ _)), <- Hh, Hidx, Nat2Z.id, Hi in Hnone by lia.
  destruct (list_find _ b) as [[]|] eqn:Ef; [done|].
  apply list_find_None in Ef. rewrite Forall_forall in Ef.
  by apply (Ef n Hn).
Qed.

(** The nodes around the one [map_getref] finds. *)
Lemma getref_split m k i j n :
  map_getref m k = Some (i, j, n) →
  ∃ l1 l2, nodes_of m = l1 ++ n :: l2 ∧
    (∀ n', concat (alter (insert j n') i (buckets m)) = l1 ++ n' :: l2) ∧
    concat (alter (delete j) i (buckets m)) = l1 ++ l2.
Proof.
  intros (_ & _ & b & Hi & Hj)%getref_Some.
  exists (concat (take i (buckets m)) ++ take j b), (drop (S j) b ++ concat (drop (S i) (buckets m))).
  split_and!.
  - unfold nodes_of. rewrite (concat_split _ _ _ Hi).
    rewrite <- (take_drop_middle b j n Hj) at 1. by rewrite <- !app_assoc.
  - intros n'. rewrite (concat_alter _ _ _ _ Hi).
    rewrite (insert_take_drop b) by (by eapply lookup_lt_Some). by rewrite <- !app_assoc.
  - rewrite (concat_alter _ _ _ _ Hi), delete_take_drop. by rewrite <- !app_assoc.
Qed.

Lemma keys_entries (l : list map_node_t) : (entry <$> l).*1 = key <$> l.
Proof. by rewrite <- list_fmap_compose. Qed.

(** The map of nodes with different keys does not depend on their order. *)
Lemma to_map_perm (l l' : list map_node_t) :
  NoDup (key <$> l) → l ≡ₚ l' →
  (list_to_map (entry <$> l) : gmap bytes V) = list_to_map (entry <$> l').
Proof.
  intros Hnd Hp. apply list_to_map_proper; [by rewrite keys_entries|by rewrite Hp].
Qed.

Lemma to_map_middle (l1 l2 : list map_node_t) n :
  NoDup (key <$> l1 ++ n :: l2) →
  (list_to_map (entry <$> l1 ++ n :: l2) : gmap bytes V) =
  <[key n := value n]> (list_to_map (entry <$> l1 ++ l2)).
Proof.
  intros Hnd. rewrite (to_map_perm _ (n :: l1 ++ l2)); [done|done|].
  symmetry. apply Permutation_middle.
Qed.

Lemma middle_fresh (l1 l2 : list map_node_t) n :
  NoDup (key <$> l1 ++ n :: l2) →
  (key n ∉ key <$> l1 ++ l2) ∧ NoDup (key <$> l1 ++ l2).
Proof.
  rewrite <- Permutation_middle, fmap_cons. by rewrite NoDup_cons.
Qed.

Lemma to_map_fresh (l : list map_node_t) k :
  k ∉ key <$> l → (list_to_map (entry <$> l) : gmap bytes V) !! k = None.
Proof. intros Hk. apply not_elem_of_list_to_map_1. by rewrite keys_entries. Qed.

(** *** Adding nodes *)

(** The invariant without the count of the nodes, which [map_addnode] leaves. *)
Definition wf_shape (m : map_base_t) : Prop :=
  nbuckets m = zlen (buckets m) ∧ power_of_2 (nbuckets m) ∧ placed m ∧
  NoDup (key <$> nodes_of m).

Lemma addnode_shape m n :
  wf_shape m → 0 < nbuckets m → hash n = map_hash (key n) →
  key n ∉ key <$> nodes_of m →
  wf_shape (map_addnode m n) ∧ nodes_of (map_addnode m n) ≡ₚ n :: nodes_of m.
Proof.
  intros (Hlen & Hp & Hpl & Hnd) Hpos Hh Hk.
  pose proof (bucketidx_range m (hash n) Hp Hpos) as Hr.
  set (i := Z.to_nat (map_bucketidx m (hash n))).
  destruct (lookup_lt_is_Some_2 (buckets m) i ltac:(lia)) as [b Hi].
  assert (Hperm : nodes_of (map_addnode m n) ≡ₚ n :: nodes_of m).
  { unfold nodes_of, map_addnode; simpl. fold i.
    rewrite (concat_alter _ _ _ b Hi), (concat_split _ _ _ Hi).
    simpl. symmetry. apply Permutation_middle. }
  split; [|done]. split_and!.
  - simpl. by rewrite length_alter.
  - done.
  - intros i' b' n' Hi' Hn'. simpl in Hi'. fold i in Hi'.
    destruct (decide (i = i')) as [<-|Hne].
    + rewrite list_lookup_alter_eq, Hi in Hi'. injection Hi' as <-.
      apply elem_of_cons in Hn' as [->|Hn']; [|by eapply Hpl].
      split; [done|]. unfold map_bucketidx in *; simpl. lia.
    + rewrite list_lookup_alter_ne in Hi' by done. by eapply Hpl.
  - rewrite Hperm, fmap_cons. by apply NoDup_cons.
Qed.

Lemma addnodes_shape ns m :
  wf_shape m → 0 < nbuckets m →
  Forall (fun n => hash n = map_hash (key n)) ns →
  NoDup (key <$> ns ++ nodes_of m) →
  let m' := foldl map_addnode m ns in
  wf_shape m' ∧ nodes_of m' ≡ₚ ns ++ nodes_of m ∧
  nbuckets m' = nbuckets m ∧ nnodes m' = nnodes m.
Proof.
  revert m. induction ns as [|n ns IH]; intros m Hwf Hpos Hh Hnd; simpl; [done|].
  inversion_clear Hh as [|? ? Hn Hns].
  rewrite <- app_comm_cons, fmap_cons, NoDup_cons in Hnd. destruct Hnd as [Hfresh Hnd].
  pose proof Hfresh as Hfresh'. rewrite fmap_app, not_elem_of_app in Hfresh'.
  destruct (addnode_shape m n) as [Hwf' Hp]; [done|done|done|tauto|].
  destruct (IH (map_addnode m n)) as (? & Hp' & ? & ?); [done|done|done| |].
  { rewrite Hp, <- Permutation_middle, fmap_cons. by apply NoDup_cons. }
  split_and!; [done| |done|done]. by rewrite Hp', Hp, <- Permutation_middle.
Qed.

Lemma chain_nodes_perm m : chain_nodes m ≡ₚ nodes_of m.
Proof.
  unfold chain_nodes, nodes_of. rewrite <- (reverse_involutive (buckets m)) at 2.
  generalize (reverse (buckets m)) as bs. intros bs.
  enough (∀ acc, foldl (fun nodes b => foldl (fun nodes n => n :: nodes) nodes b) acc bs
                 ≡ₚ acc ++ concat (reverse bs)) as Hacc by apply (Hacc []).
  assert (Hin : ∀ (b acc : list map_node_t), foldl (fun nodes n => n :: nodes) acc b ≡ₚ acc ++ b).
  { induction b as [|n b IHb]; intros acc; simpl; [by rewrite app_nil_r|].
    rewrite IHb. apply Permutation_middle. }
  induction bs as [|b bs IH]; intros acc; simpl; [by rewrite app_nil_r|].
  rewrite IH, Hin, reverse_cons, concat_app. simpl. rewrite app_nil_r.
  rewrite <- app_assoc. f_equiv. apply Permutation_app_comm.
Qed.

Lemma nodes_of_empty j a c : nodes_of (MkMap (replicate j []) a c) = [].
Proof. unfold nodes_of; simpl. by induction j. Qed.

Lemma empty_shape n k :
  0 ≤ k ≤ 31 → wf_shape (MkMap (replicate (Z.to_nat (2 ^ k)) []) (2 ^ k) n).
Proof.
  intros Hk. assert (1 ≤ 2 ^ k) by lia.
  split_and!; simpl.
  - rewrite length_replicate. lia.
  - right. eauto.
  - intros i b n' Hi Hn'. apply lookup_replicate in Hi as [-> _]. by apply elem_of_nil in Hn'.
  - rewrite nodes_of_empty. constructor.
Qed.

Lemma wf_hashes m : wf m → Forall (fun n => hash n = map_hash (key n)) (nodes_of m).
Proof.
  intros (_ & _ & Hpl & _). apply Forall_forall.
  intros n (i & b & Hi & Hn)%elem_of_nodes. by eapply Hpl.
Qed.

(** Rebuilding the table on [2 ^ k] empty buckets. *)
Lemma rebuild m k :
  wf m → 0 ≤ k ≤ 31 →
  let m' := foldl map_addnode (MkMap (replicate (Z.to_nat (2 ^ k)) []) (2 ^ k) (nnodes m))
                  (chain_nodes m) in
  wf m' ∧ nodes_of m' ≡ₚ nodes_of m ∧ nbuckets m' = 2 ^ k.
Proof.
  intros Hwf Hk. pose proof (empty_shape (nnodes m) k Hk) as He.
  pose proof (chain_nodes_perm m) as Hc.
  pose proof (nodes_of_empty (Z.to_nat (2 ^ k)) (2 ^ k) (nnodes m)) as Hnil.
  destruct (addnodes_shape (chain_nodes m) _ He) as (Hs & Hp & Hn & Hnn).
  - simpl. lia.
  - rewrite Hc. by apply wf_hashes.
  - rewrite Hnil, app_nil_r, Hc. by destruct Hwf as (_ & _ & _ & ? & _).
  - rewrite Hnil, app_nil_r in Hp. pose proof (transitivity Hp Hc) as Hp'. destruct Hs as (? & ? & ? & ?).
    destruct Hwf as (_ & _ & _ & _ & Hcount).
    split_and!; [|done|done]. split_and!; [done..|].
    rewrite Hnn. simpl. by rewrite Hp'.
Qed.

Lemma resize_wf m k :
  wf m → 0 ≤ k ≤ 31 →
  let '(err, m') := map_resize m (2 ^ k) in
  wf m' ∧ nodes_of m' ≡ₚ nodes_of m ∧ (err = 0 → nbuckets m' = 2 ^ k).
Proof.
  intros Hwf Hk. unfold map_resize. destruct (mem_ok _); simpl.
  { destruct (rebuild m k Hwf Hk) as (? & ? & ?). by split_and!. }
  destruct (Z.ltb_spec 0 (nbuckets m)); [|by split_and!].
  pose proof Hwf as (_ & [|(k' & Hk' & Hn)] & _); [lia|]. rewrite Hn.
  destruct (rebuild m k' Hwf Hk') as (? & ? & ?). by split_and!.
Qed.

(** ** Each operation against the finite map *)
Lemma wf_nodup m : wf m → NoDup (key <$> nodes_of m).
Proof. by intros (_ & _ & _ & ? & _). Qed.

Lemma init_wf : wf map_init ∧ map_of map_init = ∅.
Proof.
  split; [|done]. repeat split; [by left|done..|constructor].
Qed.

Lemma get_correct m k : wf m → map_get m k = map_of m !! k.
Proof.
  intros Hwf. unfold map_get. destruct (map_getref m k) as [[[i j] n]|] eqn:E.
  - pose proof (getref_Some _ _ _ _ _ E) as (Hk & _ & _).
    destruct (getref_split _ _ _ _ _ E) as (l1 & l2 & Hsplit & _ & _).
    unfold map_of. pose proof (wf_nodup _ Hwf) as Hnd. rewrite Hsplit in *.
    by rewrite to_map_middle, Hk, lookup_insert_eq.
  - symmetry. unfold map_of. by apply to_map_fresh, getref_None.
Qed.

(** Replacing the value of a node in place. *)
Lemma replace_correct m k v i j n :
  wf m → map_getref m k = Some (i, j, n) →
  let m' := MkMap (alter (insert j (MkNode (hash n) (key n) v)) i (buckets m))
                  (nbuckets m) (nnodes m) in
  wf m' ∧ map_of m' = <[k := v]> (map_of m).
Proof.
  intros Hwf E m'. pose proof (getref_Some _ _ _ _ _ E) as (Hk & Hh & b & Hi & Hj).
  destruct (getref_split _ _ _ _ _ E) as (l1 & l2 & Hsplit & Hset & _).
  set (n' := MkNode (hash n) (key n) v) in *. specialize (Hset n').
  pose proof (wf_nodup _ Hwf) as Hnd. rewrite Hsplit in Hnd.
  assert (Hnd' : NoDup (key <$> l1 ++ n' :: l2)).
  { rewrite fmap_app, fmap_cons in *. done. }
  destruct Hwf as (Hlen & Hp & Hpl & _ & Hcount). split.
  - split_and!; simpl.
    + by rewrite length_alter.
    + done.
    + intros i' b' x Hi' Hx. simpl in Hi'. destruct (decide (i = i')) as [<-|].
      * rewrite list_lookup_alter_eq, Hi in Hi'. injection Hi' as <-.
        destruct (Hpl i b n Hi (list_elem_of_lookup_2 _ _ _ Hj)).
        apply list_elem_of_lookup in Hx as [j' Hx].
        apply list_lookup_insert_Some in Hx as [(_ & <- & _)|[_ Hx]]; [done|].
        eapply Hpl; [done|by eapply list_elem_of_lookup_2].
      * rewrite list_lookup_alter_ne in Hi' by done. by eapply Hpl.
    + unfold nodes_of; simpl. by rewrite Hset.
    + unfold nodes_of; simpl. rewrite Hset, Hcount, Hsplit, !length_app. done.
  - unfold map_of, nodes_of at 1; simpl. rewrite Hset, Hsplit.
    rewrite !to_map_middle by done. simpl. by rewrite Hk, insert_insert_eq.
Qed.

Lemma of_perm m m' : wf m → nodes_of m' ≡ₚ nodes_of m → map_of m' = map_of m.
Proof.
  intros Hwf Hp. symmetry. unfold map_of. apply to_map_perm; [by apply wf_nodup|done].
Qed.

(** Linking a new node of a fresh key and counting it. *)
Lemma add_correct m k v :
  wf m → 0 < nbuckets m → zlen (nodes_of m) < 2 ^ 31 → k ∉ key <$> nodes_of m →
  let m2 := map_addnode m (MkNode (map_hash k) k v) in
  let m' := MkMap (buckets m2) (nbuckets m2) (u32 (nnodes m2 + 1)) in
  wf m' ∧ map_of m' = <[k := v]> (map_of m).
Proof.
  intros Hwf Hpos Hb Hk m2 m'. pose proof Hwf as (Hlen & Hp & Hpl & Hnd & Hcount).
  destruct (addnode_shape m (MkNode (map_hash k) k v)) as [(? & ? & ? & Hnd2) Hperm]; [done..|].
  split.
  - split_and!; [done..|]. change (u32 (nnodes m + 1) = zlen (nodes_of m2)).
    rewrite Hcount, u32_small by lia. unfold m2. rewrite Hperm. simpl. lia.
  - exact (to_map_perm _ _ Hnd2 Hperm).
Qed.

Lemma grow_power m :
  wf m → nbuckets m ≤ nnodes m → nnodes m < 2 ^ 30 →
  ∃ k, 0 ≤ k ≤ 31 ∧ (if 0 <? nbuckets m then u32 (Z.shiftl (nbuckets m) 1) else 1) = 2 ^ k.
Proof.
  intros (Hlen & [Hz|(k & Hk & Hn)] & _) Hle Hb.
  - exists 0. rewrite Hz. done.
  - exists (k + 1). assert (k < 30) by (apply (Z.pow_lt_mono_r_iff 2); lia).
    split; [lia|]. rewrite (proj2 (Z.ltb_lt _ _)) by lia.
    rewrite Z.shiftl_mul_pow2, Hn by lia. rewrite <- Z.pow_add_r by lia.
    apply u32_small. split; [lia|]. apply Z.pow_lt_mono_r; lia.
Qed.

Lemma set_correct m k v vsize :
  wf m → nnodes m < 2 ^ 30 →
  let '(err, m') := map_set m k v vsize in
  wf m' ∧ map_of m' = (if err =? 0 then <[k := v]> (map_of m) else map_of m) ∧
  ((∀ n, mem_ok n = true) → err = 0).
Proof.
  intros Hwf Hb. unfold map_set.
  destruct (map_getref m k) as [[[i j] n]|] eqn:E.
  { by destruct (replace_correct m k v i j n Hwf E). }
  pose proof (getref_None _ _ Hwf E) as Hk. unfold map_newnode.
  destruct (mem_ok _) eqn:Emem; cycle 1.
  { split_and!; [done|done|]. intros Hok. by rewrite Hok in Emem. }
  pose proof Hwf as (Hlen & _ & _ & _ & Hcount).
  destruct (Z.leb_spec (nbuckets m) (nnodes m)) as [Hle|Hlt]; cycle 1.
  { destruct (add_correct m k v Hwf) as [? ?]; [lia..|done|]. by split_and!. }
  destruct (grow_power m Hwf Hle Hb) as (p & Hp & ->).
  pose proof (resize_wf m p Hwf Hp) as Hres.
  assert (Hok : (∀ n, mem_ok n = true) → (map_resize m (2 ^ p)).1 = 0).
  { intros Hok. unfold map_resize. by rewrite Hok. }
  destruct (map_resize m (2 ^ p)) as [err m1]. destruct Hres as (Hwf1 & Hperm & Hnb).
  destruct (Z.eqb_spec err 0) as [->|Hne]; simpl.
  - destruct (add_correct m1 k v Hwf1) as [? ?]; [rewrite Hnb; lia|rewrite Hperm; lia|by rewrite Hperm|].
    rewrite <- (of_perm m m1) by done. by split_and!.
  - split_and!; [done|by apply of_perm|by intros ?%Hok].
Qed.

Lemma remove_correct m k :
  wf m → zlen (nodes_of m) < 2 ^ 32 →
  wf (map_remove m k) ∧ map_of (map_remove m k) = delete k (map_of m).
Proof.
  intros Hwf Hb. unfold map_remove. destruct (map_getref m k) as [[[i j] n]|] eqn:E; cycle 1.
  { split; [done|]. symmetry. apply delete_id.
    unfold map_of. by apply to_map_fresh, getref_None. }
  pose proof (getref_Some _ _ _ _ _ E) as (Hk & Hh & b & Hi & Hj).
  destruct (getref_split _ _ _ _ _ E) as (l1 & l2 & Hsplit & _ & Hdel).
  pose proof (wf_nodup _ Hwf) as Hnd. rewrite Hsplit in Hnd.
  destruct (middle_fresh _ _ _ Hnd) as [Hfresh Hnd'].
  destruct Hwf as (Hlen & Hp & Hpl & _ & Hcount). split.
  - split_and!; simpl.
    + by rewrite length_alter.
    + done.
    + intros i' b' x Hi' Hx. simpl in Hi'. destruct (decide (i = i')) as [<-|].
      * rewrite list_lookup_alter_eq, Hi in Hi'. injection Hi' as <-.
        eapply Hpl; [done|]. rewrite delete_take_drop in Hx.
        rewrite <- (take_drop_middle b j n Hj). rewrite elem_of_app, elem_of_cons in *. tauto.
      * rewrite list_lookup_alter_ne in Hi' by done. by eapply Hpl.
    + unfold nodes_of; simpl. by rewrite Hdel.
    + unfold nodes_of; simpl. rewrite Hdel.
      assert (zlen (nodes_of m) = zlen (l1 ++ l2) + 1) by (rewrite Hsplit, !length_app; simpl; lia).
      rewrite Hcount, u32_small; lia.
  - unfold map_of, nodes_of at 1; simpl. rewrite Hdel, Hsplit, to_map_middle, <- Hk by done.
    symmetry. apply delete_insert_id. by apply to_map_fresh.
Qed.

(** ** Iteration *)
Lemma next_bucket_spec m fuel idx i :
  nbuckets m = zlen (buckets m) → nbuckets m < 2 ^ 32 →
  u32 (idx + 1) = Z.of_nat i → (i ≤ length (buckets m))%nat → (length (buckets m) - i < fuel)%nat →
  match concat (drop i (buckets m)) with
  | [] => (next_bucket fuel m idx).1 = None
  | n :: _ => ∃ j rest, (i ≤ j < length (buckets m))%nat ∧
      next_bucket fuel m idx = (Some (key n), MkIter (Z.of_nat j) (n :: rest)) ∧
      concat (drop i (buckets m)) = n :: rest ++ concat (drop (S j) (buckets m))
  end.
Proof.
  intros Hlen Hb. revert idx i. induction fuel as [|fuel IH]; intros idx i Hidx Hi Hf; [lia|].
  simpl. rewrite Hidx, Hlen, Nat2Z.id. destruct (Z.leb_spec (zlen (buckets m)) (Z.of_nat i)).
  { by rewrite drop_ge by lia. }
  destruct (lookup_lt_is_Some_2 (buckets m) i ltac:(lia)) as [b Hb'].
  rewrite Hb', (drop_S _ _ _ Hb'). destruct b as [|n rest]; simpl.
  - specialize (IH (Z.of_nat i) (S i)).
    assert (Hu : u32 (Z.of_nat i + 1) = Z.of_nat (S i)) by (rewrite u32_small; lia).
    specialize (IH Hu ltac:(lia) ltac:(lia)).
    destruct (concat (drop (S i) (buckets m))) as [|n r]; [done|].
    destruct IH as (j & rest & ? & ? & ?). exists j, rest. split_and!; [lia..|done|done].
  - exists i, rest. split_and!; [lia..|done|done].
Qed.

Lemma iterate_spec m fuel j n rest :
  nbuckets m = zlen (buckets m) → nbuckets m < 2 ^ 32 → (j < length (buckets m))%nat →
  (length rest + length (concat (drop (S j) (buckets m))) < fuel)%nat →
  iterate fuel m (MkIter (Z.of_nat j) (n :: rest)) =
  key <$> rest ++ concat (drop (S j) (buckets m)).
Proof.
  intros Hlen Hb. revert j n rest.
  induction fuel as [|fuel IH]; intros j n rest Hj Hf; [lia|].
  cbn [iterate]. unfold map_next; cbn [node bucketidx]. destruct rest as [|n' rest].
  - pose proof (next_bucket_spec m (S (length (buckets m))) (Z.of_nat j) (S j) Hlen Hb
      ltac:(rewrite u32_small; lia) ltac:(lia) ltac:(lia)) as Hn.
    rewrite app_nil_l. destruct (concat (drop (S j) (buckets m))) as [|x l] eqn:El.
    + destruct (next_bucket _ _ _) as [[k|] it]; [done|done].
    + destruct Hn as (j' & rest & ? & -> & Heq). rewrite Heq.
      rewrite IH; [done|lia|]. simpl in Hf. apply (f_equal length) in Heq.
      simpl in Heq. rewrite length_app in Heq. lia.
  - rewrite IH; [done|done|simpl in Hf; lia].
Qed.

(** The keys in the order of the buckets, each once, and then the end. *)
Lemma iterate_all m :
  wf m → iterate (S (length (nodes_of m))) m map_iter = key <$> nodes_of m.
Proof.
  intros (Hlen & Hp & _). assert (Hb : nbuckets m < 2 ^ 32).
  { destruct Hp as [->|(k & ? & ->)]; [lia|]. apply Z.pow_lt_mono_r; lia. }
  cbn [iterate]. unfold map_next. cbn [node map_iter bucketidx].
  pose proof (next_bucket_spec m (S (length (buckets m))) (u32 (-1)) 0 Hlen Hb
    eq_refl ltac:(lia) ltac:(lia)) as Hn.
  rewrite drop_0 in Hn. unfold nodes_of in *. destruct (concat (buckets m)) as [|n l] eqn:El.
  - by destruct (next_bucket _ _ _) as [[k|] it].
  - destruct Hn as (j & rest & ? & -> & Heq). rewrite Heq.
    rewrite iterate_spec; [done|done|done|lia|]. simpl. rewrite length_app. lia.
Qed.

(** ** Sequences of operations, each with the code it returns *)
Inductive mop : Type := MSet (k : bytes) (v : V) | MRemove (k : bytes).

Definition mstep (vsize : Z) (m : map_base_t) (o : mop) : Z * map_base_t :=
  match o with
  | MSet k v => map_set m k v vsize
  | MRemove k => (0, map_remove m k)
  end.

Definition mstep_spec (g : gmap bytes V) (oe : mop * Z) : gmap bytes V :=
  match oe with
  | (MSet k v, err) => if err =? 0 then <[k := v]> g else g
  | (MRemove k, _) => delete k g
  end.

Fixpoint mrun (vsize : Z) (m : map_base_t) (ops : list mop) : list Z * map_base_t :=
  match ops with
  | [] => ([], m)
  | o :: ops =>
      let '(err, m1) := mstep vsize m o in
      let '(errs, m2) := mrun vsize m1 ops in (err :: errs, m2)
  end.

(** The number of nodes grows by one at most. *)
Lemma size_nodes m : wf m → size (map_of m) = length (nodes_of m).
Proof.
  intros (_ & _ & _ & Hnd & _). unfold map_of. rewrite map_size_list_to_map.
  - by rewrite length_fmap.
  - by rewrite keys_entries.
Qed.

Lemma mstep_correct vsize m o :
  wf m → nnodes m < 2 ^ 30 →
  let '(err, m') := mstep vsize m o in
  wf m' ∧ map_of m' = mstep_spec (map_of m) (o, err) ∧
  ((∀ n, mem_ok n = true) → err = 0) ∧ nnodes m' ≤ nnodes m + 1.
Proof.
  intros Hwf Hb. pose proof Hwf as (_ & _ & _ & _ & Hcount).
  assert (Hgrow : ∀ m', wf m' → (size (map_of m') ≤ S (size (map_of m)))%nat →
                        nnodes m' ≤ nnodes m + 1).
  { intros m' Hwf' Hs. rewrite !size_nodes in Hs by done.
    destruct Hwf' as (_ & _ & _ & _ & ->). lia. }
  destruct o as [k v|k]; simpl.
  - pose proof (set_correct m k v vsize Hwf Hb) as Hset.
    destruct (map_set m k v vsize) as [err m']. destruct Hset as (? & Hmap & ?).
    split_and!; [done..|]. apply Hgrow; [done|]. rewrite Hmap.
    destruct (err =? 0); [|lia]. rewrite map_size_insert. case_match; simpl; lia.
  - destruct (remove_correct m k Hwf) as [? Hmap]; [lia|].
    split_and!; [done..|]. apply Hgrow; [done|]. rewrite Hmap, map_size_delete.
    case_match; simpl; lia.
Qed.

Lemma mrun_correct vsize ops m :
  wf m → nnodes m + zlen ops < 2 ^ 30 →
  let '(errs, m') := mrun vsize m ops in
  wf m' ∧ map_of m' = foldl mstep_spec (map_of m) (zip ops errs) ∧
  length errs = length ops ∧
  ((∀ n, mem_ok n = true) → Forall (fun e => e = 0) errs).
Proof.
  revert m. induction ops as [|o ops IH]; intros m Hwf Hb.
  { by split_and!. }
  rewrite length_cons, Nat2Z.inj_succ in Hb.
  pose proof (mstep_correct vsize m o Hwf ltac:(lia)) as Hstep. cbn [mrun].
  destruct (mstep vsize m o) as [err m1]. destruct Hstep as (Hwf1 & Hmap & Hok & Hn).
  specialize (IH m1 Hwf1 ltac:(lia)). destruct (mrun vsize m1 ops) as [errs m2].
  destruct IH as (? & Hmap2 & ? & ?). split_and!; [done| |simpl; lia|by constructor; auto].
  cbn [zip zip_with foldl]. by rewrite Hmap2, Hmap.
Qed.

End HashMap.

(** C20. Whatever allocations fail, a table built by any sequence of fewer than
    2^30 sets and removes satisfies the invariant of the code (every node in the
    bucket of its hash, no key twice, a power of two of buckets, an exact count) and
    holds exactly the bindings of the finite map obtained from the operations whose
    code was 0: a failed set changes nothing.  A lookup answers what the map says, an
    iteration returns every key exactly once, and no set fails while memory lasts. *)
Theorem hashmap_refines_map `{Machine} {V} (vsize : Z) (ops : list (@mop V)) :
  zlen ops < 2 ^ 30 →
  let '(errs, m) := mrun vsize map_init ops in
  let g := foldl mstep_spec ∅ (zip ops errs) in
  wf m ∧ map_of m = g ∧ (∀ k, map_get m k = g !! k) ∧
  iterate (S (size g)) m map_iter ≡ₚ (map_to_list g).*1 ∧
  ((∀ n, mem_ok n = true) → Forall (fun e => e = 0) errs).
Proof.
  intros Hlen. destruct (@init_wf _ V) as [Hinit Hempty].
  pose proof (mrun_correct vsize ops map_init Hinit ltac:(simpl; lia)) as Hrun.
  destruct (mrun vsize map_init ops) as [errs m]. destruct Hrun as (Hwf & Hmap & _ & Hok).
  rewrite Hempty in Hmap. cbv zeta. rewrite <- Hmap. split_and!; [done..| | |done].
  - intros k. by apply get_correct.
  - rewrite size_nodes, iterate_all by done. unfold map_of.
    rewrite map_to_list_to_map by (rewrite keys_entries; by apply wf_nodup).
    by rewrite keys_entries.
Qed.

(** Six keys on a machine that refuses to grow the table past four buckets. *)
Definition small_machine : Machine :=
  {| mem_ok n := negb (n =? 64); char_signed := true; big_endian := false; long64 := true |}.

Definition sample_ops : list (@mop Z) :=
  [MSet (bs "/bin") 1; MSet (bs "/lib") 2; MSet (bs "/usr") 3; MSet (bs "/etc") 4;
   MSet (bs "/dev") 5; MRemove (bs "/bin")].

(** The fifth set needs eight buckets and fails. *)
Example sample_run :
  (@mrun small_machine Z 4 map_init sample_ops).1 = [0; 0; 0; 0; -1; 0] ∧
  @map_get small_machine Z (@mrun small_machine Z 4 map_init sample_ops).2 (bs "/lib") = Some 2 ∧
  @map_get small_machine Z (@mrun small_machine Z 4 map_init sample_ops).2 (bs "/dev") = None.
Proof. vm_compute. repeat split. Qed.

Lemma hashmap_refines_map_witness :
  let '(errs, m) := @mrun small_machine Z 4 map_init sample_ops in
  let g := foldl mstep_spec ∅ (zip sample_ops errs) in
  @wf small_machine Z m ∧ map_of m = g ∧
  (∀ k, @map_get small_machine Z m k = g !! k) ∧
  iterate (S (size g)) m map_iter ≡ₚ (map_to_list g).*1 ∧
  ((∀ n, @mem_ok small_machine n = true) → Forall (fun e => e = 0) errs).
Proof. exact (@hashmap_refines_map small_machine Z 4 sample_ops eq_refl). Defined.

(** The value of a node starts at an offset that is a multiple of the size of
    a pointer, after the terminator of the key and less than one pointer later, on
    both widths of [size_t]. *)
Theorem map_value_aligned `{Machine} (k : bytes) :
  voffset k mod sizeof_ptr = 0 ∧
  zlen k + 1 ≤ voffset k < zlen k + 1 + sizeof_ptr.
Proof.
  unfold voffset, sizeof_ptr, size_t, size_t_mod.
  destruct long64;
    rewrite Z.mod_mod_divide by (first [by exists (2 ^ 61)|by exists (2 ^ 30)]);
    match goal with |- context [(?p - ?k) mod ?p] =>
      pose proof (Z.mod_pos_bound (p - k) p ltac:(lia)); split; [|lia];
      rewrite Zplus_mod_idemp_r; replace (k + (p - k)) with p by lia; reflexivity
    end.
Qed.

Arguments map_node_t : clear implicits.
Arguments map_base_t : clear implicits.
Arguments map_iter_t : clear implicits.
