(* ===== verification/DirBlock.v ===== *)
(** * Raw directory blocks: fs.h and fs.c

    The byte swaps, the parsers of ext2/3/4 and XFS directory blocks and the
    listing through readdir.  A parser is a step at an offset of the block
    ([ext2_step], [xfs_step]) and the loop that follows the record lengths,
    allocates the entries and pushes their addresses. *)
From S2P Require Export Utils Vector.
#[local] Open Scope Z_scope.

(** ** Byte swaps *)
Definition ext2fs_swab16 (val : Z) : Z := Z.lor (Z.shiftr val 8) (u16 (Z.shiftl val 8)).

Definition ext2fs_swab32 (val : Z) : Z :=
  Z.lor (Z.lor (Z.lor (Z.shiftr val 24) (Z.land (Z.shiftr val 8) 0xFF00))
               (Z.land (u32 (Z.shiftl val 8)) 0xFF0000))
        (u32 (Z.shiftl val 24)).

Definition ext2fs_swab64 (val : Z) : Z :=
  Z.lor (ext2fs_swab32 (u32 (Z.shiftr val 32)))
        (u64 (Z.shiftl (ext2fs_swab32 (Z.land val 0xFFFFFFFF)) 32)).

Section Defs.
  Context `{Machine}.

Definition from_be16 (val : Z) : Z := if isBigEndian then val else ext2fs_swab16 val.
Definition from_be32 (val : Z) : Z := if isBigEndian then val else ext2fs_swab32 val.
Definition from_be64 (val : Z) : Z := if isBigEndian then val else ext2fs_swab64 val.

Definition EXT4_MAX_REC_LEN : Z := 65535.
Definition XFS_DIR2_DATA_FREE_TAG : Z := 0xffff.
Definition XFS_DIR2_BLOCK_MAGIC : Z := 0x58443242.
Definition XFS_DIR2_DATA_MAGIC : Z := 0x58443244.
Definition XFS_DIR3_BLOCK_MAGIC : Z := 0x58444233.
Definition XFS_DIR3_DATA_MAGIC : Z := 0x58444433.

(** What one iteration of a parser does: leave the loop, go on, or add an entry
    and go on; the number is [rec_len]. *)
Inductive dstep : Type :=
  | DStop
  | DSkip (rec_len : Z)
  | DEmit (rec_len : Z) (e : my_dir_entry).

(** [len == 1 && cp[0] == '.'] and [len == 2 && cp[0] == '.' && cp[1] == '.'] *)
Definition is_dot (len cp : Z) (buf : bytes) : outcome bool :=
  if len =? 1 then let? c0 := of_option (rd8 cp buf) in Ret (c0 =? 46) else Ret false.
Definition is_dotdot (len cp : Z) (buf : bytes) : outcome bool :=
  if len =? 2 then
    let? c0 := of_option (rd8 cp buf) in
    if c0 =? 46 then let? c1 := of_option (rd8 (cp + 1) buf) in Ret (c1 =? 46) else Ret false
  else Ret false.

(** The body of the loop of [parse_ext2_dir] at [p = buf + off]. *)
Definition ext2_step (buf : bytes) (datalen off : Z) : outcome dstep :=
  let? raw_len := of_option (rd 2 (off + 4) buf) in
  let? raw_inode := of_option (rd 4 off buf) in
  let rec_len := if isBigEndian then ext2fs_swab16 raw_len else raw_len in
  let inode := if isBigEndian then ext2fs_swab32 raw_inode else raw_inode in
  if (rec_len =? EXT4_MAX_REC_LEN) || (rec_len =? 0) then Ret DStop else
  let rec_len := Z.lor (Z.land rec_len 65532) (Z.shiftl (Z.land rec_len 3) 16) in
  if (rec_len <? 8) || negb (rec_len mod 4 =? 0) || (datalen <? off + rec_len)
  then Ret DStop else
  let? name_len := of_option (rd8 (off + 6) buf) in
  if rec_len <? name_len + 8 then Ret DStop else
  if raw_inode =? 0 then Ret (DSkip rec_len) else
  let cp := off + 8 in
  let? dot := is_dot name_len cp buf in
  if (dot : bool) then Ret (DSkip rec_len) else
  let? dotdot := is_dotdot name_len cp buf in
  if (dotdot : bool) then Ret (DSkip rec_len) else
  if name_len =? 0 then Ret (DSkip rec_len) else
  let? file_type := of_option (rd8 (off + 7) buf) in
  let? name := of_option (slice cp name_len buf) in
  Ret (DEmit rec_len (MkEntry inode name_len file_type 0 (name ++ [0]))).

(** The header of an XFS block: its length and whether other blocks may follow. *)
Definition xfs_header (magic : Z) : option (Z * bool) :=
  if magic =? XFS_DIR3_BLOCK_MAGIC then Some (64, false)
  else if magic =? XFS_DIR3_DATA_MAGIC then Some (64, true)
  else if magic =? XFS_DIR2_BLOCK_MAGIC then Some (16, false)
  else if magic =? XFS_DIR2_DATA_MAGIC then Some (16, true)
  else None.

(** The body of the loop of [parse_xfs_dir] at [p = buf + off]. *)
Definition xfs_step (multiblock : bool) (buf : bytes) (off : Z) : outcome dstep :=
  let? raw_magic := of_option (rd 4 off buf) in
  let magic := from_be32 raw_magic in
  if multiblock && (magic =? XFS_DIR2_DATA_MAGIC) then Ret (DSkip 16) else
  if multiblock && (magic =? XFS_DIR3_DATA_MAGIC) then Ret (DSkip 64) else
  let? freetag := of_option (rd 2 off buf) in
  if freetag =? XFS_DIR2_DATA_FREE_TAG then
    let? length := of_option (rd 2 (off + 2) buf) in
    Ret (DSkip (from_be16 length))
  else
  let? inumber := of_option (rd 8 off buf) in
  let inode := from_be64 inumber in
  let? namelen := of_option (rd8 (off + 8) buf) in
  let rec_len := 8 + 1 + namelen + 3 in
  let rec_len := Z.land (rec_len + 7) (u32 (Z.lnot 7)) in
  let cp := off + 9 in
  let? dot := is_dot namelen cp buf in
  if (dot : bool) then Ret (DSkip rec_len) else
  let? dotdot := is_dotdot namelen cp buf in
  if (dotdot : bool) then Ret (DSkip rec_len) else
  if namelen =? 0 then Ret DStop else
  let? file_type := of_option (rd8 (cp + namelen) buf) in
  let? name := of_option (slice cp namelen buf) in
  Ret (DEmit rec_len (MkEntry inode namelen file_type 0 (name ++ [0]))).

(** ** The loops *)
Section Loops.
  Context {W V : Type} `{VecOps V}.

(** [for (; p < limit; p += rec_len)], a new entry being allocated and pushed. *)
Fixpoint dir_loop (fuel : nat) (step : Z → outcome dstep) (limit off : Z) (files : V) :
    prog W V :=
  match fuel with
  | O => spin
  | S fuel =>
      if off <? limit then
        let! r := lift (step off) in
        match r with
        | DStop => ret files
        | DSkip n => dir_loop fuel step limit (off + n) files
        | DEmit n e =>
            let! entrycp := malloc (OEntry e) in
            let! files := lift (vec_push files entrycp) in
            dir_loop fuel step limit (off + n) files
        end
      else ret files
  end.

(** Enough iterations for a loop that advances by one byte at least. *)
Definition dir_fuel (datalen : Z) : nat := S (Z.to_nat datalen).

Definition parse_ext2_dir (buf : bytes) (datalen : Z) (files : V) : prog W (Z * V) :=
  let! files := dir_loop (dir_fuel datalen) (ext2_step buf datalen) (datalen - 8) 0 files in
  ret (0, files).

Definition parse_xfs_dir (buf : bytes) (datalen : Z) (files : V) : prog W (Z * V) :=
  let! raw_magic := lift (of_option (rd 4 0 buf)) in
  match xfs_header (from_be32 raw_magic) with
  | None => ret (1, files)
  | Some (hdrlen, multiblock) =>
      let! files := dir_loop (dir_fuel datalen) (xfs_step multiblock buf) (datalen - 9)
                      hdrlen files in
      ret (0, files)
  end.

(** [do_dir]: every entry of the listing but the two dots. *)
Definition do_dir `{OS W} (path : bytes) (files : V) : prog W (Z * V) :=
  let! directory := opendir path in
  match directory with
  | None => ret (1, files)
  | Some entries =>
      let! files := fold_prog (fun files entry =>
        if strcmp_eq (d_name entry) (bs ".") || strcmp_eq (d_name entry) (bs "..")
        then ret files
        else
          let! entrycp := malloc (OEntry (MkEntry (d_ino entry) (u8 (zlen (d_name entry)))
                                   (d_type entry) 0 (d_name entry ++ [0]))) in
          lift (vec_push files entrycp)) files entries in
      ret (0, files)
  end.

End Loops.

(** ** The entries a loop meets, without the heap *)
Fixpoint dir_scan (fuel : nat) (step : Z → outcome dstep) (limit off : Z) :
    outcome (list my_dir_entry) :=
  match fuel with
  | O => Spin
  | S fuel =>
      if off <? limit then
        let? r := step off in
        match r with
        | DStop => Ret []
        | DSkip n => dir_scan fuel step limit (off + n)
        | DEmit n e => let? es := dir_scan fuel step limit (off + n) in Ret (e :: es)
        end
      else Ret []
  end.

(** ** The byte order of the disk *)
Lemma isBigEndian_spec : isBigEndian = big_endian.
Proof. unfold isBigEndian. by destruct big_endian. Qed.

Lemma swab16_le a b :
  is_byte a → is_byte b → ext2fs_swab16 (le [a; b]) = le [b; a].
Proof.
  unfold is_byte. intros Ha Hb. unfold ext2fs_swab16, u16. cbn [le].
  rewrite Z.shiftr_div_pow2, Z.shiftl_mul_pow2 by lia.
  replace ((a + 256 * (b + 256 * 0)) / 2 ^ 8) with b by (apply (Z.div_unique _ _ _ a); lia).
  replace ((a + 256 * (b + 256 * 0)) * 2 ^ 8 mod 2 ^ 16) with (a * 2 ^ 8)
    by (apply (Z.mod_unique _ _ b); lia).
  rewrite lor_add_disjoint by lia. lia.
Qed.

Lemma swab32_le a b c d :
  is_byte a → is_byte b → is_byte c → is_byte d →
  ext2fs_swab32 (le [a; b; c; d]) = le [d; c; b; a].
Proof.
  unfold is_byte. intros Ha Hb Hc Hd. unfold ext2fs_swab32, u32. cbn [le].
  set (v := a + 256 * _).
  assert (Hv : v = a + 2 ^ 8 * b + 2 ^ 16 * c + 2 ^ 24 * d) by lia. clearbody v.
  rewrite !Z.shiftr_div_pow2, !Z.shiftl_mul_pow2 by lia.
  change 65280 with (255 * 2 ^ 8). change 16711680 with (255 * 2 ^ 16).
  rewrite !land_byte_mask by lia.
  replace (v / 2 ^ 24) with d by (apply (Z.div_unique _ _ _ (a + 2 ^ 8 * b + 2 ^ 16 * c)); lia).
  replace ((v / 2 ^ 8 / 2 ^ 8) mod 256) with c.
  2:{ rewrite Z.div_div by lia. apply (Z.mod_unique _ _ d); [lia|].
      symmetry. apply (Z.div_unique _ _ _ (a + 2 ^ 8 * b)); lia. }
  replace (v * 2 ^ 8 mod 2 ^ 32) with (a * 2 ^ 8 + 2 ^ 16 * b + 2 ^ 24 * c)
    by (apply (Z.mod_unique _ _ d); lia).
  replace (((a * 2 ^ 8 + 2 ^ 16 * b + 2 ^ 24 * c) / 2 ^ 16) mod 256) with b.
  2:{ apply (Z.mod_unique _ _ c); [lia|].
      symmetry. apply (Z.div_unique _ _ _ (a * 2 ^ 8)); lia. }
  replace (v * 2 ^ 24 mod 2 ^ 32) with (a * 2 ^ 24)
    by (apply (Z.mod_unique _ _ (b + 2 ^ 8 * c + 2 ^ 16 * d)); lia).
  rewrite (lor_add_disjoint d c 8) by lia.
  rewrite (lor_add_disjoint (d + c * 2 ^ 8) b 16) by lia.
  rewrite lor_add_disjoint by lia. lia.
Qed.

Lemma swab64_le a b c d e f g h :
  is_byte a → is_byte b → is_byte c → is_byte d →
  is_byte e → is_byte f → is_byte g → is_byte h →
  ext2fs_swab64 (le [a; b; c; d; e; f; g; h]) = le [h; g; f; e; d; c; b; a].
Proof.
  intros. unfold ext2fs_swab64.
  change [a; b; c; d; e; f; g; h] with ([a; b; c; d] ++ [e; f; g; h]).
  change [h; g; f; e; d; c; b; a] with ([h; g; f; e] ++ [d; c; b; a]).
  rewrite !le_app. cbn [length]. change (256 ^ Z.of_nat 4) with (2 ^ 32).
  pose proof (le_bound [a; b; c; d]) as Hlo. pose proof (le_bound [e; f; g; h]) as Hhi.
  pose proof (le_bound [d; c; b; a]) as Hlo'. pose proof (le_bound [h; g; f; e]) as Hhi'.
  cbn [length] in *. change (256 ^ Z.of_nat 4) with (2 ^ 32) in *.
  specialize (Hlo ltac:(bytes_list)). specialize (Hhi ltac:(bytes_list)).
  specialize (Hlo' ltac:(bytes_list)). specialize (Hhi' ltac:(bytes_list)).
  change 4294967295 with (2 ^ 32 - 1). rewrite land_ones_mod, Z.shiftr_div_pow2 by lia.
  replace ((le [a; b; c; d] + 2 ^ 32 * le [e; f; g; h]) / 2 ^ 32) with (le [e; f; g; h])
    by (apply (Z.div_unique _ _ _ (le [a; b; c; d])); lia).
  replace ((le [a; b; c; d] + 2 ^ 32 * le [e; f; g; h]) mod 2 ^ 32) with (le [a; b; c; d])
    by (apply (Z.mod_unique _ _ (le [e; f; g; h])); lia).
  rewrite u32_small, !swab32_le by done.
  rewrite Z.shiftl_mul_pow2, u64_small by lia. rewrite lor_add_disjoint by lia. lia.
Qed.

(** The words of an ext2 block are little-endian whatever the host. *)
Lemma rd_le2 off buf x :
  Forall is_byte x → slice off 2 buf = Some x →
  (fun v => if isBigEndian then ext2fs_swab16 v else v) <$> rd 2 off buf = Some (le x).
Proof.
  intros Hx Hs. pose proof (slice_length _ _ _ _ Hs) as Hlen.
  destruct x as [|a [|b [|? ?]]]; try discriminate Hlen.
  rewrite !Forall_cons in Hx. unfold rd. rewrite isBigEndian_spec, Hs. cbn [fmap option_fmap option_map].
  f_equal. destruct big_endian; [|done]. apply swab16_le; tauto.
Qed.

Lemma rd_le4 off buf x :
  Forall is_byte x → slice off 4 buf = Some x →
  (fun v => if isBigEndian then ext2fs_swab32 v else v) <$> rd 4 off buf = Some (le x).
Proof.
  intros Hx Hs. pose proof (slice_length _ _ _ _ Hs) as Hlen.
  destruct x as [|a [|b [|c [|d [|? ?]]]]]; try discriminate Hlen.
  rewrite !Forall_cons in Hx. unfold rd. rewrite isBigEndian_spec, Hs. cbn [fmap option_fmap option_map].
  f_equal. destruct big_endian; [|done]. apply swab32_le; tauto.
Qed.

(** The sources compare the raw inode number with 0, before it is swapped. *)
Lemma rd_le4_zero off buf x :
  Forall is_byte x → slice off 4 buf = Some x →
  ∃ raw, rd 4 off buf = Some raw ∧
         (if isBigEndian then ext2fs_swab32 raw else raw) = le x ∧ (raw =? 0) = (le x =? 0).
Proof.
  intros Hx Hs. pose proof (rd_le4 off buf x Hx Hs) as Hrd.
  pose proof (slice_length _ _ _ _ Hs) as Hlen.
  destruct x as [|a [|b [|c [|d [|? ?]]]]]; try discriminate Hlen.
  unfold rd in *. rewrite Hs in *. eexists. split; [done|]. injection Hrd as Hrd. split; [done|].
  rewrite !Forall_cons in Hx. unfold is_byte in Hx. destruct big_endian; [|done].
  change (be [a; b; c; d]) with (le [d; c; b; a]). cbn [le].
  destruct (Z.eqb_spec (d + 256 * (c + 256 * (b + 256 * (a + 256 * 0)))) 0);
    destruct (Z.eqb_spec (a + 256 * (b + 256 * (c + 256 * (d + 256 * 0)))) 0); lia.
Qed.

(** The words of an XFS block are big-endian whatever the host. *)
Lemma rd_be2 off buf x :
  Forall is_byte x → slice off 2 buf = Some x → from_be16 <$> rd 2 off buf = Some (be x).
Proof.
  intros Hx Hs. pose proof (slice_length _ _ _ _ Hs) as Hlen.
  destruct x as [|a [|b [|? ?]]]; try discriminate Hlen.
  rewrite !Forall_cons in Hx. unfold rd, from_be16. rewrite isBigEndian_spec, Hs. cbn [fmap option_fmap option_map].
  f_equal. destruct big_endian; [done|]. apply swab16_le; tauto.
Qed.

Lemma rd_be4 off buf x :
  Forall is_byte x → slice off 4 buf = Some x → from_be32 <$> rd 4 off buf = Some (be x).
Proof.
  intros Hx Hs. pose proof (slice_length _ _ _ _ Hs) as Hlen.
  destruct x as [|a [|b [|c [|d [|? ?]]]]]; try discriminate Hlen.
  rewrite !Forall_cons in Hx. unfold rd, from_be32. rewrite isBigEndian_spec, Hs. cbn [fmap option_fmap option_map].
  f_equal. destruct big_endian; [done|]. apply swab32_le; tauto.
Qed.

Lemma rd_be8 off buf x :
  Forall is_byte x → slice off 8 buf = Some x → from_be64 <$> rd 8 off buf = Some (be x).
Proof.
  intros Hx Hs. pose proof (slice_length _ _ _ _ Hs) as Hlen.
  destruct x as [|a [|b [|c [|d [|e [|f [|g [|h [|? ?]]]]]]]]]; try discriminate Hlen.
  rewrite !Forall_cons in Hx. unfold rd, from_be64. rewrite isBigEndian_spec, Hs. cbn [fmap option_fmap option_map].
  f_equal. destruct big_endian; [done|]. apply swab64_le; tauto.
Qed.

(** ** From the scan to the loop *)

(** The addresses [ps] are new and different, and nothing else was touched. *)
Definition only_at {W} (s s' : state W) (ps : list Z) : Prop :=
  NoDup ps ∧ Forall (fun p => brk (st_heap s) ≤ p < brk (st_heap s')) ps ∧
  ∀ a, a ∉ ps → objs (st_heap s') !! a = objs (st_heap s) !! a.

Lemma only_at_app {W} (s s1 s2 : state W) ps1 ps2 :
  only_at s s1 ps1 → only_at s1 s2 ps2 → brk (st_heap s) ≤ brk (st_heap s1) →
  brk (st_heap s1) ≤ brk (st_heap s2) → only_at s s2 (ps1 ++ ps2).
Proof.
  intros (Hn1 & Hr1 & Ho1) (Hn2 & Hr2 & Ho2) Hb1 Hb2. split_and!.
  - apply NoDup_app. split_and!; [done| |done]. intros p Hp1 Hp2.
    rewrite Forall_forall in Hr1, Hr2. specialize (Hr1 p Hp1). specialize (Hr2 p Hp2).
    simpl in *. lia.
  - apply Forall_app. split; (eapply Forall_impl; [done|]); intros p Hp; simpl in *; lia.
  - intros a Ha. rewrite elem_of_app in Ha. rewrite Ho2, Ho1; tauto.
Qed.

(** [s'] extends the heap of [s] with the entries [es] at the addresses [ps] and
    changes nothing else. *)
Definition stored {W} (s s' : state W) (ps : list Z) (es : list my_dir_entry) : Prop :=
  heap_wf (st_heap s') ∧ heap_le (st_heap s) (st_heap s') ∧
  st_os s' = st_os s ∧ st_log s' = st_log s ∧
  brk (st_heap s') ≤ brk (st_heap s) + 512 * zlen es ∧
  Forall2 (fun p e => objs (st_heap s') !! p = Some (OEntry e)) ps es ∧
  only_at s s' ps.

Definition small_entry (e : my_dir_entry) : Prop := 0 ≤ name_len e < 256.

Lemma stored_nil {W} (s : state W) : heap_wf (st_heap s) → stored s s [] [].
Proof.
  intros. split_and!; [done..|simpl; lia|constructor|]. split_and!; [constructor..|done].
Qed.

Lemma stored_app {W} (s s1 s2 : state W) ps1 ps2 es1 es2 :
  stored s s1 ps1 es1 → stored s1 s2 ps2 es2 → stored s s2 (ps1 ++ ps2) (es1 ++ es2).
Proof.
  intros (_ & Hle1 & Ho1 & Hl1 & Hb1 & Hf1 & Ha1) (Hwf & Hle2 & Ho2 & Hl2 & Hb2 & Hf2 & Ha2).
  split_and!; [done|by etrans|congruence|congruence|rewrite length_app; lia| |].
  2:{ eapply only_at_app; [done..|apply Hle1|apply Hle2]. }
  apply Forall2_app; [|done]. eapply Forall2_impl; [done|].
  intros p e Hp. simpl in Hp. by eapply lookup_weaken; [|apply Hle2].
Qed.

Section Storing.
  Context {W V : Type} `{VecOps V} `{!VecLaws V}.
  Hypothesis Hmem : ∀ n, mem_ok n = true.

(** Room for [n] more entries in the array and in the address space. *)
Definition room (s : state W) (l : list Z) (n : Z) : Prop :=
  zlen l + n < 2 ^ 28 ∧ brk (st_heap s) + 512 * n < 2 ^ 64.

Lemma push_entry e (files : V) l (s : state W) :
  vec_rep files l → heap_wf (st_heap s) → small_entry e → room s l 1 →
  ∃ files' s' p,
    (let! entrycp := malloc (OEntry e) in lift (vec_push files entrycp)) s = Ret (files', s') ∧
    vec_rep files' (l ++ [p]) ∧ stored s s' [p] [e].
Proof.
  intros Hr Hwf He [Hl Hb]. unfold small_entry in He.
  assert (Hsz : 0 ≤ obj_size (OEntry e) < 280).
  { simpl. unfold sizeof_my_dir_entry. destruct long64; lia. }
  assert (Hpos : 0 < brk (st_heap s)) by apply Hwf.
  destruct (vec_rep_push files l (brk (st_heap s)) Hmem Hr ltac:(lia)) as (files' & Hpush & Hr').
  rewrite u64_small in Hr' by lia.
  exists files', (set_heap (alloc_in (OEntry e) (st_heap s)) s), (brk (st_heap s)).
  split_and!; [|done|].
  - unfold bind, malloc. rewrite Hmem. simpl. unfold lift. by rewrite Hpush.
  - unfold stored, set_heap; cbn [st_heap st_os st_log]. split_and!; [|  |done|done| | |].
    + apply alloc_wf; [done|lia].
    + apply alloc_le; [done|lia].
    + unfold alloc_in; cbn [brk length]. lia.
    + constructor; [|constructor]. simpl. apply lookup_insert_eq.
    + split_and!; [apply NoDup_singleton|constructor; [simpl in *; lia|constructor]|].
      intros a Ha. simpl. apply lookup_insert_ne. set_solver.
Qed.

(** The loop does to the heap and to the array what the scan says. *)
Lemma dir_loop_scan fuel step limit off es (files : V) l (s : state W) :
  dir_scan fuel step limit off = Ret es → Forall small_entry es →
  vec_rep files l → heap_wf (st_heap s) → room s l (zlen es) →
  ∃ files' s' ps,
    dir_loop fuel step limit off files s = Ret (files', s') ∧
    vec_rep files' (l ++ ps) ∧ stored s s' ps es.
Proof.
  revert off es files l s.
  induction fuel as [|fuel IH]; intros off es files l s Hscan Hes Hr Hwf [Hl Hb]; [done|].
  cbn [dir_scan dir_loop] in *. destruct (off <? limit); cycle 1.
  { injection Hscan as <-. exists files, s, []. rewrite app_nil_r. auto using stored_nil. }
  apply obind_ret_inv in Hscan as (r & Hstep & Hscan).
  unfold bind at 1, lift at 1. rewrite Hstep. cbn [obind]. destruct r as [|n|n e].
  - injection Hscan as <-. exists files, s, []. rewrite app_nil_r. auto using stored_nil.
  - by apply IH.
  - apply obind_ret_inv in Hscan as (es' & Hscan & Heq). injection Heq as <-.
    apply Forall_cons in Hes as [He Hes]. rewrite length_cons, Nat2Z.inj_succ in *.
    destruct (push_entry e files l s Hr Hwf He) as (files1 & s1 & p & Hrun & Hr1 & Hst1);
      [split; lia|].
    pose proof Hst1 as (Hwf1 & _ & _ & _ & Hb1 & _). simpl in Hb1.
    destruct (IH (off + n) es' files1 (l ++ [p]) s1 Hscan Hes Hr1 Hwf1)
      as (files' & s' & ps & Hrun' & Hr' & Hst').
    { split; rewrite ?length_app; simpl; lia. }
    exists files', s', (p :: ps). split_and!.
    + rewrite <- bind_assoc. by erewrite bind_eq by exact Hrun.
    + by rewrite <- app_assoc in Hr'.
    + by apply (stored_app s s1 s' [p] ps [e] es').
Qed.

End Storing.

(** A scan ends when every step advances. *)
Lemma dir_scan_total (P : my_dir_entry → Prop) step limit fuel off :
  (∀ off, 0 ≤ off < limit → ∃ r, step off = Ret r ∧
     match r with DStop => True | DSkip n => 1 ≤ n | DEmit n e => 1 ≤ n ∧ P e end) →
  0 ≤ off → Z.max 0 (limit - off) < Z.of_nat fuel →
  ∃ es, dir_scan fuel step limit off = Ret es ∧ Forall P es ∧ zlen es ≤ Z.max 0 (limit - off).
Proof.
  intros Hstep. revert off. induction fuel as [|fuel IH]; intros off Hoff Hf; [lia|].
  cbn [dir_scan]. destruct (Z.ltb_spec off limit); cycle 1.
  { exists []. split_and!; [done|constructor|simpl; lia]. }
  destruct (Hstep off ltac:(lia)) as (r & -> & Hr). cbn [obind]. destruct r as [|n|n e].
  - exists []. split_and!; [done|constructor|simpl; lia].
  - destruct (IH (off + n)) as (es & -> & ? & ?); [lia..|]. exists es. split_and!; [done..|lia].
  - destruct Hr as [? He]. destruct (IH (off + n)) as (es & -> & ? & ?); [lia..|].
    exists (e :: es). split_and!; [done|by constructor|rewrite length_cons; lia].
Qed.

(** ** Reads that stay inside a buffer of bytes *)
Lemma slice_bytes off n buf x : Forall is_byte buf → slice off n buf = Some x → Forall is_byte x.
Proof. intros Hb (_ & _ & _ & ->)%slice_Some. by apply Forall_take, Forall_drop. Qed.

Lemma rd_inside n off buf :
  0 ≤ off → 0 ≤ n → off + n ≤ zlen buf → ∃ v, rd n off buf = Some v.
Proof.
  intros. unfold rd. destruct (slice_is_Some off n buf) as [x ->]; eauto.
Qed.

Lemma rd8_inside off buf :
  Forall is_byte buf → 0 ≤ off < zlen buf → ∃ v, rd8 off buf = Some v ∧ is_byte v.
Proof.
  intros Hb ?. unfold rd8. destruct (slice_is_Some off 1 buf) as [x Hx]; [lia..|].
  rewrite Hx. pose proof (slice_length _ _ _ _ Hx). pose proof (slice_bytes _ _ _ _ Hb Hx) as Hxb.
  destruct x as [|c [|? ?]]; try done. apply Forall_cons in Hxb as [Hc _].
  exists c. split; [|done]. simpl. f_equal. lia.
Qed.

Lemma is_dot_inside len cp buf :
  Forall is_byte buf → 0 ≤ cp → cp + len ≤ zlen buf → ∃ b, is_dot len cp buf = Ret b.
Proof.
  intros Hb ? ?. unfold is_dot. destruct (Z.eqb_spec len 1); [|eauto].
  destruct (rd8_inside cp buf Hb) as (v & -> & _); [lia|]. simpl. eauto.
Qed.

Lemma is_dotdot_inside len cp buf :
  Forall is_byte buf → 0 ≤ cp → cp + len ≤ zlen buf → ∃ b, is_dotdot len cp buf = Ret b.
Proof.
  intros Hb ? ?. unfold is_dotdot. destruct (Z.eqb_spec len 2); [|eauto].
  destruct (rd8_inside cp buf Hb) as (v & -> & _); [lia|]. simpl.
  destruct (v =? 46); [|eauto].
  destruct (rd8_inside (cp + 1) buf Hb) as (v' & -> & _); [lia|]. simpl. eauto.
Qed.

(** Every step of the ext2 parser reads inside the block and advances by 8. *)
Lemma ext2_step_inside buf datalen off :
  Forall is_byte buf → datalen ≤ zlen buf → 0 ≤ off < datalen - 8 →
  ∃ r, ext2_step buf datalen off = Ret r ∧
    match r with DStop => True | DSkip n => 1 ≤ n | DEmit n e => 1 ≤ n ∧ small_entry e end.
Proof.
  intros Hb Hlen Hoff. unfold ext2_step.
  destruct (rd_inside 2 (off + 4) buf) as [raw_len ->]; [lia..|].
  destruct (rd_inside 4 off buf) as [raw_inode ->]; [lia..|]. cbn [obind of_option].
  set (rec_len := if isBigEndian then ext2fs_swab16 raw_len else raw_len).
  destruct (_ || _) eqn:?; [by eexists|].
  set (n := Z.lor _ _).
  destruct (_ || _ || _) eqn:Hn; [by eexists|].
  apply orb_false_iff in Hn as [[Hn8 _]%orb_false_iff Hend].
  apply Z.ltb_ge in Hn8, Hend.
  destruct (rd8_inside (off + 6) buf Hb) as (name_len & -> & Hnl); [lia|]. cbn [obind of_option].
  destruct (Z.ltb_spec n (name_len + 8)); [by eexists|]. unfold is_byte in Hnl.
  destruct (raw_inode =? 0); [exists (DSkip n); split; [done|lia]|].
  destruct (is_dot_inside name_len (off + 8) buf Hb) as [dot ->]; [lia..|]. cbn [obind].
  destruct dot; [exists (DSkip n); split; [done|lia]|].
  destruct (is_dotdot_inside name_len (off + 8) buf Hb) as [dotdot ->]; [lia..|]. cbn [obind].
  destruct dotdot; [exists (DSkip n); split; [done|lia]|].
  destruct (Z.eqb_spec name_len 0); [exists (DSkip n); split; [done|lia]|].
  destruct (rd8_inside (off + 7) buf Hb) as (ft & -> & _); [lia|]. cbn [obind of_option].
  destruct (slice_is_Some (off + 8) name_len buf) as [nm ->]; [lia..|]. cbn [obind of_option].
  eexists; split; [done|]. split; [lia|done].
Qed.

(** The scan of an ext2 block, whatever its bytes, ends inside the block. *)
Lemma ext2_scan_total buf datalen :
  Forall is_byte buf → 0 ≤ datalen ≤ zlen buf →
  ∃ es, dir_scan (dir_fuel datalen) (ext2_step buf datalen) (datalen - 8) 0 = Ret es ∧
        Forall small_entry es ∧ zlen es ≤ datalen.
Proof.
  intros Hb Hlen.
  destruct (dir_scan_total small_entry (ext2_step buf datalen) (datalen - 8)
              (dir_fuel datalen) 0) as (es & Hs & Hes & Hl).
  - intros off Hoff. apply ext2_step_inside; [done|lia..].
  - done.
  - unfold dir_fuel. lia.
  - exists es. split_and!; [done..|lia].
Qed.

(** ** What the disk holds: encoders *)

(** The names both file systems keep for the directory itself and its parent. *)
Definition live_name (nm : bytes) : bool :=
  negb (bool_decide (nm = [46]) || bool_decide (nm = [46; 46]) || bool_decide (nm = [])).

Record ext2_rec : Type := MkExt2Rec {
  r_inode : Z; r_type : Z; r_name : bytes; r_slack : bytes;
}.
Definition rec_size (r : ext2_rec) : Z := 8 + zlen (r_name r) + zlen (r_slack r).

(** [struct ext2_dir_entry_2] on disk. *)
Definition ext2_encode (r : ext2_rec) : bytes :=
  le_split 4 (r_inode r) ++ le_split 2 (rec_size r) ++ [zlen (r_name r)] ++ [r_type r] ++
  r_name r ++ r_slack r.

Definition ext2_rec_wf (r : ext2_rec) : Prop :=
  0 ≤ r_inode r < 2 ^ 32 ∧ is_byte (r_type r) ∧ Forall is_byte (r_name r) ∧
  Forall is_byte (r_slack r) ∧ zlen (r_name r) < 256 ∧ rec_size r mod 4 = 0 ∧
  rec_size r < 65535.

Definition ext2_live (r : ext2_rec) : bool := negb (r_inode r =? 0) && live_name (r_name r).
Definition ext2_entry (r : ext2_rec) : my_dir_entry :=
  MkEntry (r_inode r) (zlen (r_name r)) (r_type r) 0 (r_name r ++ [0]).

(** *** Fields of an encoded record inside a block *)
Lemma slice_field pre x post off n buf :
  buf = pre ++ x ++ post → off = zlen pre → n = zlen x → slice off n buf = Some x.
Proof. intros -> ??. by apply slice_app_mid. Qed.

Lemma rd8_field pre c post off buf :
  buf = pre ++ [c] ++ post → off = zlen pre → rd8 off buf = Some c.
Proof.
  intros Hb Ho. unfold rd8. erewrite slice_field by (done || exact Hb).
  simpl. f_equal. lia.
Qed.

Lemma is_dot_field cp nm buf :
  slice cp (zlen nm) buf = Some nm → is_dot (zlen nm) cp buf = Ret (bool_decide (nm = [46])).
Proof.
  intros Hs. unfold is_dot. destruct (Z.eqb_spec (zlen nm) 1) as [Hl|Hl].
  - destruct nm as [|c [|? ?]]; try (simpl in Hl; lia).
    pose proof (rd8_slice _ _ _ _ 0 c Hs eq_refl) as Hrd. rewrite Z.add_0_r in Hrd.
    rewrite Hrd. simpl. f_equal. apply eq_bool_prop_intro.
    rewrite bool_decide_spec, Is_true_true, Z.eqb_eq. split; [by intros ->|by intros [= ->]].
  - rewrite bool_decide_false; [done|]. intros ->. simpl in Hl. lia.
Qed.

Lemma is_dotdot_field cp nm buf :
  slice cp (zlen nm) buf = Some nm →
  is_dotdot (zlen nm) cp buf = Ret (bool_decide (nm = [46; 46])).
Proof.
  intros Hs. unfold is_dotdot. destruct (Z.eqb_spec (zlen nm) 2) as [Hl|Hl].
  - destruct nm as [|c [|c' [|? ?]]]; try (simpl in Hl; lia).
    pose proof (rd8_slice _ _ _ _ 0 c Hs eq_refl) as Hrd. rewrite Z.add_0_r in Hrd.
    pose proof (rd8_slice _ _ _ _ 1 c' Hs eq_refl) as Hrd'. change (Z.of_nat 1) with 1 in Hrd'.
    rewrite Hrd, Hrd'. simpl. destruct (Z.eqb_spec c 46) as [->|]; f_equal.
    + apply eq_bool_prop_intro. rewrite bool_decide_spec, Is_true_true, Z.eqb_eq.
      split; [by intros ->|by intros [= ->]].
    + rewrite bool_decide_false; [done|]. by intros [= -> _].
  - rewrite bool_decide_false; [done|]. intros ->. simpl in Hl. lia.
Qed.

(** [(rec_len & 65532) | ((rec_len & 3) << 16)] of an aligned length. *)
Lemma rec_len_aligned n :
  0 ≤ n < 65536 → n mod 4 = 0 → Z.lor (Z.land n 65532) (Z.shiftl (Z.land n 3) 16) = n.
Proof.
  intros Hn Hm. change 3 with (2 ^ 2 - 1). rewrite land_ones_mod by lia.
  change (2 ^ 2) with 4. rewrite Hm. change (Z.shiftl 0 16) with 0. rewrite Z.lor_0_r.
  change 65532 with (Z.ldiff (Z.ones 16) (Z.ones 2)).
  rewrite Z.ldiff_land, Z.land_assoc, <- Z.ldiff_land, Z.land_ones, Z.mod_small by lia.
  rewrite Z.ldiff_ones_r, Z.shiftr_div_pow2, Z.shiftl_mul_pow2 by lia.
  pose proof (Z.div_mod n 4). change (2 ^ 2) with 4. lia.
Qed.

Lemma fmap_Some_inv {A B} (f : A → B) (o : option A) y :
  f <$> o = Some y → ∃ x, o = Some x ∧ y = f x.
Proof. intros (x & ? & ?)%fmap_Some. eauto. Qed.

Lemma ext2_encode_length r : zlen (ext2_encode r) = rec_size r.
Proof.
  unfold ext2_encode, rec_size. rewrite !length_app, !le_split_length. simpl. lia.
Qed.

(** One step on a well-formed record: it is skipped or becomes an entry. *)
Lemma ext2_step_encoded pre r post datalen :
  ext2_rec_wf r → zlen pre + rec_size r ≤ datalen →
  ext2_step (pre ++ ext2_encode r ++ post) datalen (zlen pre) =
  Ret (if ext2_live r then DEmit (rec_size r) (ext2_entry r) else DSkip (rec_size r)).
Proof.
  intros (Hino & Hty & Hnm & Hsl & Hnl & Hal & Hrl) Hend.
  set (buf := pre ++ ext2_encode r ++ post).
  assert (Hsz : 8 ≤ rec_size r) by (unfold rec_size; lia).
  assert (Hs4 : slice (zlen pre) 4 buf = Some (le_split 4 (r_inode r))).
  { apply (slice_field pre _ (le_split 2 (rec_size r) ++ [zlen (r_name r)] ++ [r_type r] ++
             r_name r ++ r_slack r ++ post)); [|done..].
    by unfold buf, ext2_encode; rewrite <- !app_assoc. }
  assert (Hs2 : slice (zlen pre + 4) 2 buf = Some (le_split 2 (rec_size r))).
  { apply (slice_field (pre ++ le_split 4 (r_inode r)) _ ([zlen (r_name r)] ++ [r_type r] ++
             r_name r ++ r_slack r ++ post)).
    - by unfold buf, ext2_encode; rewrite <- !app_assoc.
    - rewrite length_app, le_split_length. lia.
    - done. }
  destruct (rd_le4_zero _ _ _ (le_split_bytes _ _) Hs4) as (raw_inode & Hri & Hinode & Hzero).
  pose proof (rd_le2 _ _ _ (le_split_bytes _ _) Hs2) as Hrec.
  rewrite le_le_split in Hinode by (simpl; lia). rewrite le_le_split in Hzero by (simpl; lia).
  rewrite le_le_split in Hrec by (simpl; lia).
  apply fmap_Some_inv in Hrec as (raw_len & Hrlen & Hrec).
  assert (Hnl6 : rd8 (zlen pre + 6) buf = Some (zlen (r_name r))).
  { apply (rd8_field (pre ++ le_split 4 (r_inode r) ++ le_split 2 (rec_size r)) _
             ([r_type r] ++ r_name r ++ r_slack r ++ post)).
    - by unfold buf, ext2_encode; rewrite <- !app_assoc.
    - rewrite !length_app, !le_split_length. lia. }
  assert (Hty7 : rd8 (zlen pre + 7) buf = Some (r_type r)).
  { apply (rd8_field (pre ++ le_split 4 (r_inode r) ++ le_split 2 (rec_size r) ++
             [zlen (r_name r)]) _ (r_name r ++ r_slack r ++ post)).
    - by unfold buf, ext2_encode; rewrite <- !app_assoc.
    - rewrite !length_app, !le_split_length. simpl. lia. }
  assert (Hname : slice (zlen pre + 8) (zlen (r_name r)) buf = Some (r_name r)).
  { apply (slice_field (pre ++ le_split 4 (r_inode r) ++ le_split 2 (rec_size r) ++
             [zlen (r_name r)] ++ [r_type r]) _ (r_slack r ++ post)).
    - by unfold buf, ext2_encode; rewrite <- !app_assoc.
    - rewrite !length_app, !le_split_length. simpl. lia.
    - done. }
  unfold ext2_step. cbv zeta. rewrite Hri, Hrlen. cbn [obind of_option].
  rewrite <- Hrec, Hinode, Hzero. unfold EXT4_MAX_REC_LEN.
  rewrite (proj2 (Z.eqb_neq (rec_size r) 65535)), (proj2 (Z.eqb_neq (rec_size r) 0)) by lia.
  cbn [orb]. rewrite rec_len_aligned by lia. rewrite Hal.
  rewrite (proj2 (Z.ltb_ge (rec_size r) 8)), (proj2 (Z.ltb_ge datalen _)) by lia. cbn [orb negb Z.eqb].
  rewrite Hnl6. cbn [obind of_option].
  rewrite (proj2 (Z.ltb_ge (rec_size r) _)) by (unfold rec_size; lia).
  rewrite (is_dot_field _ _ _ Hname). cbn [obind].
  rewrite (is_dotdot_field _ _ _ Hname). cbn [obind]. rewrite Hty7, Hname. cbn [obind of_option].
  unfold ext2_live, live_name, ext2_entry.
  destruct (r_inode r =? 0); [done|]. cbn [negb andb].
  destruct (bool_decide (r_name r = [46])); [done|].
  destruct (bool_decide (r_name r = [46; 46])); [done|]. cbn [orb negb].
  destruct (Z.eqb_spec (zlen (r_name r)) 0) as [Hz|Hz].
  - rewrite bool_decide_true; [done|]. destruct (r_name r); [done|]. simpl in Hz. lia.
  - rewrite bool_decide_false; [done|]. intros E. by rewrite E in Hz.
Qed.

(** A record of eight bytes carries no name. *)
Lemma ext2_live_size r : ext2_live r = true → 8 < rec_size r.
Proof.
  unfold ext2_live, live_name, rec_size. destruct (r_name r); [|simpl; lia].
  rewrite !andb_true_iff, !negb_true_iff, !orb_false_iff. intros [_ [_ H']].
  by rewrite bool_decide_true in H'.
Qed.

Definition ext2_block (rs : list ext2_rec) : bytes := concat (ext2_encode <$> rs).

(** The scan of a block made of well-formed records. *)
Lemma ext2_scan_encoded rs pre fuel :
  Forall ext2_rec_wf rs →
  let buf := pre ++ ext2_block rs in
  (length rs < fuel)%nat →
  dir_scan fuel (ext2_step buf (zlen buf)) (zlen buf - 8) (zlen pre) =
  Ret (ext2_entry <$> filter (fun r => ext2_live r = true) rs).
Proof.
  intros Hwf. revert pre fuel. induction Hwf as [|r rs Hr _ IH]; intros pre fuel buf Hf.
  { destruct fuel; [simpl in Hf; lia|]. unfold buf. cbn [dir_scan ext2_block fmap concat list_fmap].
    rewrite app_nil_r. by rewrite (proj2 (Z.ltb_ge _ _)) by lia. }
  destruct fuel as [|fuel]; [lia|]. cbn [dir_scan].
  assert (Hbuf : buf = pre ++ ext2_encode r ++ ext2_block rs) by done.
  assert (Hlen : zlen buf = zlen pre + rec_size r + zlen (ext2_block rs)).
  { rewrite Hbuf, !length_app, !Nat2Z.inj_add, ext2_encode_length. lia. }
  assert (8 ≤ rec_size r) by (unfold rec_size; lia).
  destruct (Z.ltb_spec (zlen pre) (zlen buf - 8)) as [Hlt|Hge]; cycle 1.
  { destruct rs as [|r' rs]; cycle 1.
    { unfold ext2_block in Hlen. cbn [fmap list_fmap concat] in Hlen.
      rewrite length_app in Hlen. pose proof (ext2_encode_length r') as Hr'.
      unfold rec_size in Hr'. lia. }
    rewrite filter_cons_False; [done|]. intros Hl%ext2_live_size. simpl in Hlen. lia. }
  rewrite Hbuf at 1. rewrite ext2_step_encoded by (done || lia). cbn [obind].
  specialize (IH (pre ++ ext2_encode r) fuel).
  rewrite <- app_assoc, <- Hbuf, length_app, Nat2Z.inj_add, ext2_encode_length in IH.
  specialize (IH ltac:(simpl in Hf; lia)).
  destruct (ext2_live r) eqn:El; rewrite IH.
  - by rewrite filter_cons_True.
  - rewrite filter_cons_False; [done|]. by rewrite El.
Qed.

Lemma ext2_entries_small rs :
  Forall ext2_rec_wf rs →
  Forall small_entry (ext2_entry <$> filter (fun r => ext2_live r = true) rs).
Proof.
  intros Hwf. apply Forall_fmap, Forall_forall. intros r [_ Hr]%list_elem_of_filter.
  rewrite Forall_forall in Hwf. destruct (Hwf r Hr) as (_ & _ & _ & _ & Hnl & _).
  unfold small_entry; simpl. lia.
Qed.

Lemma ext2_block_length rs :
  Forall ext2_rec_wf rs → 8 * zlen rs ≤ zlen (ext2_block rs).
Proof.
  induction 1 as [|r rs _ _ IH]; [done|]. unfold ext2_block in *.
  cbn [fmap list_fmap concat]. rewrite length_app, length_cons.
  pose proof (ext2_encode_length r) as Hr. unfold rec_size in Hr. lia.
Qed.

(** ** XFS blocks *)
Inductive xfs_item : Type :=
  | XEntry (ino type : Z) (nm slack : bytes)
  | XFree (rest : bytes)
  | XHeader (v3 : bool) (rest : bytes).

(** The rounded size of a data entry: number, length byte, name, type, tag. *)
Definition xfs_entry_size (namelen : Z) : Z := (namelen + 12 + 7) / 8 * 8.

Definition xfs_size (x : xfs_item) : Z :=
  match x with
  | XEntry _ _ nm _ => xfs_entry_size (zlen nm)
  | XFree rest => 4 + zlen rest
  | XHeader v3 _ => if v3 then 64 else 16
  end.

Definition xfs_data_magic (v3 : bool) : Z :=
  if v3 then XFS_DIR3_DATA_MAGIC else XFS_DIR2_DATA_MAGIC.

(** [xfs_dir2_data_entry_t], [xfs_dir2_data_unused_t] and the header of a further
    block on disk; [slack] holds the padding and the tag. *)
Definition xfs_encode (x : xfs_item) : bytes :=
  match x with
  | XEntry ino ty nm slack => be_split 8 ino ++ [zlen nm] ++ nm ++ [ty] ++ slack
  | XFree rest => [255; 255] ++ be_split 2 (4 + zlen rest) ++ rest
  | XHeader v3 rest => be_split 4 (xfs_data_magic v3) ++ rest
  end.

Definition xfs_item_wf (multiblock : bool) (x : xfs_item) : Prop :=
  match x with
  | XEntry ino ty nm slack =>
      0 ≤ ino < 2 ^ 56 ∧ is_byte ty ∧ Forall is_byte nm ∧ Forall is_byte slack ∧
      1 ≤ zlen nm < 256 ∧ zlen slack = xfs_entry_size (zlen nm) - zlen nm - 10
  | XFree rest => Forall is_byte rest ∧ zlen rest < 65532
  | XHeader v3 rest =>
      multiblock = true ∧ Forall is_byte rest ∧ zlen rest = (if v3 then 60 else 12)
  end.

Definition xfs_live (x : xfs_item) : bool :=
  match x with XEntry _ _ nm _ => live_name nm | _ => false end.
Definition xfs_entry (x : xfs_item) : my_dir_entry :=
  match x with
  | XEntry ino ty nm _ => MkEntry ino (zlen nm) ty 0 (nm ++ [0])
  | _ => MkEntry 0 0 0 0 []
  end.

(** What may follow the last record: too few bytes for another one, or the leaf
    entries of a single-block directory, the first of which belong to the names "."
    and "..": their hashes are small, so that the ninth byte is 0. *)
Definition xfs_tail_wf (tail : bytes) : Prop :=
  zlen tail ≤ 9 ∨
  ∃ w rest, 0 ≤ w < 2 ^ 56 ∧ tail = be_split 8 w ++ [0] ++ rest.

(** A number below [2 ^ 56] starts with a zero byte. *)
Lemma be_split8_small w :
  0 ≤ w < 2 ^ 56 → ∃ t, be_split 8 w = 0 :: t ∧ length t = 7%nat ∧ Forall is_byte t.
Proof.
  intros Hw. exists (be_split 7 w).
  split_and!; [|apply be_split_length|apply be_split_bytes].
  unfold be_split.
  assert (Hs : ∀ n v, le_split (S n) v = le_split n v ++ [v / 256 ^ Z.of_nat n mod 256]).
  { induction n as [|n IH]; intros v.
    - simpl. by rewrite Z.div_1_r.
    - change (le_split (S (S n)) v) with (v mod 256 :: le_split (S n) (v / 256)).
      rewrite IH. simpl. f_equal. f_equal.
      rewrite Z.div_div, <- Z.pow_succ_r, <- Nat2Z.inj_succ by lia. done. }
  rewrite (Hs 7%nat), reverse_snoc. f_equal.
  rewrite Z.div_small; [done|]. simpl. lia.
Qed.

Lemma round8 x : 0 ≤ x < 2 ^ 32 → Z.land x (u32 (Z.lnot 7)) = x / 8 * 8.
Proof.
  intros Hx. change (u32 (Z.lnot 7)) with (Z.ldiff (Z.ones 32) (Z.ones 3)).
  rewrite Z.ldiff_land, Z.land_assoc, <- Z.ldiff_land, Z.land_ones, Z.mod_small by lia.
  by rewrite Z.ldiff_ones_r, Z.shiftr_div_pow2, Z.shiftl_mul_pow2 by lia.
Qed.

(** The first words of a record that starts with a zero byte. *)
Lemma xfs_first_words pre t post :
  length t = 7%nat → Forall is_byte t →
  let buf := pre ++ (0 :: t) ++ post in
  (∃ raw, rd 4 (zlen pre) buf = Some raw ∧ 0 ≤ from_be32 raw < 2 ^ 24) ∧
  (∃ raw, rd 2 (zlen pre) buf = Some raw ∧ raw ≠ XFS_DIR2_DATA_FREE_TAG) ∧
  (∃ raw, rd 8 (zlen pre) buf = Some raw ∧ from_be64 raw = be (0 :: t)).
Proof.
  intros Ht Hb buf.
  destruct t as [|a [|b [|c [|d [|e [|f [|g [|? ?]]]]]]]]; try discriminate Ht.
  assert (H4 : slice (zlen pre) 4 buf = Some [0; a; b; c]).
  { by apply (slice_field pre _ ([d; e; f; g] ++ post)). }
  assert (H2 : slice (zlen pre) 2 buf = Some [0; a]).
  { by apply (slice_field pre _ ([b; c; d; e; f; g] ++ post)). }
  assert (H8 : slice (zlen pre) 8 buf = Some [0; a; b; c; d; e; f; g]).
  { by apply (slice_field pre _ post). }
  rewrite !Forall_cons in Hb. assert (Hz : is_byte 0) by done.
  assert (B4 : Forall is_byte [0; a; b; c]) by bytes_list.
  assert (B8 : Forall is_byte [0; a; b; c; d; e; f; g]) by bytes_list.
  assert (B3 : Forall is_byte [c; b; a]) by bytes_list. split_and!.
  - pose proof (rd_be4 _ _ _ B4 H4) as Hrd.
    apply fmap_Some_inv in Hrd as (raw & Hraw & Hbe). exists raw. split; [done|].
    rewrite <- Hbe. change (be [0; a; b; c]) with (le ([c; b; a] ++ [0])). rewrite le_app.
    pose proof (le_bound _ B3) as Hl.
    simpl length in Hl. change (256 ^ Z.of_nat 3) with (2 ^ 24) in Hl. simpl (le [0]). lia.
  - unfold rd. rewrite H2. eexists. split; [done|]. unfold XFS_DIR2_DATA_FREE_TAG.
    unfold is_byte in Hb. destruct big_endian.
    + change (be [0; a]) with (le [a; 0]). simpl. lia.
    + simpl. lia.
  - pose proof (rd_be8 _ _ _ B8 H8) as Hrd.
    apply fmap_Some_inv in Hrd as (raw & Hraw & Hbe). by exists raw.
Qed.

Lemma xfs_magics_large v : 0 ≤ v < 2 ^ 24 →
  (v =? XFS_DIR2_DATA_MAGIC) = false ∧ (v =? XFS_DIR3_DATA_MAGIC) = false.
Proof.
  intros Hv. unfold XFS_DIR2_DATA_MAGIC, XFS_DIR3_DATA_MAGIC.
  split; apply Z.eqb_neq; lia.
Qed.

Lemma xfs_encode_length mb x : xfs_item_wf mb x → zlen (xfs_encode x) = xfs_size x.
Proof.
  destruct x as [ino ty nm slack|rest|v3 rest]; unfold xfs_item_wf, xfs_encode, xfs_size;
    intros Hwf; rewrite !length_app, be_split_length; cbn [length].
  - destruct Hwf as (_ & _ & _ & _ & Hnm & Hsl). lia.
  - lia.
  - destruct Hwf as (_ & _ & Hr). destruct v3; lia.
Qed.

(** One step on a data entry. *)
Lemma xfs_step_entry mb pre ino ty nm slack post :
  xfs_item_wf mb (XEntry ino ty nm slack) →
  let x := XEntry ino ty nm slack in
  xfs_step mb (pre ++ xfs_encode x ++ post) (zlen pre) =
  Ret (if xfs_live x then DEmit (xfs_size x) (xfs_entry x) else DSkip (xfs_size x)).
Proof.
  intros (Hino & Hty & Hnm & Hsl & Hlen & Hpad) x. set (buf := pre ++ xfs_encode x ++ post).
  destruct (be_split8_small ino Hino) as (t & Ht & Htl & Htb).
  assert (Hbuf : buf = pre ++ (0 :: t) ++ [zlen nm] ++ nm ++ [ty] ++ slack ++ post).
  { unfold buf, x, xfs_encode. rewrite Ht, <- !app_assoc. done. }
  destruct (xfs_first_words pre t ([zlen nm] ++ nm ++ [ty] ++ slack ++ post) Htl Htb)
    as ((m & Hm & Hmb) & (tag & Htag & Htne) & (raw & Hraw & Hrino)).
  rewrite <- Hbuf in Hm, Htag, Hraw.
  assert (Hnl : rd8 (zlen pre + 8) buf = Some (zlen nm)).
  { apply (rd8_field (pre ++ 0 :: t) _ (nm ++ [ty] ++ slack ++ post)).
    - by rewrite Hbuf, <- app_assoc.
    - rewrite length_app. simpl. lia. }
  assert (Hname : slice (zlen pre + 9) (zlen nm) buf = Some nm).
  { apply (slice_field (pre ++ (0 :: t) ++ [zlen nm]) _ ([ty] ++ slack ++ post)).
    - by rewrite Hbuf, <- !app_assoc.
    - rewrite !length_app. simpl. lia.
    - done. }
  assert (Hft : rd8 (zlen pre + 9 + zlen nm) buf = Some ty).
  { apply (rd8_field (pre ++ (0 :: t) ++ [zlen nm] ++ nm) _ (slack ++ post)).
    - by rewrite Hbuf, <- !app_assoc.
    - rewrite !length_app. simpl. lia. }
  destruct (xfs_magics_large _ Hmb) as [Hm2 Hm3].
  unfold xfs_step. cbv zeta. rewrite Hm. cbn [obind of_option].
  rewrite Hm2, Hm3, !andb_false_r, Htag. cbn [obind of_option].
  rewrite (proj2 (Z.eqb_neq tag _)), Hraw by done. cbn [obind of_option].
  rewrite Hnl. cbn [obind of_option]. rewrite round8 by lia.
  rewrite (is_dot_field _ _ _ Hname). cbn [obind].
  rewrite (is_dotdot_field _ _ _ Hname). cbn [obind]. rewrite Hft, Hname. cbn [obind of_option].
  rewrite (proj2 (Z.eqb_neq (zlen nm) 0)) by lia. rewrite Hrino, <- Ht, be_be_split by (simpl; lia).
  replace ((8 + 1 + zlen nm + 3 + 7) / 8 * 8) with (xfs_size x)
    by (unfold x; simpl; unfold xfs_entry_size; f_equal; f_equal; lia).
  unfold xfs_live, x, live_name. destruct (bool_decide (nm = [46])); [done|].
  destruct (bool_decide (nm = [46; 46])); [done|]. cbn [orb].
  rewrite bool_decide_false; [done|]. intros ->. simpl in Hlen. lia.
Qed.

(** One step on free space, whose length is in the record. *)
Lemma xfs_step_free mb pre rest post :
  xfs_item_wf mb (XFree rest) →
  xfs_step mb (pre ++ xfs_encode (XFree rest) ++ post) (zlen pre) =
  Ret (DSkip (xfs_size (XFree rest))).
Proof.
  intros [Hrest Hlen]. unfold xfs_encode. set (buf := pre ++ _ ++ post).
  pose proof (be_split_length 2 (4 + zlen rest)) as Hl2.
  pose proof (be_split_bytes 2 (4 + zlen rest)) as Hb2.
  pose proof (be_be_split 2 (4 + zlen rest) ltac:(simpl; lia)) as Hbe.
  destruct (be_split 2 (4 + zlen rest)) as [|a [|b [|? ?]]] eqn:E; try discriminate Hl2.
  assert (Hbuf : buf = pre ++ [255; 255; a; b] ++ rest ++ post) by (unfold buf; by rewrite <- !app_assoc).
  clearbody buf. subst buf. rewrite !Forall_cons in Hb2.
  assert (B4 : Forall is_byte [255; 255; a; b]).
  { assert (is_byte 255) by done. bytes_list. }
  assert (H4 : slice (zlen pre) 4 (pre ++ [255; 255; a; b] ++ rest ++ post) = Some [255; 255; a; b])
    by (by apply (slice_field pre _ (rest ++ post))).
  assert (H2 : slice (zlen pre) 2 (pre ++ [255; 255; a; b] ++ rest ++ post) = Some [255; 255])
    by (by apply (slice_field pre _ ([a; b] ++ rest ++ post))).
  assert (H2' : slice (zlen pre + 2) 2 (pre ++ [255; 255; a; b] ++ rest ++ post) = Some [a; b]).
  { apply (slice_field (pre ++ [255; 255]) _ (rest ++ post)); [by rewrite <- app_assoc| |done].
    rewrite length_app. simpl. lia. }
  apply (rd_be4 _ _ _ B4), fmap_Some_inv in H4 as (m & Hm & Hmb).
  assert (B2 : Forall is_byte [a; b]) by bytes_list.
  apply (rd_be2 _ _ _ B2), fmap_Some_inv in H2' as (n & Hn & Hnb).
  change (be [255; 255; a; b]) with (le [b; a; 255; 255]) in Hmb. simpl in Hmb.
  unfold is_byte in Hb2.
  unfold xfs_step. cbv zeta. rewrite Hm. cbn [obind of_option]. rewrite <- Hmb.
  unfold XFS_DIR2_DATA_MAGIC, XFS_DIR3_DATA_MAGIC.
  rewrite !(proj2 (Z.eqb_neq (b + _) _)), !andb_false_r by lia.
  unfold rd at 1. rewrite H2. cbn [fmap option_fmap option_map obind of_option].
  replace ((if big_endian then be else le) [255; 255]) with XFS_DIR2_DATA_FREE_TAG
    by (by destruct big_endian).
  rewrite Z.eqb_refl, Hn. cbn [obind of_option]. by rewrite <- Hnb, Hbe.
Qed.

Lemma xfs_step_header pre v3 rest post :
  xfs_item_wf true (XHeader v3 rest) →
  xfs_step true (pre ++ xfs_encode (XHeader v3 rest) ++ post) (zlen pre) =
  Ret (DSkip (xfs_size (XHeader v3 rest))).
Proof.
  intros (_ & Hrest & Hlen). unfold xfs_encode. set (buf := pre ++ _ ++ post).
  assert (H4 : slice (zlen pre) 4 buf = Some (be_split 4 (xfs_data_magic v3))).
  { apply (slice_field pre _ (rest ++ post)); [by unfold buf; rewrite <- app_assoc|done|].
    by rewrite be_split_length. }
  apply (rd_be4 _ _ _ (be_split_bytes _ _)), fmap_Some_inv in H4 as (m & Hm & Hmb).
  rewrite be_be_split in Hmb by (destruct v3; vm_compute; split; congruence).
  unfold xfs_step. cbv zeta. rewrite Hm. cbn [obind of_option]. rewrite <- Hmb.
  by destruct v3.
Qed.

Lemma xfs_step_tail mb pre tail :
  xfs_tail_wf tail → zlen pre < zlen (pre ++ tail) - 9 →
  xfs_step mb (pre ++ tail) (zlen pre) = Ret DStop.
Proof.
  rewrite length_app. intros [?|(w & rest & Hw & ->)] Hlt; [lia|].
  destruct (be_split8_small w Hw) as (t & -> & Htl & Htb).
  destruct (xfs_first_words pre t ([0] ++ rest) Htl Htb)
    as ((m & Hm & Hmb) & (tag & Htag & Htne) & (raw & Hraw & _)).
  assert (Hnl : rd8 (zlen pre + 8) (pre ++ (0 :: t) ++ [0] ++ rest) = Some 0).
  { apply (rd8_field (pre ++ 0 :: t) _ rest); [by rewrite <- app_assoc|].
    rewrite length_app. simpl. lia. }
  destruct (xfs_magics_large _ Hmb) as [Hm2 Hm3].
  unfold xfs_step. cbv zeta. rewrite Hm. cbn [obind of_option].
  rewrite Hm2, Hm3, !andb_false_r, Htag. cbn [obind of_option].
  rewrite (proj2 (Z.eqb_neq tag _)), Hraw by done. cbn [obind of_option].
  by rewrite Hnl.
Qed.

Lemma xfs_step_encoded mb pre x post :
  xfs_item_wf mb x →
  xfs_step mb (pre ++ xfs_encode x ++ post) (zlen pre) =
  Ret (if xfs_live x then DEmit (xfs_size x) (xfs_entry x) else DSkip (xfs_size x)).
Proof.
  intros Hx. destruct x as [ino ty nm slack|rest|v3 rest].
  - by apply xfs_step_entry.
  - by apply xfs_step_free.
  - destruct Hx as (-> & ? & ?). by apply xfs_step_header.
Qed.

Lemma xfs_live_size mb x : xfs_item_wf mb x → xfs_live x = true → 16 ≤ xfs_size x.
Proof.
  destruct x as [ino ty nm slack| |]; [|done..]. intros (_ & _ & _ & _ & ? & _) _.
  simpl. unfold xfs_entry_size. change 16 with (16 / 8 * 8).
  apply Z.mul_le_mono_nonneg_r; [lia|]. apply Z.div_le_mono; lia.
Qed.

Definition xfs_items (xs : list xfs_item) : bytes := concat (xfs_encode <$> xs).

(** The scan of the records of a block and of its tail. *)
Lemma xfs_scan_encoded mb xs tail pre fuel :
  Forall (xfs_item_wf mb) xs → xfs_tail_wf tail →
  let buf := pre ++ xfs_items xs ++ tail in
  (length xs + 1 < fuel)%nat →
  dir_scan fuel (xfs_step mb buf) (zlen buf - 9) (zlen pre) =
  Ret (xfs_entry <$> filter (fun x => xfs_live x = true) xs).
Proof.
  intros Hwf Htail. revert pre fuel.
  induction Hwf as [|x xs Hx Hxs IH]; intros pre fuel buf Hf.
  { destruct fuel; [simpl in Hf; lia|]. cbn [dir_scan].
    destruct (Z.ltb_spec (zlen pre) (zlen buf - 9)); [|done].
    unfold buf. simpl. rewrite xfs_step_tail by (done || (unfold buf in *; simpl in *; done)). done. }
  destruct fuel as [|fuel]; [lia|]. cbn [dir_scan].
  assert (Hbuf : buf = pre ++ xfs_encode x ++ xfs_items xs ++ tail).
  { unfold buf, xfs_items. cbn [fmap list_fmap concat]. by rewrite <- !app_assoc. }
  pose proof (xfs_encode_length mb x Hx) as Hlx.
  assert (Hlen : zlen buf = zlen pre + xfs_size x + zlen (xfs_items xs ++ tail)).
  { rewrite Hbuf, length_app, length_app. lia. }
  specialize (IH (pre ++ xfs_encode x) fuel).
  rewrite <- app_assoc, <- Hbuf, length_app, Nat2Z.inj_add, Hlx in IH.
  specialize (IH ltac:(simpl in Hf; lia)).
  destruct (Z.ltb_spec (zlen pre) (zlen buf - 9)) as [Hlt|Hge]; cycle 1.
  { destruct fuel as [|fuel]; [simpl in Hf; lia|].
    assert (Hnl : xfs_live x ≠ true).
    { intros Hl%(xfs_live_size mb); [lia|done]. }
    rewrite filter_cons_False by done. cbn [dir_scan] in IH.
    rewrite (proj2 (Z.ltb_ge _ _)) in IH; [done|].
    enough (0 ≤ xfs_size x) by lia. rewrite <- Hlx. lia. }
  rewrite Hbuf at 1. rewrite xfs_step_encoded by done. cbn [obind].
  destruct (xfs_live x) eqn:El; rewrite IH.
  - by rewrite filter_cons_True.
  - rewrite filter_cons_False; [done|]. by rewrite El.
Qed.

Lemma xfs_entries_small mb xs :
  Forall (xfs_item_wf mb) xs →
  Forall small_entry (xfs_entry <$> filter (fun x => xfs_live x = true) xs).
Proof.
  intros Hwf. apply Forall_fmap, Forall_forall. intros x [Hl Hx]%list_elem_of_filter.
  rewrite Forall_forall in Hwf. specialize (Hwf x Hx).
  destruct x as [ino ty nm slack| |]; [|done..]. destruct Hwf as (_ & _ & _ & _ & Hnl & _).
  unfold small_entry; simpl. lia.
Qed.

Lemma xfs_items_length mb xs :
  Forall (xfs_item_wf mb) xs → 4 * zlen xs ≤ zlen (xfs_items xs).
Proof.
  induction 1 as [|x xs Hx _ IH]; [done|]. unfold xfs_items in *.
  cbn [fmap list_fmap concat]. rewrite length_app, length_cons.
  pose proof (xfs_encode_length mb x Hx) as Hl.
  enough (4 ≤ xfs_size x) by lia. destruct x as [ino ty nm slack|rest|v3 rest]; simpl.
  - pose proof (xfs_live_size mb (XEntry ino ty nm slack)).
    destruct Hx as (_ & _ & _ & _ & ? & _). unfold xfs_entry_size.
    assert (1 ≤ (zlen nm + 12 + 7) / 8) by (apply Z.div_le_lower_bound; lia). lia.
  - lia.
  - destruct v3; lia.
Qed.

(** ** The parsers on the heap *)
Section Parsers.
  Context {W V : Type} `{VecOps V} `{!VecLaws V}.
  Hypothesis Hmem : ∀ n, mem_ok n = true.

Lemma filter_length_le {A} (P : A → Prop) `{∀ x, Decision (P x)} (l : list A) :
  (length (filter P l) ≤ length l)%nat.
Proof. apply length_filter. Qed.

Lemma room_le (s : state W) l n m : room s l n → m ≤ n → room s l m.
Proof. unfold room. lia. Qed.

Lemma parse_ext2_dir_scan buf datalen es (files : V) l (s : state W) :
  dir_scan (dir_fuel datalen) (ext2_step buf datalen) (datalen - 8) 0 = Ret es →
  Forall small_entry es → vec_rep files l → heap_wf (st_heap s) → room s l (zlen es) →
  ∃ files' s' ps, parse_ext2_dir buf datalen files s = Ret ((0, files'), s') ∧
    vec_rep files' (l ++ ps) ∧ stored s s' ps es.
Proof.
  intros Hscan Hes Hr Hwf Hroom.
  destruct (dir_loop_scan Hmem _ _ _ _ _ files l s Hscan Hes Hr Hwf Hroom)
    as (files' & s' & ps & Hrun & ? & ?).
  exists files', s', ps. split_and!; [|done..].
  unfold parse_ext2_dir. by erewrite bind_eq by exact Hrun.
Qed.

Lemma ext2_block_scan rs :
  Forall ext2_rec_wf rs →
  dir_scan (dir_fuel (zlen (ext2_block rs))) (ext2_step (ext2_block rs) (zlen (ext2_block rs)))
    (zlen (ext2_block rs) - 8) 0 =
  Ret (ext2_entry <$> filter (fun r => ext2_live r = true) rs).
Proof.
  intros Hwf. apply (ext2_scan_encoded rs [] _ Hwf).
  pose proof (ext2_block_length rs Hwf). unfold dir_fuel. lia.
Qed.

(** The header of a block: one of the four magic numbers and the bytes up to
    [hdrlen]. *)
Definition xfs_block_header (magic : Z) (rest : bytes) : bytes := be_split 4 magic ++ rest.

Lemma xfs_header_bounds magic hdrlen mb :
  xfs_header magic = Some (hdrlen, mb) → 0 ≤ magic < 2 ^ 32 ∧ 16 ≤ hdrlen.
Proof.
  intros Hhdr. unfold xfs_header in Hhdr. repeat case_match; simplify_eq;
    repeat match goal with E : (magic =? _) = true |- _ => apply Z.eqb_eq in E; subst magic end;
    vm_compute; repeat split; congruence.
Qed.

Lemma xfs_block_header_length magic hdr hdrlen :
  zlen hdr = hdrlen - 4 → zlen (xfs_block_header magic hdr) = hdrlen.
Proof. intros. unfold xfs_block_header. rewrite length_app, be_split_length. lia. Qed.

Lemma xfs_block_scan magic hdrlen mb hdr xs tail :
  zlen hdr = hdrlen - 4 → Forall (xfs_item_wf mb) xs → xfs_tail_wf tail →
  let block := xfs_block_header magic hdr ++ xfs_items xs ++ tail in
  dir_scan (dir_fuel (zlen block)) (xfs_step mb block) (zlen block - 9) hdrlen =
  Ret (xfs_entry <$> filter (fun x => xfs_live x = true) xs).
Proof.
  intros Hlen Hwf Htail block. rewrite <- (xfs_block_header_length magic hdr hdrlen Hlen).
  apply xfs_scan_encoded; [done|done|].
  pose proof (xfs_items_length mb xs Hwf). unfold block, dir_fuel, xfs_block_header.
  rewrite !length_app, be_split_length in *. lia.
Qed.

Lemma parse_xfs_dir_scan magic hdr hdrlen mb body datalen es (files : V) l (s : state W) :
  0 ≤ magic < 2 ^ 32 → xfs_header magic = Some (hdrlen, mb) →
  zlen (xfs_block_header magic hdr) = hdrlen →
  let buf := xfs_block_header magic hdr ++ body in
  dir_scan (dir_fuel datalen) (xfs_step mb buf) (datalen - 9) hdrlen = Ret es →
  Forall small_entry es → vec_rep files l → heap_wf (st_heap s) → room s l (zlen es) →
  ∃ files' s' ps, parse_xfs_dir buf datalen files s = Ret ((0, files'), s') ∧
    vec_rep files' (l ++ ps) ∧ stored s s' ps es.
Proof.
  intros Hm Hhdr Hlen buf Hscan Hes Hr Hwf Hroom.
  assert (H4 : slice 0 4 buf = Some (be_split 4 magic)).
  { apply (slice_field [] _ (hdr ++ body)); [|done|by rewrite be_split_length].
    unfold buf, xfs_block_header. by rewrite <- app_assoc. }
  apply (rd_be4 _ _ _ (be_split_bytes _ _)), fmap_Some_inv in H4 as (raw & Hraw & Hbe).
  rewrite be_be_split in Hbe by (simpl; lia).
  destruct (dir_loop_scan Hmem _ _ _ _ _ files l s Hscan Hes Hr Hwf Hroom)
    as (files' & s' & ps & Hrun & ? & ?).
  exists files', s', ps. split_and!; [|done..].
  unfold parse_xfs_dir, bind at 1, lift. rewrite Hraw. cbn [obind of_option].
  rewrite <- Hbe, Hhdr. by erewrite bind_eq by exact Hrun.
Qed.

End Parsers.

End Defs.

(** C12. The ext2/3/4 parser inverts the on-disk format: on the concatenation of
    well-formed directory records (any mix of live, deleted and "." entries, over any
    number of blocks) it returns 0, pushes exactly one entry per live record in the
    order of the disk, each with the inode number, type and NUL-terminated name of
    its record, on hosts of both byte orders, and leaves the rest of memory alone. *)
Theorem ext2_parse_roundtrip `{Machine} {W V} `{VecOps V} `{!VecLaws V}
    (rs : list ext2_rec) (files : V) (l : list Z) (s : state W) :
  (∀ n, mem_ok n = true) → Forall ext2_rec_wf rs →
  vec_rep files l → heap_wf (st_heap s) → room s l (zlen rs) →
  let block := ext2_block rs in
  ∃ files' s' ps,
    parse_ext2_dir block (zlen block) files s = Ret ((0, files'), s') ∧
    vec_rep files' (l ++ ps) ∧
    stored s s' ps (ext2_entry <$> filter (fun r => ext2_live r = true) rs).
Proof.
  intros Hmem Hwf Hr Hheap Hroom block.
  apply (parse_ext2_dir_scan Hmem); [by apply ext2_block_scan|by apply ext2_entries_small|done..|].
  eapply room_le; [done|]. rewrite length_fmap.
  pose proof (length_filter (fun r => ext2_live r = true) rs). lia.
Qed.

(** C13. On any bytes whatever, the ext2/3/4 parser terminates, reads no byte outside
    of the block and returns 0 with the array extended by valid entries. *)
Theorem ext2_parse_total `{Machine} {W V} `{VecOps V} `{!VecLaws V}
    (buf : bytes) (datalen : Z) (files : V) (l : list Z) (s : state W) :
  (∀ n, mem_ok n = true) → Forall is_byte buf → 0 ≤ datalen ≤ zlen buf →
  vec_rep files l → heap_wf (st_heap s) → room s l datalen →
  ∃ files' s' ps es,
    parse_ext2_dir buf datalen files s = Ret ((0, files'), s') ∧
    vec_rep files' (l ++ ps) ∧ stored s s' ps es ∧ Forall small_entry es.
Proof.
  intros Hmem Hb Hlen Hr Hheap Hroom.
  destruct (ext2_scan_total buf datalen Hb Hlen) as (es & Hscan & Hes & Hl).
  destruct (parse_ext2_dir_scan Hmem buf datalen es files l s Hscan Hes Hr Hheap)
    as (files' & s' & ps & ? & ? & ?); [by eapply room_le|].
  by exists files', s', ps, es.
Qed.

(** C11. The XFS parser inverts the on-disk format of the four kinds of data block:
    after the header, any sequence of data entries, free regions and (in multi-block
    directories) further headers, up to the end of the block or the leaf entries, is
    read as exactly the live entries in order. *)
Theorem xfs_parse_roundtrip `{Machine} {W V} `{VecOps V} `{!VecLaws V}
    (magic hdrlen : Z) (mb : bool) (hdr tail : bytes) (xs : list xfs_item)
    (files : V) (l : list Z) (s : state W) :
  (∀ n, mem_ok n = true) →
  xfs_header magic = Some (hdrlen, mb) → zlen hdr = hdrlen - 4 →
  Forall (xfs_item_wf mb) xs → xfs_tail_wf tail →
  vec_rep files l → heap_wf (st_heap s) → room s l (zlen xs) →
  let block := xfs_block_header magic hdr ++ xfs_items xs ++ tail in
  ∃ files' s' ps,
    parse_xfs_dir block (zlen block) files s = Ret ((0, files'), s') ∧
    vec_rep files' (l ++ ps) ∧
    stored s s' ps (xfs_entry <$> filter (fun x => xfs_live x = true) xs).
Proof.
  intros Hmem Hhdr Hlen Hwf Htail Hr Hheap Hroom block.
  destruct (xfs_header_bounds _ _ _ Hhdr) as [Hm Hh].
  apply (parse_xfs_dir_scan Hmem magic hdr hdrlen mb);
    [done|done|by apply xfs_block_header_length| | |done|done|].
  - by apply (xfs_block_scan magic hdrlen mb hdr xs tail).
  - by eapply xfs_entries_small.
  - eapply room_le; [done|]. rewrite length_fmap.
    pose proof (length_filter (fun x => xfs_live x = true) xs). lia.
Qed.

(** The four bytes 0xffff 0x0000 are a free record of length 0. *)
Lemma xfs_step_zero `{Machine} mb buf off :
  slice off 4 buf = Some [255; 255; 0; 0] → xfs_step mb buf off = Ret (DSkip 0).
Proof.
  intros H4.
  assert (Htag : slice off 2 buf = Some [255; 255]).
  { rewrite <- (Z.add_0_r off). by rewrite (slice_sub off 4 buf _ 0 2 H4) by lia. }
  assert (Hlen : slice (off + 2) 2 buf = Some [0; 0]).
  { by rewrite (slice_sub off 4 buf _ 2 2 H4) by lia. }
  unfold xfs_step, rd, from_be32, from_be16. rewrite H4, Htag, Hlen, isBigEndian_spec.
  by destruct big_endian, mb.
Qed.

(** A free record of length 0 makes the XFS parser run for ever: at an offset
    where the four bytes are 0xffff 0x0000, whatever follows, no number of iterations
    ends the loop. *)
Theorem xfs_zero_free_diverges `{Machine} {W V} `{VecOps V}
    (mb : bool) (buf : bytes) (off limit : Z) (files : V) (s : state W) :
  slice off 4 buf = Some [255; 255; 0; 0] → off < limit →
  ∀ fuel, dir_loop fuel (xfs_step mb buf) limit off files s = Spin.
Proof.
  intros H4 Hlt. induction fuel as [|fuel IH]; [done|]. cbn [dir_loop].
  rewrite (proj2 (Z.ltb_lt _ _)) by done. unfold bind, lift.
  rewrite (xfs_step_zero _ _ _ H4). cbn [obind]. by rewrite Z.add_0_r.
Qed.

(** ** Concrete blocks *)
#[local] Existing Instances x86_64 Impl.Vector_ops Impl.Vector_laws.

(** An empty heap of a machine with an operating system of type [unit]. *)
Definition state0 : state unit := MkState (MkHeap ∅ 4096) tt [].

Lemma state0_wf `{Machine} : heap_wf (st_heap state0).
Proof. split; [done|]. split; intros *; simpl; rewrite lookup_empty; discriminate. Qed.

Definition ext2_sample : list ext2_rec :=
  [MkExt2Rec 2 2 (bs ".") [0; 0; 0]; MkExt2Rec 12 1 (bs "a.ko") [];
   MkExt2Rec 0 1 (bs "gone") []; MkExt2Rec 13 2 (bs "dir") [0]].

Lemma ext2_parse_roundtrip_witness :
  let block := ext2_block ext2_sample in
  ∃ files' s' ps,
    @parse_ext2_dir _ unit Impl.Vector _ block (zlen block) Impl.vector_init state0
      = Ret ((0, files'), s') ∧
    vec_rep files' ([] ++ ps) ∧
    stored state0 s' ps (ext2_entry <$> filter (fun r => ext2_live r = true) ext2_sample).
Proof.
  apply (@ext2_parse_roundtrip _ unit Impl.Vector _ _ ext2_sample Impl.vector_init [] state0).
  - done.
  - apply (bool_decide_eq_true_1 _). vm_compute. reflexivity.
  - apply Impl.rep_init.
  - apply state0_wf.
  - vm_compute. split; congruence.
Defined.

(** Record lengths 0, unaligned or past the end; a name longer than its record. *)
Definition ext2_garbage : bytes := [1; 0; 0; 0; 12; 0; 9; 1; 65; 66; 67; 68].

Lemma ext2_parse_total_witness :
  ∃ files' s' ps es,
    @parse_ext2_dir _ unit Impl.Vector _ ext2_garbage 12 Impl.vector_init state0
      = Ret ((0, files'), s') ∧
    vec_rep files' ([] ++ ps) ∧ stored state0 s' ps es ∧
    Forall small_entry es.
Proof.
  apply (@ext2_parse_total _ unit Impl.Vector _ _ ext2_garbage 12 Impl.vector_init [] state0).
  - done.
  - apply (bool_decide_eq_true_1 _). vm_compute. reflexivity.
  - vm_compute. split; congruence.
  - apply Impl.rep_init.
  - apply state0_wf.
  - vm_compute. split; congruence.
Defined.

Definition xfs_sample : list xfs_item :=
  [XEntry 64 2 (bs ".") [0; 0; 0; 0; 0]; XEntry 99 1 (bs "rootkit.ko") [0; 0; 0; 0];
   XFree [0; 0; 0; 0]; XHeader true (replicate 60 0); XEntry 100 1 (bs "b") [0; 0; 0; 0; 0]].

Lemma xfs_parse_roundtrip_witness :
  let block := xfs_block_header XFS_DIR3_DATA_MAGIC (replicate 60 0) ++ xfs_items xfs_sample ++ [] in
  ∃ files' s' ps,
    @parse_xfs_dir _ unit Impl.Vector _ block (zlen block) Impl.vector_init state0
      = Ret ((0, files'), s') ∧
    vec_rep files' ([] ++ ps) ∧
    stored state0 s' ps (xfs_entry <$> filter (fun x => xfs_live x = true) xfs_sample).
Proof.
  apply (@xfs_parse_roundtrip _ unit Impl.Vector _ _ XFS_DIR3_DATA_MAGIC 64 true
           (replicate 60 0) [] xfs_sample Impl.vector_init [] state0).
  - done.
  - done.
  - done.
  - repeat constructor; (done || apply (bool_decide_eq_true_1 _); vm_compute; reflexivity).
  - left. done.
  - apply Impl.rep_init.
  - apply state0_wf.
  - vm_compute. split; congruence.
Defined.

(** What the two parsers find in the samples. *)
Example ext2_sample_scan :
  let b := ext2_block ext2_sample in
  dir_scan (dir_fuel (zlen b)) (ext2_step b (zlen b)) (zlen b - 8) 0
  = Ret [MkEntry 12 4 1 0 (bs "a.ko" ++ [0]); MkEntry 13 3 2 0 (bs "dir" ++ [0])].
Proof. vm_compute. reflexivity. Qed.

(** The XFS parser trusts the length of a name: at the end of a block it reads
    bytes that are not part of it. *)
Example xfs_reads_past_block :
  @parse_xfs_dir _ unit Impl.Vector _ 
    (xfs_block_header XFS_DIR2_BLOCK_MAGIC (replicate 12 0) ++ be_split 8 64 ++ [200; 97; 98])
    27 Impl.vector_init state0 = Undef.
Proof. vm_compute. reflexivity. Qed.

Lemma xfs_zero_free_diverges_witness :
  let buf := replicate 16 0 ++ [255; 255; 0; 0] ++ replicate 44 0 in
  slice 16 4 buf = Some [255; 255; 0; 0] ∧
  ∀ fuel, @dir_loop _ unit Impl.Vector _ fuel (xfs_step false buf) 55 16
            Impl.vector_init state0 = Spin.
Proof.
  split; [vm_compute; reflexivity|]. apply (@xfs_zero_free_diverges _ unit Impl.Vector _).
  - vm_compute. reflexivity.
  - reflexivity.
Defined.
