(* ===== verification/Hidden.v ===== *)
(** * The hidden-file detector: the comparison of fhf.c

    The names parsed out of the raw blocks of a directory are compared with the
    names readdir returns; what is on disk and not in the listing is hidden.  The
    raw bytes are one object of the heap, cut into extents by an array of
    pointers. *)
From S2P Require Export DirBlock SampleOs.
#[local] Open Scope Z_scope.

Section Defs.
  Context `{Machine} {W V : Type} `{VecOps V}.

(** [for (n=0; n<vector->size; n++)] with [k] elements left. *)
Fixpoint dirent_index_from (k : nat) (n : Z) (vector : V) (nm : bytes) : prog W Z :=
  match k with
  | O => ret (-1)
  | S k =>
      let! p := lift (vec_get vector n) in
      let! item := load_entry p in
      if strcmp_eq nm (c_str (name item)) then ret n
      else dirent_index_from k (n + 1) vector nm
  end.

Definition vector_dirent_index (vector : V) (nm : bytes) : prog W Z :=
  dirent_index_from (Z.to_nat (vec_count vector)) 0 vector nm.

(** The loop over [vector1]; without [onlyref] the entry is copied. *)
Fixpoint dirent_cmp_from (k : nat) (n : Z) (vector1 vector2 out : V) (onlyref : bool) :
    prog W V :=
  match k with
  | O => ret out
  | S k =>
      let! p := lift (vec_get vector1 n) in
      let! item := load_entry p in
      let! index := vector_dirent_index vector2 (c_str (name item)) in
      let! out :=
        (if index =? -1 then
           if onlyref then lift (vec_push out p)
           else let! entrycp := malloc (OEntry item) in lift (vec_push out entrycp)
         else ret out) in
      dirent_cmp_from k (n + 1) vector1 vector2 out onlyref
  end.

Definition vector_dirent_cmp (vector1 vector2 vector_in1_notin2 : V) (onlyref : bool) :
    prog W V :=
  dirent_cmp_from (Z.to_nat (vec_count vector1)) 0 vector1 vector2 vector_in1_notin2 onlyref.

(** The loop over the extents: [None] is the [return 1] of an unknown file system. *)
Fixpoint parse_extents (k : nat) (i : Z) (fstype : bytes) (vecdata : V) (datalen : Z)
    (raw : V) : prog W (option V) :=
  match k with
  | O => ret (Some raw)
  | S k =>
      let! pos := lift (vec_get vecdata i) in
      let! next := lift (if i + 1 <? vec_count vecdata then vec_get vecdata (i + 1)
                         else let? p0 := vec_get vecdata 0 in Ret (p0 + datalen)) in
      let poslen := size_t (next - pos) in
      if strncmp_eq fstype (bs "ext") 3 then
        let! buf := load_block pos in
        let! '(_, raw) := parse_ext2_dir buf (u32 poslen) raw in
        parse_extents k (i + 1) fstype vecdata datalen raw
      else if strncmp_eq fstype (bs "xfs") 3 then
        let! buf := load_block pos in
        let! '(_, raw) := parse_xfs_dir buf (u32 poslen) raw in
        parse_extents k (i + 1) fstype vecdata datalen raw
      else ret None
  end.

(** [find_hidden_files]: the result and the three arrays. *)
Definition find_hidden_files `{OS W} (fstype : bytes) (vecdata : V) (datalen : Z)
    (dirpath : bytes) (raw dir hidden : V) : prog W (Z * (V * V * V)) :=
  let! '(_, dir) := do_dir dirpath dir in
  if vec_count vecdata =? 0 then ret (1, (raw, dir, hidden)) else
  let! r := parse_extents (Z.to_nat (vec_count vecdata)) 0 fstype vecdata datalen raw in
  match r with
  | None => ret (1, (raw, dir, hidden))
  | Some raw =>
      let! hidden := vector_dirent_cmp raw dir hidden true in
      ret (0, (raw, dir, hidden))
  end.

End Defs.

(** ** A parser does not see what follows the block *)
Definition ole {A} (m m' : outcome A) : Prop := ∀ r, m = Ret r → m' = Ret r.

Lemma ole_refl {A} (m : outcome A) : ole m m.
Proof. by intros r. Qed.

Lemma ole_bind {A B} (m m' : outcome A) (k k' : A → outcome B) :
  ole m m' → (∀ a, ole (k a) (k' a)) → ole (obind m k) (obind m' k').
Proof.
  intros Hm Hk r (a & Ha & Hr)%obind_ret_inv. rewrite (Hm a Ha). exact (Hk a r Hr).
Qed.

Lemma ole_slice off n buf rest :
  ole (of_option (slice off n buf)) (of_option (slice off n (buf ++ rest))).
Proof.
  intros r Hr%of_option_ret_inv. pose proof Hr as (_ & _ & ? & _)%slice_Some.
  rewrite slice_take by done. by rewrite Hr.
Qed.

Lemma ole_fmap {A B} (f : A → B) (o o' : option A) :
  ole (of_option o) (of_option o') → ole (of_option (f <$> o)) (of_option (f <$> o')).
Proof.
  intros Ho r Hr%of_option_ret_inv. destruct o as [a|]; [|discriminate].
  specialize (Ho a eq_refl). apply of_option_ret_inv in Ho. subst o'.
  simpl in *. congruence.
Qed.

Ltac ole_step :=
  first [ apply ole_refl
        | apply ole_slice
        | apply ole_fmap
        | apply ole_bind; [|intros ?]
        | match goal with |- ole (if ?b then _ else _) _ => destruct b end ].

Section Frames.
  Context `{Machine}.

Lemma is_dot_frame len cp buf rest : ole (is_dot len cp buf) (is_dot len cp (buf ++ rest)).
Proof. unfold is_dot, rd8. repeat ole_step. Qed.

Lemma is_dotdot_frame len cp buf rest :
  ole (is_dotdot len cp buf) (is_dotdot len cp (buf ++ rest)).
Proof. unfold is_dotdot, rd8. repeat ole_step. Qed.

Lemma ext2_step_frame buf rest datalen off :
  ole (ext2_step buf datalen off) (ext2_step (buf ++ rest) datalen off).
Proof.
  unfold ext2_step, rd, rd8.
  repeat first [ole_step | apply is_dot_frame | apply is_dotdot_frame].
Qed.

Lemma xfs_step_frame mb buf rest off :
  ole (xfs_step mb buf off) (xfs_step mb (buf ++ rest) off).
Proof.
  unfold xfs_step, rd, rd8.
  repeat first [ole_step | apply is_dot_frame | apply is_dotdot_frame].
Qed.

Lemma dir_scan_frame step step' limit fuel off :
  (∀ off, ole (step off) (step' off)) →
  ole (dir_scan fuel step limit off) (dir_scan fuel step' limit off).
Proof.
  intros Hstep. revert off. induction fuel as [|fuel IH]; intros off; [apply ole_refl|].
  cbn [dir_scan]. destruct (off <? limit); [|apply ole_refl].
  apply ole_bind; [apply Hstep|]. intros [|n|n e]; [apply ole_refl|apply IH|].
  apply ole_bind; [apply IH|]. intros ?. apply ole_refl.
Qed.

End Frames.

(** ** What a raw extent holds

    [dir_extent fstype b es]: [b] is a well-formed directory block of the file
    system and [es] its live entries. *)
Inductive dir_extent `{Machine} (fstype : bytes) : bytes → list my_dir_entry → Prop :=
  | extent_ext2 rs :
      strncmp_eq fstype (bs "ext") 3 = true → Forall ext2_rec_wf rs → rs ≠ [] →
      dir_extent fstype (ext2_block rs) (ext2_entry <$> filter (fun r => ext2_live r = true) rs)
  | extent_xfs magic hdrlen mb hdr xs tail :
      strncmp_eq fstype (bs "xfs") 3 = true →
      xfs_header magic = Some (hdrlen, mb) → zlen hdr = hdrlen - 4 →
      Forall (xfs_item_wf mb) xs → xfs_tail_wf tail →
      dir_extent fstype (xfs_block_header magic hdr ++ xfs_items xs ++ tail)
        (xfs_entry <$> filter (fun x => xfs_live x = true) xs).

Lemma dir_extent_small `{Machine} fstype b es :
  dir_extent fstype b es → Forall small_entry es.
Proof. intros []; [by apply ext2_entries_small|by eapply xfs_entries_small]. Qed.

(** The array [v] holds the addresses [ps], where the heap has the entries [es]. *)
Definition at_entries {W} (s : state W) (ps : list Z) (es : list my_dir_entry) : Prop :=
  Forall2 (fun p e => objs (st_heap s) !! p = Some (OEntry e)) ps es.

Lemma at_entries_le {W} (s s' : state W) ps es :
  heap_le (st_heap s) (st_heap s') → at_entries s ps es → at_entries s' ps es.
Proof.
  intros [Hle _] Hat. eapply Forall2_impl; [exact Hat|].
  intros p e Hp. simpl in *. by eapply lookup_weaken.
Qed.

(** The names of a directory as C strings. *)
Definition names (es : list my_dir_entry) : list bytes := (fun e => c_str (name e)) <$> es.

(** What [vector_dirent_cmp] looks for: the entries, and their addresses, whose name
    is not among those of the second array. *)
Definition absent (es2 : list my_dir_entry) (pe : Z * my_dir_entry) : bool :=
  negb (bool_decide (c_str (name (snd pe)) ∈ names es2)).

Section Lemmas.
  Context `{Machine} {W V : Type} `{VecOps V} `{!VecLaws V}.

Lemma load_entry_at (s : state W) ps es i p e :
  at_entries s ps es → ps !! i = Some p → es !! i = Some e →
  load_entry p s = Ret (e, s).
Proof.
  intros Hat Hp He. unfold at_entries in Hat. rewrite Forall2_lookup in Hat.
  specialize (Hat i). rewrite Hp, He in Hat. inversion Hat as [? ? Hpe|]; subst.
  unfold load_entry. by rewrite Hpe.
Qed.

(** The linear search finds the first entry of the name. *)
Lemma dirent_index_from_spec (k n : nat) (v : V) ps es nm (s : state W) :
  vec_rep v ps → at_entries s ps es → (k + n)%nat = length es →
  dirent_index_from k (Z.of_nat n) v nm s =
  Ret (match list_find (fun e => nm = c_str (name e)) (drop n es) with
       | Some (i, _) => Z.of_nat (n + i) | None => -1 end, s).
Proof.
  intros Hv Hat. revert n. induction k as [|k IH]; intros n Hk.
  { by rewrite drop_ge by lia. }
  cbn [dirent_index_from].
  destruct (lookup_lt_is_Some_2 es n ltac:(lia)) as [e He].
  destruct (Forall2_lookup_r _ _ _ _ _ Hat He) as (p & Hp & _).
  unfold bind at 1, lift. rewrite (vec_rep_get v ps) by (done || lia).
  rewrite Nat2Z.id, Hp. cbn [obind].
  erewrite bind_eq by (by eapply load_entry_at).
  rewrite (drop_S _ e) by done. cbn [list_find]. unfold strcmp_eq.
  destruct (decide (nm = c_str (name e))) as [Heq|Hne].
  - rewrite bool_decide_true by done. by rewrite Nat.add_0_r.
  - rewrite bool_decide_false by done.
    replace (Z.of_nat n + 1) with (Z.of_nat (S n)) by lia. rewrite IH by lia.
    destruct (list_find _ _) as [[i e']|]; simpl; [|done].
    do 3 f_equal. lia.
Qed.

Lemma vector_dirent_index_spec (v : V) ps es nm (s : state W) :
  vec_rep v ps → at_entries s ps es →
  ∃ i, vector_dirent_index v nm s = Ret (i, s) ∧ (i = -1 ↔ nm ∉ names es).
Proof.
  intros Hv Hat. unfold vector_dirent_index. rewrite (vec_rep_count _ _ Hv).
  pose proof (Forall2_length _ _ _ Hat) as Hl.
  change 0 with (Z.of_nat 0). rewrite (dirent_index_from_spec _ 0 v ps es) by (done || lia).
  eexists. split; [done|]. rewrite drop_0. unfold names.
  destruct (list_find _ es) as [[i e]|] eqn:E.
  - apply list_find_Some in E as (He & -> & _). split; [lia|]. intros [].
    apply list_elem_of_fmap. exists e. split; [done|]. by eapply list_elem_of_lookup_2.
  - split; [|done]. intros _ (e & -> & Hin)%list_elem_of_fmap.
    eapply list_find_None in E. rewrite Forall_forall in E. by eapply E.
Qed.

(** With [onlyref], the comparison pushes the addresses of the absent entries, in
    order, and allocates nothing. *)
Lemma dirent_cmp_from_spec (k n : nat) (v1 v2 : V) ps1 ps2 es1 es2 (out : V) l (s : state W) :
  (∀ m, mem_ok m = true) →
  vec_rep v1 ps1 → vec_rep v2 ps2 → at_entries s ps1 es1 → at_entries s ps2 es2 →
  Forall (fun p => 0 ≤ p < 2 ^ 64) ps1 → (k + n)%nat = length ps1 →
  vec_rep out l → zlen l + Z.of_nat k < 2 ^ 28 →
  ∃ out', dirent_cmp_from k (Z.of_nat n) v1 v2 out true s = Ret (out', s) ∧
    vec_rep out' (l ++ (filter (fun pe => absent es2 pe = true)
                               (zip (drop n ps1) (drop n es1))).*1).
Proof.
  intros Hmem Hv1 Hv2 Hat1 Hat2 Hps.
  pose proof (Forall2_length _ _ _ Hat1) as Hl.
  revert n out l. induction k as [|k IH]; intros n out l Hk Hout Hroom.
  { exists out. rewrite drop_ge by lia. simpl. by rewrite app_nil_r. }
  cbn [dirent_cmp_from].
  destruct (lookup_lt_is_Some_2 es1 n ltac:(lia)) as [e He].
  destruct (Forall2_lookup_r _ _ _ _ _ Hat1 He) as (p & Hp & _).
  unfold bind at 1, lift at 1. rewrite (vec_rep_get v1 ps1) by (done || lia).
  rewrite Nat2Z.id, Hp. cbn [obind].
  rewrite (bind_eq _ _ _ _ _ (load_entry_at s ps1 es1 n p e Hat1 Hp He)).
  destruct (vector_dirent_index_spec v2 ps2 es2 (c_str (name e)) s Hv2 Hat2) as (i & Hi & Habs).
  erewrite bind_eq by exact Hi.
  rewrite (drop_S ps1 p n Hp), (drop_S es1 e n He). cbn [zip zip_with].
  replace (Z.of_nat n + 1) with (Z.of_nat (S n)) by lia.
  rewrite Forall_lookup in Hps. specialize (Hps n p Hp).
  destruct (Z.eqb_spec i (-1)) as [E|E].
  - destruct (vec_rep_push out l p Hmem Hout ltac:(lia)) as (out1 & Hpush & Hout1).
    rewrite u64_small in Hout1 by done.
    destruct (IH (S n) out1 (l ++ [p])) as (out' & Hrun & Hout');
      [lia|done|rewrite length_app; simpl; lia|].
    exists out'. unfold bind at 1, lift. rewrite Hpush. cbn [obind]. split; [done|].
    rewrite filter_cons_True; [by rewrite <- app_assoc in Hout'|].
    unfold absent; simpl. rewrite bool_decide_false; [done|]. by apply Habs.
  - destruct (IH (S n) out l) as (out' & Hrun & Hout'); [lia|done|lia|].
    exists out'. split; [done|].
    rewrite filter_cons_False; [done|].
    unfold absent; simpl. rewrite bool_decide_true; [done|].
    destruct (decide (c_str (name e) ∈ names es2)) as [|Hn]; [done|].
    destruct E. by apply Habs.
Qed.

End Lemmas.

(** ** The extents and the listing *)
Section Runs.
  Context `{Machine} {W V : Type} `{VecOps V} `{!VecLaws V}.
  Hypothesis Hmem : ∀ m, mem_ok m = true.

(** One extent, whatever follows it in memory. *)
Definition parse_extent (fstype buf : bytes) (len : Z) (raw : V) : prog W (Z * V) :=
  if strncmp_eq fstype (bs "ext") 3 then parse_ext2_dir buf len raw
  else parse_xfs_dir buf len raw.

Lemma dir_extent_fstype fstype b es :
  dir_extent fstype b es →
  strncmp_eq fstype (bs "ext") 3 = true ∨
  strncmp_eq fstype (bs "ext") 3 = false ∧ strncmp_eq fstype (bs "xfs") 3 = true.
Proof.
  intros [|magic hdrlen mb hdr xs tail Hfs _ _ _ _]; [by left|right]. split; [|done].
  unfold strncmp_eq in *. apply bool_decide_eq_true in Hfs. by rewrite Hfs.
Qed.

Lemma parse_extent_spec fstype b es rest (raw : V) l (s : state W) :
  dir_extent fstype b es →
  vec_rep raw l → heap_wf (st_heap s) → room s l (zlen es) →
  ∃ raw' s' ps, parse_extent fstype (b ++ rest) (zlen b) raw s = Ret ((0, raw'), s') ∧
    vec_rep raw' (l ++ ps) ∧ stored s s' ps es.
Proof.
  intros Hext Hr Hwf Hroom. pose proof (dir_extent_small _ _ _ Hext) as Hsmall.
  unfold parse_extent. pose proof (dir_extent_fstype _ _ _ Hext) as Hty.
  destruct Hext as [rs Hfs Hrs _|magic hdrlen mb hdr xs tail Hfs Hh Hl Hxs Ht].
  - rewrite Hfs. apply (parse_ext2_dir_scan Hmem); [|done..].
    eapply (dir_scan_frame (ext2_step (ext2_block rs) _));
      [intros off; apply ext2_step_frame|by apply ext2_block_scan].
  - destruct Hty as [Hty|[-> _]].
    { unfold strncmp_eq in *. apply bool_decide_eq_true in Hfs, Hty. by rewrite Hfs in Hty. }
    rewrite <- app_assoc. destruct (xfs_header_bounds _ _ _ Hh) as [Hm _].
    apply (parse_xfs_dir_scan Hmem magic hdr hdrlen mb);
      [done|done|by apply xfs_block_header_length| |done..].
    eapply (dir_scan_frame (xfs_step mb _)); [|by apply (xfs_block_scan magic hdrlen mb hdr xs tail)].
    intros off. rewrite (app_assoc (xfs_block_header magic hdr) (_ ++ tail) rest).
    apply xfs_step_frame.
Qed.

(** The addresses of consecutive extents from [a]. *)
Fixpoint extent_addrs (a : Z) (blocks : list bytes) : list Z :=
  match blocks with
  | [] => []
  | b :: blocks => a :: extent_addrs (a + zlen b) blocks
  end.

Lemma extent_addrs_length a blocks : length (extent_addrs a blocks) = length blocks.
Proof. revert a; induction blocks; intros; simpl; auto. Qed.

Lemma extent_addrs_lookup a blocks i :
  (i < length blocks)%nat → extent_addrs a blocks !! i = Some (a + zlen (concat (take i blocks))).
Proof.
  revert a i. induction blocks as [|b blocks IH]; intros a i Hi; [simpl in Hi; lia|].
  destruct i as [|i]; simpl; [f_equal; lia|].
  rewrite IH by (simpl in Hi; lia). rewrite length_app. f_equal. lia.
Qed.

(** The memory the extents are read from: one object that stays where it is. *)
Definition mapped (s : state W) (a : Z) (mem : bytes) : Prop :=
  heap_wf (st_heap s) ∧ objs (st_heap s) !! a = Some (OBlock mem).

Lemma mapped_le s s' a mem :
  mapped s a mem → heap_wf (st_heap s') → heap_le (st_heap s) (st_heap s') → mapped s' a mem.
Proof. intros [_ Ho] Hwf [Hle _]. split; [done|]. by eapply lookup_weaken. Qed.

Lemma load_block_mapped s a mem off :
  mapped s a mem → 0 ≤ off < zlen mem →
  load_block (a + off) s = Ret (drop (Z.to_nat off) mem, s).
Proof.
  intros [Hwf Ho] Hoff. unfold load_block. rewrite (block_at_eq _ a mem) by (done || lia).
  do 3 f_equal. lia.
Qed.

(** The bytes of extent [i] of the object. *)
Lemma concat_extent (blocks : list bytes) i b :
  blocks !! i = Some b →
  let off := zlen (concat (take i blocks)) in
  drop (Z.to_nat off) (concat blocks) = b ++ concat (drop (S i) blocks) ∧
  off + zlen b = zlen (concat (take (S i) blocks)) ∧
  off + zlen b ≤ zlen (concat blocks).
Proof.
  intros Hb off.
  assert (Hsplit : concat blocks = concat (take i blocks) ++ b ++ concat (drop (S i) blocks)).
  { rewrite <- (take_drop_middle blocks i b Hb) at 1. by rewrite concat_app. }
  split_and!.
  - rewrite Hsplit. unfold off. by rewrite Nat2Z.id, drop_app_length.
  - rewrite (take_S_r _ _ b) by done. rewrite concat_app, length_app. simpl.
    rewrite app_nil_r. unfold off. lia.
  - rewrite Hsplit, !length_app. unfold off. lia.
Qed.

Lemma dir_extent_nonempty fstype b es : dir_extent fstype b es → 0 < zlen b.
Proof.
  intros Hext. destruct Hext as [rs _ Hrs ?|magic hdrlen mb hdr xs tail _ _ _ Hxs _].
  - destruct rs; [done|]. pose proof (ext2_block_length _ Hrs). simpl in *. lia.
  - unfold xfs_block_header. rewrite !length_app, be_split_length. lia.
Qed.

(** The bounds the loop computes for extent [i]: its address and its length. *)
Lemma extent_next a (blocks : list bytes) i b (vecdata : V) :
  vec_rep vecdata (extent_addrs a blocks) → blocks !! i = Some b →
  (if Z.of_nat i + 1 <? vec_count vecdata then vec_get vecdata (Z.of_nat i + 1)
   else let? p0 := vec_get vecdata 0 in Ret (p0 + zlen (concat blocks)))
  = Ret (a + zlen (concat (take i blocks)) + zlen b).
Proof.
  intros Hv Hb. destruct (concat_extent blocks i b Hb) as (_ & Hnext & _).
  pose proof (lookup_lt_Some _ _ _ Hb) as Hi.
  rewrite (vec_rep_count _ _ Hv), extent_addrs_length.
  destruct (Z.ltb_spec (Z.of_nat i + 1) (zlen blocks)).
  - rewrite (vec_rep_get _ _ _ Hv) by lia.
    replace (Z.to_nat (Z.of_nat i + 1)) with (S i) by lia.
    rewrite extent_addrs_lookup by lia. f_equal. lia.
  - rewrite (vec_rep_get _ _ _ Hv) by lia. rewrite extent_addrs_lookup by (simpl; lia).
    simpl. f_equal. rewrite (take_ge blocks (S i)) in Hnext by lia. lia.
Qed.

Lemma parse_extents_spec k i fstype a exts (vecdata raw : V) l (s : state W) :
  Forall (fun be => dir_extent fstype be.1 be.2) exts →
  vec_rep vecdata (extent_addrs a exts.*1) → mapped s a (concat exts.*1) →
  zlen (concat exts.*1) < 2 ^ 32 → (k + i)%nat = length exts →
  vec_rep raw l → room s l (zlen (concat (drop i exts.*2))) →
  ∃ raw' s' ps,
    parse_extents k (Z.of_nat i) fstype vecdata (zlen (concat exts.*1)) raw s
      = Ret (Some raw', s') ∧
    vec_rep raw' (l ++ ps) ∧ stored s s' ps (concat (drop i exts.*2)).
Proof.
  intros Hexts Hv Hmap Hsize. revert i raw l s Hmap.
  induction k as [|k IH]; intros i raw l s Hmap Hk Hr Hroom.
  { exists raw, s, []. rewrite app_nil_r, drop_ge by (rewrite length_fmap; lia).
    split_and!; [done..|]. apply stored_nil, Hmap. }
  destruct (lookup_lt_is_Some_2 exts i ltac:(lia)) as [[b es] Hi].
  assert (Hb : exts.*1 !! i = Some b) by (by rewrite list_lookup_fmap, Hi).
  assert (He : exts.*2 !! i = Some es) by (by rewrite list_lookup_fmap, Hi).
  rewrite Forall_lookup in Hexts. pose proof (Hexts i _ Hi) as Hext. simpl in Hext.
  rewrite (drop_S _ es) in * by done. simpl concat in *. rewrite length_app in Hroom.
  destruct Hroom as [Hroom1 Hroom2].
  destruct (concat_extent _ i b Hb) as (Hdrop & Hnext & Hend).
  pose proof (dir_extent_nonempty _ _ _ Hext) as Hpos.
  cbn [parse_extents]. unfold bind at 1, lift at 1.
  rewrite (vec_rep_get _ _ _ Hv) by lia.
  rewrite Nat2Z.id, extent_addrs_lookup by (rewrite length_fmap; lia). cbn [obind].
  unfold bind at 1, lift at 1. rewrite (extent_next a _ i b _ Hv Hb). cbn [obind].
  set (off := zlen (concat (take i exts.*1))) in *.
  replace (a + off + zlen b - (a + off)) with (zlen b) by lia.
  rewrite size_t_small, u32_small by lia.
  assert (Hload : load_block (a + off) s = Ret (b ++ concat (drop (S i) exts.*1), s)).
  { rewrite (load_block_mapped s a (concat exts.*1)) by (done || lia). by rewrite Hdrop. }
  destruct (parse_extent_spec fstype b es (concat (drop (S i) exts.*1)) raw l s Hext Hr)
    as (raw1 & s1 & ps1 & Hrun & Hr1 & Hst1); [apply Hmap|split; lia|].
  pose proof Hst1 as (Hwf1 & Hle1 & _ & _ & Hb1 & Hat1 & _).
  pose proof (Forall2_length _ _ _ Hat1) as Hl1.
  destruct (IH (S i) raw1 (l ++ ps1) s1) as (raw' & s' & ps & Hrun' & Hr' & Hst');
    [by eapply mapped_le|lia|done|split; rewrite ?length_app; lia|].
  exists raw', s', (ps1 ++ ps). split_and!; [|by rewrite app_assoc|by eapply stored_app].
  replace (Z.of_nat i + 1) with (Z.of_nat (S i)) by lia.
  unfold parse_extent in Hrun.
  destruct (dir_extent_fstype _ _ _ Hext) as [Hfs|[Hne Hfs]];
    rewrite ?Hne, Hfs; rewrite ?Hne, ?Hfs in Hrun;
    rewrite (bind_eq _ _ _ _ _ Hload); by rewrite (bind_eq _ _ _ _ _ Hrun).
Qed.

(** ** The listing *)
Definition dirent_wf (d : os_dirent) : Prop := is_cstr (d_name d) ∧ zlen (d_name d) < 256.

Definition listed (d : os_dirent) : bool :=
  negb (strcmp_eq (d_name d) (bs ".") || strcmp_eq (d_name d) (bs "..")).
Definition listing_entry (d : os_dirent) : my_dir_entry :=
  MkEntry (d_ino d) (u8 (zlen (d_name d))) (d_type d) 0 (d_name d ++ [0]).
Definition listing (ds : list os_dirent) : list my_dir_entry :=
  listing_entry <$> filter (fun d => listed d = true) ds.

Lemma do_dir_loop ds (files : V) l (s : state W) :
  vec_rep files l → heap_wf (st_heap s) → room s l (zlen (listing ds)) →
  ∃ files' s' ps,
    fold_prog (fun files entry =>
      if strcmp_eq (d_name entry) (bs ".") || strcmp_eq (d_name entry) (bs "..")
      then ret files
      else
        let! entrycp := malloc (OEntry (listing_entry entry)) in
        lift (vec_push files entrycp)) files ds s = Ret (files', s') ∧
    vec_rep files' (l ++ ps) ∧ stored s s' ps (listing ds).
Proof.
  revert files l s. induction ds as [|d ds IH]; intros files l s Hr Hwf Hroom.
  { exists files, s, []. rewrite app_nil_r. auto using stored_nil. }
  cbn [fold_prog]. unfold listing in *.
  destruct (listed d) eqn:El; unfold listed in El;
    [apply negb_true_iff in El|apply negb_false_iff in El]; rewrite El.
  - rewrite filter_cons_True in * by (unfold listed; by rewrite El).
    rewrite fmap_cons in *. rewrite length_cons, Nat2Z.inj_succ in Hroom.
    destruct Hroom as [Hroom1 Hroom2].
    destruct (push_entry Hmem (listing_entry d) files l s Hr Hwf)
      as (files1 & s1 & p & Hrun & Hr1 & Hst1); [apply Z.mod_pos_bound; lia|split; lia|].
    pose proof Hst1 as (Hwf1 & _ & _ & _ & Hb1 & _). simpl in Hb1.
    destruct (IH files1 (l ++ [p]) s1 Hr1 Hwf1) as (files' & s' & ps & Hrun' & Hr' & Hst').
    { split; rewrite ?length_app; simpl; lia. }
    exists files', s', (p :: ps). split_and!.
    + by rewrite (bind_eq _ _ _ _ _ Hrun).
    + by rewrite <- app_assoc in Hr'.
    + by apply (stored_app s s1 s' [p] ps [_]).
  - rewrite filter_cons_False in * by (unfold listed; by rewrite El).
    destruct (IH files l s Hr Hwf Hroom) as (files' & s' & ps & Hrun' & Hr' & Hst').
    exists files', s', ps. split_and!; [by rewrite bind_ret_l|done..].
Qed.

End Runs.

(** ** The comparison as a set difference of names *)
Lemma names_listing ds :
  Forall dirent_wf ds → names (listing ds) = d_name <$> filter (fun d => listed d = true) ds.
Proof.
  intros Hds. unfold names, listing. rewrite <- list_fmap_compose. apply list_fmap_ext.
  intros i d Hd%list_elem_of_lookup_2%list_elem_of_filter. rewrite Forall_forall in Hds.
  simpl. apply c_str_terminated. exact (proj1 (Hds d (proj2 Hd))).
Qed.

Lemma absent_names es2 ps es :
  length ps = length es →
  names (filter (fun pe => absent es2 pe = true) (zip ps es)).*2 =
  filter (fun nm => nm ∉ names es2) (names es).
Proof.
  revert ps. induction es as [|e es IH]; intros [|p ps] Hl; try done.
  injection Hl as Hl. cbn [zip zip_with]. change (names (e :: es)) with (c_str (name e) :: names es).
  destruct (absent es2 (p, e)) eqn:E.
  - rewrite filter_cons_True by done. unfold absent in E; simpl in E.
    apply negb_true_iff, bool_decide_eq_false in E.
    rewrite filter_cons_True by done. rewrite <- (IH ps) by done. done.
  - rewrite filter_cons_False by (by rewrite E). unfold absent in E; simpl in E.
    apply negb_false_iff, bool_decide_eq_true in E.
    rewrite filter_cons_False by naive_solver. by apply IH.
Qed.

Lemma at_entries_filter {W} (P : Z * my_dir_entry → Prop) `{∀ x, Decision (P x)}
    (s : state W) ps es :
  at_entries s ps es → at_entries s (filter P (zip ps es)).*1 (filter P (zip ps es)).*2.
Proof.
  unfold at_entries. intros Hat. induction Hat as [|p e ps es Hp Hat IH]; [done|].
  cbn [zip zip_with]. destruct (decide (P (p, e))).
  - rewrite filter_cons_True by done. by constructor.
  - by rewrite filter_cons_False by done.
Qed.

Lemma sublist_filter_zip (P : Z * my_dir_entry → Prop) `{∀ x, Decision (P x)} ps
    (es : list my_dir_entry) :
  length ps = length es → (filter P (zip ps es)).*1 `sublist_of` ps.
Proof.
  intros Hl. rewrite <- (fst_zip ps es) at 2 by lia.
  induction (zip ps es) as [|pe l IH]; [done|]. rewrite fmap_cons.
  destruct (decide (P pe)).
  - rewrite filter_cons_True by done. by constructor.
  - rewrite filter_cons_False by done. by constructor.
Qed.

(** The addresses of the heap fit in the 64-bit elements of an array. *)
Lemma at_entries_bounds `{Machine} {W} (s : state W) ps es :
  heap_wf (st_heap s) → brk (st_heap s) < 2 ^ 64 → at_entries s ps es →
  Forall (fun p => 0 ≤ p < 2 ^ 64) ps.
Proof.
  intros (_ & Hobj & _) Hb Hat. induction Hat as [|p e ps es Hp _ IH]; constructor; [|done].
  specialize (Hobj _ _ Hp). lia.
Qed.

Lemma do_dir_spec `{Machine} {W V} `{OS W} `{VecOps V} `{!VecLaws V}
    (dirpath : bytes) ds w' (files : V) l (s : state W) :
  (∀ m, mem_ok m = true) → sys_opendir dirpath (st_os s) = (Some ds, w') →
  vec_rep files l → heap_wf (st_heap s) → room s l (zlen (listing ds)) →
  ∃ files' s' ps, do_dir dirpath files s = Ret ((0, files'), s') ∧
    vec_rep files' (l ++ ps) ∧
    stored (MkState (st_heap s) w' (st_log s)) s' ps (listing ds).
Proof.
  intros Hmem Hopen Hr Hwf Hroom.
  destruct (do_dir_loop Hmem ds files l (MkState (st_heap s) w' (st_log s)))
    as (files' & s' & ps & Hrun & Hr' & Hst); [done..|].
  exists files', s', ps. split_and!; [|done..].
  unfold do_dir, opendir, sys, bind at 1. rewrite Hopen. cbn [obind].
  by rewrite (bind_eq _ _ _ _ _ Hrun).
Qed.

(** The whole search: what the three arrays hold and what it stores. *)
Lemma find_hidden_files_run `{Machine} {W V} `{OS W} `{VecOps V} `{!VecLaws V}
    (fstype dirpath : bytes) (a : Z) (exts : list (bytes * list my_dir_entry))
    (ds : list os_dirent) (vecdata : V) (s : state W) (w' : W) :
  (∀ m, mem_ok m = true) →
  Forall (fun be => dir_extent fstype be.1 be.2) exts → exts ≠ [] →
  vec_rep vecdata (extent_addrs a exts.*1) → mapped s a (concat exts.*1) →
  zlen (concat exts.*1) < 2 ^ 32 →
  sys_opendir dirpath (st_os s) = (Some ds, w') →
  room s [] (zlen (listing ds) + zlen (concat exts.*2)) →
  ∃ raw dir hidden praw pdir s',
    find_hidden_files fstype vecdata (zlen (concat exts.*1)) dirpath
      vec_init vec_init vec_init s = Ret ((0, (raw, dir, hidden)), s') ∧
    vec_rep raw praw ∧ vec_rep dir pdir ∧
    vec_rep hidden (filter (fun pe => absent (listing ds) pe = true)
                           (zip praw (concat exts.*2))).*1 ∧
    at_entries s' praw (concat exts.*2) ∧ at_entries s' pdir (listing ds) ∧
    stored (MkState (st_heap s) w' (st_log s)) s' (pdir ++ praw)
           (listing ds ++ concat exts.*2).
Proof.
  intros Hmem Hexts Hne Hv [Hwf Hmap] Hsize Hopen [Hroom1 Hroom2]. simpl in Hroom1.
  destruct (do_dir_spec dirpath ds w' vec_init [] s Hmem Hopen vec_rep_init Hwf)
    as (dir & s1 & pdir & Hrun1 & Hdir & Hst1).
  { split; simpl; lia. }
  pose proof Hst1 as (Hwf1 & Hle1 & _ & _ & Hb1 & Hat1 & _). simpl in Hle1, Hb1, Hdir.
  assert (Hcount : vec_count vecdata = zlen exts).
  { rewrite (vec_rep_count _ _ Hv), extent_addrs_length. by rewrite length_fmap. }
  destruct (parse_extents_spec Hmem (length exts) 0 fstype a exts vecdata vec_init [] s1)
    as (raw & s2 & praw & Hrun2 & Hraw & Hst2);
    [done|done|by apply (mapped_le s)|done|lia|apply vec_rep_init|rewrite drop_0; split; simpl; lia|].
  pose proof Hst2 as (Hwf2 & Hle2 & _ & _ & Hb2 & Hat2 & _).
  rewrite drop_0 in *. simpl in Hraw.
  assert (Hatd : at_entries s2 pdir (listing ds)) by (by eapply at_entries_le).
  pose proof (Forall2_length _ _ _ Hat2) as Hl2.
  destruct (dirent_cmp_from_spec (length praw) 0 raw dir praw pdir (concat exts.*2)
              (listing ds) vec_init [] s2) as (hidden & Hrun3 & Hhidden);
    [done..|apply (at_entries_bounds s2 praw (concat exts.*2) Hwf2); [lia|done]|lia|apply vec_rep_init|simpl; lia|].
  rewrite !drop_0 in Hhidden. simpl in Hhidden.
  exists raw, dir, hidden, praw, pdir, s2.
  split_and!; [|done|done|exact Hhidden|done|done|by eapply stored_app].
  unfold find_hidden_files. rewrite (bind_eq _ _ _ _ _ Hrun1), Hcount.
  rewrite (proj2 (Z.eqb_neq _ _)) by (destruct exts; simpl; [done|lia]).
  rewrite Nat2Z.id. rewrite (bind_eq _ _ _ _ _ Hrun2).
  unfold vector_dirent_cmp. rewrite (vec_rep_count _ _ Hraw), Nat2Z.id.
  by rewrite (bind_eq _ _ _ _ _ Hrun3).
Qed.

(** C2. The detector reports exactly the hidden names: over a raw directory of any
    number of well-formed extents and whatever listing the kernel returns,
    find_hidden_files returns 0 and leaves in the third array, in disk order, the
    entries of the raw blocks whose name is in no entry of the listing, every one of
    them an alias of an entry of the first array. *)
Theorem find_hidden_files_exact `{Machine} {W V} `{OS W} `{VecOps V} `{!VecLaws V}
    (fstype dirpath : bytes) (a : Z) (exts : list (bytes * list my_dir_entry))
    (ds : list os_dirent) (vecdata : V) (s : state W) (w' : W) :
  (∀ m, mem_ok m = true) →
  Forall (fun be => dir_extent fstype be.1 be.2) exts → exts ≠ [] →
  vec_rep vecdata (extent_addrs a exts.*1) → mapped s a (concat exts.*1) →
  zlen (concat exts.*1) < 2 ^ 32 →
  sys_opendir dirpath (st_os s) = (Some ds, w') → Forall dirent_wf ds →
  room s [] (zlen (listing ds) + zlen (concat exts.*2)) →
  ∃ raw dir hidden praw phidden es s',
    find_hidden_files fstype vecdata (zlen (concat exts.*1)) dirpath
      vec_init vec_init vec_init s = Ret ((0, (raw, dir, hidden)), s') ∧
    vec_rep raw praw ∧ at_entries s' praw (concat exts.*2) ∧
    vec_rep hidden phidden ∧ phidden `sublist_of` praw ∧ at_entries s' phidden es ∧
    names es = filter (fun nm => nm ∉ d_name <$> filter (fun d => listed d = true) ds)
                      (names (concat exts.*2)).
Proof.
  intros Hmem Hexts Hne Hv Hmap Hsize Hopen Hds Hroom.
  destruct (find_hidden_files_run fstype dirpath a exts ds vecdata s w')
    as (raw & dir & hidden & praw & pdir & s' & Hrun & Hraw & Hdir & Hhid & Hatr & Hatd & Hst);
    [done..|].
  exists raw, dir, hidden, praw. eexists.
  exists (filter (fun pe => absent (listing ds) pe = true) (zip praw (concat exts.*2))).*2, s'.
  pose proof (Forall2_length _ _ _ Hatr) as Hl.
  split_and!; [done|done|done|exact Hhid| | |].
  - by apply sublist_filter_zip.
  - by apply at_entries_filter.
  - by rewrite absent_names, names_listing by done.
Qed.

(** ** A directory with two extents, one name of which readdir does not return *)
#[local] Existing Instances x86_64 Impl.Vector_ops Impl.Vector_laws.

Definition sample_exts : list (bytes * list my_dir_entry) :=
  (fun rs => (ext2_block rs, ext2_entry <$> filter (fun r => ext2_live r = true) rs)) <$>
    [ext2_sample; [MkExt2Rec 77 1 (bs "evil.ko") [0]]].
Definition sample_listing : list os_dirent :=
  [MkDirent (bs ".") 2 4; MkDirent (bs "dir") 13 4; MkDirent (bs "a.ko") 12 8].
Definition sample_dir_os : sample :=
  MkSample [] [] [(bs "/d", sample_listing)] [] [] [] [] [].
Definition sample_mem : bytes := concat sample_exts.*1.
Definition sample_dir_state : state sample :=
  MkState (alloc_in (OBlock sample_mem) (MkHeap ∅ 4096)) sample_dir_os [].
Definition sample_vecdata : Impl.Vector :=
  Impl.MkVector (Some <$> extent_addrs 4096 sample_exts.*1) 2 2.

Lemma sample_mapped : mapped sample_dir_state 4096 sample_mem.
Proof.
  split; [|apply lookup_insert_eq].
  apply alloc_wf; [apply (@state0_wf x86_64)|simpl; lia].
Qed.

Lemma find_hidden_files_exact_witness :
  ∃ raw dir hidden praw phidden es s',
    find_hidden_files (bs "ext4") sample_vecdata (zlen (concat sample_exts.*1)) (bs "/d")
      vec_init vec_init vec_init sample_dir_state = Ret ((0, (raw, dir, hidden)), s') ∧
    vec_rep raw praw ∧ at_entries s' praw (concat sample_exts.*2) ∧
    vec_rep hidden phidden ∧ phidden `sublist_of` praw ∧ at_entries s' phidden es ∧
    names es = filter (fun nm => nm ∉ d_name <$> filter (fun d => listed d = true) sample_listing)
                      (names (concat sample_exts.*2)).
Proof.
  apply (@find_hidden_files_exact x86_64 sample Impl.Vector _ _ _ (bs "ext4") (bs "/d") 4096
           sample_exts sample_listing sample_vecdata sample_dir_state sample_dir_os).
  - done.
  - repeat (apply Forall_cons_2; [apply extent_ext2|]); try apply Forall_nil_2;
      (done || apply (bool_decide_eq_true_1 _); vm_compute; reflexivity).
  - done.
  - split_and!; [reflexivity..|]. apply (bool_decide_eq_true_1 _). vm_compute. reflexivity.
  - exact sample_mapped.
  - reflexivity.
  - reflexivity.
  - apply (bool_decide_eq_true_1 _). vm_compute. reflexivity.
  - vm_compute. split; reflexivity.
Defined.

(** The hidden name of the sample. *)
Example sample_hidden_names :
  filter (fun nm => nm ∉ d_name <$> filter (fun d => listed d = true) sample_listing)
         (names (concat sample_exts.*2)) = [bs "evil.ko"].
Proof. vm_compute. reflexivity. Qed.
