(* ===== verification/Extents.v ===== *)
(** * Which blocks hold a file, and where a volume starts: blk.c, second half

    The output of debugfs, xfs_bmap, pvs and pvdisplay and the attributes of sysfs,
    read line by line into block numbers and sector ranges.  An array of blocks is
    a sequence of extents, each of them announced by the value -1. *)
From S2P Require Export Utils Vector SampleOs.
#[local] Open Scope Z_scope.

Section Defs.
  Context `{Machine} {W V : Type} `{OS W} `{VecOps V}.

(** [vector_pushBack(pblocks, istart); *pcount += 1] for each number of a range. *)
Fixpoint range_loop (fuel : nat) (istart iend : Z) (pblocks : V) (pcount : Z) :
    outcome (V * Z) :=
  match fuel with
  | O => Spin
  | S fuel =>
      if istart <=? iend then
        let? pblocks := vec_push pblocks istart in
        range_loop fuel (u64 (istart + 1)) iend pblocks (size_t (pcount + 1))
      else Ret (pblocks, pcount)
  end.

Definition push_range (istart iend : Z) (pblocks : V) (pcount : Z) : outcome (V * Z) :=
  range_loop (S (Z.to_nat (iend + 1 - istart))) istart iend pblocks pcount.

(** ** LVM: pvs and pvdisplay *)
Fixpoint pvs_lines (lines : list bytes) (nLine matched pe_start : Z) : Z * Z :=
  match lines with
  | [] => (matched, pe_start)
  | buffer :: lines =>
      let nLine := nLine + 1 in
      let token := trimch (chop_nl buffer) 32 in
      if (nLine =? 1) && negb (strcmp_eq token (bs "1st PE")) then (matched, pe_start) else
      let matched := if nLine =? 1 then matched + 1 else matched in
      if nLine =? 2 then (matched + 1, u64 (strtoll token))
      else pvs_lines lines nLine matched pe_start
  end.

Definition lvm_parse_pvs_pestart (dev : bytes) (pe_start : Z) : prog W (Z * Z) :=
  let! cmd_app := find_command (bs "pvs") 255 in
  match cmd_app with
  | None => ret (2, pe_start)
  | Some cmd_app =>
      let! buffer := lift (sprintf 512 (cmd_app ++ bs " -o pe_start --units s " ++ dev)) in
      let! fp := popen buffer in
      match fp with
      | None => ret (2, pe_start)
      | Some (out, _) =>
          let '(matched, pe_start) := pvs_lines (fgets_all 512 out) 0 0 pe_start in
          ret (if matched =? 2 then 0 else 1, pe_start)
      end
  end.

(** The variables of the loop of [lvm_parse_volume_range]. *)
Record lvm_state : Type := MkLvm {
  lv_matched : Z;
  lv_nLine : Z;
  lv_nLine_PE : Z;
  lv_szFrom : bytes;
  lv_szTo : bytes;
  lv_pe_size : Z;
}.

(** [Some (start, end)] when the volume was found. *)
Fixpoint pvdisplay_lines (lines : list bytes) (volume : bytes) (st : lvm_state) :
    prog W (lvm_state * option (Z * Z)) :=
  match lines with
  | [] => ret (st, None)
  | buffer :: lines =>
      let nLine := lv_nLine st + 1 in
      let token := trimch (chop_nl buffer) 32 in
      let pe_line := strncmp_eq token (bs "PE Size ") 8 in
      let pe_size := if pe_line then u64 (strtoll (trimch (drop 8 token) 32))
                     else lv_pe_size st in
      let matched := if pe_line then lv_matched st + 1 else lv_matched st in
      let! '(token, nLine_PE, szFrom, szTo) :=
        (if strncmp_eq token (bs "Physical extent ") 16 then
           let token := trimch (drop 16 token) 32 in
           let! r := lift (sscanf2 64 (bs " to ") token) in
           match r with
           | (Some from, Some to) => ret (token, nLine, from, to)
           | (Some from, None) => ret (token, lv_nLine_PE st, from, lv_szTo st)
           | (None, _) => ret (token, lv_nLine_PE st, lv_szFrom st, lv_szTo st)
           end
         else ret (token, lv_nLine_PE st, lv_szFrom st, lv_szTo st)) in
      let st := MkLvm matched nLine nLine_PE szFrom szTo pe_size in
      if (nLine =? nLine_PE + 1) && strncmp_eq token (bs "Logical volume" ++ [9]) 15 then
        let! szPath := realpath (trimch (drop 15 token) 32) in
        match szPath with
        | Some path =>
            let! path := lift (sprintf 256 path) in
            if strcmp_eq path volume then
              ret (MkLvm (matched + 1) nLine nLine_PE szFrom szTo pe_size,
                   Some (u64 (strtoll szFrom), u64 (strtoll szTo)))
            else pvdisplay_lines lines volume st
        | None => pvdisplay_lines lines volume st
        end
      else pvdisplay_lines lines volume st
  end.

(** The result and [*pe_start], [*pe_end], [*pe_size]. *)
Definition lvm_parse_volume_range (dev volume : bytes) (pe : Z * Z * Z) :
    prog W (Z * (Z * Z * Z)) :=
  let '(pe_start, pe_end, pe_size) := pe in
  let! cmd_app := find_command (bs "pvdisplay") 255 in
  match cmd_app with
  | None => ret (2, pe)
  | Some cmd_app =>
      let! buffer := lift (sprintf 512 (cmd_app ++ bs " -m --units s " ++ dev)) in
      let! fp := popen buffer in
      match fp with
      | None => ret (2, pe)
      | Some (out, _) =>
          let! '(st, range) := pvdisplay_lines (fgets_all 512 out) volume
                                 (MkLvm 0 0 (-1) [] [] pe_size) in
          let '(pe_start, pe_end) :=
            match range with Some r => r | None => (pe_start, pe_end) end in
          ret (if lv_matched st =? 2 then 0 else 1, (pe_start, pe_end, lv_pe_size st))
      end
  end.

(** ** Partitions: the attributes of sysfs *)
Definition read_1st (path : bytes) (bufsize : Z) : prog W (Z * bytes) :=
  let! fp := fopen_r path in
  match fp with
  | None => ret (2, [])
  | Some text => ret (0, match fgets bufsize text with Some (l, _) => c_str l | None => [] end)
  end.

(** The result, [*sector_start] and [*sector_end]; "/dev/" is cut off both names. *)
Definition ext_parse_volume_range (dev volume : bytes) (range : Z * Z) :
    prog W (Z * (Z * Z)) :=
  let '(sector_start, sector_end) := range in
  let dev_basename := drop 5 dev in
  let volume_basename := drop 5 volume in
  let! buffer := lift (sprintf 1024 (bs "/sys/block/" ++ dev_basename ++ bs "/" ++
                                     volume_basename ++ bs "/start")) in
  let! '(_, tmpbuf) := read_1st buffer 128 in
  if bool_decide (tmpbuf = []) then ret (1, range) else
  let sector_start := u64 (strtoll tmpbuf) in
  let! buffer := lift (sprintf 1024 (bs "/sys/block/" ++ dev_basename ++ bs "/" ++
                                     volume_basename ++ bs "/size")) in
  let! '(_, tmpbuf) := read_1st buffer 128 in
  if bool_decide (tmpbuf = []) then ret (1, (sector_start, sector_end)) else
  let tmpn := u64 (strtoll tmpbuf) in
  ret (0, (sector_start, u64 (sector_start + tmpn - 1))).

(** ** XFS: xfs_bmap *)
Fixpoint bmap_lines (lines : list bytes) (pblocks : V) (pcount : Z) : outcome (V * Z) :=
  match lines with
  | [] => Ret (pblocks, pcount)
  | buffer :: lines =>
      match strstr buffer (bs "]:") with
      | None => bmap_lines lines pblocks pcount
      | Some token =>
          let token := trimch (drop 2 token) 32 in
          let? r := sscanf2 64 (bs "..") token in
          match r with
          | (Some start, Some end_) =>
              let? pblocks := vec_push pblocks (-1) in
              let? '(pblocks, pcount) :=
                push_range (strtoull start) (strtoull end_) pblocks pcount in
              bmap_lines lines pblocks pcount
          | _ => bmap_lines lines pblocks pcount
          end
      end
  end.

Definition xfs_get_path_extents (path : bytes) (pblocks : V) : prog W (Z * (V * Z)) :=
  let! cmd_app := find_command (bs "xfs_bmap") 255 in
  match cmd_app with
  | None => ret (2, (pblocks, 0))
  | Some cmd_app =>
      let command := snprintf 255 (cmd_app ++ [32; 34] ++ path ++ [34]) in
      let! fp := popen command in
      match fp with
      | None => ret (2, (pblocks, 0))
      | Some (out, status) =>
          let! '(pblocks, pcount) := lift (bmap_lines (fgets_all 1024 out) pblocks 0) in
          ret (if WIFEXITED status then WEXITSTATUS status else 1, (pblocks, pcount))
      end
  end.

(** ** ext: debugfs *)
Definition skip_spaces (s : bytes) : bytes := drop_while (Z.eqb 32) s.

(** The do-while over the tokens of the block list; the last value is [matched]. *)
Fixpoint debugfs_tokens (tokens : list bytes) (pblocks : V) (pcount matched : Z) :
    outcome (V * Z * Z) :=
  match tokens with
  | [] => Ret (pblocks, pcount, matched)
  | token :: tokens =>
      let token := skip_spaces token in
      if strncmp_eq token (bs "(ETB") 4 then debugfs_tokens tokens pblocks pcount matched else
      match strstr token (bs ":") with
      | None => Ret (pblocks, pcount, -1)
      | Some token =>
          let token := skip_spaces (drop 1 token) in
          let? r := sscanf2 64 (bs "-") token in
          match r with
          | (Some start, None) =>
              let? pblocks := vec_push pblocks (strtoull start) in
              debugfs_tokens tokens pblocks (size_t (pcount + 1)) matched
          | (Some start, Some end_) =>
              let? '(pblocks, pcount) :=
                push_range (strtoull start) (strtoull end_) pblocks pcount in
              debugfs_tokens tokens pblocks pcount matched
          | (None, _) => debugfs_tokens tokens pblocks pcount (-1)
          end
      end
  end.

(** The loop over the lines: the array, the count, [matched] at the end. *)
Fixpoint debugfs_lines (lines : list bytes) (pblocks : V) (pcount matched : Z) :
    outcome (V * Z * Z) :=
  match lines with
  | [] => Ret (pblocks, pcount, matched)
  | buffer :: lines =>
      let buffer := chop_nl buffer in
      if matched =? 1 then
        match strtok_all (bs ",") buffer with
        | [] => Ret (pblocks, pcount, matched)
        | tokens =>
            let? pblocks := vec_push pblocks (-1) in
            let? '(pblocks, pcount, matched) := debugfs_tokens tokens pblocks pcount matched in
            Ret (pblocks, pcount, matched + 1)
        end
      else if (matched =? 0) &&
              (strncmp_eq buffer (bs "BLOCKS:") 7 || strncmp_eq buffer (bs "EXTENTS:") 8)
      then debugfs_lines lines pblocks pcount (matched + 1)
      else debugfs_lines lines pblocks pcount matched
  end.

Definition ext_get_inode_datablocks (dev : bytes) (ino : Z) (pblocks : V) :
    prog W (Z * (V * Z)) :=
  let! cmd_app := find_command (bs "debugfs") 255 in
  match cmd_app with
  | None => ret (2, (pblocks, 0))
  | Some cmd_app =>
      let! pipefd := pipe in
      match pipefd with
      | None => ret (5, (pblocks, 0))
      | Some (fd0, fd1) =>
          let command := snprintf 255 (cmd_app ++ bs " " ++ dev ++ bs " -R 'stat <" ++ udec ino
                                       ++ bs ">' 2>&" ++ dec fd1) in
          let! fp := popen command in
          match fp with
          | None => do! close fd0 in do! close fd1 in ret (2, (pblocks, 0))
          | Some (out, _) =>
              let lines := fgets_all 2048 out in
              let! '(pblocks, pcount, matched) := lift (debugfs_lines lines pblocks 0 0) in
              do! (if bool_decide (lines = []) then
                     let! err := read fd0 2047 in eprint (c_str err)
                   else ret tt) in
              do! close fd0 in
              do! close fd1 in
              ret (if matched =? 2 then 0 else 1, (pblocks, pcount))
          end
      end
  end.

(** [get_blocks] is the ext_get_inode_datablocks of the build. *)
Definition ext_get_path_datablocks (get_blocks : bytes → Z → V → prog W (Z * (V * Z)))
    (dev path : bytes) (pblocks : V) (pcount : Z) : prog W (Z * (V * Z)) :=
  let! fs := do_stat path in
  match fs with
  | None => ret (-1, (pblocks, pcount))
  | Some fs => get_blocks dev (st_ino fs) pblocks
  end.

End Defs.

(** ** Pushing a range *)
Section Facts.
  Context `{Machine} {V : Type} `{VecOps V} `{!VecLaws V}.
  Hypothesis Hmem : ∀ n, mem_ok n = true.

Lemma range_loop_S k istart iend (pblocks : V) pcount :
  istart ≤ iend →
  range_loop (S k) istart iend pblocks pcount =
  obind (vec_push pblocks istart) (fun pblocks =>
    range_loop k (u64 (istart + 1)) iend pblocks (size_t (pcount + 1))).
Proof. intros. cbn [range_loop]. by rewrite (proj2 (Z.leb_le istart iend)) by done. Qed.

Lemma range_loop_spec k istart iend (pblocks : V) pcount l :
  0 ≤ istart → iend < 2 ^ 64 - 1 → Z.of_nat k = iend + 1 - istart →
  vec_rep pblocks l → zlen l + Z.of_nat k < 2 ^ 28 → 0 ≤ pcount ≤ zlen l →
  ∃ pblocks', range_loop (S k) istart iend pblocks pcount
              = Ret (pblocks', pcount + Z.of_nat k) ∧
    vec_rep pblocks' (l ++ seqZ istart (Z.of_nat k)).
Proof.
  revert istart pblocks pcount l.
  induction k as [|k IH]; intros istart pblocks pcount l Hs He Hk Hr Hroom Hc.
  - exists pblocks. cbn [range_loop]. rewrite (proj2 (Z.leb_gt _ _)) by lia.
    rewrite Z.add_0_r, app_nil_r. done.
  - destruct (vec_rep_push pblocks l istart Hmem Hr ltac:(lia)) as (pb1 & Hpush & Hr1).
    rewrite u64_small in Hr1 by lia.
    destruct (IH (istart + 1) pb1 (pcount + 1) (l ++ [istart])) as (pb2 & Hrun & Hr2);
      [lia|lia|lia|done|rewrite length_app; simpl; lia|rewrite length_app; simpl; lia|].
    exists pb2. rewrite range_loop_S, Hpush by lia. cbn [obind]. rewrite u64_small, size_t_small by lia.
    split; [rewrite Hrun; f_equal; f_equal; lia|].
    rewrite seqZ_cons by lia. rewrite <- app_assoc in Hr2.
    replace (Z.pred (Z.of_nat (S k))) with (Z.of_nat k) by lia.
    by replace (Z.succ istart) with (istart + 1) by lia.
Qed.

Lemma push_range_spec istart iend (pblocks : V) pcount l :
  0 ≤ istart ≤ iend + 1 → iend < 2 ^ 64 - 1 →
  vec_rep pblocks l → zlen l + (iend + 1 - istart) < 2 ^ 28 → 0 ≤ pcount ≤ zlen l →
  ∃ pblocks', push_range istart iend pblocks pcount
              = Ret (pblocks', pcount + (iend + 1 - istart)) ∧
    vec_rep pblocks' (l ++ seqZ istart (iend + 1 - istart)).
Proof.
  intros Hs He Hr Hroom Hc. unfold push_range.
  destruct (range_loop_spec (Z.to_nat (iend + 1 - istart)) istart iend pblocks pcount l)
    as (pb & Hrun & Hr'); [lia|lia|lia|done|lia|done|].
  rewrite Z2Nat.id in Hrun, Hr' by lia. eauto.
Qed.

(** The loop never ends on a range up to the largest 64-bit number. *)
Lemma range_loop_wraps fuel istart (pblocks : V) pcount l :
  0 ≤ istart < 2 ^ 64 → vec_rep pblocks l → zlen l + Z.of_nat fuel < 2 ^ 28 →
  range_loop fuel istart (2 ^ 64 - 1) pblocks pcount = Spin.
Proof.
  revert istart pblocks pcount l.
  induction fuel as [|fuel IH]; intros istart pblocks pcount l Hs Hr Hroom; [done|].
  rewrite range_loop_S by lia.
  destruct (vec_rep_push pblocks l istart Hmem Hr ltac:(lia)) as (pb1 & -> & Hr1).
  cbn [obind]. eapply IH; [apply u64_bound|done|rewrite length_app; simpl; lia].
Qed.

(** ** The tokens of a debugfs block list

    [token_blocks t bl]: the text [t] is read as the blocks [bl]. *)
Inductive token_blocks : bytes → list Z → Prop :=
  | tok_etb lbl b :
      free_of [44; 58; 10; 0] lbl → 0 ≤ b →
      token_blocks (bs "(ETB" ++ lbl ++ bs "):" ++ udec b) []
  | tok_one lbl b :
      free_of [44; 58; 10; 0] lbl → head lbl ≠ Some 69 → 0 ≤ b < 2 ^ 63 →
      token_blocks (bs "(" ++ lbl ++ bs "):" ++ udec b) [b]
  | tok_range lbl b e :
      free_of [44; 58; 10; 0] lbl → head lbl ≠ Some 69 → 0 ≤ b ≤ e → e < 2 ^ 63 →
      token_blocks (bs "(" ++ lbl ++ bs "):" ++ udec b ++ bs "-" ++ udec e)
                   (seqZ b (e + 1 - b)).

Lemma udec_free_of cs v :
  0 ≤ v → Forall (fun c => isdigit c = false) cs → free_of cs (udec v).
Proof. intros Hv Hcs. apply digits_free_of; [by apply udec_spec|done]. Qed.

Lemma free_of_app cs a b : free_of cs a → free_of cs b → free_of cs (a ++ b).
Proof. intros. by apply Forall_app. Qed.

Lemma free_of_weaken cs cs' s : (∀ c, c ∈ cs' → c ∈ cs) → free_of cs s → free_of cs' s.
Proof. intros Hsub Hs. eapply Forall_impl; [exact Hs|]. intros c Hc Hin. by apply Hc, Hsub. Qed.

Lemma token_plain t bl : token_blocks t bl → free_of [44; 10; 0] t ∧ ∃ t', t = 40 :: t'.
Proof.
  intros Ht.
  assert (Hlbl : ∀ lbl, free_of [44; 58; 10; 0] lbl → free_of [44; 10; 0] lbl)
    by (intros lbl; apply free_of_weaken; set_solver).
  assert (Hlit : ∀ s, bool_decide (free_of [44; 10; 0] s) = true → free_of [44; 10; 0] s)
    by (intros s; apply bool_decide_eq_true).
  assert (Hnum : ∀ v, 0 ≤ v → free_of [44; 10; 0] (udec v)).
  { intros v Hv. apply udec_free_of; [done|]. repeat constructor. }
  split; [|destruct Ht; by eexists].
  destruct Ht; repeat apply free_of_app; auto; try (apply Hlit; vm_compute; reflexivity);
    apply Hnum; lia.
Qed.

Lemma not_etb lbl r :
  head lbl ≠ Some 69 → strncmp_eq (bs "(" ++ lbl ++ bs "):" ++ r) (bs "(ETB") 4 = false.
Proof.
  intros Hh. apply bool_decide_eq_false. destruct lbl as [|c lbl]; [done|].
  simpl. intros [= -> _]. done.
Qed.

Lemma strstr_colon lbl r :
  free_of [44; 58; 10; 0] lbl → strstr (bs "(" ++ lbl ++ bs "):" ++ r) (bs ":") = Some (58 :: r).
Proof.
  intros Hl. change (bs ":") with ([58] ++ []).
  replace (bs "(" ++ lbl ++ bs "):" ++ r) with ((40 :: lbl ++ [41]) ++ 58 :: [] ++ r)
    by (simpl; by rewrite <- app_assoc).
  apply strstr_skip. constructor; [set_solver|]. apply free_of_app.
  - eapply free_of_weaken; [|exact Hl]. set_solver.
  - constructor; [set_solver|constructor].
Qed.

Lemma skip_spaces_replicate k c r : c ≠ 32 → skip_spaces (replicate k 32 ++ c :: r) = c :: r.
Proof.
  intros Hc. unfold skip_spaces, drop_while. rewrite span_all; [done| |by apply Z.eqb_neq].
  by apply Forall_replicate.
Qed.

Lemma skip_spaces_udec v r : 0 ≤ v → skip_spaces (udec v ++ r) = udec v ++ r.
Proof.
  intros Hv. destruct (udec_head v Hv) as (c & d & -> & Hd%isdigit_spec).
  apply (skip_spaces_replicate 0). lia.
Qed.

(** What the loop does with one token. *)
Lemma debugfs_token_step k t bl ts (pblocks : V) pcount l :
  token_blocks t bl → vec_rep pblocks l → zlen l + zlen bl < 2 ^ 28 → 0 ≤ pcount ≤ zlen l →
  ∃ pblocks', debugfs_tokens ((replicate k 32 ++ t) :: ts) pblocks pcount 1 =
              debugfs_tokens ts pblocks' (pcount + zlen bl) 1 ∧
    vec_rep pblocks' (l ++ bl).
Proof.
  intros Ht Hr Hroom Hc. cbn [debugfs_tokens].
  destruct (token_plain _ _ Ht) as [_ [t' Ht']].
  assert (Hskip : skip_spaces (replicate k 32 ++ t) = t)
    by (rewrite Ht'; by apply skip_spaces_replicate).
  rewrite Hskip. clear Hskip Ht' t'.
  destruct Ht as [lbl b Hl Hb|lbl b Hl Hh Hb|lbl b e Hl Hh Hbe He].
  - exists pblocks. simpl. by rewrite Z.add_0_r, app_nil_r.
  - rewrite not_etb, strstr_colon by done.
    change (drop 1 (58 :: udec b)) with (udec b).
    rewrite <- (app_nil_r (udec b)), skip_spaces_udec by lia.
    rewrite sscanf2_one by done. cbn [obind]. rewrite strtoull_udec_nil by lia.
    destruct (vec_rep_push pblocks l b Hmem Hr) as (pb & Hpush & Hr'); [simpl in *; lia|].
    rewrite u64_small in Hr' by lia. exists pb. rewrite Hpush. cbn [obind].
    rewrite size_t_small by (simpl in *; lia). done.
  - rewrite not_etb, strstr_colon by done.
    change (drop 1 (58 :: ?r)) with r. rewrite skip_spaces_udec by lia.
    rewrite <- (app_nil_r (udec e)).
    rewrite length_seqZ, Z2Nat.id in * by lia.
    rewrite sscanf2_two by (done || lia || reflexivity). cbn [obind].
    rewrite !strtoull_udec_nil by lia.
    destruct (push_range_spec b e pblocks pcount l) as (pb & Hrun & Hr');
      [lia|lia|done|lia|done|]. exists pb. by rewrite Hrun.
Qed.

(** The loop over the tokens, each of them after some spaces. *)
Lemma debugfs_tokens_spec ts bls (pblocks : V) pcount l :
  Forall2 (fun t bl => ∃ k t', t = replicate k 32 ++ t' ∧ token_blocks t' bl) ts bls →
  vec_rep pblocks l → zlen l + zlen (concat bls) < 2 ^ 28 → 0 ≤ pcount ≤ zlen l →
  ∃ pblocks', debugfs_tokens ts pblocks pcount 1
              = Ret (pblocks', pcount + zlen (concat bls), 1) ∧
    vec_rep pblocks' (l ++ concat bls).
Proof.
  intros Hts. revert pblocks pcount l.
  induction Hts as [|t bl ts bls (k & t' & -> & Ht) _ IH]; intros pblocks pcount l Hr Hroom Hc.
  { exists pblocks. simpl. rewrite Z.add_0_r, app_nil_r. done. }
  cbn [concat] in *. rewrite length_app in *.
  destruct (debugfs_token_step k t' bl ts pblocks pcount l Ht Hr) as (pb1 & -> & Hr1);
    [lia|done|].
  destruct (IH pb1 (pcount + zlen bl) (l ++ bl)) as (pb & -> & Hr');
    [done|rewrite length_app; lia..|].
  exists pb. rewrite <- app_assoc in Hr'. split; [|done]. do 3 f_equal. lia.
Qed.

(** A block list: the tokens separated by a comma and a space. *)
Definition comma_join (ts : list bytes) : bytes :=
  match ts with
  | [] => []
  | t :: ts => t ++ concat ((fun t => bs ", " ++ t) <$> ts)
  end.

Lemma strtok_comma_join t ts :
  Forall (fun t => t ≠ [] ∧ free_of [44] t) (t :: ts) →
  strtok_all (bs ",") (comma_join (t :: ts)) = t :: ((fun t => 32 :: t) <$> ts).
Proof.
  intros Hts. unfold comma_join.
  replace ((fun t => bs ", " ++ t) <$> ts) with (cons 44 <$> (cons 32 <$> ts)).
  2:{ rewrite <- list_fmap_compose. done. }
  apply strtok_all_join. apply Forall_cons in Hts as [Ht Hts]. constructor; [done|].
  apply Forall_fmap. eapply Forall_impl; [exact Hts|]. intros t' [_ Ht']. split; [done|].
  constructor; [set_solver|done].
Qed.

(** The lines debugfs prints before the block list: none of them announces it. *)
Definition plain_line (l : bytes) : Prop :=
  line_wf 2048 l ∧ strncmp_eq l (bs "BLOCKS:") 7 = false ∧ strncmp_eq l (bs "EXTENTS:") 8 = false.

Lemma debugfs_header_lines pre lines (pblocks : V) pcount :
  Forall plain_line pre →
  debugfs_lines (((fun l => l ++ [10]) <$> pre) ++ lines) pblocks pcount 0 =
  debugfs_lines lines pblocks pcount 0.
Proof.
  induction 1 as [|l pre (Hl & Hb & He) _ IH]; [done|]. rewrite fmap_cons. simpl app.
  cbn [debugfs_lines]. rewrite chop_nl_line by (by eapply line_wf_free).
  rewrite Hb, He. exact IH.
Qed.

(** The whole output: any lines, one of the two titles, the list, any text. *)
Lemma debugfs_output_spec pre title ts bls post (pblocks : V) l :
  Forall plain_line pre → title = bs "BLOCKS:" ∨ title = bs "EXTENTS:" →
  Forall2 token_blocks ts bls → ts ≠ [] → zlen (comma_join ts) + 1 < 2048 →
  Forall (line_wf 2048) post →
  vec_rep pblocks l → zlen l + 1 + zlen (concat bls) < 2 ^ 28 →
  ∃ pblocks', debugfs_lines (fgets_all 2048 (unlines (pre ++ title :: comma_join ts :: post)))
                pblocks 0 0 = Ret (pblocks', zlen (concat bls), 2) ∧
    vec_rep pblocks' (l ++ (2 ^ 64 - 1) :: concat bls).
Proof.
  intros Hpre Htitle Hts Hne Hlen Hpost Hr Hroom.
  assert (Hplain : Forall (fun t => t ≠ [] ∧ free_of [44; 10; 0] t) ts).
  { clear -Hts Hmem. induction Hts as [|t bl ts bls Ht _ IH]; constructor; [|done].
    destruct (token_plain _ _ Ht) as [? [t' ->]]. done. }
  destruct ts as [|t ts]; [done|].
  assert (Hjoin : free_of [10; 0] (comma_join (t :: ts))).
  { apply Forall_cons in Hplain as [[_ Ht] Hplain]. apply free_of_app.
    - eapply free_of_weaken; [|exact Ht]. set_solver.
    - unfold free_of. apply Forall_concat, Forall_fmap. eapply Forall_impl; [exact Hplain|].
      intros t' [_ Ht']. simpl. repeat (apply Forall_cons; split; [set_solver|]).
      eapply free_of_weaken; [|exact Ht']. set_solver. }
  assert (Htw : line_wf 2048 title)
    by (destruct Htitle as [->| ->]; apply (bool_decide_eq_true_1 _); vm_compute; reflexivity).
  rewrite fgets_all_lines; cycle 1.
  { apply Forall_app. split; [|apply Forall_cons; split; [done|]; apply Forall_cons; split; [|done]; by split].
    eapply Forall_impl; [exact Hpre|]. by intros ? []. }
  rewrite fmap_app, debugfs_header_lines by done. rewrite !fmap_cons.
  cbn [debugfs_lines]. rewrite chop_nl_line by (by eapply line_wf_free).
  replace (strncmp_eq title (bs "BLOCKS:") 7 || strncmp_eq title (bs "EXTENTS:") 8) with true
    by (by destruct Htitle as [->| ->]).
  cbn [Z.eqb andb Z.add Pos.eqb]. rewrite chop_nl_line; cycle 1.
  { eapply free_of_weaken; [|exact Hjoin]. set_solver. }
  rewrite strtok_comma_join; cycle 1.
  { eapply Forall_impl; [exact Hplain|]. intros t' [? Ht']. split; [done|].
    eapply free_of_weaken; [|exact Ht']. set_solver. }
  destruct (vec_rep_push pblocks l (-1) Hmem Hr) as (pb & Hpush & Hr1); [lia|].
  rewrite Hpush. cbn [obind].
  destruct (debugfs_tokens_spec (t :: ((fun t => 32 :: t) <$> ts)) bls pb 0 (l ++ [u64 (-1)]))
    as (pb' & Hrun & Hr'); [|done|rewrite length_app; simpl; lia|rewrite length_app; simpl; lia|].
  - inversion Hts as [|? bl ? bls' Ht Hts']; subst. constructor; [by exists 0%nat, t|].
    apply Forall2_fmap_l. eapply Forall2_impl; [exact Hts'|]. intros t' bl' Ht'.
    by exists 1%nat, t'.
  - exists pb'. change (0 + 1) with 1. rewrite Hrun. cbn [obind]. split; [done|]. by rewrite <- app_assoc in Hr'.
Qed.

(** ** The lines of xfs_bmap

    [bmap_line l e]: the line shows the extent [e], in units of 512 bytes, or none:
    a hole, or the name of the file. *)
Inductive bmap_line : bytes → option (Z * Z) → Prop :=
  | bmap_extent pre k a b :
      free_of [93; 10; 0] pre → 0 ≤ a ≤ b → b < 2 ^ 63 →
      bmap_line (pre ++ bs "]:" ++ replicate k 32 ++ udec a ++ bs ".." ++ udec b) (Some (a, b))
  | bmap_hole pre k :
      free_of [93; 10; 0] pre → bmap_line (pre ++ bs "]:" ++ replicate k 32 ++ bs "hole") None
  | bmap_title pre : free_of [93; 10; 0] pre → bmap_line pre None.

Definition bmap_blocks (e : option (Z * Z)) : list Z :=
  match e with Some (a, b) => (2 ^ 64 - 1) :: seqZ a (b + 1 - a) | None => [] end.
Definition bmap_count (e : option (Z * Z)) : Z :=
  match e with Some (a, b) => b + 1 - a | None => 0 end.

Lemma bmap_line_free l e : bmap_line l e → free_of [10; 0] l.
Proof.
  assert (Hw : ∀ pre, free_of [93; 10; 0] pre → free_of [10; 0] pre)
    by (intros pre; apply free_of_weaken; set_solver).
  assert (Hd : ∀ n, 0 ≤ n → free_of [10; 0] (udec n))
    by (intros n ?; apply udec_free_of; [done|by repeat constructor]).
  assert (Hr : ∀ k, free_of [10; 0] (replicate k 32))
    by (intros k; apply Forall_replicate; set_solver).
  assert (Hlit : ∀ s, bool_decide (free_of [10; 0] s) = true → free_of [10; 0] s)
    by (intros ?; apply bool_decide_eq_true).
  intros []; repeat apply free_of_app; auto; first [apply Hd; lia|by apply Hlit].
Qed.

(** [trimch] cuts the spaces before a text that has none at its ends. *)
Lemma trimch_spaces k t :
  is_cstr t → head t ≠ Some 32 → last t ≠ Some 32 → t ≠ [] →
  trimch (replicate k 32 ++ t) 32 = t.
Proof.
  intros Ht Hh Hl Hne.
  pose proof (trimch_decomposed 32 ltac:(lia) k 0 t) as H32. simpl in H32.
  rewrite app_nil_r in H32. apply H32.
  - apply Forall_app. split; [by apply Forall_replicate|done].
  - destruct t; [done|]. simpl in Hh. congruence.
  - destruct (last t) eqn:E; [congruence|done].
Qed.

Lemma udec_cstr v : 0 ≤ v → is_cstr (udec v).
Proof.
  intros Hv. eapply Forall_impl; [by apply udec_spec|]. intros c Hc%isdigit_spec. simpl. lia.
Qed.

(** One line of the output. *)
Lemma bmap_line_step line e lines (pblocks : V) pcount l :
  bmap_line line e → vec_rep pblocks l → zlen l + 1 + Z.max 0 (bmap_count e) < 2 ^ 28 →
  0 ≤ pcount ≤ zlen l →
  ∃ pblocks', bmap_lines ((line ++ [10]) :: lines) pblocks pcount =
              bmap_lines lines pblocks' (pcount + bmap_count e) ∧
    vec_rep pblocks' (l ++ bmap_blocks e).
Proof.
  intros Hline Hr Hroom Hc. cbn [bmap_lines].
  assert (Hfind : ∀ pre r, free_of [93; 10; 0] pre →
            strstr (pre ++ bs "]:" ++ r) (bs "]:") = Some (bs "]:" ++ r)).
  { intros pre r Hpre. apply (strstr_skip 93 [58] pre r).
    eapply free_of_weaken; [|exact Hpre]. set_solver. }
  destruct Hline as [pre k a b Hpre Hab Hb|pre k Hpre|pre Hpre]; cbn [bmap_count bmap_blocks] in *.
  - rewrite <- !app_assoc, Hfind by done. change (drop 2 (bs "]:" ++ ?r)) with r.
    rewrite trimch_spaces; cycle 1.
    { repeat apply Forall_app_2; try (apply udec_cstr; lia);
        apply (bool_decide_eq_true_1 _); vm_compute; reflexivity. }
    { destruct (udec_head a ltac:(lia)) as (c & d & -> & Hd%isdigit_spec). simpl.
      intros [= ->]. lia. }
    { rewrite !app_assoc, last_snoc. done. }
    { destruct (udec_head a ltac:(lia)) as (c & d & -> & _). done. }
    rewrite sscanf2_two by (done || lia || reflexivity). cbn [obind].
    destruct (vec_rep_push pblocks l (-1) Hmem Hr) as (pb & Hpush & Hr1); [lia|].
    rewrite Hpush. cbn [obind]. rewrite !strtoull_udec_nil by lia.
    destruct (push_range_spec a b pb pcount (l ++ [u64 (-1)])) as (pb' & Hrun & Hr');
      [lia|lia|done|rewrite length_app; simpl; lia|rewrite length_app; simpl; lia|].
    exists pb'. rewrite Hrun. cbn [obind]. rewrite <- app_assoc in Hr'. done.
  - rewrite <- !app_assoc, Hfind by done. change (drop 2 (bs "]:" ++ ?r)) with r.
    rewrite trimch_spaces; [|apply (bool_decide_eq_true_1 _); vm_compute; reflexivity|done..].
    exists pblocks. by rewrite Z.add_0_r, app_nil_r.
  - assert (Hnone : strstr (pre ++ [10]) (bs "]:") = None).
    { clear -Hpre. induction Hpre as [|c pre Hc _ IH]; [done|]. simpl app. unfold strstr.
      fold strstr. unfold starts_with. simpl. rewrite bool_decide_false; [exact IH|].
      intros [= -> _]. set_solver. }
    rewrite Hnone. exists pblocks. by rewrite Z.add_0_r, app_nil_r.
Qed.

Definition bmap_total (es : list (option (Z * Z))) : Z := foldr Z.add 0 (bmap_count <$> es).

Lemma bmap_count_length line e :
  bmap_line line e →
  zlen (bmap_blocks e) = match e with Some _ => 1 | None => 0 end + bmap_count e ∧
  0 ≤ bmap_count e.
Proof.
  intros []; simpl; [|done..]. rewrite length_seqZ. lia.
Qed.

Lemma bmap_lines_spec lines es (pblocks : V) pcount l :
  Forall2 bmap_line lines es → vec_rep pblocks l →
  zlen l + zlen (concat (bmap_blocks <$> es)) + 1 < 2 ^ 28 → 0 ≤ pcount ≤ zlen l →
  ∃ pblocks', bmap_lines ((fun l => l ++ [10]) <$> lines) pblocks pcount =
              Ret (pblocks', pcount + bmap_total es) ∧
    vec_rep pblocks' (l ++ concat (bmap_blocks <$> es)).
Proof.
  intros Hlines. revert pblocks pcount l.
  induction Hlines as [|line e lines es Hline _ IH]; intros pblocks pcount l Hr Hroom Hc.
  { exists pblocks. unfold bmap_total. simpl. by rewrite Z.add_0_r, app_nil_r. }
  rewrite !fmap_cons in *. cbn [concat] in *. rewrite length_app in Hroom.
  destruct (bmap_count_length _ _ Hline) as [Hlen Hpos].
  destruct (bmap_line_step line e ((fun l => l ++ [10]) <$> lines) pblocks pcount l Hline Hr)
    as (pb1 & -> & Hr1); [destruct e; lia|done|].
  destruct (IH pb1 (pcount + bmap_count e) (l ++ bmap_blocks e)) as (pb & -> & Hr');
    [done|rewrite length_app; destruct e; lia..|].
  exists pb. rewrite <- app_assoc in Hr'. split; [|done]. do 2 f_equal.
  unfold bmap_total. rewrite fmap_cons. simpl. lia.
Qed.

End Facts.

(** ** Whole commands *)
Section Commands.
  Context `{Machine} {W V : Type} `{OS W} `{VecOps V} `{!VecLaws V}.

(** xfs_get_path_extents reads the map of an XFS file back: when xfs_bmap is on
    the path and prints a line per extent or hole, each within the reader's buffer,
    the result is its exit status, every extent appends the marker -1 and its units
    of 512 bytes in order, holes append nothing, and the count is the number of
    units. *)
Theorem xfs_bmap_roundtrip (path cmd_app : bytes) (lines : list bytes)
    (es : list (option (Z * Z))) (status : Z) (pblocks : V) (l : list Z)
    (s s1 : state W) (w' : W) :
  (∀ n, mem_ok n = true) →
  find_command (bs "xfs_bmap") 255 s = Ret (Some cmd_app, s1) →
  sys_popen (snprintf 255 (cmd_app ++ [32; 34] ++ path ++ [34])) (st_os s1)
    = (Some (unlines lines, status), w') →
  WIFEXITED status = true →
  Forall2 bmap_line lines es → Forall (fun line => zlen line < 1023) lines →
  vec_rep pblocks l → zlen l + zlen (concat (bmap_blocks <$> es)) + 1 < 2 ^ 28 →
  ∃ pblocks',
    xfs_get_path_extents path pblocks s =
      Ret ((WEXITSTATUS status, (pblocks', bmap_total es)),
           MkState (st_heap s1) w' (st_log s1)) ∧
    vec_rep pblocks' (l ++ concat (bmap_blocks <$> es)).
Proof.
  intros Hmem Hcmd Hpopen Hst Hlines Hlen Hr Hroom.
  destruct (bmap_lines_spec Hmem lines es pblocks 0 l Hlines Hr Hroom) as (pb & Hrun & Hr');
    [lia|].
  exists pb. split; [|done]. unfold xfs_get_path_extents.
  rewrite (bind_eq _ _ _ _ _ Hcmd). unfold popen, sys, bind at 1. rewrite Hpopen. cbn [obind].
  rewrite fgets_all_lines; cycle 1.
  { clear -Hlines Hlen Hmem. induction Hlines as [|line e lines es Hline _ IH]; [constructor|].
    apply Forall_cons in Hlen as [Hl Hlen]. constructor; [|by apply IH].
    split; [by eapply (bmap_line_free Hmem)|lia]. }
  unfold bind, lift. rewrite Hrun. cbn [obind]. by rewrite Hst.
Qed.

End Commands.

(** ** A sample file *)
#[local] Existing Instances x86_64 Impl.Vector_ops Impl.Vector_laws.

Definition bmap_sample_os : sample :=
  MkSample [(bs "PATH", bs "/bin")] [] [] [(bs "/sbin/xfs_bmap", [])] []
    [(bs "/sbin/xfs_bmap " ++ [34] ++ bs "/srv" ++ [34],
      (unlines [bs "/srv:"; 9 :: bs "0: [0..7]: 96..103"; 9 :: bs "1: [8..15]: hole"], 0))] [] [].
Definition bmap_sample_state : state sample := MkState (MkHeap ∅ 4096) bmap_sample_os [].

Lemma xfs_bmap_roundtrip_witness :
  ∃ pblocks',
    xfs_get_path_extents (bs "/srv") (vec_init : Impl.Vector) bmap_sample_state =
      Ret ((0, (pblocks', 8)), bmap_sample_state) ∧
    vec_rep pblocks' ([] ++ (2 ^ 64 - 1) :: seqZ 96 8).
Proof.
  apply (xfs_bmap_roundtrip (bs "/srv") (bs "/sbin/xfs_bmap")
           [bs "/srv:"; 9 :: bs "0: [0..7]: 96..103"; 9 :: bs "1: [8..15]: hole"]
           [None; Some (96, 103); None] 0 (vec_init : Impl.Vector) []
           bmap_sample_state bmap_sample_state bmap_sample_os).
  - done.
  - vm_compute. reflexivity.
  - vm_compute. reflexivity.
  - done.
  - constructor; [|constructor; [|constructor; [|constructor]]].
    + apply bmap_title. apply (bool_decide_eq_true_1 _). vm_compute. reflexivity.
    + apply (bmap_extent (9 :: bs "0: [0..7") 1 96 103); [|lia..].
      apply (bool_decide_eq_true_1 _). vm_compute. reflexivity.
    + apply (bmap_hole (9 :: bs "1: [8..15") 1).
      apply (bool_decide_eq_true_1 _). vm_compute. reflexivity.
  - repeat constructor.
  - apply Impl.rep_init.
  - vm_compute. reflexivity.
Defined.
