(* ===== verification/Ext2Fs.v ===== *)
(** * libext2fs as the block iterator and the listings see it

    Constants of ext2fs.h, inodes and extents, and the interface of the lower layers
    of the library: inodes, blocks of block numbers and the cursor over the tree of
    extents.  Every call may fail, with an error code other than 0. *)
From S2P Require Export Prog.
#[local] Open Scope Z_scope.

(** ** Extents *)
Record ext2fs_extent : Type := MkExtent {
  e_pblk : Z;
  e_lblk : Z;
  e_len : Z;
  e_flags : Z;
}.

Definition EXT2_EXTENT_FLAGS_LEAF : Z := 1.
Definition EXT2_EXTENT_FLAGS_UNINIT : Z := 2.
Definition EXT2_EXTENT_FLAGS_SECOND_VISIT : Z := 4.

Definition EXT2_EXTENT_CURRENT : Z := 0.
Definition EXT2_EXTENT_ROOT : Z := 1.
Definition EXT2_EXTENT_NEXT : Z := 9.
Definition EXT2_EXTENT_SET_BMAP_UNINIT : Z := 1.

(** ** Block iteration *)
Definition BLOCK_CHANGED : Z := 1.
Definition BLOCK_ABORT : Z := 2.
Definition BLOCK_ERROR : Z := 4.

Definition BLOCK_FLAG_APPEND : Z := 1.
Definition BLOCK_FLAG_DEPTH_TRAVERSE : Z := 2.
Definition BLOCK_FLAG_DATA_ONLY : Z := 4.
Definition BLOCK_FLAG_READ_ONLY : Z := 8.
Definition BLOCK_FLAG_NO_LARGE : Z := 4096.

Definition BLOCK_COUNT_IND : Z := -1.
Definition BLOCK_COUNT_DIND : Z := -2.
Definition BLOCK_COUNT_TIND : Z := -3.
Definition BLOCK_COUNT_TRANSLATOR : Z := -4.

(** ** Inodes *)
Record ext2_inode : Type := MkInode {
  i_mode : Z;
  i_flags : Z;
  i_size : Z;
  i_size_high : Z;
  (** 15 words *)
  i_block : list Z;
  h_i_translator : Z;
}.

Definition LINUX_S_ISDIR (mode : Z) : bool := Z.land mode 0xf000 =? 0x4000.
Definition LINUX_S_ISREG (mode : Z) : bool := Z.land mode 0xf000 =? 0x8000.
Definition EXT4_EXTENTS_FL : Z := 524288.
Definition EXT4_INLINE_DATA_FL : Z := 268435456.
Definition EXT2_NDIR_BLOCKS : Z := 12.
Definition EXT2_IND_BLOCK : Z := 12.
Definition EXT2_DIND_BLOCK : Z := 13.
Definition EXT2_TIND_BLOCK : Z := 14.

(** ** Error codes *)
Definition EXT2_ET_NO_MEMORY : Z := 2133571398.
Definition EXT2_ET_MAGIC_EXT2FS_FILSYS : Z := 2133571329.
Definition EXT2_ET_BAD_IND_BLOCK : Z := 2133571381.
Definition EXT2_ET_BAD_DIND_BLOCK : Z := 2133571382.
Definition EXT2_ET_BAD_TIND_BLOCK : Z := 2133571383.
Definition EXT2_ET_RO_BLOCK_ITERATE : Z := 2133571435.
Definition EXT2_ET_BAD_INODE_NUM : Z := 2133571369.
Definition EXT2_ET_FILE_TOO_BIG : Z := 2133571410.
Definition EXT2_ET_EXTENT_NO_NEXT : Z := 2133571452.
Definition EXT2_ET_INLINE_DATA_CANT_ITERATE : Z := 2133571485.

Class Ext2Fs (W H : Type) : Type := {
  (** of the open file system and its superblock *)
  fs_magic_ok : bool;
  fs_blocksize : Z;
  fs_blocks_count : Z;
  fs_first_data_block : Z;
  fs_hurd : bool;
  sys_ext2fs_open : bytes → W → Z * W;
  sys_ext2fs_close : W → unit * W;
  sys_read_inode : Z → W → (Z * ext2_inode) * W;
  sys_write_inode : Z → ext2_inode → W → Z * W;
  (** a block of block numbers, in host order *)
  sys_read_ind : Z → W → (Z * list Z) * W;
  sys_write_ind : Z → list Z → W → Z * W;
  (** the cursor: open, move and read, whether its position can be told, replace,
      map a logical block *)
  sys_extent_open : Z → W → (Z * H) * W;
  sys_extent_get : H → Z → W → (Z * ext2fs_extent * H) * W;
  sys_extent_get_info : H → W → (Z * Z) * W;
  sys_extent_replace : H → ext2fs_extent → W → (Z * H) * W;
  sys_extent_set_bmap : H → Z → Z → Z → W → (Z * H) * W;
}.

(** ** A small file system for the examples

    Blocks of two numbers, and an error code for every kind of call.  A cursor is a
    position in the list of the extents of the one file that has some. *)
Record sample_fs : Type := MkFs {
  sf_open : Z;
  sf_inodes : list (Z * ext2_inode);
  sf_maps : list (Z * list Z);
  sf_extents : list ext2fs_extent;
}.

Fixpoint zassoc {A} (key : Z) (l : list (Z * A)) : option A :=
  match l with
  | [] => None
  | (k, v) :: l => if k =? key then Some v else zassoc key l
  end.

Definition sample_map (w : sample_fs) (b : Z) : list Z := default [0; 0] (zassoc b (sf_maps w)).

#[export] Instance sample_ext2fs : Ext2Fs sample_fs Z := {
  fs_magic_ok := true;
  fs_blocksize := 8;
  fs_blocks_count := 1000;
  fs_first_data_block := 0;
  fs_hurd := false;
  sys_ext2fs_open _ w := (sf_open w, w);
  sys_ext2fs_close w := (tt, w);
  sys_read_inode ino w :=
    (match zassoc ino (sf_inodes w) with
     | Some i => (0, i) | None => (EXT2_ET_BAD_INODE_NUM, MkInode 0 0 0 0 [] 0) end, w);
  sys_write_inode ino i w :=
    (0, MkFs (sf_open w) ((ino, i) :: sf_inodes w) (sf_maps w) (sf_extents w));
  sys_read_ind b w := ((0, sample_map w b), w);
  sys_write_ind b l w := (0, MkFs (sf_open w) (sf_inodes w) ((b, l) :: sf_maps w) (sf_extents w));
  sys_extent_open _ w := ((0, -1), w);
  sys_extent_get h op w :=
    let h := if op =? EXT2_EXTENT_ROOT then 0 else h + 1 in
    (match sf_extents w !! Z.to_nat h with
     | Some e => (0, e, h)
     | None => (EXT2_ET_EXTENT_NO_NEXT, MkExtent 0 0 0 0, h)
     end, w);
  sys_extent_get_info h w := ((0, 0), w);
  sys_extent_replace h e w := ((0, h), w);
  sys_extent_set_bmap h _ _ _ w := ((0, h), w);
}.
