(* ===== verification/U32List.v ===== *)
(** * Sorted lists of numbers: e2fsprogs/lib/ext2fs/badblocks.c

    A list is an array that grows by 100 entries, of which the first [bb_num] are in use and
    sorted; numbers are found by binary search.  It refines a finite set. *)
From Stdlib Require Export Sorted.
From S2P Require Export Ext2Fs.
#[local] Open Scope Z_scope.

Definition EXT2_ET_MAGIC_BADBLOCKS_LIST : Z := 2133571330.
Definition EXT2_ET_MAGIC_BADBLOCKS_ITERATE : Z := 2133571331.
Definition sizeof_u32 : Z := 4.

(** [struct ext2_struct_u32_list]; an entry realloc has added has no value yet. *)
Record ext2_u32_list : Type := MkU32List {
  bb_magic : Z;
  bb_num : Z;
  bb_size : Z;
  bb_list : list (option Z);
  badblocks_flags : Z;
}.
(** [struct ext2_struct_u32_iterate], without the pointer to the list. *)
Record ext2_u32_iterate : Type := MkU32Iterate { iter_magic : Z; iter_ptr : Z }.

Definition entry (l : list (option Z)) (i : Z) : outcome Z :=
  if i <? 0 then Undef else match l !! Z.to_nat i with Some (Some v) => Ret v | _ => Undef end.
Definition store (l : list (option Z)) (i v : Z) : outcome (list (option Z)) :=
  if (0 <=? i) && (i <? zlen l) then Ret (<[Z.to_nat i := Some v]> l) else Undef.

Section U32List.
  Context `{Machine}.
Definition sizeof_u32_list : Z := if long64 then 32 else 20.
Definition sizeof_u32_iterate : Z := if long64 then 24 else 12.

(** [list] holds at least [size] entries. *)
Definition make_u32_list (size num : Z) (list : option (list (option Z))) : outcome (Z * option ext2_u32_list) :=
  if negb (mem_ok sizeof_u32_list) then Ret (EXT2_ET_NO_MEMORY, None) else
  let bsize := if size =? 0 then 10 else size in
  let count := size_t bsize in
  if (negb (count =? 0) && ((size_t_mod - 1) / count <? sizeof_u32)) || negb (mem_ok (count * sizeof_u32))
  then Ret (EXT2_ET_NO_MEMORY, None) else
  let? cells := match list with
                | Some l => if zlen l <? count then Undef else Ret (take (Z.to_nat count) l)
                | None => Ret (replicate (Z.to_nat count) (Some 0))
                end in
  Ret (0, Some (MkU32List EXT2_ET_MAGIC_BADBLOCKS_LIST num bsize cells 0)).

Definition ext2fs_u32_list_create (size : Z) : outcome (Z * option ext2_u32_list) := make_u32_list size 0 None.

Definition ext2fs_u32_copy (src : ext2_u32_list) : outcome (Z * option ext2_u32_list) :=
  let? '(retval, dest) := make_u32_list (bb_size src) (bb_num src) (Some (bb_list src)) in
  Ret (retval, (fun d => MkU32List (bb_magic d) (bb_num d) (bb_size d) (bb_list d) (badblocks_flags src)) <$> dest).

(** Room for one more number: 100 more entries when the array is full. *)
Definition make_room (bb : ext2_u32_list) : outcome (Z * ext2_u32_list) :=
  if bb_num bb <? bb_size bb then Ret (0, bb) else
  let size := bb_size bb + 100 in
  if INT_MAX <? size then Undef else
  if negb (mem_ok (size_t (size_t size * sizeof_u32))) then Ret (EXT2_ET_NO_MEMORY, bb) else
  Ret (0, MkU32List (bb_magic bb) (bb_num bb) size (bb_list bb ++ replicate 100 None) (badblocks_flags bb)).

(** [for (i=0; i < bb->num; i++)]: where the number goes, [None] when it is there. *)
Fixpoint add_scan (n : nat) (i : Z) (blk : Z) (l : list (option Z)) : outcome (option Z) :=
  match n with
  | O => Ret (Some i)
  | S n =>
      let? v := entry l i in
      if v =? blk then Ret None else if blk <? v then Ret (Some i) else add_scan n (i + 1) blk l
  end.
(** [for (i=bb->num; i > j; i--)] *)
Fixpoint shift_up (n : nat) (i : Z) (l : list (option Z)) : outcome (list (option Z)) :=
  match n with
  | O => Ret l
  | S n => let? v := entry l (i - 1) in let? l := store l i v in shift_up n (i - 1) l
  end.

Definition set_list (bb : ext2_u32_list) (num : Z) (l : list (option Z)) : ext2_u32_list :=
  MkU32List (bb_magic bb) num (bb_size bb) l (badblocks_flags bb).

Definition ext2fs_u32_list_add (bb : ext2_u32_list) (blk : Z) : outcome (Z * ext2_u32_list) :=
  if negb (bb_magic bb =? EXT2_ET_MAGIC_BADBLOCKS_LIST) then Ret (EXT2_ET_MAGIC_BADBLOCKS_LIST, bb) else
  let? '(retval, bb) := make_room bb in
  if negb (retval =? 0) then Ret (retval, bb) else
  let num := bb_num bb in
  let append := let? l := store (bb_list bb) num blk in Ret (0, set_list bb (num + 1) l) in
  if num =? 0 then append else
  let? last := entry (bb_list bb) (num - 1) in
  if last =? blk then Ret (0, bb)
  else if last <? blk then append else
  let? r := add_scan (Z.to_nat num) 0 blk (bb_list bb) in
  match r with
  | None => Ret (0, bb)
  | Some j =>
      let? l := shift_up (Z.to_nat (num - j)) num (bb_list bb) in
      let? l := store l j blk in
      Ret (0, set_list bb (num + 1) l)
  end.

(** [while (low < high)] *)
Fixpoint find_loop (fuel : nat) (blk low high : Z) (l : list (option Z)) : outcome Z :=
  match fuel with
  | O => Spin
  | S fuel =>
      if high <=? low then Ret (-1) else
      let mid := u32 (low + high) / 2 in
      if (mid =? low) || (mid =? high) then Ret (-1) else
      let? v := entry l mid in
      if blk =? v then Ret mid
      else if blk <? v then find_loop fuel blk low mid l else find_loop fuel blk mid high l
  end.
Definition ext2fs_u32_list_find (bb : ext2_u32_list) (blk : Z) : outcome Z :=
  if negb (bb_magic bb =? EXT2_ET_MAGIC_BADBLOCKS_LIST) then Ret (-1)
  else if bb_num bb =? 0 then Ret (-1) else
  let? low := entry (bb_list bb) 0 in
  let high := bb_num bb - 1 in
  if blk =? low then Ret 0 else
  let? top := entry (bb_list bb) high in
  if blk =? top then Ret high
  else find_loop (Z.to_nat (bb_num bb)) blk 0 high (bb_list bb).

Definition ext2fs_u32_list_test (bb : ext2_u32_list) (blk : Z) : outcome Z :=
  let? i := ext2fs_u32_list_find bb blk in Ret (if i <? 0 then 0 else 1).

(** [for (i = remloc ; i < bb->num-1; i++)] *)
Fixpoint shift_down (n : nat) (i : Z) (l : list (option Z)) : outcome (list (option Z)) :=
  match n with
  | O => Ret l
  | S n => let? v := entry l (i + 1) in let? l := store l i v in shift_down n (i + 1) l
  end.
Definition ext2fs_u32_list_del (bb : ext2_u32_list) (blk : Z) : outcome (Z * ext2_u32_list) :=
  if bb_num bb =? 0 then Ret (-1, bb) else
  let? remloc := ext2fs_u32_list_find bb blk in
  if remloc <? 0 then Ret (-1, bb) else
  let? l := shift_down (Z.to_nat (bb_num bb - 1 - remloc)) remloc (bb_list bb) in
  Ret (0, set_list bb (bb_num bb - 1) l).

Definition ext2fs_u32_list_iterate_begin (bb : ext2_u32_list) : outcome (Z * option ext2_u32_iterate) :=
  if negb (bb_magic bb =? EXT2_ET_MAGIC_BADBLOCKS_LIST) then Ret (EXT2_ET_MAGIC_BADBLOCKS_LIST, None)
  else if negb (mem_ok sizeof_u32_iterate) then Ret (EXT2_ET_NO_MEMORY, None)
  else Ret (0, Some (MkU32Iterate EXT2_ET_MAGIC_BADBLOCKS_ITERATE 0)).
(** The answer, the number stored at [blk], the iterator. *)
Definition ext2fs_u32_list_iterate (iter : ext2_u32_iterate) (bb : ext2_u32_list) :
    outcome (Z * option Z * ext2_u32_iterate) :=
  if negb (iter_magic iter =? EXT2_ET_MAGIC_BADBLOCKS_ITERATE) then Ret (0, None, iter)
  else if negb (bb_magic bb =? EXT2_ET_MAGIC_BADBLOCKS_LIST) then Ret (0, None, iter)
  else if iter_ptr iter <? bb_num bb then
    let? v := entry (bb_list bb) (iter_ptr iter) in
    Ret (1, Some v, MkU32Iterate (iter_magic iter) (iter_ptr iter + 1))
  else Ret (0, Some 0, iter).

(** [memcmp] of the first [n] numbers *)
Fixpoint same_entries (n : nat) (i : Z) (l1 l2 : list (option Z)) : outcome bool :=
  match n with
  | O => Ret true
  | S n =>
      let? a := entry l1 i in let? b := entry l2 i in
      if a =? b then same_entries n (i + 1) l1 l2 else Ret false
  end.
Definition ext2fs_u32_list_equal (bb1 bb2 : ext2_u32_list) : outcome Z :=
  if negb (bb_magic bb1 =? EXT2_ET_MAGIC_BADBLOCKS_LIST) || negb (bb_magic bb2 =? EXT2_ET_MAGIC_BADBLOCKS_LIST)
  then Ret EXT2_ET_MAGIC_BADBLOCKS_LIST
  else if negb (bb_num bb1 =? bb_num bb2) then Ret 0 else
  let? same := same_entries (Z.to_nat (bb_num bb1)) 0 (bb_list bb1) (bb_list bb2) in
  Ret (if same then 1 else 0).
Definition ext2fs_u32_list_count (bb : ext2_u32_list) : Z := bb_num bb.
End U32List.

(** ** Sorted arrays *)
Lemma sorted_lookup_lt (vals : list Z) i j a b : StronglySorted Z.lt vals →
  vals !! i = Some a → vals !! j = Some b → (i < j)%nat → a < b.
Proof.
  intros Hs. revert i j. induction Hs as [|x vals Hs IH Hx]; intros i j Ha Hb Hij; [done|].
  destruct i as [|i], j as [|j]; simpl in *; [lia| |lia|].
  - injection Ha as ->. rewrite Forall_lookup in Hx. by apply (Hx j).
  - by apply (IH i j); [..|lia].
Qed.
Lemma sorted_lookup_inv (vals : list Z) i j a b : StronglySorted Z.lt vals →
  vals !! i = Some a → vals !! j = Some b → a < b → (i < j)%nat.
Proof.
  intros Hs Ha Hb Hab. destruct (lt_eq_lt_dec i j) as [[?| ->]|?]; [done| |].
  - rewrite Ha in Hb. injection Hb. lia.
  - pose proof (sorted_lookup_lt vals j i b a Hs Hb Ha). lia.
Qed.
Lemma sorted_app (pre post : list Z) : StronglySorted Z.lt pre → StronglySorted Z.lt post →
  (∀ a b, a ∈ pre → b ∈ post → a < b) → StronglySorted Z.lt (pre ++ post).
Proof.
  induction 1 as [|x pre Hs IH Hx]; intros Hpost Hab; [done|]. simpl. constructor.
  - apply IH; [done|]. intros a b ??. apply Hab; [by right|done].
  - apply Forall_app. split; [done|]. apply Forall_forall. intros b Hb. apply Hab; [by left|done].
Qed.
Lemma sorted_app_inv (pre post : list Z) : StronglySorted Z.lt (pre ++ post) →
  StronglySorted Z.lt pre ∧ StronglySorted Z.lt post ∧ (∀ a b, a ∈ pre → b ∈ post → a < b).
Proof.
  induction pre as [|x pre IH]; simpl; intros Hs.
  { split_and!; [constructor|done|]. intros a b Ha. by apply elem_of_nil in Ha. }
  inversion Hs as [|?? Hs' Hx]; subst. destruct (IH Hs') as (H1 & H2 & H3).
  apply Forall_app in Hx as [Hx1 Hx2]. split_and!; [by constructor|done|].
  intros a b [->|Ha]%elem_of_cons Hb; [|by apply H3]. rewrite Forall_forall in Hx2. by apply Hx2.
Qed.

(** The numbers of an array and what follows them. *)
Lemma entry_at (vals : list Z) rest i v : 0 ≤ i → vals !! Z.to_nat i = Some v →
  entry ((Some <$> vals) ++ rest) i = Ret v.
Proof.
  intros Hi Hv. unfold entry. destruct (Z.ltb_spec i 0); [lia|].
  rewrite lookup_app_l by (rewrite length_fmap; by eapply lookup_lt_Some). by rewrite list_lookup_fmap, Hv.
Qed.
Lemma entry_mid (a b : list (option Z)) v i : i = zlen a → entry (a ++ Some v :: b) i = Ret v.
Proof.
  intros ->. unfold entry. destruct (Z.ltb_spec (zlen a) 0); [lia|].
  by rewrite Nat2Z.id, lookup_app_r, Nat.sub_diag by lia.
Qed.
Lemma store_mid (a b : list (option Z)) c v i : i = zlen a → store (a ++ c :: b) i v = Ret (a ++ Some v :: b).
Proof.
  intros ->. unfold store. rewrite length_app. cbn [length].
  rewrite (proj2 (Z.leb_le 0 (zlen a))), (proj2 (Z.ltb_lt _ _)) by lia. simpl andb. cbn iota.
  rewrite Nat2Z.id, insert_app_r_alt, Nat.sub_diag by lia. done.
Qed.

Lemma add_scan_spec blk post : ∀ pre rest, StronglySorted Z.lt (pre ++ post) → (∀ a, a ∈ pre → a < blk) →
  ∃ r, add_scan (length post) (zlen pre) blk ((Some <$> (pre ++ post)) ++ rest) = Ret r ∧
    match r with
    | None => blk ∈ post
    | Some j => ∃ pre' post', pre ++ post = pre' ++ post' ∧ j = zlen pre' ∧
                  (∀ a, a ∈ pre' → a < blk) ∧ (∀ a, a ∈ post' → blk < a)
    end.
Proof.
  induction post as [|v post IH]; intros pre rest Hs Hpre.
  { eexists. split; [done|]. exists pre, []. split_and!; [done|done|done|]. intros a Ha. by apply elem_of_nil in Ha. }
  cbn [length add_scan]. rewrite (entry_at _ _ _ v); [|lia|rewrite Nat2Z.id; by apply list_lookup_middle]. cbn [obind].
  destruct (Z.eqb_spec v blk) as [->|Hne]; [eexists; split; [done|by left]|].
  destruct (Z.ltb_spec blk v) as [Hlt|Hge].
  - eexists. split; [done|]. exists pre, (v :: post). split_and!; [done|done|done|].
    apply sorted_app_inv in Hs as (_ & Hs & _). inversion Hs as [|?? _ Hv]; subst.
    intros a [->|Ha]%elem_of_cons; [done|]. rewrite Forall_forall in Hv. specialize (Hv a Ha). lia.
  - replace (pre ++ v :: post) with ((pre ++ [v]) ++ post) in * by (by rewrite <- app_assoc).
    replace (zlen pre + 1) with (zlen (pre ++ [v])) by (rewrite length_app; simpl; lia).
    destruct (IH (pre ++ [v]) rest Hs) as (r & -> & Hr).
    { intros a [Ha|Ha%list_elem_of_singleton]%elem_of_app; [by apply Hpre|lia]. }
    exists r. split; [done|]. destruct r as [j|]; [done|by right].
Qed.

Lemma shift_up_spec (b : list Z) : ∀ a c r, ∃ c',
  shift_up (length b) (zlen a + zlen b) (a ++ (Some <$> b) ++ c :: r) = Ret (a ++ c' :: (Some <$> b) ++ r).
Proof.
  induction b as [|v b IH] using rev_ind; intros a c r; [by exists c|].
  rewrite length_app. cbn [length]. rewrite Nat.add_1_r. cbn [shift_up]. rewrite fmap_app. cbn [fmap list_fmap].
  replace (a ++ ((Some <$> b) ++ [Some v]) ++ c :: r) with ((a ++ (Some <$> b)) ++ Some v :: c :: r)
    by (by rewrite <- !app_assoc).
  rewrite entry_mid by (rewrite length_app, length_fmap; lia). cbn [obind].
  replace ((a ++ (Some <$> b)) ++ Some v :: c :: r) with (((a ++ (Some <$> b)) ++ [Some v]) ++ c :: r)
    by (by rewrite <- !app_assoc).
  rewrite store_mid by (rewrite !length_app, length_fmap; simpl; lia). cbn [obind].
  destruct (IH a (Some v) (Some v :: r)) as [c' Hc'].
  replace (((a ++ (Some <$> b)) ++ [Some v]) ++ Some v :: r) with (a ++ (Some <$> b) ++ Some v :: Some v :: r)
    by (by rewrite <- !app_assoc).
  replace (zlen a + Z.of_nat (S (length b)) - 1) with (zlen a + zlen b) by lia.
  rewrite Hc'. exists c'. by rewrite <- !app_assoc.
Qed.
Lemma shift_down_spec (b : list Z) : ∀ a c r, ∃ c',
  shift_down (length b) (zlen a) (a ++ c :: (Some <$> b) ++ r) = Ret (a ++ (Some <$> b) ++ c' :: r).
Proof.
  induction b as [|v b IH]; intros a c r; [by exists c|].
  cbn [length shift_down fmap list_fmap].
  replace (a ++ c :: (Some v :: (Some <$> b)) ++ r) with ((a ++ [c]) ++ Some v :: (Some <$> b) ++ r)
    by (by rewrite <- !app_assoc).
  rewrite entry_mid by (rewrite length_app; simpl; lia). cbn [obind]. rewrite <- app_assoc. cbn [app].
  rewrite store_mid by done. cbn [obind].
  destruct (IH (a ++ [Some v]) (Some v) r) as [c' Hc'].
  rewrite length_app in Hc'. cbn [length] in Hc'.
  replace (zlen a + 1) with (Z.of_nat (length a + 1)) by lia.
  rewrite <- !app_assoc in Hc'. cbn [app] in Hc'. exists c'. exact Hc'.
Qed.

(** ** The invariant *)
Record list_rep (bb : ext2_u32_list) (vals : list Z) : Prop := {
  lr_magic : bb_magic bb = EXT2_ET_MAGIC_BADBLOCKS_LIST;
  lr_num : bb_num bb = zlen vals;
  lr_cells : ∃ rest, bb_list bb = (Some <$> vals) ++ rest;
  lr_size : zlen (bb_list bb) = bb_size bb;
  lr_small : bb_size bb < 2 ^ 29;
  lr_sorted : StronglySorted Z.lt vals;
}.

Section Specs.
  Context `{Machine}.

Lemma rep_room bb vals rest : list_rep bb vals → bb_list bb = (Some <$> vals) ++ rest →
  zlen vals + zlen rest = bb_size bb.
Proof. intros Hr E. rewrite <- (lr_size _ _ Hr), E, length_app, length_fmap. lia. Qed.

(** Binary search: the number is strictly between the bounds, if anywhere. *)
Lemma find_loop_spec vals rest blk : StronglySorted Z.lt vals → zlen vals < 2 ^ 29 →
  ∀ fuel low high, 0 ≤ low → low <= high < zlen vals → (Z.to_nat (high - low) < fuel)%nat →
  (∀ k, vals !! k = Some blk → low < Z.of_nat k < high) →
  ∃ i, find_loop fuel blk low high ((Some <$> vals) ++ rest) = Ret i ∧
    ((0 ≤ i ∧ vals !! Z.to_nat i = Some blk) ∨ (i = -1 ∧ blk ∉ vals)).
Proof.
  intros Hs Hlen. induction fuel as [|fuel IH]; intros low high Hl Hh Hf Hk; [lia|]. cbn [find_loop].
  assert (Hno : high <= low + 1 → blk ∉ vals).
  { intros Hle [k Hin]%list_elem_of_lookup. specialize (Hk k Hin). lia. }
  destruct (Z.leb_spec high low); [exists (-1); split; [done|right; split; [done|apply Hno; lia]]|].
  unfold u32. rewrite Z.mod_small by lia.
  pose proof (Z.div_mod (low + high) 2 ltac:(lia)) as Hd. pose proof (Z.mod_pos_bound (low + high) 2 ltac:(lia)) as Hm.
  set (mid := (low + high) / 2) in *.
  destruct (Z.eqb_spec mid low); cbn [orb]; [exists (-1); split; [done|right; split; [done|apply Hno; lia]]|].
  destruct (Z.eqb_spec mid high); [exists (-1); split; [done|right; split; [done|apply Hno; lia]]|].
  destruct (lookup_lt_is_Some_2 vals (Z.to_nat mid)) as [v Hv]; [lia|].
  rewrite (entry_at _ _ _ v) by (done || lia). cbn [obind].
  destruct (Z.eqb_spec blk v) as [->|Hne]; [exists mid; split; [done|left; split; [lia|done]]|].
  destruct (Z.ltb_spec blk v); (apply IH; [lia|lia|lia|]); intros k Hin; specialize (Hk k Hin).
  - pose proof (sorted_lookup_inv _ _ _ _ _ Hs Hin Hv). lia.
  - pose proof (sorted_lookup_inv _ _ _ _ _ Hs Hv Hin ltac:(lia)). lia.
Qed.

Lemma find_spec bb vals blk : list_rep bb vals →
  ∃ i, ext2fs_u32_list_find bb blk = Ret i ∧
    ((0 ≤ i ∧ vals !! Z.to_nat i = Some blk) ∨ (i = -1 ∧ blk ∉ vals)).
Proof.
  intros Hr. destruct (lr_cells _ _ Hr) as [rest Hrest]. pose proof (rep_room _ _ _ Hr Hrest).
  pose proof (lr_small _ _ Hr). pose proof (lr_sorted _ _ Hr) as Hs.
  unfold ext2fs_u32_list_find. rewrite (lr_magic _ _ Hr), Z.eqb_refl, Hrest, (lr_num _ _ Hr). cbn [negb].
  destruct (Z.eqb_spec (zlen vals) 0) as [E|Hne].
  { exists (-1). split; [done|right]. destruct vals; [|done]. split; [done|]. by intros ?%elem_of_nil. }
  destruct (lookup_lt_is_Some_2 vals 0%nat) as [v0 Hv0]; [lia|].
  destruct (lookup_lt_is_Some_2 vals (Z.to_nat (zlen vals - 1))) as [v1 Hv1]; [lia|].
  rewrite (entry_at _ _ 0 v0), (entry_at _ _ (zlen vals - 1) v1) by (done || lia). cbn [obind].
  destruct (Z.eqb_spec blk v0) as [->|Hn0]; [exists 0; split; [done|by left]|].
  destruct (Z.eqb_spec blk v1) as [->|Hn1]; [exists (zlen vals - 1); split; [done|left; split; [lia|done]]|].
  apply find_loop_spec; [done|lia..|]. intros k Hk. pose proof (lookup_lt_Some _ _ _ Hk).
  assert (k ≠ 0%nat) by (intros ->; congruence).
  assert (k ≠ Z.to_nat (zlen vals - 1)) by (intros ->; congruence). lia.
Qed.

Lemma test_spec bb vals blk : list_rep bb vals →
  ext2fs_u32_list_test bb blk = Ret (if bool_decide (blk ∈ vals) then 1 else 0).
Proof.
  intros Hr. unfold ext2fs_u32_list_test. destruct (find_spec bb vals blk Hr) as (i & -> & Hi). cbn [obind].
  destruct Hi as [[Hi Hin]|[-> Hin]].
  - rewrite bool_decide_true by by eapply list_elem_of_lookup_2. by destruct (Z.ltb_spec i 0); [lia|].
  - by rewrite bool_decide_false.
Qed.

(** Memory that keeps every array below 2^29 entries. *)
Context (Hmem : ∀ n, mem_ok n = true → n < 2 ^ 31).

Lemma make_room_spec bb vals : list_rep bb vals → ∃ e bb', make_room bb = Ret (e, bb') ∧ list_rep bb' vals ∧
  (e = 0 ∧ bb_num bb' < bb_size bb' ∨ e = EXT2_ET_NO_MEMORY ∧ bb' = bb ∧ ∃ n, mem_ok n = false).
Proof.
  intros Hr. destruct (lr_cells _ _ Hr) as [rest Hrest]. pose proof (rep_room _ _ _ Hr Hrest).
  pose proof (lr_small _ _ Hr). pose proof (lr_num _ _ Hr). pose proof (lr_size _ _ Hr). unfold make_room.
  destruct (Z.ltb_spec (bb_num bb) (bb_size bb)); [exists 0, bb; split_and!; [done..|by left]|].
  unfold INT_MAX. destruct (Z.ltb_spec (2 ^ 31 - 1) (bb_size bb + 100)); [lia|].
  destruct (mem_ok _) eqn:Hm; cbn [negb]; [|eexists _, _; split_and!; [done..|right; eauto]].
  pose proof (Hmem _ Hm) as Hm'.
  assert (E : size_t (size_t (bb_size bb + 100) * sizeof_u32) = (bb_size bb + 100) * 4).
  { unfold size_t, size_t_mod, sizeof_u32. destruct long64; rewrite (Z.mod_small (bb_size bb + 100)), Z.mod_small; lia. }
  rewrite E in Hm'. eexists _, _. split; [done|]. split; [|left; split; [done|simpl; lia]].
  split; simpl.
  - apply Hr.
  - apply Hr.
  - exists (rest ++ replicate 100 None). by rewrite Hrest, app_assoc.
  - rewrite length_app. cbn [length]. pose proof (lr_size _ _ Hr). lia.
  - lia.
  - apply Hr.
Qed.

Lemma set_list_rep bb vals num l vals' rest : list_rep bb vals → l = (Some <$> vals') ++ rest →
  zlen l = bb_size bb → num = zlen vals' → StronglySorted Z.lt vals' → list_rep (set_list bb num l) vals'.
Proof. intros Hr -> Hl -> Hs. split; simpl; try done; [apply Hr|by eexists|apply Hr]. Qed.

(** A number that goes between the smaller and the greater ones. *)
Lemma sorted_insert pre post blk : StronglySorted Z.lt (pre ++ post) → (∀ a, a ∈ pre → a < blk) →
  (∀ a, a ∈ post → blk < a) → StronglySorted Z.lt (pre ++ blk :: post).
Proof.
  intros (H1 & H2 & H3)%sorted_app_inv Hpre Hpost. apply sorted_app; [done| |].
  - constructor; [done|]. by apply Forall_forall.
  - intros a b Ha [->|Hb]%elem_of_cons; [by apply Hpre|by apply H3].
Qed.

Lemma add_spec bb vals blk : list_rep bb vals → ∃ e bb' vals', ext2fs_u32_list_add bb blk = Ret (e, bb') ∧
  list_rep bb' vals' ∧
  (e = 0 ∧ (∀ x, x ∈ vals' ↔ x = blk ∨ x ∈ vals) ∨ e = EXT2_ET_NO_MEMORY ∧ vals' = vals ∧ ∃ n, mem_ok n = false).
Proof.
  intros Hr0. unfold ext2fs_u32_list_add. rewrite (lr_magic _ _ Hr0), Z.eqb_refl. cbn [negb].
  destruct (make_room_spec bb vals Hr0) as (e & bb1 & -> & Hr & [[-> Hroom]|(-> & -> & Hn)]); cbn [obind];
    [|eexists _, _, vals; split_and!; [done..|by right]].
  change (negb (0 =? 0)) with false. cbv iota. clear bb Hr0. rename bb1 into bb.
  destruct (lr_cells _ _ Hr) as [rest Hrest]. pose proof (rep_room _ _ _ Hr Hrest) as Hlen.
  pose proof (lr_num _ _ Hr) as Hnum. pose proof (lr_sorted _ _ Hr) as Hs.
  destruct rest as [|c rest]; [simpl in Hlen; lia|]. rewrite Hnum.
  assert (Happend : (∀ a, a ∈ vals → a < blk) → ∃ e bb' vals',
    (let? l := store (bb_list bb) (zlen vals) blk in Ret (0, set_list bb (zlen vals + 1) l)) = Ret (e, bb') ∧
    list_rep bb' vals' ∧
    (e = 0 ∧ (∀ x, x ∈ vals' ↔ x = blk ∨ x ∈ vals) ∨ e = EXT2_ET_NO_MEMORY ∧ vals' = vals ∧ ∃ n, mem_ok n = false)).
  { intros Hlt. rewrite Hrest, store_mid by (by rewrite length_fmap). cbn [obind].
    eexists _, _, (vals ++ [blk]). split; [done|]. split.
    - apply (set_list_rep bb vals _ _ _ rest); [done|by rewrite fmap_app, <- app_assoc| |rewrite length_app; simpl; lia|].
      + rewrite length_app, length_fmap. cbn [length] in *. lia.
      + apply (sorted_insert vals [] blk); [by rewrite app_nil_r|done|]. intros a Ha. by apply elem_of_nil in Ha.
    - left. split; [done|]. intros x. rewrite elem_of_app, list_elem_of_singleton. tauto. }
  destruct (Z.eqb_spec (zlen vals) 0) as [E|Hne].
  { apply Happend. destruct vals; [|done]. intros a Ha. by apply elem_of_nil in Ha. }
  destruct (lookup_lt_is_Some_2 vals (Z.to_nat (zlen vals - 1))) as [last Hlast]; [lia|].
  rewrite Hrest, (entry_at _ _ _ last) by (done || lia). cbn [obind].
  destruct (Z.eqb_spec last blk) as [->|Hnb].
  { eexists _, _, vals. split_and!; [done..|]. left. split; [done|]. intros x. split; [tauto|].
    intros [->|?]; [by eapply list_elem_of_lookup_2|done]. }
  destruct (Z.ltb_spec last blk) as [Hlt|Hge].
  { rewrite Hrest in Happend. apply Happend. intros a [k Hk]%list_elem_of_lookup.
    destruct (decide (k = Z.to_nat (zlen vals - 1))) as [->|Hk1]; [congruence|].
    pose proof (lookup_lt_Some _ _ _ Hk). pose proof (sorted_lookup_lt _ _ _ _ _ Hs Hk Hlast ltac:(lia)). lia. }
  destruct (add_scan_spec blk vals [] (c :: rest) Hs) as (r & Hscan & Hr').
  { intros a Ha. by apply elem_of_nil in Ha. }
  change (zlen ([] : list Z)) with 0 in Hscan. cbn [app] in Hscan, Hr'. rewrite Nat2Z.id, Hscan. cbn [obind].
  destruct r as [j|]; cycle 1.
  { eexists _, _, vals. split_and!; [done..|]. left. split; [done|]. intros x. split; [tauto|].
    by intros [->|?]. }
  destruct Hr' as (pre & post & -> & -> & Hpre & Hpost). rewrite length_app, Nat2Z.inj_add.
  replace (Z.to_nat (zlen pre + zlen post - zlen pre)) with (length post) by lia.
  destruct (shift_up_spec post (Some <$> pre) c rest) as [c' Hc']. rewrite length_fmap in Hc'.
  rewrite fmap_app, <- app_assoc, Hc'. cbn [obind]. rewrite store_mid by (by rewrite length_fmap). cbn [obind].
  eexists _, _, (pre ++ blk :: post). split; [done|]. split.
  - apply (set_list_rep bb (pre ++ post) _ _ _ rest); [done| | |rewrite length_app; simpl; lia|by apply sorted_insert].
    + by rewrite fmap_app, fmap_cons, <- app_assoc.
    + rewrite length_app in Hlen. rewrite !length_app, length_fmap. cbn [length] in *. rewrite length_app, length_fmap. lia.
  - left. split; [done|]. intros x. rewrite !elem_of_app, elem_of_cons. tauto.
Qed.

Lemma del_spec bb vals blk : list_rep bb vals → ∃ bb' vals',
  ext2fs_u32_list_del bb blk = Ret (if bool_decide (blk ∈ vals) then 0 else -1, bb') ∧
  list_rep bb' vals' ∧ (∀ x, x ∈ vals' ↔ x ≠ blk ∧ x ∈ vals).
Proof.
  intros Hr. pose proof (lr_num _ _ Hr) as Hnum. pose proof (lr_sorted _ _ Hr) as Hs.
  assert (Hsame : blk ∉ vals → ∀ x, x ∈ vals ↔ x ≠ blk ∧ x ∈ vals).
  { intros Hb x. split; [|tauto]. intros Hx. split; [by intros ->|done]. }
  unfold ext2fs_u32_list_del. rewrite Hnum. destruct (Z.eqb_spec (zlen vals) 0) as [E|Hne].
  { destruct vals; [|done]. exists bb, []. rewrite bool_decide_false by (by intros ?%elem_of_nil).
    split_and!; [done..|]. apply Hsame. by intros ?%elem_of_nil. }
  destruct (find_spec bb vals blk Hr) as (i & -> & [[Hi Hin]|[-> Hin]]); cbn [obind]; cycle 1.
  { exists bb, vals. rewrite bool_decide_false by done. split_and!; [done..|by apply Hsame]. }
  destruct (Z.ltb_spec i 0); [lia|]. rewrite bool_decide_true by by eapply list_elem_of_lookup_2.
  destruct (lr_cells _ _ Hr) as [rest Hrest]. pose proof (rep_room _ _ _ Hr Hrest) as Hlen.
  destruct (list_elem_of_split_length _ _ _ Hin) as (pre & post & -> & Hpre).
  rewrite length_app in Hlen |- *. cbn [length] in *.
  replace (Z.to_nat (Z.of_nat (length pre + S (length post)) - 1 - i)) with (length post) by lia.
  destruct (shift_down_spec post (Some <$> pre) (Some blk) rest) as [c' Hc']. rewrite length_fmap in Hc'.
  rewrite Hrest, fmap_app, fmap_cons, <- app_assoc. cbn [app].
  replace i with (zlen pre) by lia. rewrite Hc'. cbn [obind].
  exists (set_list bb (Z.of_nat (length pre + S (length post)) - 1) ((Some <$> pre) ++ (Some <$> post) ++ c' :: rest)), (pre ++ post).
  pose proof (sorted_app_inv pre (blk :: post) Hs) as (H1 & H2 & H3).
  assert (Hs2 : StronglySorted Z.lt post ∧ Forall (Z.lt blk) post) by (by inversion H2; subst).
  split; [done|]. split.
  - apply (set_list_rep bb (pre ++ blk :: post) _ _ _ (c' :: rest)); [done| | |rewrite length_app; lia|].
    + by rewrite fmap_app, <- app_assoc.
    + rewrite !length_app, !length_fmap. cbn [length]. lia.
    + apply sorted_app; [done|apply Hs2|]. intros a b Ha Hb. apply H3; [done|by right].
  - intros x. rewrite !elem_of_app, elem_of_cons. split; [|tauto].
    intros [Hx|Hx]; (split; [|tauto]); intros ->.
    + pose proof (H3 blk blk Hx ltac:(by left)). lia.
    + destruct Hs2 as [_ Hs2]. rewrite Forall_forall in Hs2. specialize (Hs2 blk Hx). lia.
Qed.
End Specs.

(** ** Creation, iteration, comparison *)
Section Whole.
  Context `{Machine}.
  Context (Hmem : ∀ n, mem_ok n = true → n < 2 ^ 31).

Lemma make_list_rep size vals list e obb :
  0 ≤ size < 2 ^ 31 → StronglySorted Z.lt vals → zlen vals ≤ size →
  match list with
  | None => vals = []
  | Some l => zlen l = size ∧ size ≠ 0 ∧ ∃ rest, l = (Some <$> vals) ++ rest
  end → make_u32_list size (zlen vals) list = Ret (e, obb) →
  match obb with Some bb => e = 0 ∧ list_rep bb vals | None => e = EXT2_ET_NO_MEMORY end.
Proof.
  intros Hsize Hs Hl Hlist. unfold make_u32_list.
  destruct (mem_ok sizeof_u32_list); cbn [negb]; [|by intros [= <- <-]].
  assert (Hb : 0 < (if size =? 0 then 10 else size) < 2 ^ 31) by (destruct (Z.eqb_spec size 0); lia).
  assert (Eb : size ≠ 0 → (if size =? 0 then 10 else size) = size) by (by destruct (Z.eqb_spec size 0)).
  set (bsize := if size =? 0 then 10 else size) in *.
  assert (Ec : size_t bsize = bsize) by (unfold size_t, size_t_mod; destruct long64; apply Z.mod_small; lia).
  rewrite Ec. destruct (_ || _) eqn:E; [by intros [= <- <-]|]. apply orb_false_iff in E as [_ Hm].
  apply negb_false_iff, Hmem in Hm. unfold sizeof_u32 in Hm. destruct list as [l|].
  - destruct Hlist as (Hlen & Hne & rest & ->). specialize (Eb Hne).
    destruct (Z.ltb_spec (zlen ((Some <$> vals) ++ rest)) bsize); [lia|]. intros [= <- <-].
    split; [done|]. rewrite take_ge by lia. split; simpl; try done; [by eexists|lia..].
  - rewrite Hlist in *. intros [= <- <-]. split; [done|].
    split; simpl; [done|done|by eexists|rewrite length_replicate; lia|lia|done].
Qed.

Lemma create_rep size e obb : 0 ≤ size < 2 ^ 31 → ext2fs_u32_list_create size = Ret (e, obb) →
  match obb with Some bb => e = 0 ∧ list_rep bb [] | None => e = EXT2_ET_NO_MEMORY end.
Proof. intros Hsize. by apply (make_list_rep size [] None); [done|constructor|simpl; lia|]. Qed.

Lemma copy_rep bb vals e obb : list_rep bb vals → bb_size bb ≠ 0 → ext2fs_u32_copy bb = Ret (e, obb) →
  match obb with
  | Some bb' => e = 0 ∧ list_rep bb' vals ∧ badblocks_flags bb' = badblocks_flags bb
  | None => e = EXT2_ET_NO_MEMORY
  end.
Proof.
  intros Hr Hne. destruct (lr_cells _ _ Hr) as [rest Hrest]. pose proof (rep_room _ _ _ Hr Hrest).
  pose proof (lr_small _ _ Hr). pose proof (lr_size _ _ Hr). unfold ext2fs_u32_copy. rewrite (lr_num _ _ Hr).
  destruct (make_u32_list _ _ _) as [[e1 o1]| | |] eqn:E; cbn [obind]; try done. intros [= <- <-].
  apply (make_list_rep _ vals) in E; [|lia|apply Hr|lia|split_and!; [done|done|by eexists]].
  destruct o1 as [d|]; simpl; [|done]. destruct E as [-> Hd]. split; [done|]. split; [|done].
  split; simpl; apply Hd.
Qed.

(** A caller that asks the iterator until it answers 0. *)
Fixpoint iterate_all (fuel : nat) (iter : ext2_u32_iterate) (bb : ext2_u32_list) : outcome (list Z) :=
  match fuel with
  | O => Spin
  | S fuel =>
      let? '(r, v, iter) := ext2fs_u32_list_iterate iter bb in
      if r =? 0 then Ret [] else
      let? x := of_option v in let? l := iterate_all fuel iter bb in Ret (x :: l)
  end.
Lemma iterate_rep bb vals n : ∀ ptr, list_rep bb vals → 0 ≤ ptr → (length (drop (Z.to_nat ptr) vals) < n)%nat →
  iterate_all n (MkU32Iterate EXT2_ET_MAGIC_BADBLOCKS_ITERATE ptr) bb = Ret (drop (Z.to_nat ptr) vals).
Proof.
  induction n as [|n IH]; intros ptr Hr Hp Hn; [lia|]. cbn [iterate_all].
  unfold ext2fs_u32_list_iterate. cbn [iter_magic iter_ptr]. rewrite (lr_magic _ _ Hr), !Z.eqb_refl, (lr_num _ _ Hr). cbn [negb].
  rewrite length_drop in Hn. destruct (Z.ltb_spec ptr (zlen vals)); cycle 1.
  { cbn [obind]. by rewrite drop_ge by lia. }
  destruct (lookup_lt_is_Some_2 vals (Z.to_nat ptr)) as [v Hv]; [lia|].
  destruct (lr_cells _ _ Hr) as [rest ->]. rewrite (entry_at _ _ _ v) by done. cbn [obind].
  change (1 =? 0) with false. cbn [of_option]. cbv iota. cbn [obind].
  rewrite (drop_S _ v) by done. replace (S (Z.to_nat ptr)) with (Z.to_nat (ptr + 1)) by lia.
  rewrite IH; [done|done|lia|]. rewrite length_drop. lia.
Qed.

Lemma same_entries_spec v1 : ∀ v2 p1 p2 r1 r2, length v1 = length v2 → length p1 = length p2 →
  same_entries (length v1) (zlen p1) ((Some <$> (p1 ++ v1)) ++ r1) ((Some <$> (p2 ++ v2)) ++ r2) =
  Ret (bool_decide (v1 = v2)).
Proof.
  induction v1 as [|a v1 IH]; intros [|b v2] p1 p2 r1 r2 Hl Hp; try done. cbn [length same_entries].
  rewrite (entry_at _ _ _ a) by (lia || (rewrite Nat2Z.id; by apply list_lookup_middle)).
  rewrite (entry_at _ _ _ b) by (lia || (rewrite Nat2Z.id, Hp; by apply list_lookup_middle)). cbn [obind].
  destruct (Z.eqb_spec a b) as [->|Hne]; [|rewrite bool_decide_false by congruence; done].
  replace (p1 ++ b :: v1) with ((p1 ++ [b]) ++ v1) by (by rewrite <- app_assoc).
  replace (p2 ++ b :: v2) with ((p2 ++ [b]) ++ v2) by (by rewrite <- app_assoc).
  replace (zlen p1 + 1) with (zlen (p1 ++ [b])) by (rewrite length_app; simpl; lia).
  rewrite IH by (simpl in Hl; rewrite ?length_app; simpl; lia).
  f_equal. apply bool_decide_ext. split; congruence.
Qed.
Lemma equal_rep bb1 bb2 v1 v2 : list_rep bb1 v1 → list_rep bb2 v2 →
  ext2fs_u32_list_equal bb1 bb2 = Ret (if bool_decide (v1 = v2) then 1 else 0).
Proof.
  intros H1 H2. unfold ext2fs_u32_list_equal.
  rewrite (lr_magic _ _ H1), (lr_magic _ _ H2), Z.eqb_refl, (lr_num _ _ H1), (lr_num _ _ H2). cbn [negb orb].
  destruct (Z.eqb_spec (zlen v1) (zlen v2)) as [E|Hne]; cbn [negb].
  - destruct (lr_cells _ _ H1) as [r1 ->], (lr_cells _ _ H2) as [r2 ->]. rewrite Nat2Z.id.
    pose proof (same_entries_spec v1 v2 [] [] r1 r2 ltac:(lia) eq_refl) as Hs. cbn [app] in Hs.
    change (zlen ([] : list Z)) with 0 in Hs. by rewrite Hs.
  - rewrite bool_decide_false by congruence. done.
Qed.

(** Sorted lists are equal when they have the same elements. *)
Lemma sorted_unique v1 v2 : StronglySorted Z.lt v1 → StronglySorted Z.lt v2 →
  (∀ x, x ∈ v1 ↔ x ∈ v2) → v1 = v2.
Proof.
  intros H1. revert v2. induction H1 as [|a v1 H1 IH Ha]; intros v2 H2 E.
  { destruct v2 as [|b v2]; [done|]. by destruct (not_elem_of_nil (A := Z) b (proj2 (E b) ltac:(by left))). }
  destruct H2 as [|b v2 H2 Hb]; [by destruct (not_elem_of_nil (A := Z) a (proj1 (E a) ltac:(by left)))|].
  rewrite Forall_forall in Ha, Hb.
  assert (a = b) as ->.
  { pose proof (proj1 (E a) ltac:(by left)) as [->|Hx]%elem_of_cons; [done|].
    pose proof (proj2 (E b) ltac:(by left)) as [->|Hy]%elem_of_cons; [done|].
    specialize (Hb a Hx). specialize (Ha b Hy). lia. }
  f_equal. apply IH; [done|]. intros x. split; intros Hx.
  - pose proof (proj1 (E x) ltac:(by right)) as [->|?]%elem_of_cons; [|done]. specialize (Ha b Hx). lia.
  - pose proof (proj2 (E x) ltac:(by right)) as [->|?]%elem_of_cons; [|done]. specialize (Hb b Hx). lia.
Qed.

(** ** A list as a set *)
Inductive u32_op : Type := AddNum (x : Z) | DelNum (x : Z) | TestNum (x : Z) | CountNums.
Definition run_u32_op (bb : ext2_u32_list) (op : u32_op) : outcome (Z * ext2_u32_list) :=
  match op with
  | AddNum x => ext2fs_u32_list_add bb x
  | DelNum x => ext2fs_u32_list_del bb x
  | TestNum x => let? r := ext2fs_u32_list_test bb x in Ret (r, bb)
  | CountNums => Ret (ext2fs_u32_list_count bb, bb)
  end.
Fixpoint run_u32_ops (bb : ext2_u32_list) (ops : list u32_op) : outcome (list Z * ext2_u32_list) :=
  match ops with
  | [] => Ret ([], bb)
  | op :: ops =>
      let? '(r, bb) := run_u32_op bb op in
      let? '(rs, bb) := run_u32_ops bb ops in Ret (r :: rs, bb)
  end.

(** What an operation answers and makes of a set; adding may run out of memory. *)
Inductive set_step (S : gset Z) : u32_op → Z → gset Z → Prop :=
  | step_add x : set_step S (AddNum x) 0 ({[x]} ∪ S)
  | step_full x n : mem_ok n = false → set_step S (AddNum x) EXT2_ET_NO_MEMORY S
  | step_del x : set_step S (DelNum x) (if bool_decide (x ∈ S) then 0 else -1) (S ∖ {[x]})
  | step_test x : set_step S (TestNum x) (if bool_decide (x ∈ S) then 1 else 0) S
  | step_count : set_step S CountNums (Z.of_nat (size S)) S.
Inductive set_steps (S : gset Z) : list u32_op → list Z → gset Z → Prop :=
  | steps_nil : set_steps S [] [] S
  | steps_cons op ops r rs S1 S2 :
      set_step S op r S1 → set_steps S1 ops rs S2 → set_steps S (op :: ops) (r :: rs) S2.

Lemma sorted_nodup vals : StronglySorted Z.lt vals → NoDup vals.
Proof.
  induction 1 as [|a vals _ IH Ha]; constructor; [|done]. rewrite Forall_forall in Ha.
  intros Hin. specialize (Ha a Hin). lia.
Qed.

Lemma u32_op_step bb vals op : list_rep bb vals → ∃ r bb' vals', run_u32_op bb op = Ret (r, bb') ∧
  list_rep bb' vals' ∧ set_step (list_to_set vals) op r (list_to_set vals').
Proof.
  intros Hr. destruct op as [x|x|x|]; simpl.
  - destruct (add_spec Hmem bb vals x Hr) as (e & bb' & vals' & -> & Hr' & [[-> Hv]|(-> & -> & n & Hn)]).
    + exists 0, bb', vals'. split_and!; [done..|].
      replace (list_to_set vals' : gset Z) with ({[x]} ∪ list_to_set vals : gset Z); [constructor|].
      apply set_eq. intros y. rewrite elem_of_union, elem_of_singleton, !elem_of_list_to_set, Hv. done.
    + eexists _, _, vals. split_and!; [done..|]. by econstructor.
  - destruct (del_spec bb vals x Hr) as (bb' & vals' & -> & Hr' & Hv).
    eexists _, bb', vals'. split_and!; [done..|].
    replace (list_to_set vals' : gset Z) with (list_to_set vals ∖ {[x]} : gset Z); cycle 1.
    { apply set_eq. intros y. rewrite elem_of_difference, elem_of_singleton, !elem_of_list_to_set, Hv. tauto. }
    replace (bool_decide (x ∈ vals)) with (bool_decide (x ∈ (list_to_set vals : gset Z))); [constructor|].
    apply bool_decide_ext, elem_of_list_to_set.
  - rewrite (test_spec bb vals x Hr). cbn [obind]. eexists _, bb, vals. split_and!; [done..|].
    replace (bool_decide (x ∈ vals)) with (bool_decide (x ∈ (list_to_set vals : gset Z))); [constructor|].
    apply bool_decide_ext, elem_of_list_to_set.
  - eexists _, bb, vals. split_and!; [done..|]. unfold ext2fs_u32_list_count. rewrite (lr_num _ _ Hr).
    rewrite <- (size_list_to_set (C := gset Z)) by (apply sorted_nodup, Hr). constructor.
Qed.

Lemma u32_ops_steps ops : ∀ bb vals, list_rep bb vals → ∃ rs bb' vals', run_u32_ops bb ops = Ret (rs, bb') ∧
  list_rep bb' vals' ∧ set_steps (list_to_set vals) ops rs (list_to_set vals').
Proof.
  induction ops as [|op ops IH]; intros bb vals Hr.
  { exists [], bb, vals. split_and!; [done..|constructor]. }
  cbn [run_u32_ops]. destruct (u32_op_step bb vals op Hr) as (r & bb1 & v1 & -> & H1 & S1). cbn [obind].
  destruct (IH bb1 v1 H1) as (rs & bb2 & v2 & -> & H2 & S2). cbn [obind].
  eexists _, bb2, v2. split_and!; [done..|]. by econstructor.
Qed.
End Whole.

(** ** Properties *)

(** C22. A list of numbers refines a set: from its creation on, any sequence of additions,
    removals, tests and counts returns and answers as a set does, but that an addition may
    run out of memory and changes nothing then; the iterator gives the elements of the set
    in increasing order, each once. *)
Theorem u32_list_refines_set `{Machine} ops init bb :
  (∀ n, mem_ok n = true → n < 2 ^ 31) → 0 ≤ init < 2 ^ 31 →
  ext2fs_u32_list_create init = Ret (0, Some bb) →
  ∃ rs bb' S vals, run_u32_ops bb ops = Ret (rs, bb') ∧ set_steps ∅ ops rs S ∧
    (∀ n, (size S < n)%nat → iterate_all n (MkU32Iterate EXT2_ET_MAGIC_BADBLOCKS_ITERATE 0) bb' = Ret vals) ∧
    StronglySorted Z.lt vals ∧ list_to_set vals = S.
Proof.
  intros Hmem Hinit Hc. apply (create_rep Hmem) in Hc as [_ Hr]; [|done].
  destruct (u32_ops_steps Hmem ops bb [] Hr) as (rs & bb' & vals & Hrun & Hr' & Hsteps).
  exists rs, bb', (list_to_set vals), vals. split_and!; [done|done| |apply Hr'|done].
  intros n Hn. rewrite size_list_to_set in Hn by (apply sorted_nodup, Hr').
  by apply (iterate_rep bb' vals n 0 Hr').
Qed.

(** Two lists are equal exactly when they hold the same numbers, whatever was done to
    them, and a copy is equal to its original. *)
Theorem u32_list_equal_decides `{Machine} bb1 bb2 v1 v2 e bb3 :
  (∀ n, mem_ok n = true → n < 2 ^ 31) → list_rep bb1 v1 → list_rep bb2 v2 →
  bb_size bb1 ≠ 0 → ext2fs_u32_copy bb1 = Ret (e, Some bb3) →
  ext2fs_u32_list_equal bb1 bb2 = Ret (if bool_decide (list_to_set v1 = (list_to_set v2 : gset Z)) then 1 else 0) ∧
  ext2fs_u32_list_equal bb1 bb3 = Ret 1.
Proof.
  intros Hmem H1 H2 Hne Hc. apply (copy_rep Hmem bb1 v1) in Hc as (_ & H3 & _); [|done..]. split.
  - rewrite (equal_rep bb1 bb2 v1 v2) by done.
    assert (E : v1 = v2 ↔ list_to_set v1 = (list_to_set v2 : gset Z)).
    { split; [by intros ->|]. intros E. apply sorted_unique; [apply H1|apply H2|]. intros x.
      rewrite <- !(elem_of_list_to_set (C := gset Z)), E. done. }
    by rewrite (bool_decide_ext _ _ E).
  - rewrite (equal_rep bb1 bb3 v1 v1) by done. by rewrite bool_decide_true.
Qed.

(** ** Witnesses *)
#[local] Instance gigabyte : Machine :=
  {| mem_ok n := n <? 2 ^ 30; char_signed := true; big_endian := false; long64 := true |}.
Definition u32_sample_ops : list u32_op :=
  [AddNum 7; AddNum 3; AddNum 9; AddNum 3; AddNum 5; DelNum 7; DelNum 4; TestNum 5; TestNum 7; CountNums].
Definition u32_sample : ext2_u32_list :=
  MkU32List EXT2_ET_MAGIC_BADBLOCKS_LIST 0 2 [Some 0; Some 0] 0.

Lemma u32_list_refines_set_witness :
  ∃ rs bb' S vals, run_u32_ops u32_sample u32_sample_ops = Ret (rs, bb') ∧ set_steps ∅ u32_sample_ops rs S ∧
    rs = [0; 0; 0; 0; 0; 0; -1; 1; 0; 3] ∧ vals = [3; 5; 9] ∧ list_to_set vals = S.
Proof.
  destruct (u32_list_refines_set u32_sample_ops 2 u32_sample) as (rs & bb' & S & vals & Hrun & Hsteps & Hit & _ & HS).
  - intros n Hn. apply Z.ltb_lt in Hn. lia.
  - lia.
  - reflexivity.
  - exists rs, bb', S, vals. split; [exact Hrun|]. split; [exact Hsteps|].
    assert (Er : rs = [0; 0; 0; 0; 0; 0; -1; 1; 0; 3]) by (vm_compute in Hrun; injection Hrun; congruence).
    split; [exact Er|]. split; [|exact HS].
    specialize (Hit (size S + 1000)%nat ltac:(lia)).
    assert (Ei : ∀ k, iterate_all (k + 1000) (MkU32Iterate EXT2_ET_MAGIC_BADBLOCKS_ITERATE 0) bb' = Ret [3; 5; 9]).
    { intros k. rewrite Nat.add_comm. vm_compute in Hrun. injection Hrun as _ <-. reflexivity. }
    rewrite Ei in Hit. by injection Hit.
Defined.

Definition u32_made (ops : list u32_op) : ext2_u32_list :=
  match run_u32_ops u32_sample ops with Ret (_, bb) => bb | _ => u32_sample end.
Definition u32_left : ext2_u32_list := u32_made [AddNum 4; AddNum 2].
Definition u32_right : ext2_u32_list := u32_made [AddNum 1; AddNum 2; AddNum 4; DelNum 1].

Lemma u32_list_equal_decides_witness :
  run_u32_ops u32_sample [AddNum 4; AddNum 2] = Ret ([0; 0], u32_left) ∧
  run_u32_ops u32_sample [AddNum 1; AddNum 2; AddNum 4; DelNum 1] = Ret ([0; 0; 0; 0], u32_right) ∧
  bb_list u32_left ≠ bb_list u32_right ∧ ext2fs_u32_list_equal u32_left u32_right = Ret 1.
Proof.
  split; [reflexivity|]. split; [reflexivity|]. split; [discriminate|].
  refine (proj1 (u32_list_equal_decides u32_left u32_right [2; 4] [2; 4] 0 u32_left _ _ _ _ eq_refl)).
  - intros n Hn. apply Z.ltb_lt in Hn. lia.
  - split; [done|done|by eexists|done|done|by repeat constructor].
  - split; [done|done|by eexists|done|done|by repeat constructor].
  - done.
Defined.
