(* ===== verification/OpenFs.v ===== *)
(** * Opening a file system: e2fsprogs/lib/ext2fs/openfs.c

    ext2fs_open2: the superblock is read and checked, then the group descriptors are
    read.  Of the I/O manager, besides the channel: opening by name, options and
    closing. *)
From S2P Require Export Csum Ext2Fs.
#[local] Open Scope Z_scope.

(** ** What is below

    [mgr_open] is [manager->open], with the flags of the channel; [mgr_mmp_start] the
    start of multiple-mount protection; [mgr_fake_time] the time that the environment
    variable E2FSPROGS_FAKE_TIME gives. *)
Class IoManager (W : Type) : Type := {
  mgr_channel :: IoChannel W;
  mgr_fake_time : option Z;
  mgr_open : bytes → Z → W → Z * W;
  mgr_set_options : bytes → W → Z * W;
  mgr_close : W → unit * W;
  mgr_mmp_start : ext2_filsys → W → Z * W;
}.

Definition EXT2_ET_MAGIC_E2IMAGE : Z := 2133571344.
Definition EXT2_ET_BAD_MAGIC : Z := 2133571347.
Definition EXT2_ET_REV_TOO_HIGH : Z := 2133571348.
Definition EXT2_ET_UNEXPECTED_BLOCK_SIZE : Z := 2133571362.
Definition EXT2_ET_CORRUPT_SUPERBLOCK : Z := 2133571388.
Definition EXT2_ET_UNSUPP_FEATURE : Z := 2133571395.
Definition EXT2_ET_RO_UNSUPP_FEATURE : Z := 2133571396.
Definition EXT2_ET_INVALID_ARGUMENT : Z := 2133571399.
Definition EXT2_ET_UNIMPLEMENTED : Z := 2133571408.
Definition EXT2_ET_CANT_USE_LEGACY_BITMAPS : Z := 2133571465.
Definition EXT2_ET_BAD_DESC_SIZE : Z := 2133571473.
Definition EXT2_ET_SB_CSUM_INVALID : Z := 2133571480.
Definition EXT2_ET_UNKNOWN_CSUM : Z := 2133571481.

Definition EXT2_FLAG_DIRECT_IO : Z := 0x80000.
Definition EXT2_FLAG_SHARE_DUP : Z := 0x400000.
Definition IO_FLAG_RW : Z := 1.
Definition IO_FLAG_EXCLUSIVE : Z := 2.
Definition IO_FLAG_DIRECT_IO : Z := 4.
Definition IO_FLAG_THREADS : Z := 16.

(** The features the library supports (built with CONFIG_MMP). *)
Definition EXT2_LIB_FEATURE_INCOMPAT_SUPP : Z :=
  fold_left Z.lor [0x2; 0x8; 0x10; 0x4; 0x40; 0x200; 0x400; 0x100; 0x80; 0x8000; 0x10000; 0x20000; 0x2000; 0x4000] 0.
Definition EXT2_LIB_FEATURE_RO_COMPAT_SUPP : Z :=
  fold_left Z.lor [0x1; 0x8; 0x2; 0x20; 0x40; 0x10; 0x200; 0x100; 0x400; 0x1000; 0x2000; 0x4000; 0x8000; 0x10000] 0.
Definition EXT2_LIB_SOFTSUPP_INCOMPAT : Z := 0.
Definition EXT2_LIB_SOFTSUPP_RO_COMPAT : Z := 0x800.

(** ** The checks of the superblock *)

(** The features that a set of supported ones does not have. *)
Definition unsupported (features softsupp supp : Z) (soft : bool) : bool :=
  negb (Z.land (if soft then Z.land features (Z.lnot softsupp) else features) (Z.lnot supp) =? 0).

(** [if (!(flags & EXT2_FLAG_FORCE))]: the error, or 0. *)
Definition check_features (flags : Z) (sb : bytes) : Z :=
  if has flags EXT2_FLAG_FORCE then 0 else
  let soft := has flags EXT2_FLAG_SOFTSUPP_FEATURES in
  if unsupported (s_feature_incompat sb) EXT2_LIB_SOFTSUPP_INCOMPAT EXT2_LIB_FEATURE_INCOMPAT_SUPP soft
  then EXT2_ET_UNSUPP_FEATURE
  else if has flags EXT2_FLAG_RW &&
          unsupported (s_feature_ro_compat sb) EXT2_LIB_SOFTSUPP_RO_COMPAT EXT2_LIB_FEATURE_RO_COMPAT_SUPP soft
  then EXT2_ET_RO_UNSUPP_FEATURE
  else if negb (has flags EXT2_FLAG_JOURNAL_DEV_OK) && has_feature_journal_dev sb
  then EXT2_ET_UNSUPP_FEATURE else 0.

(** The sizes in the superblock: from the check of [s_log_block_size] to that of
    [s_desc_size]. *)
Definition check_sizes (flags : Z) (sb : bytes) : Z :=
  if (16 - 10 <? s_log_block_size sb) || (29 - 10 <? s_log_cluster_size sb) ||
     (s_log_cluster_size sb <? s_log_block_size sb) || (31 <? s_log_groups_per_flex sb)
  then EXT2_ET_CORRUPT_SUPERBLOCK
  else if has_feature_bigalloc sb && negb (has flags EXT2_FLAG_64BITS) then EXT2_ET_CANT_USE_LEGACY_BITMAPS
  else if negb (has_feature_bigalloc sb) && negb (s_log_block_size sb =? s_log_cluster_size sb)
  then EXT2_ET_CORRUPT_SUPERBLOCK
  else
  let inode_size := EXT2_INODE_SIZE sb in
  if (inode_size <? EXT2_GOOD_OLD_INODE_SIZE) || (EXT2_BLOCK_SIZE sb <? inode_size) ||
     negb (Z.land inode_size (inode_size - 1) =? 0)
  then EXT2_ET_CORRUPT_SUPERBLOCK
  else
  let desc_size := s_desc_size sb in
  if negb (has flags EXT2_FLAG_IGNORE_SB_ERRORS) && has_feature_64bit sb &&
     ((desc_size <? EXT2_MIN_DESC_SIZE_64BIT) || (EXT2_MAX_DESC_SIZE <? desc_size) ||
      negb (Z.land desc_size (u32 (desc_size - 1)) =? 0))
  then EXT2_ET_BAD_DESC_SIZE else 0.

Definition EXT2_MAX_BLOCKS_PER_GROUP (sb : bytes) : Z :=
  u32 ((2 ^ 16 - 8) * (EXT2_CLUSTER_SIZE sb / EXT2_BLOCK_SIZE sb)).
Definition EXT2_MAX_INODES_PER_GROUP (sb : bytes) : Z := u32 (2 ^ 16 - EXT2_BLOCK_SIZE sb / EXT2_INODE_SIZE sb).
(** [(ipg * inode_size + block_size - 1) / block_size], in 32 bits *)
Definition inode_blocks_of (sb : bytes) : Z :=
  u32 (s_inodes_per_group sb * EXT2_INODE_SIZE sb + EXT2_BLOCK_SIZE sb - 1) / EXT2_BLOCK_SIZE sb.

(** ext2fs_div_ceil and ext2fs_div64_ceil *)
Definition ext2fs_div_ceil (a b : Z) : Z := if a =? 0 then 0 else (a - 1) / b + 1.

(** The geometry of the groups: an error, or the counts of groups and of blocks of
    descriptors. *)
Definition check_groups (flags : Z) (sb : bytes) : outcome (Z + Z * Z) :=
  let bpg := s_blocks_per_group sb in
  let corrupt := Ret (inl EXT2_ET_CORRUPT_SUPERBLOCK) in
  if (bpg <? 8) || (EXT2_MAX_BLOCKS_PER_GROUP sb <? bpg) || (EXT2_MAX_INODES_PER_GROUP sb <? inode_blocks_of sb)
  then corrupt else
  let? dpb := EXT2_DESC_PER_BLOCK sb in
  if (dpb =? 0) || (ext2fs_blocks_count sb <=? s_first_data_block sb) then corrupt else
  let groups_cnt := ext2fs_div_ceil (u64 (ext2fs_blocks_count sb - s_first_data_block sb)) bpg in
  if negb (Z.shiftr groups_cnt 32 =? 0) then corrupt
  else if negb (has flags EXT2_FLAG_IGNORE_SB_ERRORS) &&
          negb (u64 (groups_cnt * s_inodes_per_group sb) =? s_inodes_count sb) then corrupt else
  let desc_blocks := ext2fs_div_ceil groups_cnt dpb in
  if has_feature_meta_bg sb && (desc_blocks <? s_first_meta_bg sb) &&
     negb (has flags EXT2_FLAG_IGNORE_SB_ERRORS) then corrupt
  else Ret (inr (groups_cnt, desc_blocks)).

(** ** ext2fs_open2 *)
Definition sizeof_filsys `{Machine} : Z := if long64 then 368 else 204.
Definition sizeof_image_hdr : Z := 332.
Definition sizeof_hashmap `{Machine} : Z := if long64 then 40 + 4096 * 48 else 20 + 4096 * 24.
(** [~0UL] *)
Definition ULONG_MAX `{Machine} : Z := size_t_mod - 1.

(** The name without what follows its first ['?'], and what follows it. *)
Fixpoint split_name (name : bytes) : bytes * option bytes :=
  match name with
  | [] => ([], None)
  | c :: name => if c =? 63 then ([], Some name) else let '(n, o) := split_name name in (c :: n, o)
  end.

Section Open.
  Context `{Machine} {W : Type} `{IoManager W}.

(** The error path: the structure is freed, the channel closed when it is open.  The
    result is the error and the file system that [*ret_fs] is set to. *)
Definition opened : Type := (Z * option ext2_filsys)%type.
Definition cleanup (flags : Z) (io : bool) (fs : ext2_filsys) (retval : Z) : prog W opened :=
  if has flags EXT2_FLAG_NOFREE_ON_ERROR then ret (retval, Some fs) else
  do! (if io then sys mgr_close else ret tt) in ret (retval, None).

Definition set_sb_read (sb : bytes) (keep : bool) (fs : ext2_filsys) : ext2_filsys :=
  MkFilsys (f_flags fs) sb (f_blocksize fs) (f_group_desc_count fs) (f_desc_blocks fs) (f_group_desc fs)
    (f_inode_blocks_per_group fs) (f_stride fs) (if keep then Some sb else f_orig_super fs) (f_image_header fs)
    (f_now fs) (f_cluster_ratio_bits fs) (f_csum_seed fs) (f_icache fs).

(** The superblock, read again at most three times while its checksum is wrong; the error
    of the checks is not final. *)
Fixpoint read_super (retries : nat) (bs superblock : Z) (keep : bool) (fs : ext2_filsys) :
    prog W ((Z + Z) * ext2_filsys) :=
  let! '(retval, data) := sys (io_read_blk64 bs superblock (- SUPERBLOCK_SIZE)) in
  if negb (retval =? 0) then ret (inl retval, fs) else
  let fs := set_sb_read data keep fs in
  if has (f_flags fs) EXT2_FLAG_IGNORE_CSUM_ERRORS then ret (inr 0, fs) else
  let retval := if ext2fs_verify_csum_type fs data then 0 else EXT2_ET_UNKNOWN_CSUM in
  if ext2fs_superblock_csum_verify fs data then ret (inr retval, fs) else
  match retries with
  | S retries => read_super retries bs superblock keep fs
  | O => ret (inr EXT2_ET_SB_CSUM_INVALID, fs)
  end.

(** From the magic number to the size of a block. *)
Definition check_super (flags retval : Z) (fs : ext2_filsys) : Z :=
  let sb := f_super fs in
  let retval := if s_magic sb =? EXT2_SUPER_MAGIC then retval else EXT2_ET_BAD_MAGIC in
  if negb (retval =? 0) then retval
  else if EXT2_DYNAMIC_REV <? s_rev_level sb then EXT2_ET_REV_TOO_HIGH
  else if negb (check_features flags sb =? 0) then check_features flags sb
  else check_sizes flags sb.

(** The fields computed from the superblock before the groups are looked at. *)
Definition set_sizes (fs : ext2_filsys) : ext2_filsys :=
  let sb := f_super fs in
  MkFilsys (f_flags fs) sb (EXT2_BLOCK_SIZE sb) (f_group_desc_count fs) (f_desc_blocks fs) (f_group_desc fs)
    (inode_blocks_of sb) (f_stride fs) (f_orig_super fs) (f_image_header fs) (f_now fs)
    (s_log_cluster_size sb - s_log_block_size sb) (f_csum_seed fs) (f_icache fs).
Definition set_groups (groups desc_blocks : Z) (fs : ext2_filsys) : ext2_filsys :=
  MkFilsys (f_flags fs) (f_super fs) (f_blocksize fs) groups desc_blocks (f_group_desc fs)
    (f_inode_blocks_per_group fs) (f_stride fs) (f_orig_super fs) (f_image_header fs) (f_now fs)
    (f_cluster_ratio_bits fs) (f_csum_seed fs) (f_icache fs).
Definition set_image_header (hdr : bytes) (fs : ext2_filsys) : ext2_filsys :=
  MkFilsys (f_flags fs) (f_super fs) (f_blocksize fs) (f_group_desc_count fs) (f_desc_blocks fs) (f_group_desc fs)
    (f_inode_blocks_per_group fs) (f_stride fs) (f_orig_super fs) (Some hdr) (f_now fs) (f_cluster_ratio_bits fs)
    (f_csum_seed fs) (f_icache fs).
Definition set_stride (fs : ext2_filsys) : ext2_filsys :=
  MkFilsys (f_flags fs) (f_super fs) (f_blocksize fs) (f_group_desc_count fs) (f_desc_blocks fs) (f_group_desc fs)
    (f_inode_blocks_per_group fs) (s_raid_stride (f_super fs)) (f_orig_super fs) (f_image_header fs) (f_now fs)
    (f_cluster_ratio_bits fs) (f_csum_seed fs) (f_icache fs).

(** The blocks of descriptors from [i] on, one at a time, after those in [dest]. *)
Fixpoint read_descs (n : nat) (group_block i : Z) (fs : ext2_filsys) (dest : bytes) : prog W (Z * bytes) :=
  match n with
  | O => ret (0, dest)
  | S n =>
      let! blk := lift (ext2fs_descriptor_block_loc2 fs group_block i) in
      let! '(retval, data) := sys (io_read_blk64 (f_blocksize fs) blk 1) in
      if negb (retval =? 0) then ret (retval, dest) else
      read_descs n group_block (i + 1) fs (dest ++ data)
  end.

(** [io_channel_read_blk] takes an unsigned long and an int: a count that does not fit is
    negative, and the descriptors stay without a value. *)
Definition ulong (z : Z) : Z := size_t z.
Definition read_group_desc (flags group_block : Z) (fs : ext2_filsys) : prog W (Z * bytes) :=
  let sb := f_super fs in
  let group_block := if group_block =? 0 then s_first_data_block sb else group_block in
  let adjust := if (group_block =? 0) && (f_blocksize fs =? 1024) then 1 else 0 in
  let first_meta_bg :=
    if has_feature_meta_bg sb && negb (has flags EXT2_FLAG_IMAGE_FILE)
    then Z.min (s_first_meta_bg sb) (f_desc_blocks fs) else f_desc_blocks fs in
  let! '(retval, dest) :=
    (if first_meta_bg =? 0 then ret (0, [])
     else if 2 ^ 31 <=? first_meta_bg then undef
     else sys (io_read_blk64 (f_blocksize fs) (ulong (group_block + adjust + 1)) first_meta_bg)) in
  if negb (retval =? 0) then ret (retval, dest) else
  read_descs (Z.to_nat (f_desc_blocks fs - first_meta_bg)) group_block first_meta_bg fs dest.

(** Recovery from a backup: the descriptors are marked as initialised. *)
Fixpoint clear_uninit (n : nat) (group : Z) (fs : ext2_filsys) : prog W ext2_filsys :=
  match n with
  | O => ret fs
  | S n =>
      let! fs := ext2fs_bg_flags_clear fs group 2 in
      let! fs := ext2fs_bg_flags_clear fs group 1 in
      let! fs := ext2fs_bg_itable_unused_set fs group 0 in
      let! fs := ext2fs_group_desc_csum_set fs group in
      clear_uninit n (group + 1) fs
  end.

(** From the label [skip_read_bg]. *)
Definition finish_open (flags : Z) (fs : ext2_filsys) : prog W opened :=
  let! retval :=
    (if has_feature_mmp (f_super fs) && negb (has flags EXT2_FLAG_SKIP_MMP) &&
        has flags (Z.lor EXT2_FLAG_RW EXT2_FLAG_EXCLUSIVE)
     then sys (mgr_mmp_start fs) else ret 0) in
  if negb (retval =? 0) then
    cleanup flags true (set_flags (Z.lor (f_flags fs) EXT2_FLAG_SKIP_MMP) fs) retval
  else if has (f_flags fs) EXT2_FLAG_SHARE_DUP && negb (mem_ok sizeof_hashmap)
  then cleanup flags true fs EXT2_ET_NO_MEMORY else
  let fs := if has (f_flags fs) EXT2_FLAG_SHARE_DUP
            then set_super (set_fld 4 0x64 (Z.lor (s_feature_ro_compat (f_super fs)) 0x4000) (f_super fs)) fs
            else fs in
  ret (0, Some (set_flags (Z.land (f_flags fs) (Z.lnot EXT2_FLAG_NOFREE_ON_ERROR)) fs)).

(** From the check that there are inodes. *)
Definition open_groups (flags superblock group_block : Z) (fs : ext2_filsys) : prog W opened :=
  if s_inodes_per_group (f_super fs) =? 0 then cleanup flags true fs EXT2_ET_CORRUPT_SUPERBLOCK else
  let fs := ext2fs_init_csum_seed fs in
  let! r := lift (check_groups flags (f_super fs)) in
  match r with
  | inl retval => cleanup flags true fs retval
  | inr (groups, desc_blocks) =>
      let fs := set_groups groups desc_blocks fs in
      if has flags EXT2_FLAG_SUPER_ONLY then finish_open flags fs else
      if (negb (desc_blocks =? 0) && (ULONG_MAX / desc_blocks <? f_blocksize fs)) ||
         negb (mem_ok (desc_blocks * f_blocksize fs))
      then cleanup flags true fs EXT2_ET_NO_MEMORY else
      let! '(retval, dest) := read_group_desc flags group_block fs in
      let fs := set_stride (set_group_desc (Some dest) fs) in
      if negb (retval =? 0) then cleanup flags true fs retval else
      let! fs := (if (1 <? superblock) && ext2fs_has_group_desc_csum fs then
                    let! fs := clear_uninit (Z.to_nat (f_group_desc_count fs)) 0 fs in
                    ret (if has (f_flags fs) EXT2_FLAG_RW then mark_super_dirty fs else fs)
                  else ret fs) in
      finish_open flags fs
  end.

(** After the superblock has been read. *)
Definition open_super (flags superblock group_block block_size retval : Z) (fs : ext2_filsys) : prog W opened :=
  if has (f_flags fs) EXT2_FLAG_SWAP_BYTES then cleanup flags true fs EXT2_ET_UNIMPLEMENTED else
  let retval := check_super flags retval fs in
  if negb (retval =? 0) then cleanup flags true fs retval else
  let fs := set_sizes fs in
  let sb := f_super fs in
  if negb (s_blocks_per_group sb =? u32 (Z.shiftl (s_clusters_per_group sb) (f_cluster_ratio_bits fs)))
  then cleanup flags true fs EXT2_ET_CORRUPT_SUPERBLOCK
  else if negb (block_size =? 0) && negb (block_size =? f_blocksize fs)
  then cleanup flags true fs EXT2_ET_UNEXPECTED_BLOCK_SIZE
  else if has_feature_journal_dev sb then ret (0, Some (set_groups 0 (f_desc_blocks fs) fs))
  else open_groups flags superblock group_block fs.

Definition new_filsys (flags : Z) : ext2_filsys :=
  MkFilsys (Z.lor flags EXT2_FLAG_MASTER_SB_ONLY) [] 0 0 0 None 0 0 None None (default 0 mgr_fake_time) 0 0 None.

Definition io_flags_of (flags : Z) : Z :=
  let on bit v := if has flags bit then v else 0 in
  Z.lor (Z.lor (on EXT2_FLAG_RW IO_FLAG_RW) (on EXT2_FLAG_EXCLUSIVE IO_FLAG_EXCLUSIVE))
        (Z.lor (on EXT2_FLAG_DIRECT_IO IO_FLAG_DIRECT_IO) (on EXT2_FLAG_THREADS IO_FLAG_THREADS)).

(** From the test of [superblock]: the channel is open, the magic number of an image is
    right. *)
Definition open_at (flags superblock block_size : Z) (fs : ext2_filsys) : prog W opened :=
  if negb (superblock =? 0) then
    if block_size =? 0 then cleanup flags true fs EXT2_ET_INVALID_ARGUMENT else
    let! '(r, fs) := read_super 3 block_size superblock false fs in
    match r with
    | inl retval => cleanup flags true fs retval
    | inr retval => open_super flags superblock superblock block_size retval fs
    end
  else if negb (mem_ok SUPERBLOCK_SIZE) then cleanup flags true fs EXT2_ET_NO_MEMORY else
    let! '(r, fs) := read_super 3 SUPERBLOCK_OFFSET 1 true fs in
    match r with
    | inl retval => cleanup flags true fs retval
    | inr retval => open_super flags 1 0 block_size retval fs
    end.

(** After the options have been set.  A file that is not an image is refused without the
    cleanup.  The channel starts with blocks of 1024 bytes. *)
Definition open_channel (flags superblock block_size : Z) (fs : ext2_filsys) (retval : Z) : prog W opened :=
  if negb (retval =? 0) then cleanup flags true fs retval else
  if negb (mem_ok SUPERBLOCK_SIZE) then cleanup flags true fs EXT2_ET_NO_MEMORY else
  if has flags EXT2_FLAG_IMAGE_FILE then
    if negb (mem_ok sizeof_image_hdr) then cleanup flags true fs EXT2_ET_NO_MEMORY else
    let! '(retval, hdr) := sys (io_read_blk64 1024 0 (- sizeof_image_hdr)) in
    if negb (retval =? 0) then cleanup flags true fs retval
    else if negb (fld 4 0 hdr =? EXT2_ET_MAGIC_E2IMAGE) then ret (EXT2_ET_MAGIC_E2IMAGE, None) else
    open_at flags 1 (fld 4 204 hdr) (set_image_header hdr fs)
  else open_at flags superblock block_size fs.

Definition ext2fs_open2 (name : bytes) (io_options : option bytes) (flags superblock block_size : Z) : prog W opened :=
  if negb (mem_ok sizeof_filsys) then ret (EXT2_ET_NO_MEMORY, None) else
  let fs := new_filsys flags in
  if negb (mem_ok (zlen name + 1)) then cleanup flags false fs EXT2_ET_NO_MEMORY else
  let '(device_name, io_options) :=
    match io_options with None => split_name name | Some _ => (name, io_options) end in
  let! retval := sys (mgr_open device_name (io_flags_of flags)) in
  if negb (retval =? 0) then cleanup flags false fs retval else
  let! retval := match io_options with None => ret 0 | Some o => sys (mgr_set_options o) end in
  open_channel flags superblock block_size fs retval.

Definition ext2fs_open (name : bytes) (flags superblock block_size : Z) : prog W opened :=
  ext2fs_open2 name None flags superblock block_size.
End Open.

(** ** What opening promises *)
Definition power_of_2 (n : Z) : Prop := ∃ k, 0 ≤ k ∧ n = 2 ^ k.

(** The descriptors have been read: there is a block's worth for each block of them, and
    every group has its own. *)
Record descs_read (fs : ext2_filsys) (gd : bytes) : Prop := {
  rd_desc : f_group_desc fs = Some gd;
  rd_bytes : Forall is_byte gd;
  rd_length : zlen gd = f_desc_blocks fs * f_blocksize fs;
  rd_size : EXT2_DESC_SIZE (f_super fs) = desc_size_of fs;
  rd_32 : 32 ≤ desc_size_of fs;
  rd_wide : wide fs = true → 64 ≤ desc_size_of fs;
  rd_room : f_group_desc_count fs * desc_size_of fs ≤ zlen gd;
}.

Record groups_wf (fs : ext2_filsys) : Prop := {
  gw_ipg : 0 < s_inodes_per_group (f_super fs);
  gw_bpg : 8 ≤ s_blocks_per_group (f_super fs);
  gw_first : s_first_data_block (f_super fs) < ext2fs_blocks_count (f_super fs);
  gw_groups : f_group_desc_count fs =
    (ext2fs_blocks_count (f_super fs) - s_first_data_block (f_super fs) - 1) / s_blocks_per_group (f_super fs) + 1;
  gw_count : f_group_desc_count fs < 2 ^ 32;
  gw_inodes : f_group_desc_count fs * s_inodes_per_group (f_super fs) = s_inodes_count (f_super fs);
}.

(** Opening sets and clears some flags, the others are those it was called with. *)
Definition open_changes : Z :=
  Z.lor (Z.lor EXT2_FLAG_MASTER_SB_ONLY EXT2_FLAG_NOFREE_ON_ERROR) (Z.lor EXT2_FLAG_DIRTY EXT2_FLAG_CHANGED).
Definition kept_flags (flags : Z) (fs : ext2_filsys) : Prop :=
  ∀ b, Z.land open_changes b = 0 → has (f_flags fs) b = has flags b.

Record opened_wf (flags : Z) (fs : ext2_filsys) : Prop := {
  ow_super : super_wf (f_super fs);
  ow_magic : s_magic (f_super fs) = EXT2_SUPER_MAGIC;
  ow_blocksize : ∃ k, 0 ≤ k ≤ 6 ∧ f_blocksize fs = 2 ^ (10 + k);
  ow_same_size : f_blocksize fs = EXT2_BLOCK_SIZE (f_super fs);
  ow_inode_size : 128 ≤ EXT2_INODE_SIZE (f_super fs) ≤ f_blocksize fs ∧ power_of_2 (EXT2_INODE_SIZE (f_super fs));
  ow_seed : word (f_csum_seed fs);
  ow_inode_blocks : f_inode_blocks_per_group fs = inode_blocks_of (f_super fs);
  ow_no_cache : f_icache fs = None;
  ow_flags : kept_flags flags fs;
  ow_csum : has flags EXT2_FLAG_IGNORE_CSUM_ERRORS = false → has flags EXT2_FLAG_SHARE_DUP = false →
    ext2fs_superblock_csum_verify fs (f_super fs) = true;
  ow_groups : has_feature_journal_dev (f_super fs) = false → groups_wf fs;
  ow_no_groups : has_feature_journal_dev (f_super fs) = true → f_group_desc_count fs = 0;
  ow_descs : has_feature_journal_dev (f_super fs) = false → has flags EXT2_FLAG_SUPER_ONLY = false →
    ∃ gd, descs_read fs gd;
}.

Lemma land_pred_power n : 0 < n → Z.land n (n - 1) = 0 → power_of_2 n.
Proof.
  intros Hn Hl. exists (Z.log2 n). split; [apply Z.log2_nonneg|].
  destruct (Z.log2_spec n Hn) as [H1 H2]. destruct (decide (n = 2 ^ Z.log2 n)) as [|Hne]; [done|exfalso].
  assert (E : Z.testbit (Z.land n (n - 1)) (Z.log2 n) = true).
  { rewrite Z.land_spec, Z.bit_log2 by done. simpl.
    assert (E : Z.log2 (n - 1) = Z.log2 n).
    { apply Z.log2_unique; [apply Z.log2_nonneg|lia]. }
    rewrite <- E. apply Z.bit_log2. assert (0 < 2 ^ Z.log2 n) by (apply Z.pow_pos_nonneg; [lia|apply Z.log2_nonneg]). lia. }
  by rewrite Hl, Z.bits_0 in E.
Qed.

Lemma power_land_7 n : power_of_2 n → 8 ≤ n → Z.land n (Z.lnot 7) = n.
Proof.
  intros (k & Hk & ->) H8. assert (3 ≤ k).
  { destruct (Z.le_gt_cases 3 k); [done|]. assert (2 ^ k ≤ 2 ^ 2) by (apply Z.pow_le_mono_r; lia). lia. }
  apply Z.bits_inj'. intros i Hi. rewrite Z.land_spec, Z.lnot_spec by done.
  change 7 with (Z.ones 3). destruct (decide (i < 3)).
  - rewrite Z.pow2_bits_false by lia. done.
  - rewrite Z.ones_spec_high by lia. by rewrite andb_true_r.
Qed.

Lemma log_block_size_eq k : 0 ≤ k ≤ 6 → i32 (Z.shiftl 1024 k) = 2 ^ (10 + k).
Proof.
  intros Hk. rewrite Z.shiftl_mul_pow2, Z.pow_add_r by lia. change (2 ^ 10) with 1024.
  assert (2 ^ k ≤ 2 ^ 6) by (apply Z.pow_le_mono_r; lia). assert (0 < 2 ^ k) by (apply Z.pow_pos_nonneg; lia).
  apply i32_small. lia.
Qed.

(** What the checks of the sizes leave. *)
Lemma check_sizes_ok flags sb : super_wf sb → check_sizes flags sb = 0 →
  (∃ k, 0 ≤ k ≤ 6 ∧ EXT2_BLOCK_SIZE sb = 2 ^ (10 + k)) ∧
  (128 ≤ EXT2_INODE_SIZE sb ≤ EXT2_BLOCK_SIZE sb ∧ power_of_2 (EXT2_INODE_SIZE sb)) ∧
  (has flags EXT2_FLAG_IGNORE_SB_ERRORS = false →
   EXT2_DESC_SIZE sb = Z.land (EXT2_DESC_SIZE sb) (Z.lnot 7) ∧ 32 ≤ EXT2_DESC_SIZE sb ≤ 1024 ∧
   (has_feature_64bit sb = true → 64 ≤ EXT2_DESC_SIZE sb)).
Proof.
  intros Hw. unfold check_sizes.
  destruct (Z.ltb_spec (16 - 10) (s_log_block_size sb)); [done|].
  destruct (_ || _); [done|]. destruct (_ && _); [done|]. destruct (_ && _); [done|]. unfold EXT2_GOOD_OLD_INODE_SIZE.
  destruct (Z.ltb_spec (EXT2_INODE_SIZE sb) 128); [done|].
  destruct (Z.ltb_spec (EXT2_BLOCK_SIZE sb) (EXT2_INODE_SIZE sb)); [done|]. cbn [orb].
  destruct (Z.eqb_spec (Z.land (EXT2_INODE_SIZE sb) (EXT2_INODE_SIZE sb - 1)) 0) as [Hl|]; cbn [negb]; [|done].
  intros Hd. split; [|split].
  - exists (s_log_block_size sb). assert (0 ≤ s_log_block_size sb) by (apply fld4_bound; done).
    split; [lia|]. apply log_block_size_eq. lia.
  - split; [lia|]. apply land_pred_power; [lia|done].
  - intros Hi. rewrite Hi in Hd. cbn [negb andb] in Hd. unfold EXT2_DESC_SIZE.
    destruct (has_feature_64bit sb); [|split; [done|]; unfold EXT2_MIN_DESC_SIZE; split; [lia|done]].
    cbn [andb] in Hd. unfold EXT2_MIN_DESC_SIZE_64BIT, EXT2_MAX_DESC_SIZE in Hd.
    destruct (Z.ltb_spec (s_desc_size sb) 64); [done|]. destruct (Z.ltb_spec 1024 (s_desc_size sb)); [done|].
    cbn [orb] in Hd. rewrite u32_small in Hd by lia.
    destruct (Z.eqb_spec (Z.land (s_desc_size sb) (s_desc_size sb - 1)) 0) as [Hl'|]; [|done].
    split; [|lia]. symmetry. apply power_land_7; [apply land_pred_power; [lia|done]|lia].
Qed.

(** ** Opening is safe *)

(** What the channel promises of the size of what it reads. *)
Class IoSized (W : Type) `{IoChannel W} : Prop := {
  io_read_size bs blk n w d w' :
    0 < bs → io_read_blk64 bs blk n w = ((0, d), w') →
    zlen d = (if n <? 0 then - n else n * bs) ∧ Forall is_byte d;
}.

Lemma has_desc_size sb : EXT2_DESC_SIZE sb ≠ 0 →
  EXT2_DESC_PER_BLOCK sb = Ret (EXT2_BLOCK_SIZE sb / EXT2_DESC_SIZE sb).
Proof. intros Hd. unfold EXT2_DESC_PER_BLOCK. destruct (Z.eqb_spec (EXT2_DESC_SIZE sb) 0); done. Qed.

Lemma descriptor_block_loc_total fs b i :
  EXT2_DESC_SIZE (f_super fs) ≠ 0 → ∃ r, ext2fs_descriptor_block_loc2 fs b i = Ret r.
Proof.
  intros Hd. unfold ext2fs_descriptor_block_loc2. case_match; [by eexists|].
  rewrite has_desc_size by done. cbn [obind].
  destruct (bg_has_super_total fs (u32 (EXT2_BLOCK_SIZE (f_super fs) / EXT2_DESC_SIZE (f_super fs) * i)))
    as [r1 ->]; [apply u32_bound|]. cbn [obind].
  match goal with |- context [if ?c then _ else _] => destruct c end; [|by eexists].
  match goal with |- context [ext2fs_bg_has_super fs ?g] =>
    destruct (bg_has_super_total fs g) as [r2 ->]; [apply u32_bound|] end.
  by eexists.
Qed.

Lemma div_ceil_eq a b : 0 < a → ext2fs_div_ceil a b = (a - 1) / b + 1.
Proof. intros Ha. unfold ext2fs_div_ceil. destruct (Z.eqb_spec a 0); [lia|done]. Qed.

(** The groups that pass the checks, and the room that their descriptors take. *)
Lemma check_groups_ok flags sb : super_wf sb → has flags EXT2_FLAG_IGNORE_SB_ERRORS = false →
  0 < EXT2_DESC_SIZE sb → 0 < EXT2_BLOCK_SIZE sb →
  ∃ r, check_groups flags sb = Ret r ∧
  match r with
  | inl e => e ≠ 0
  | inr (groups, desc_blocks) =>
      8 ≤ s_blocks_per_group sb ∧ s_first_data_block sb < ext2fs_blocks_count sb ∧
      groups = (ext2fs_blocks_count sb - s_first_data_block sb - 1) / s_blocks_per_group sb + 1 ∧
      0 < groups < 2 ^ 32 ∧ groups * s_inodes_per_group sb = s_inodes_count sb ∧
      0 < desc_blocks ∧ groups * EXT2_DESC_SIZE sb ≤ desc_blocks * EXT2_BLOCK_SIZE sb
  end.
Proof.
  intros Hw Hi Hd Hb. unfold check_groups. rewrite Hi, has_desc_size by lia. cbn [obind negb andb].
  destruct (Z.ltb_spec (s_blocks_per_group sb) 8) as [|H8]; [eexists; split; [done|discriminate]|].
  cbn [orb]. case_match; [eexists; split; [done|discriminate]|].
  destruct (Z.eqb_spec (EXT2_BLOCK_SIZE sb / EXT2_DESC_SIZE sb) 0) as [|Hdpb]; [eexists; split; [done|discriminate]|].
  destruct (Z.leb_spec (ext2fs_blocks_count sb) (s_first_data_block sb)); [eexists; split; [done|discriminate]|].
  cbn [orb].
  assert (Hfst : 0 ≤ s_first_data_block sb < 2 ^ 32) by (by apply fld4_bound).
  assert (Hc : 0 ≤ ext2fs_blocks_count sb < 2 ^ 64) by (by apply get_hilo_64).
  rewrite u64_small, div_ceil_eq by lia.
  set (groups := (ext2fs_blocks_count sb - s_first_data_block sb - 1) / s_blocks_per_group sb + 1).
  assert (0 < groups) by (assert (0 ≤ (ext2fs_blocks_count sb - s_first_data_block sb - 1) / s_blocks_per_group sb)
    by (apply Z.div_pos; lia); lia).
  destruct (Z.eqb_spec (Z.shiftr groups 32) 0) as [Hs|]; cbn [negb]; [|eexists; split; [done|discriminate]].
  assert (groups < 2 ^ 32).
  { rewrite Z.shiftr_div_pow2 in Hs by lia. pose proof (Z.div_mod groups (2 ^ 32)).
    pose proof (Z.mod_pos_bound groups (2 ^ 32)). lia. }
  assert (0 ≤ s_inodes_per_group sb < 2 ^ 32) by (by apply fld4_bound).
  rewrite u64_small by nia.
  destruct (Z.eqb_spec (groups * s_inodes_per_group sb) (s_inodes_count sb)); cbn [negb];
    [|eexists; split; [done|discriminate]].
  case_match; [eexists; split; [done|discriminate]|].
  eexists. split; [done|]. cbv iota beta.
  rewrite div_ceil_eq by lia.
  set (dpb := EXT2_BLOCK_SIZE sb / EXT2_DESC_SIZE sb) in *.
  assert (0 < dpb) by (assert (0 ≤ dpb) by (apply Z.div_pos; lia); lia).
  assert (dpb * EXT2_DESC_SIZE sb ≤ EXT2_BLOCK_SIZE sb) by (rewrite Z.mul_comm; apply Z.mul_div_le; lia).
  assert (0 ≤ (groups - 1) / dpb) by (apply Z.div_pos; lia).
  assert (groups ≤ ((groups - 1) / dpb + 1) * dpb).
  { pose proof (Z.div_mod (groups - 1) dpb). pose proof (Z.mod_pos_bound (groups - 1) dpb). lia. }
  split_and!; try lia. nia.
Qed.

(** *** The table of descriptors in memory *)
Section Table.
  Context `{Machine} {W : Type} `{IoChannel W}.

(** A function of a descriptor that answers on every one of [n] bytes or more. *)
Definition desc_total (n : nat) {A} (f : bytes → outcome A) : Prop :=
  ∀ d, Forall is_byte d → (n <= length d)%nat → ∃ a, f d = Ret a.
Definition desc_update (n : nat) (f : bytes → outcome bytes) : Prop :=
  ∀ d, Forall is_byte d → (n <= length d)%nat →
    ∃ d', f d = Ret d' ∧ length d' = length d ∧ Forall is_byte d'.

Lemma desc_set_update m n off v : (off + n <= m)%nat → desc_update m (desc_set n off v).
Proof.
  intros Ho d Hb Hl. unfold desc_set. rewrite bool_decide_true by lia.
  eexists. split; [done|]. split; [apply set_fld_length; lia|by apply set_fld_bytes].
Qed.
Lemma pair_set_update m w n lo hi v : (lo + n <= m)%nat → (w = true → hi + n <= m)%nat →
  desc_update m (pair_set w n lo hi v).
Proof.
  intros Hlo Hhi d Hb Hl. unfold pair_set.
  destruct (desc_set_update m n lo v Hlo d Hb Hl) as (d1 & -> & Hl1 & Hb1). cbn [obind].
  destruct w; [|by exists d1].
  destruct (desc_set_update m n hi (Z.shiftr v (8 * Z.of_nat n)) (Hhi eq_refl) d1 Hb1) as (d2 & -> & Hl2 & Hb2); [lia|].
  exists d2. split; [done|]. split; [lia|done].
Qed.
Lemma flags_clear_update m v : (20 <= m)%nat →
  desc_update m (fun d => let? f := desc_get 2 bg_flags d in desc_set 2 bg_flags (Z.land f (Z.lnot v)) d).
Proof.
  intros Hm d Hb Hl. unfold desc_get. rewrite bool_decide_true by (unfold bg_flags; lia). cbn [obind].
  apply (desc_set_update m); [unfold bg_flags; lia|done|done].
Qed.

Context (fs : ext2_filsys).
Abbreviation ds := (Z.to_nat (desc_size_of fs)).

Lemma with_desc_total {A} (f : bytes → outcome A) gd g (s : state W) : descs_read fs gd →
  0 ≤ g < f_group_desc_count fs → desc_total ds f →
  ∃ a, with_desc fs g f s = Ret (a, s) ∧
    ∃ k, k = Z.to_nat (u32 (g * desc_size_of fs)) ∧ (k + ds <= length gd)%nat ∧ f (drop k gd) = Ret a.
Proof.
  intros Hr Hg Hf. pose proof (rd_room _ _ Hr). pose proof (rd_32 _ _ Hr). pose proof (rd_size _ _ Hr).
  unfold with_desc, ext2fs_group_desc. rewrite has_desc_size by lia.
  unfold bind, lift. cbn [obind]. destruct (Z.ltb_spec (f_group_desc_count fs) g); [lia|].
  rewrite (rd_desc _ _ Hr). unfold ret. cbn [obind].
  set (k := Z.to_nat (u32 (g * desc_size_of fs))).
  assert ((k + ds <= length gd)%nat).
  { assert ((g + 1) * desc_size_of fs ≤ f_group_desc_count fs * desc_size_of fs) by (apply Z.mul_le_mono_nonneg_r; lia).
    assert (u32 (g * desc_size_of fs) ≤ g * desc_size_of fs) by (apply Z.mod_le; nia).
    pose proof (u32_bound (g * desc_size_of fs)). subst k. lia. }
  destruct (Hf (drop k gd)) as [a E]; [apply Forall_drop, (rd_bytes _ _ Hr)|rewrite length_drop; lia|].
  exists a. rewrite E. cbn [obind]. split; [done|]. by exists k.
Qed.

Lemma set_desc_total f gd g (s : state W) : descs_read fs gd →
  0 ≤ g < f_group_desc_count fs → desc_update ds f →
  ∃ gd', set_desc fs g f s = Ret (set_group_desc (Some gd') fs, s) ∧
    descs_read (set_group_desc (Some gd') fs) gd'.
Proof.
  intros Hr Hg Hf. unfold set_desc.
  destruct (with_desc_total f gd g s Hr Hg) as (d & E & k & Hk & Hl & Ef).
  { intros d0 Hb0 Hl0. destruct (Hf d0 Hb0 Hl0) as (d' & ? & _). by exists d'. }
  rewrite (bind_eq _ _ _ _ _ E), (rd_desc _ _ Hr), <- Hk.
  destruct (Hf (drop k gd)) as (d' & E' & Hl' & Hb'); [apply Forall_drop, (rd_bytes _ _ Hr)|rewrite length_drop; lia|].
  rewrite Ef in E'. injection E' as ->. rewrite length_drop in Hl'.
  eexists. split; [done|].
  assert (Hlen : length (take k gd ++ d') = length gd) by (rewrite length_app, length_take; lia).
  destruct Hr. split; try done.
  - apply Forall_app. split; [by apply Forall_take|done].
  - by rewrite Hlen.
  - by rewrite Hlen.
Qed.
End Table.

Section Safe.
  Context `{Machine} {W : Type} `{IoManager W} `{!IoSized W}.

Lemma desc_csum_total fs g : 32 ≤ EXT2_DESC_SIZE (f_super fs) →
  desc_total (Z.to_nat (EXT2_DESC_SIZE (f_super fs))) (desc_csum fs g).
Proof.
  intros Hds d Hb Hl. unfold desc_csum. destruct (has_feature_metadata_csum (f_super fs)).
  - destruct (desc_set_update 32 2 bg_checksum 0 ltac:(by apply Nat.leb_le) d Hb) as (d1 & -> & Hl1 & _); [lia|].
    cbn [obind]. destruct (slice_is_Some 0 (EXT2_DESC_SIZE (f_super fs)) d1) as [x ->]; [lia..|]. by eexists.
  - destruct (slice_is_Some 0 0x1e d) as [x ->]; [lia..|]. cbn [of_option obind].
    destruct (Z.ltb_spec 0x20 (EXT2_DESC_SIZE (f_super fs))); [|by eexists].
    destruct (slice_is_Some 0x20 (EXT2_DESC_SIZE (f_super fs) - 0x20) d) as [y ->]; [lia..|]. by eexists.
Qed.

(** One group of the recovery. *)
Lemma clear_uninit_total n g fs gd s : descs_read fs gd → 0 ≤ g → g + Z.of_nat n ≤ f_group_desc_count fs →
  total (clear_uninit n g fs) (fun fs' _ => ∃ gd', fs' = set_group_desc (Some gd') fs ∧ descs_read fs' gd') s.
Proof.
  revert g fs gd s. induction n as [|n IH]; intros g fs gd s Hr Hg Hn.
  { apply total_ret. exists gd. split; [|done]. destruct fs. simpl in *. by rewrite <- (rd_desc _ _ Hr). }
  cbn [clear_uninit]. assert (Hgc : 0 ≤ g < f_group_desc_count fs) by lia. pose proof (rd_32 _ _ Hr) as H32.
  assert (H20 : (20 <= Z.to_nat (desc_size_of fs))%nat) by lia.
  destruct (set_desc_total fs _ gd g s Hr Hgc (flags_clear_update _ 2 H20)) as (gd1 & E1 & Hr1).
  apply total_bind. unfold total at 1. unfold ext2fs_bg_flags_clear at 1. rewrite E1.
  destruct (set_desc_total _ _ gd1 g s Hr1 Hgc (flags_clear_update _ 1 H20)) as (gd2 & E2 & Hr2).
  apply total_bind. unfold total at 1. unfold ext2fs_bg_flags_clear at 1. rewrite E2.
  change (set_group_desc (Some gd2) (set_group_desc (Some gd1) fs)) with (set_group_desc (Some gd2) fs) in *.
  destruct (set_desc_total _ (pair_set (wide fs) 2 bg_itable_unused bg_itable_unused_hi 0) gd2 g s Hr2 Hgc)
    as (gd3 & E3 & Hr3).
  { apply pair_set_update; [change (desc_size_of (set_group_desc (Some gd2) fs)) with (desc_size_of fs);
      unfold bg_itable_unused; lia|].
    intros Hw. pose proof (rd_wide _ _ Hr Hw). unfold bg_itable_unused_hi.
    change (desc_size_of (set_group_desc (Some gd2) fs)) with (desc_size_of fs). lia. }
  apply total_bind. unfold total at 1. unfold ext2fs_bg_itable_unused_set at 1.
  change (wide (set_group_desc (Some gd2) fs)) with (wide fs). rewrite E3.
  change (set_group_desc (Some gd3) (set_group_desc (Some gd2) fs)) with (set_group_desc (Some gd3) fs) in *.
  apply total_bind.
  assert (Hnext : ∀ gd4, descs_read (set_group_desc (Some gd4) fs) gd4 →
    total (clear_uninit n (g + 1) (set_group_desc (Some gd4) fs))
      (fun fs' _ => ∃ gd', fs' = set_group_desc (Some gd') fs ∧ descs_read fs' gd') s).
  { intros gd4 Hr4. eapply total_mono; [|by eapply IH; [exact Hr4|lia|simpl; lia]].
    intros fs' _ (gd' & -> & Hr'). by exists gd'. }
  unfold ext2fs_group_desc_csum_set. case_match; [apply total_ret; by apply Hnext|].
  apply total_bind. unfold total at 1, ext2fs_group_desc_csum.
  pose proof (rd_size _ _ Hr3) as Hsz.
  destruct (with_desc_total (set_group_desc (Some gd3) fs) (desc_csum (set_group_desc (Some gd3) fs) g) gd3 g s Hr3 Hgc)
    as (crc & -> & _).
  { rewrite <- Hsz. apply desc_csum_total. rewrite Hsz. apply (rd_32 _ _ Hr3). }
  destruct (set_desc_total _ (desc_set 2 bg_checksum crc) gd3 g s Hr3 Hgc) as (gd4 & E4 & Hr4).
  { apply desc_set_update. change (desc_size_of (set_group_desc (Some gd3) fs)) with (desc_size_of fs).
    unfold bg_checksum. lia. }
  unfold total at 1, ext2fs_bg_checksum_set. rewrite E4. by apply Hnext.
Qed.

(** *** Reading *)
Lemma read_descs_total n b i fs dest s : EXT2_DESC_SIZE (f_super fs) ≠ 0 → 0 < f_blocksize fs →
  Forall is_byte dest →
  total (read_descs n b i fs dest) (fun '(e, d) _ =>
    Forall is_byte d ∧ (e = 0 → zlen d = zlen dest + Z.of_nat n * f_blocksize fs)) s.
Proof.
  intros Hd Hbs. revert i dest s. induction n as [|n IH]; intros i dest s Hb; cbn [read_descs].
  { apply total_ret. split; [done|]. intros _. lia. }
  destruct (descriptor_block_loc_total fs b i Hd) as [blk E].
  apply total_bind. eapply total_lift; [exact E|]. apply total_bind, total_sys. intros [e d] w' Er.
  destruct (Z.eqb_spec e 0) as [->|]; cbn [negb]; [|apply total_ret; by split].
  destruct (io_read_size _ _ _ _ _ _ Hbs Er) as [Hl Hdb]. simpl in Hl.
  eapply total_mono; [|apply IH, Forall_app; done]. intros [e' d'] _ [? Hl']. split; [done|].
  intros ->. rewrite Hl', length_app by done. lia.
Qed.

Lemma read_group_desc_total flags b fs s : EXT2_DESC_SIZE (f_super fs) ≠ 0 → 0 < f_blocksize fs →
  0 ≤ f_desc_blocks fs < 2 ^ 31 → super_wf (f_super fs) →
  total (read_group_desc flags b fs) (fun '(e, d) _ =>
    e = 0 → Forall is_byte d ∧ zlen d = f_desc_blocks fs * f_blocksize fs) s.
Proof.
  intros Hd Hbs Hdb Hw. unfold read_group_desc.
  set (m := if _ && negb _ then _ else _).
  assert (Hm : 0 ≤ m ≤ f_desc_blocks fs).
  { unfold m. pose proof (fld4_bound 0x104 _ Hw : 0 ≤ s_first_meta_bg (f_super fs) < 2 ^ 32). case_match; lia. }
  clearbody m.
  assert (Hrest : ∀ b dest s, Forall is_byte dest → zlen dest = m * f_blocksize fs →
    total (read_descs (Z.to_nat (f_desc_blocks fs - m)) b m fs dest) (fun '(e, d) _ =>
      e = 0 → Forall is_byte d ∧ zlen d = f_desc_blocks fs * f_blocksize fs) s).
  { intros b' dest s' Hb Hl. eapply total_mono; [|by apply read_descs_total].
    intros [e d] _ [? Hl'] ->. split; [done|]. rewrite Hl', Hl, Z2Nat.id by (done || lia). ring. }
  destruct (Z.eqb_spec m 0) as [Hm0|Hm0].
  { apply total_bind, total_ret. apply Hrest; [done|]. rewrite Hm0. done. }
  destruct (Z.leb_spec (2 ^ 31) m); [lia|]. apply total_bind, total_sys. intros [e d] w' Er.
  destruct (Z.eqb_spec e 0) as [->|]; cbn [negb]; [|by apply total_ret].
  destruct (io_read_size _ _ _ _ _ _ Hbs Er) as [Hl Hdby].
  destruct (Z.ltb_spec m 0); [lia|]. by apply Hrest.
Qed.

Lemma read_super_total n bs b keep fs s : 0 < bs →
  total (read_super n bs b keep fs) (fun '(r, fs') _ =>
    match r with
    | inl e => e ≠ 0
    | inr e => super_wf (f_super fs') ∧
        (e = 0 → has (f_flags fs) EXT2_FLAG_IGNORE_CSUM_ERRORS = false →
         ext2fs_superblock_csum_verify fs' (f_super fs') = true)
    end ∧
    f_flags fs' = f_flags fs ∧ f_csum_seed fs' = f_csum_seed fs ∧ f_icache fs' = f_icache fs ∧
    f_group_desc_count fs' = f_group_desc_count fs) s.
Proof.
  intros Hbs. revert fs s. induction n as [|n IH]; intros fs s; cbn [read_super];
    apply total_bind, total_sys; intros [e d] w' Er;
    (destruct (Z.eqb_spec e 0) as [->|]; cbn [negb]; [|by apply total_ret]);
    destruct (io_read_size _ _ _ _ _ _ Hbs Er) as [Hl Hb]; change (zlen d = 1024) in Hl;
    (assert (Hw : super_wf (f_super (set_sb_read d keep fs))) by (split; [simpl; lia|done]));
    (change (f_flags (set_sb_read d keep fs)) with (f_flags fs));
    (destruct (has _ _) eqn:Ei; [apply total_ret; cbv beta iota; by split_and!|]);
    (destruct (ext2fs_superblock_csum_verify _ _) eqn:Ev; [apply total_ret; cbv beta iota; by split_and!|]).
  - apply total_ret; cbv beta iota; by split_and!.
  - eapply total_mono; [|apply IH]. intros [[e|e] fs'] s' Hr; [exact Hr|].
    destruct Hr as [[? Hc] ?]. split; [split; [done|]|done]. intros He _. by apply Hc.
Qed.

(** *** The end of the function *)
Definition open_post (flags : Z) (r : opened) : Prop :=
  match r with
  | (e, ofs) => (e = 0 → ∃ fs, ofs = Some fs ∧ opened_wf flags fs) ∧
                (e ≠ 0 → ofs = None ∨ has flags EXT2_FLAG_NOFREE_ON_ERROR = true)
  end.

Lemma cleanup_total flags io fs e s : e ≠ 0 → total (cleanup flags io fs e) (fun r _ => open_post flags r) s.
Proof.
  intros He. unfold cleanup. destruct (has flags EXT2_FLAG_NOFREE_ON_ERROR) eqn:E.
  { apply total_ret. split; [done|by right]. }
  apply total_bind. destruct io; [apply total_sys; intros _ w _|]; apply total_ret; (split; [done|by left]).
Qed.

(** The fields of the superblock that the well-formedness reads are elsewhere. *)
Lemma ro_compat_other v sb : super_wf sb →
  let sb' := set_fld 4 0x64 v sb in
  super_wf sb' ∧ ∀ n off, (off + n <= 0x64 ∨ 0x68 <= off)%nat → fld n off sb' = fld n off sb.
Proof.
  intros Hw. split; [apply set_fld_wf; [done|by apply Nat.leb_le]|].
  intros n off Ho. apply fld_set_other; [destruct Hw as [-> _]; by apply Nat.leb_le|]. lia.
Qed.

Lemma has_lor_other a b x : Z.land b x = 0 → has (Z.lor a b) x = has a x.
Proof. intros E. unfold has. by rewrite Z.land_lor_distr_l, E, Z.lor_0_r. Qed.
Lemma has_clear_other a b x : Z.land b x = 0 → has (Z.land a (Z.lnot b)) x = has a x.
Proof.
  intros E. unfold has. do 2 f_equal. apply Z.bits_inj'. intros i Hi.
  rewrite !Z.land_spec, Z.lnot_spec by done. apply (f_equal (fun z => Z.testbit z i)) in E.
  rewrite Z.land_spec, Z.bits_0 in E. destruct (Z.testbit a i), (Z.testbit b i), (Z.testbit x i); done.
Qed.
Lemma changes_bit c b : Z.land c open_changes = c → Z.land open_changes b = 0 → Z.land c b = 0.
Proof. intros Hc Hb. by rewrite <- Hc, <- Z.land_assoc, Hb, Z.land_0_r. Qed.
Lemma kept_set flags fs c : Z.land c open_changes = c → kept_flags flags fs →
  kept_flags flags (set_flags (Z.lor (f_flags fs) c) fs).
Proof. intros Hc Hk b Hb. simpl. rewrite has_lor_other by (by eapply changes_bit). by apply Hk. Qed.
Lemma kept_clear flags fs c : Z.land c open_changes = c → kept_flags flags fs →
  kept_flags flags (set_flags (Z.land (f_flags fs) (Z.lnot c)) fs).
Proof. intros Hc Hk b Hb. simpl. rewrite has_clear_other by (by eapply changes_bit). by apply Hk. Qed.

Lemma opened_wf_flags flags fs fl : opened_wf flags fs → kept_flags flags (set_flags fl fs) →
  opened_wf flags (set_flags fl fs).
Proof.
  intros [] Hk. split; try done.
  - intros Hj. by destruct (ow_groups0 Hj).
  - intros Hj Hs. destruct (ow_descs0 Hj Hs) as [gd []]. by exists gd.
Qed.

Lemma opened_wf_shared flags fs v : opened_wf flags fs → has flags EXT2_FLAG_SHARE_DUP = true →
  opened_wf flags (set_super (set_fld 4 0x64 v (f_super fs)) fs).
Proof.
  intros [Hw Hmagic Hbs Hsame Hino Hseed Hib Hic Hfl _ Hg Hng Hd] Hdup.
  destruct (ro_compat_other v _ Hw) as [Hw' E].
  assert (E1 : ∀ n off, (off + n <=? 0x64)%nat || (0x68 <=? off)%nat = true →
    fld n off (set_fld 4 0x64 v (f_super fs)) = fld n off (f_super fs)).
  { intros n off [Ho%Nat.leb_le|Ho%Nat.leb_le]%orb_prop; apply E; lia. }
  clear E. set (sb' := set_fld 4 0x64 v (f_super fs)) in *.
  assert (Ej : has_feature_journal_dev sb' = has_feature_journal_dev (f_super fs))
    by (unfold has_feature_journal_dev, s_feature_incompat; by rewrite E1).
  assert (E64 : has_feature_64bit sb' = has_feature_64bit (f_super fs))
    by (unfold has_feature_64bit, s_feature_incompat; by rewrite E1).
  assert (Eds : EXT2_DESC_SIZE sb' = EXT2_DESC_SIZE (f_super fs))
    by (unfold EXT2_DESC_SIZE, s_desc_size; by rewrite E64, E1).
  assert (Ebs : EXT2_BLOCK_SIZE sb' = EXT2_BLOCK_SIZE (f_super fs))
    by (unfold EXT2_BLOCK_SIZE, s_log_block_size; by rewrite E1).
  assert (Eis : EXT2_INODE_SIZE sb' = EXT2_INODE_SIZE (f_super fs))
    by (unfold EXT2_INODE_SIZE, s_rev_level, s_inode_size; by rewrite !E1).
  assert (Ebc : ext2fs_blocks_count sb' = ext2fs_blocks_count (f_super fs))
    by (unfold ext2fs_blocks_count, get_hilo; by rewrite E64, !E1).
  split; simpl; rewrite ?Ej, ?Ebs, ?Eis; try done.
  - unfold s_magic. by rewrite E1.
  - rewrite Hib. unfold inode_blocks_of, s_inodes_per_group. by rewrite Ebs, Eis, E1.
  - congruence.
  - intros Hj. destruct (Hg Hj).
    split; simpl; rewrite ?Ebc;
      unfold s_inodes_per_group, s_blocks_per_group, s_first_data_block, s_inodes_count in *; by rewrite ?E1.
  - intros Hj Hs. destruct (Hd Hj Hs) as [gd []]. exists gd.
    split; simpl; unfold wide, desc_size_of in *; simpl; rewrite ?Eds, ?E64; done.
Qed.

Lemma finish_open_total flags fs s : opened_wf flags fs →
  total (finish_open flags fs) (fun r _ => open_post flags r) s.
Proof.
  intros Hwf. pose proof (ow_flags _ _ Hwf EXT2_FLAG_SHARE_DUP eq_refl) as Hdup. unfold finish_open. apply total_bind.
  assert (Hrest : ∀ e s, total (if negb (e =? 0) then cleanup flags true (set_flags (Z.lor (f_flags fs) EXT2_FLAG_SKIP_MMP) fs) e else
      if has (f_flags fs) EXT2_FLAG_SHARE_DUP && negb (mem_ok sizeof_hashmap)
      then cleanup flags true fs EXT2_ET_NO_MEMORY else
      let fs := if has (f_flags fs) EXT2_FLAG_SHARE_DUP
                then set_super (set_fld 4 0x64 (Z.lor (s_feature_ro_compat (f_super fs)) 0x4000) (f_super fs)) fs
                else fs in
      ret (0, Some (set_flags (Z.land (f_flags fs) (Z.lnot EXT2_FLAG_NOFREE_ON_ERROR)) fs)))
      (fun r _ => open_post flags r) s).
  { intros e s'. destruct (Z.eqb_spec e 0); cbn [negb]; [|by apply cleanup_total].
    destruct (_ && _); [by apply cleanup_total|]. apply total_ret. split; [|done]. intros _.
    assert (Hwf' : opened_wf flags (if has (f_flags fs) EXT2_FLAG_SHARE_DUP
      then set_super (set_fld 4 0x64 (Z.lor (s_feature_ro_compat (f_super fs)) 0x4000) (f_super fs)) fs else fs)).
    { destruct (has (f_flags fs) EXT2_FLAG_SHARE_DUP) eqn:Ed; [|done]. by apply opened_wf_shared. }
    eexists. split; [done|]. apply opened_wf_flags; [exact Hwf'|].
    apply kept_clear; [done|apply (ow_flags _ _ Hwf')]. }
  destruct (has_feature_mmp _ && _ && _); [apply total_sys; intros e w _|apply total_ret]; apply Hrest.
Qed.

(** *** From the superblock to the descriptors *)

(** What the superblock has been checked for when the groups are looked at. *)
Record sizes_ok (flags : Z) (fs : ext2_filsys) : Prop := {
  so_super : super_wf (f_super fs);
  so_magic : s_magic (f_super fs) = EXT2_SUPER_MAGIC;
  so_block : ∃ k, 0 ≤ k ≤ 6 ∧ f_blocksize fs = 2 ^ (10 + k);
  so_same : f_blocksize fs = EXT2_BLOCK_SIZE (f_super fs);
  so_inode : 128 ≤ EXT2_INODE_SIZE (f_super fs) ≤ f_blocksize fs ∧ power_of_2 (EXT2_INODE_SIZE (f_super fs));
  so_desc : EXT2_DESC_SIZE (f_super fs) = desc_size_of fs ∧ 32 ≤ desc_size_of fs ≤ 1024 ∧
    (wide fs = true → 64 ≤ desc_size_of fs);
  so_seed : word (f_csum_seed fs);
  so_cache : f_icache fs = None;
  so_csum : has flags EXT2_FLAG_IGNORE_CSUM_ERRORS = false → ext2fs_superblock_csum_verify fs (f_super fs) = true;
  so_flags : kept_flags flags fs;
  so_inode_blocks : f_inode_blocks_per_group fs = inode_blocks_of (f_super fs);
}.

Lemma init_seed_ok flags fs : sizes_ok flags fs → sizes_ok flags (ext2fs_init_csum_seed fs).
Proof.
  intros []. unfold ext2fs_init_csum_seed.
  assert (Hset : ∀ x, word x → sizes_ok flags (set_csum_seed x fs)) by (by split).
  destruct (has_feature_csum_seed _); [apply Hset; apply (fld4_bound _ _ so_super0)|].
  destruct (_ || _); [|by split]. apply Hset, crc32c_word; [unfold word, ONES; lia|].
  by apply Forall_take, Forall_drop, so_super0.
Qed.

Lemma block_pos flags fs : sizes_ok flags fs → 1024 ≤ f_blocksize fs.
Proof.
  intros []. destruct so_block0 as (k & Hk & ->). rewrite Z.pow_add_r by lia.
  assert (0 < 2 ^ k) by (apply Z.pow_pos_nonneg; lia). lia.
Qed.

(** No allocation of two terabytes succeeds. *)
Context (Hmem : ∀ n, mem_ok n = true → n < 2 ^ 41).

Context (flags : Z) (Hsb : has flags EXT2_FLAG_IGNORE_SB_ERRORS = false).

Lemma open_groups_total superblock group_block fs s : sizes_ok flags fs →
  has_feature_journal_dev (f_super fs) = false →
  total (open_groups flags superblock group_block fs) (fun r _ => open_post flags r) s.
Proof.
  intros Hok Hj. unfold open_groups.
  destruct (Z.eqb_spec (s_inodes_per_group (f_super fs)) 0) as [|Hipg]; [by apply cleanup_total|].
  assert (Hsup : f_super (ext2fs_init_csum_seed fs) = f_super fs).
  { unfold ext2fs_init_csum_seed. by repeat case_match. }
  apply init_seed_ok in Hok. rewrite <- Hsup in Hj, Hipg. clear Hsup.
  generalize dependent (ext2fs_init_csum_seed fs). clear fs. intros fs Hok Hj Hipg.
  pose proof (block_pos _ _ Hok) as Hbs. pose proof (so_super _ _ Hok) as Hw.
  destruct (so_desc _ _ Hok) as (Hds & Hds2 & Hwide).
  destruct (check_groups_ok flags (f_super fs) Hw Hsb) as (r & Er & Hr);
    [lia|rewrite <- (so_same _ _ Hok); lia|].
  apply total_bind. eapply total_lift; [exact Er|]. clear Er.
  destruct r as [e|[groups desc_blocks]]; [by apply cleanup_total|].
  destruct Hr as (Hbpg & Hfirst & Hgroups & Hcount & Hinodes & Hdb & Hroom).
  set (fs1 := set_groups groups desc_blocks fs).
  assert (Hg : groups_wf fs1).
  { split; try done; try (simpl; lia).
    pose proof (fld4_bound 0x28 _ Hw : 0 ≤ s_inodes_per_group (f_super fs) < 2 ^ 32). simpl. lia. }
  assert (Hwf : ∀ ogd, (has flags EXT2_FLAG_SUPER_ONLY = false →
     ∃ gd, descs_read (set_stride (set_group_desc ogd fs1)) gd) →
     opened_wf flags (set_stride (set_group_desc ogd fs1))).
  { intros ogd Hogd. destruct Hok. split; try done; [by intros; apply so_csum0|by destruct Hg|]. intros Hj'. simpl in Hj'. congruence. }
  destruct (has flags EXT2_FLAG_SUPER_ONLY) eqn:Eso.
  { apply finish_open_total. destruct Hok. split; try done; [by intros; apply so_csum0|intros; simpl in *; congruence..]. }
  destruct (_ || negb (mem_ok _)) eqn:Em; [by apply cleanup_total|].
  apply orb_false_elim in Em as [_ Em%negb_false_iff]. apply Hmem in Em.
  change (f_blocksize fs1) with (f_blocksize fs) in *.
  assert (desc_blocks < 2 ^ 31) by nia.
  apply total_bind. eapply total_mono; [|apply (read_group_desc_total flags group_block fs1); [simpl; lia..|done]].
  intros [e dest] s1 Hread. cbv beta iota zeta.
  destruct (Z.eqb_spec e 0) as [->|]; cbn [negb]; [|by apply cleanup_total]. specialize (Hread eq_refl).
  set (fs2 := set_stride (set_group_desc (Some dest) fs1)).
  assert (Hdr : descs_read fs2 dest).
  { destruct Hread as [Hb Hl]. split; [done|done|exact Hl|exact Hds|exact (proj1 Hds2)|exact Hwide|]. rewrite Hl. simpl.
    change (desc_size_of fs2) with (desc_size_of fs). rewrite <- Hds, (so_same _ _ Hok). done. }
  apply total_bind. destruct (_ && ext2fs_has_group_desc_csum fs2); cycle 1.
  { apply total_ret, finish_open_total. apply Hwf. by exists dest. }
  apply total_bind. eapply total_mono; [|apply (clear_uninit_total _ 0 fs2 dest); [done|lia|]].
  - intros fs3 s3 (gd' & -> & Hr'). apply total_ret.
    assert (Hwf3 : opened_wf flags (set_group_desc (Some gd') fs2)).
    { change (set_group_desc (Some gd') fs2) with (set_stride (set_group_desc (Some gd') fs1)). apply Hwf.
      intros _. by exists gd'. }
    apply finish_open_total. destruct (has (f_flags (set_group_desc (Some gd') fs2)) EXT2_FLAG_RW); [|done].
    apply opened_wf_flags; [done|]. apply kept_set; [done|apply (ow_flags _ _ Hwf3)].
  - rewrite Z2Nat.id by (simpl; lia). lia.
Qed.

Lemma open_super_total superblock group_block block_size retval fs s : super_wf (f_super fs) →
  word (f_csum_seed fs) → f_icache fs = None → kept_flags flags fs →
  (retval = 0 → has flags EXT2_FLAG_IGNORE_CSUM_ERRORS = false →
   ext2fs_superblock_csum_verify fs (f_super fs) = true) →
  total (open_super flags superblock group_block block_size retval fs) (fun r _ => open_post flags r) s.
Proof.
  intros Hw Hseed Hic Hdup Hcs. unfold open_super. case_match; [by apply cleanup_total|].
  destruct (Z.eqb_spec (check_super flags retval fs) 0) as [Hc|]; cbn [negb]; [|by apply cleanup_total].
  case_match; [by apply cleanup_total|]. case_match; [by apply cleanup_total|].
  assert (Hok : sizes_ok flags (set_sizes fs)).
  { unfold check_super in Hc.
    destruct (Z.eqb_spec (s_magic (f_super fs)) EXT2_SUPER_MAGIC) as [Hm|]; [|done].
    destruct (Z.eqb_spec retval 0); [|done]. cbn [negb] in Hc. specialize (Hcs ltac:(done)).
    destruct (_ <? _); [done|].
    destruct (Z.eqb_spec (check_features flags (f_super fs)) 0); cbn [negb] in Hc; [|done].
    destruct (check_sizes_ok flags (f_super fs) Hw Hc) as (Hb & Hi & Hd). specialize (Hd Hsb).
    split; try done. change (desc_size_of (set_sizes fs)) with (desc_size_of fs).
    change (wide (set_sizes fs)) with (has_feature_64bit (f_super fs)).
    change (f_super (set_sizes fs)) with (f_super fs). unfold desc_size_of.
    destruct Hd as (Hd1 & Hd2 & Hd3). rewrite <- Hd1. done. }
  destruct (has_feature_journal_dev (f_super (set_sizes fs))) eqn:Ej.
  - apply total_ret. split; [|done]. intros _. eexists. split; [done|]. destruct Hok.
    split; try done; [by intros; apply so_csum0|intros; simpl in *; congruence..].
  - by apply open_groups_total.
Qed.

Lemma open_at_total superblock block_size fs s : 0 ≤ block_size →
  word (f_csum_seed fs) → f_icache fs = None → f_flags fs = Z.lor flags EXT2_FLAG_MASTER_SB_ONLY →
  total (open_at flags superblock block_size fs) (fun r _ => open_post flags r) s.
Proof.
  intros Hbs Hseed Hic Hfl. unfold open_at.
  assert (Hk : ∀ bs b keep sb' g, 0 < bs → total (
    let! '(r, fs) := read_super 3 bs b keep fs in
    match r with
    | inl retval => cleanup flags true fs retval
    | inr retval => open_super flags sb' g block_size retval fs
    end) (fun r _ => open_post flags r) s).
  { intros bs b keep sb' g Hpos. apply total_bind. eapply total_mono; [|by apply read_super_total].
    intros [r fs'] s' (Hr & Hf & Hse & Hi & _). cbv beta iota.
    destruct r; [by apply cleanup_total|]. destruct Hr as [Hw Hc].
    apply open_super_total; [done|by rewrite Hse|by rewrite Hi| |].
    - intros x Hx. rewrite Hf, Hfl. apply has_lor_other. by apply (changes_bit EXT2_FLAG_MASTER_SB_ONLY).
    - intros Hz Hig. apply Hc; [done|]. rewrite Hfl. by rewrite has_lor_other. }
  destruct (Z.eqb_spec superblock 0); cbn [negb].
  - case_match; [by apply cleanup_total|]. by apply Hk.
  - destruct (Z.eqb_spec block_size 0); [by apply cleanup_total|]. apply Hk. lia.
Qed.

Lemma fs_open2_total name io_options superblock block_size s : 0 ≤ block_size →
  total (ext2fs_open2 name io_options flags superblock block_size) (fun r _ => open_post flags r) s.
Proof.
  intros Hbs. unfold ext2fs_open2. case_match; [apply total_ret; split; [done|by left]|].
  case_match; [by apply cleanup_total|].
  destruct (match io_options with None => _ | Some _ => _ end) as [device o].
  apply total_bind, total_sys. intros e w _.
  destruct (Z.eqb_spec e 0) as [->|]; cbn [negb]; [|by apply cleanup_total].
  apply total_bind.
  assert (Hrest : ∀ e s, total (open_channel flags superblock block_size (new_filsys flags) e) (fun r _ => open_post flags r) s).
  { clear w s. intros e s. unfold open_channel.
    destruct (Z.eqb_spec e 0) as [->|]; cbn [negb]; [|by apply cleanup_total].
    case_match; [by apply cleanup_total|].
    assert (word 0) by (unfold word; lia).
    destruct (has flags EXT2_FLAG_IMAGE_FILE); [|by apply open_at_total].
    case_match; [by apply cleanup_total|]. apply total_bind, total_sys. intros [e h] w Er.
    destruct (Z.eqb_spec e 0) as [->|]; cbn [negb]; [|by apply cleanup_total].
    case_match; [apply total_ret; split; [done|by left]|].
    destruct (io_read_size 1024 _ _ _ _ _ ltac:(done) Er) as [_ Hb].
    apply open_at_total; [apply (fld_bound 4 204 h Hb)|done..]. }
  destruct o; [apply total_sys; intros ? ? _|apply total_ret]; apply Hrest.
Qed.
End Safe.

(** ** Properties *)

(** What the theorems on groups and on descriptors ask of a file system. *)
Lemma opened_geometry flags fs : opened_wf flags fs → has_feature_journal_dev (f_super fs) = false →
  s_blocks_per_group (f_super fs) < 2 ^ 31 → geometry fs.
Proof.
  intros Hwf Hj Hb. destruct (ow_groups _ _ Hwf Hj). split; try done; [apply (ow_super _ _ Hwf)|lia].
Qed.
Lemma read_ready fs gd : descs_read fs gd → f_group_desc_count fs * desc_size_of fs < 2 ^ 32 → descs_ready fs gd.
Proof. intros [] ?. split; try done. lia. Qed.


(** C10. A file system that has been opened is well-formed: its block size is a power of 2 from
    1024 to 65536, the size of its inodes one from 128 to the size of a block; its groups cover
    its blocks and share out its inodes; every group has a descriptor of the right size in the
    table that was read; its superblock has passed the test of its checksum, unless errors were
    to be ignored.  So the theorems about groups and about descriptors hold of it. *)
Theorem opened_well_formed `{Machine} {W} `{IoManager W} `{!IoSized W} name io_options flags superblock block_size
    (s s' : state W) fs :
  has flags EXT2_FLAG_IGNORE_SB_ERRORS = false → 0 ≤ block_size → (∀ n, mem_ok n = true → n < 2 ^ 41) →
  ext2fs_open2 name io_options flags superblock block_size s = Ret ((0, Some fs), s') →
  opened_wf flags fs ∧
  (has_feature_journal_dev (f_super fs) = false →
   (s_blocks_per_group (f_super fs) < 2 ^ 31 → geometry fs) ∧
   (has flags EXT2_FLAG_SUPER_ONLY = false → f_group_desc_count fs * desc_size_of fs < 2 ^ 32 →
    ∃ gd, descs_ready fs gd)).
Proof.
  intros Hsb Hbs Hmem E.
  pose proof (fs_open2_total Hmem flags Hsb name io_options superblock block_size s Hbs) as Ht.
  unfold total in Ht. rewrite E in Ht. destruct Ht as [Ht _]. destruct (Ht eq_refl) as (? & [= <-] & Hwf).
  split; [done|]. intros Hj. split; [by apply (opened_geometry flags)|].
  intros Hso H32. destruct (ow_descs _ _ Hwf Hj Hso) as [gd Hgd]. exists gd. by apply read_ready.
Qed.

(** ** Witnesses

    A device as its bytes, zero past its end; a write past the end is refused. *)
Definition EXT2_ET_SHORT_WRITE : Z := 2133571365.
Definition bytes_at (o : Z) (n : nat) (d : bytes) : bytes :=
  let x := if o <? 0 then [] else take n (drop (Z.to_nat o) d) in
  map u8 x ++ replicate (n - length x) 0.
Definition byte_read (bs blk n : Z) (d : bytes) : (Z * bytes) * bytes :=
  ((0, bytes_at (blk * bs) (Z.to_nat (if n <? 0 then - n else n * bs)) d), d).
Definition byte_write (bs blk n : Z) (x : bytes) (d : bytes) : Z * bytes :=
  match slice (blk * bs) (zlen x) d with
  | Some _ => (0, take (Z.to_nat (blk * bs)) d ++ map u8 x ++ drop (Z.to_nat (blk * bs) + length x) d)
  | None => (EXT2_ET_SHORT_WRITE, d)
  end.
#[export] Instance byte_channel : IoChannel bytes := {
  io_read_blk64 := byte_read;
  io_write_blk64 := byte_write;
}.
#[export] Instance byte_manager : IoManager bytes := {
  mgr_channel := byte_channel;
  mgr_fake_time := None;
  mgr_open _ _ d := (0, d);
  mgr_set_options _ d := (0, d);
  mgr_close d := (tt, d);
  mgr_mmp_start _ d := (0, d);
}.
Lemma bytes_at_length o n d : length (bytes_at o n d) = n.
Proof.
  unfold bytes_at. rewrite length_app, length_map, length_replicate.
  destruct (o <? 0); simpl; [lia|]. rewrite length_take. lia.
Qed.
Lemma bytes_at_bytes o n d : Forall is_byte (bytes_at o n d).
Proof.
  apply Forall_app. split.
  - apply Forall_fmap, Forall_true. intros c. unfold is_byte, u8. apply Z.mod_pos_bound. lia.
  - apply Forall_replicate. unfold is_byte. lia.
Qed.
Lemma u8_bytes (x : bytes) : Forall is_byte x → map u8 x = x.
Proof.
  induction 1 as [|c x Hc _ IH]; [done|]. simpl. rewrite IH. f_equal. unfold u8, is_byte in *.
  apply Z.mod_small. lia.
Qed.
Lemma bytes_at_slice o n d x : slice o (Z.of_nat n) d = Some x → Forall is_byte x → bytes_at o n d = x.
Proof.
  intros Es Hx. pose proof (slice_length _ _ _ _ Es) as Hl. apply slice_Some in Es as (Ho & _ & _ & E).
  rewrite Nat2Z.id in *. unfold bytes_at. destruct (Z.ltb_spec o 0); [lia|]. rewrite <- E, Hl, Nat.sub_diag, app_nil_r.
  by apply u8_bytes.
Qed.
#[export] Instance byte_sized : IoSized bytes.
Proof.
  split. intros bs blk n w d w' Hbs. change (io_read_blk64 bs blk n w) with (byte_read bs blk n w). unfold byte_read.
  intros [= <- <-]. rewrite bytes_at_length. split; [destruct (Z.ltb_spec n 0); lia|apply bytes_at_bytes].
Qed.

(** Four blocks: the superblock is the second one, the descriptors are the third one. *)
Definition sample_device (sb : bytes) : bytes := replicate 1024 0 ++ sb ++ sample_gd ++ replicate 1024 0.
Definition csum_super_set : bytes := ext2fs_superblock_csum_set csum_fs (set_fld 1 0x175 1 csum_super).
Definition small_machine : Machine :=
  {| mem_ok n := n <? 2 ^ 41; char_signed := true; big_endian := false; long64 := true |}.
Definition dev_state (d : bytes) : state bytes := MkState (MkHeap ∅ 1) d [].


Lemma opened_well_formed_witness :
  ∃ fs s', ext2fs_open2 (H := small_machine) (bs "dev") None 0 0 0 (dev_state (sample_device csum_super_set)) = Ret ((0, Some fs), s') ∧
    f_group_desc_count fs = 3 ∧ geometry fs.
Proof.
  destruct (ext2fs_open2 (H := small_machine) (bs "dev") None 0 0 0 (dev_state (sample_device csum_super_set)))
    as [[[e [fs|]] s']| | |] eqn:E; try (vm_compute in E; discriminate E).
  assert (e = 0 ∧ f_group_desc_count fs = 3 ∧ has_feature_journal_dev (f_super fs) = false ∧
          s_blocks_per_group (f_super fs) = 8192) as (-> & Hc & Hj & Hb).
  { revert E. vm_compute. intros [= <- <- <-]. vm_compute. tauto. }
  exists fs, s'. split; [done|]. split; [done|].
  destruct (opened_well_formed (H := small_machine) (bs "dev") None 0 0 0 _ s' fs eq_refl ltac:(lia)
    ltac:(intros n Hn; apply Z.ltb_lt, Hn) E) as [_ H1].
  apply (H1 Hj). rewrite Hb. lia.
Defined.
