(* ===== verification/InodeIo.v ===== *)
(** * Inodes: e2fsprogs/lib/ext2fs/inode.c and blknum.c

    Reading and writing one inode through the cache of the open file system: a buffer
    that holds one block of an inode table and four slots that hold the last inodes read.
    An inode is its bytes.  The functions that a program may put in the place of these
    (fs->read_inode and the others) are not set, and fs->image_io is fs->io. *)
From S2P Require Export OpenFs.
#[local] Open Scope Z_scope.

Definition EXT2_ET_RO_FILSYS : Z := 2133571349.
Definition EXT2_ET_GDESC_BAD_INODE_TABLE : Z := 2133571354.
Definition EXT2_ET_MISSING_INODE_TABLE : Z := 2133571387.
Definition EXT2_ET_NO_DIRECTORY : Z := 2133571402.
Definition EXT2_ET_INODE_CSUM_INVALID : Z := 2133571474.
Definition EXT2_FILSYS_CORRUPTED : Z := 2133571508.
Definition EXT2_ET_EXTERNAL_JOURNAL_NOSUPP : Z := 2133571510.
Definition ENOMEM : Z := 12.
Definition EINVAL : Z := 22.
Definition READ_INODE_NOCSUM : Z := 1.
Definition WRITE_INODE_NOCSUM : Z := 1.

(** ** struct ext2_inode and struct ext2_inode_large *)
Definition in_mode : bytes → Z := fld 2 0x00.
Definition in_size : bytes → Z := fld 4 0x04.
Definition in_atime : bytes → Z := fld 4 0x08.
Definition in_ctime : bytes → Z := fld 4 0x0c.
Definition in_mtime : bytes → Z := fld 4 0x10.
Definition in_blocks : bytes → Z := fld 4 0x1c.
Definition in_flags : bytes → Z := fld 4 0x20.
Definition in_translator : bytes → Z := fld 4 0x24.
Definition in_block (i : Z) (inode : bytes) : Z := fld 4 (0x28 + 4 * Z.to_nat i) inode.
Definition in_file_acl : bytes → Z := fld 4 0x68.
Definition in_size_high : bytes → Z := fld 4 0x6c.
Definition l_i_blocks_hi : bytes → Z := fld 2 0x74.
Definition l_i_file_acl_high : bytes → Z := fld 2 0x76.
Definition in_crtime : bytes → Z := fld 4 0x90.
Definition sizeof_ext2_inode : Z := 128.
Definition sizeof_ext2_inode_large : Z := 160.
Definition EXT2_N_BLOCKS : nat := 15.
Definition EXT4_HUGE_FILE_FL : Z := 0x40000.

(** ** blknum.c: the counters of an inode *)
Definition ext2fs_inode_i_blocks (fs : ext2_filsys) (inode : bytes) : Z :=
  Z.lor (in_blocks inode)
    (if has_feature_huge_file (f_super fs) then Z.shiftl (l_i_blocks_hi inode) 32 else 0).
Definition ext2fs_inode_data_blocks2 (fs : ext2_filsys) (inode : bytes) : Z :=
  u64 (ext2fs_inode_i_blocks fs inode -
       (if in_file_acl inode =? 0 then 0 else Z.shiftr (EXT2_CLUSTER_SIZE (f_super fs)) 9)).
Definition ext2fs_get_stat_i_blocks (fs : ext2_filsys) (inode : bytes) : Z :=
  let ret := in_blocks inode in
  if has_feature_huge_file (f_super fs) then
    let ret := u64 (ret + Z.shiftl (l_i_blocks_hi inode) 32) in
    if has (in_flags inode) EXT4_HUGE_FILE_FL then u64 (ret * (f_blocksize fs / 512)) else ret
  else ret.
Definition ext2fs_file_acl_block (fs : ext2_filsys) (inode : bytes) : Z :=
  let blk := in_file_acl inode in
  if has_feature_64bit (f_super fs) then Z.lor blk (Z.shiftl (l_i_file_acl_high inode) 32) else blk.
Definition ext2fs_file_acl_block_set (fs : ext2_filsys) (inode : bytes) (blk : Z) : bytes :=
  let inode := set_fld 4 0x68 blk inode in
  if has_feature_64bit (f_super fs) then set_fld 2 0x76 (Z.shiftr blk 32) inode else inode.

(** ** The cache *)
Definition sizeof_icache `{Machine} : Z := if long64 then 40 else 28.
Definition sizeof_icache_ent `{Machine} : Z := if long64 then 16 else 8.

Definition ext2fs_flush_icache (fs : ext2_filsys) : ext2_filsys :=
  match f_icache fs with
  | None => fs
  | Some c =>
      set_icache (Some (MkCache (ic_buffer c) 0 (ic_cache_last c)
        ((fun e => MkEnt 0 (ce_inode e)) <$> ic_cache c))) fs
  end.

(** When the memory for the slots or for an inode is missing, the cache is freed slot by
    slot: through NULL, or through the pointers that have no value yet. *)
Definition ext2fs_create_inode_cache `{Machine} (fs : ext2_filsys) (cache_size : Z) : outcome (Z * ext2_filsys) :=
  match f_icache fs with
  | Some _ => Ret (0, fs)
  | None =>
      if negb (mem_ok sizeof_icache) then Ret (EXT2_ET_NO_MEMORY, fs)
      else if negb (mem_ok (f_blocksize fs)) then Ret (EXT2_ET_NO_MEMORY, fs)
      else if negb (mem_ok (cache_size * sizeof_icache_ent)) then Undef
      else if negb (mem_ok (EXT2_INODE_SIZE (f_super fs))) then Undef
      else Ret (0, ext2fs_flush_icache
                     (set_icache (Some (MkCache [] 0 (-1) (replicate (Z.to_nat cache_size) (MkEnt 0 [])))) fs))
  end.

(** The inode of a slot, by the number of the inode. *)
Definition find_slot (ino : Z) (slots : list ext2_inode_cache_ent) : option (nat * ext2_inode_cache_ent) :=
  list_find (fun e => ce_ino e = ino) slots.

Definition set_buffer (data : bytes) (blk : Z) (c : ext2_inode_cache) : ext2_inode_cache :=
  MkCache data blk (ic_cache_last c) (ic_cache c).
Definition set_slots (slots : list ext2_inode_cache_ent) (c : ext2_inode_cache) : ext2_inode_cache :=
  MkCache (ic_buffer c) (ic_buffer_blk c) (ic_cache_last c) slots.
Definition set_last (last : Z) (c : ext2_inode_cache) : ext2_inode_cache :=
  MkCache (ic_buffer c) (ic_buffer_blk c) last (ic_cache c).

(** ** Where an inode is *)
Definition EXT2_BLOCK_SIZE_BITS (sb : bytes) : Z := s_log_block_size sb + 10.

Section InodeIo.
  Context `{Machine} {W : Type} `{IoChannel W}.

(** The block of the table of a group and its test: the error, or the block. *)
Definition inode_table_checked (fs : ext2_filsys) (group : Z) : prog W (Z + Z) :=
  let! block_nr := ext2fs_inode_table_loc fs group in
  if block_nr =? 0 then ret (inl EXT2_ET_MISSING_INODE_TABLE)
  else if (block_nr <? s_first_data_block (f_super fs)) ||
          (ext2fs_blocks_count (f_super fs) <=? u64 (u64 (block_nr + f_inode_blocks_per_group fs) - 1))
  then ret (inl EXT2_ET_GDESC_BAD_INODE_TABLE)
  else ret (inr block_nr).

(** The group of an inode, its block within the table and its offset. *)
Definition inode_index (fs : ext2_filsys) (ino : Z) : outcome (Z * Z * Z) :=
  let sb := f_super fs in
  let ipg := s_inodes_per_group sb in
  if ipg =? 0 then Undef else
  let offset := u32 ((ino - 1) mod ipg * EXT2_INODE_SIZE sb) in
  Ret ((ino - 1) / ipg, Z.shiftr offset (EXT2_BLOCK_SIZE_BITS sb), Z.land offset (EXT2_BLOCK_SIZE sb - 1)).

(** ** ext2fs_read_inode2 *)

(** The buffer is filled with a block; when the read fails it holds what the channel has
    left there, and is still said to be the block it was. *)
Definition load_buffer (fs : ext2_filsys) (block_nr : Z) (c : ext2_inode_cache) : prog W (Z * ext2_inode_cache) :=
  if block_nr =? ic_buffer_blk c then ret (0, c) else
  let! '(retval, data) := sys (io_read_blk64 (f_blocksize fs) block_nr 1) in
  ret (retval, set_buffer data (if retval =? 0 then block_nr else ic_buffer_blk c) c).

(** [while (length)]: the pieces of the inode, after those in [got]. *)
Fixpoint read_pieces (fuel : nat) (fs : ext2_filsys) (length offset block_nr : Z) (c : ext2_inode_cache) (got : bytes) :
    prog W (Z * ext2_inode_cache * bytes) :=
  match fuel with
  | O => spin
  | S fuel =>
      if length =? 0 then ret (0, c, got) else
      let clen := if f_blocksize fs <? offset + length then f_blocksize fs - offset else length in
      let! '(retval, c) := load_buffer fs block_nr c in
      if negb (retval =? 0) then ret (retval, c, got) else
      let! piece := lift (of_option (slice offset clen (ic_buffer c))) in
      read_pieces fuel fs (length - clen) 0 (u64 (block_nr + 1)) c (got ++ piece)
  end.

(** The block and the offset, or the error. *)
Definition inode_place (fs : ext2_filsys) (ino : Z) : prog W (Z + Z * Z) :=
  if has (f_flags fs) EXT2_FLAG_IMAGE_FILE then
    match f_image_header fs with
    | None => undef
    | Some hdr =>
        let size := EXT2_INODE_SIZE (f_super fs) in
        if (size =? 0) || (f_blocksize fs / size =? 0) then undef else
        let inodes_per_block := f_blocksize fs / size in
        ret (inr (fld 4 288 hdr / f_blocksize fs + (ino - 1) / inodes_per_block,
                  Z.land (u32 ((ino - 1) mod inodes_per_block * size)) (EXT2_BLOCK_SIZE (f_super fs) - 1)))
    end
  else
    let! '(group, block, offset) := lift (inode_index fs ino) in
    if f_group_desc_count fs <? group then ret (inl EXT2_ET_BAD_INODE_NUM) else
    let! r := inode_table_checked fs group in
    match r with
    | inl retval => ret (inl retval)
    | inr block_nr => ret (inr (u64 (block_nr + block), offset))
    end.

Definition put_slot (slot : nat) (e : ext2_inode_cache_ent) (c : ext2_inode_cache) : ext2_inode_cache :=
  set_slots (<[slot := e]> (ic_cache c)) c.

(** The error, the bytes stored at [inode] (none before an error), the file system. *)
Definition ext2fs_read_inode2 (fs : ext2_filsys) (ino bufsize flags : Z) : prog W (Z * bytes * ext2_filsys) :=
  let length := EXT2_INODE_SIZE (f_super fs) in
  let out inode := take (Z.to_nat (Z.min bufsize length)) inode in
  if has_feature_journal_dev (f_super fs) then ret (EXT2_ET_EXTERNAL_JOURNAL_NOSUPP, [], fs)
  else if f_blocksize fs <? 1024 then ret (EXT2_FILSYS_CORRUPTED, [], fs)
  else if (ino =? 0) || (s_inodes_count (f_super fs) <? ino) then ret (EXT2_ET_BAD_INODE_NUM, [], fs) else
  let! '(retval, fs) := lift (ext2fs_create_inode_cache fs 4) in
  if negb (retval =? 0) then ret (retval, [], fs) else
  let! c := lift (of_option (f_icache fs)) in
  match find_slot ino (ic_cache c) with
  | Some (_, e) => ret (0, out (ce_inode e), fs)
  | None =>
      let! r := inode_place fs ino in
      match r with
      | inl retval => ret (retval, [], fs)
      | inr (block_nr, offset) =>
          if Nat.eqb (List.length (ic_cache c)) 0 then undef else
          let slot := Z.to_nat (u32 (ic_cache_last c + 1) mod Z.of_nat (List.length (ic_cache c))) in
          let! old := lift (of_option (ic_cache c !! slot)) in
          let! '(retval, c, got) := read_pieces (S (Z.to_nat length)) fs length offset block_nr c [] in
          let iptr := got ++ drop (List.length got) (ce_inode old) in
          if negb (retval =? 0) then
            ret (retval, [], set_icache (Some (put_slot slot (MkEnt (ce_ino old) iptr) c)) fs)
          else
          let fail_csum := negb (ext2fs_inode_csum_verify fs ino iptr) in
          let c := put_slot slot (MkEnt (if fail_csum then ce_ino old else ino) iptr) c in
          let c := if fail_csum then c else set_last (Z.of_nat slot) c in
          let retval :=
            if negb (has (f_flags fs) EXT2_FLAG_IGNORE_CSUM_ERRORS) && negb (has flags READ_INODE_NOCSUM) && fail_csum
            then EXT2_ET_INODE_CSUM_INVALID else 0 in
          ret (retval, out iptr, set_icache (Some c) fs)
      end
  end.

Definition ext2fs_read_inode_full (fs : ext2_filsys) (ino bufsize : Z) : prog W (Z * bytes * ext2_filsys) :=
  ext2fs_read_inode2 fs ino bufsize 0.
Definition ext2fs_read_inode (fs : ext2_filsys) (ino : Z) : prog W (Z * bytes * ext2_filsys) :=
  ext2fs_read_inode2 fs ino sizeof_ext2_inode 0.

(** ** ext2fs_write_inode2 *)

(** [while (length)]: the pieces of the inode, each with the rest of its block. *)
Fixpoint write_pieces (fuel : nat) (fs : ext2_filsys) (length offset block_nr : Z) (ptr : bytes) (c : ext2_inode_cache) :
    prog W (Z * ext2_inode_cache) :=
  match fuel with
  | O => spin
  | S fuel =>
      if length =? 0 then ret (0, c) else
      let clen := if f_blocksize fs <? offset + length then f_blocksize fs - offset else length in
      let! '(retval, c) := load_buffer fs block_nr c in
      if negb (retval =? 0) then ret (retval, c) else
      let! piece := lift (of_option (slice 0 clen ptr)) in
      if negb (bool_decide (0 ≤ offset ∧ offset + clen ≤ zlen (ic_buffer c))) then undef else
      let data := take (Z.to_nat offset) (ic_buffer c) ++ piece ++ drop (Z.to_nat (offset + clen)) (ic_buffer c) in
      let c := set_buffer data (ic_buffer_blk c) c in
      let! retval := sys (io_write_blk64 (f_blocksize fs) block_nr 1 data) in
      if negb (retval =? 0) then ret (retval, c) else
      write_pieces fuel fs (length - clen) 0 (u64 (block_nr + 1)) (drop (Z.to_nat clen) ptr) c
  end.

(** [inode] has the [bufsize] bytes given.  The cached copy is changed first, and keeps its
    own checksum. *)
Definition ext2fs_write_inode2 (fs : ext2_filsys) (ino : Z) (inode : bytes) (flags : Z) : prog W (Z * ext2_filsys) :=
  let length := EXT2_INODE_SIZE (f_super fs) in
  let over old := take (Z.to_nat length) inode ++ drop (List.length (take (Z.to_nat length) inode)) old in
  if has_feature_journal_dev (f_super fs) then ret (EXT2_ET_EXTERNAL_JOURNAL_NOSUPP, fs)
  else if (ino =? 0) || (s_inodes_count (f_super fs) <? ino) then ret (EXT2_ET_BAD_INODE_NUM, fs)
  else if negb (mem_ok length) then ret (EXT2_ET_NO_MEMORY, fs) else
  let! '(retval, w_inode, fs) :=
    (if zlen inode <? length then ext2fs_read_inode2 fs ino length READ_INODE_NOCSUM else ret (0, [], fs)) in
  if negb (retval =? 0) then ret (retval, fs) else
  let! '(retval, fs) :=
    match f_icache fs with
    | Some c =>
        ret (0, match find_slot ino (ic_cache c) with
                | Some (slot, e) => set_icache (Some (put_slot slot (MkEnt ino (over (ce_inode e))) c)) fs
                | None => fs
                end)
    | None => lift (ext2fs_create_inode_cache fs 4)
    end in
  if negb (retval =? 0) then ret (retval, fs) else
  let w_inode := over w_inode in
  if negb (has (f_flags fs) EXT2_FLAG_RW) then ret (EXT2_ET_RO_FILSYS, fs) else
  let w_inode := if has flags WRITE_INODE_NOCSUM then w_inode else ext2fs_inode_csum_set fs ino w_inode in
  let! '(group, block, offset) := lift (inode_index fs ino) in
  let! r := inode_table_checked fs group in
  match r with
  | inl retval => ret (retval, fs)
  | inr block_nr =>
      let! c := lift (of_option (f_icache fs)) in
      let! '(retval, c) := write_pieces (S (Z.to_nat length)) fs length offset (u64 (block_nr + block)) w_inode c in
      let fs := set_icache (Some c) fs in
      if negb (retval =? 0) then ret (retval, fs)
      else ret (0, set_flags (Z.lor (f_flags fs) EXT2_FLAG_CHANGED) fs)
  end.

Definition ext2fs_write_inode_full (fs : ext2_filsys) (ino : Z) (inode : bytes) : prog W (Z * ext2_filsys) :=
  ext2fs_write_inode2 fs ino inode 0.
Definition ext2fs_write_inode (fs : ext2_filsys) (ino : Z) (inode : bytes) : prog W (Z * ext2_filsys) :=
  ext2fs_write_inode2 fs ino inode 0.

(** A field that is 0 is set. *)
Definition set_if_0 (off : nat) (t : Z) (inode : bytes) : bytes :=
  if fld 4 off inode =? 0 then set_fld 4 off t inode else inode.

(** [time] is time(2).  The error, the inode with its times, the file system. *)
Definition ext2fs_write_new_inode (time : W → Z * W) (fs : ext2_filsys) (ino : Z) (inode : bytes) :
    prog W (Z * bytes * ext2_filsys) :=
  let size := EXT2_INODE_SIZE (f_super fs) in
  let! t := (if f_now fs =? 0 then sys time else ret (f_now fs)) in
  let t := u32 t in
  let inode := set_if_0 0x08 t (set_if_0 0x10 t (set_if_0 0x0c t inode)) in
  if size =? sizeof_ext2_inode then
    let! '(retval, fs) := ext2fs_write_inode_full fs ino inode in ret (retval, inode, fs)
  else if negb (mem_ok size) then ret (ENOMEM, inode, fs)
  else if size <? sizeof_ext2_inode_large then undef else
    let buf := take 128 inode ++ replicate (Z.to_nat (size - 128)) 0 in
    let buf := set_if_0 0x90 t (set_fld 2 0x80 (sizeof_ext2_inode_large - EXT2_GOOD_OLD_INODE_SIZE) buf) in
    let! '(retval, fs) := ext2fs_write_inode_full fs ino buf in ret (retval, inode, fs).

(** The 15 words of [i_block]. *)
Definition ext2fs_get_blocks (fs : ext2_filsys) (ino : Z) : prog W (Z * list Z * ext2_filsys) :=
  if s_inodes_count (f_super fs) <? ino then ret (EXT2_ET_BAD_INODE_NUM, [], fs) else
  let! '(retval, inode, fs) := ext2fs_read_inode fs ino in
  if negb (retval =? 0) then ret (retval, [], fs)
  else ret (0, (fun i => in_block (Z.of_nat i) inode) <$> seq 0 EXT2_N_BLOCKS, fs).

Definition ext2fs_check_directory (fs : ext2_filsys) (ino : Z) : prog W (Z * ext2_filsys) :=
  if s_inodes_count (f_super fs) <? ino then ret (EXT2_ET_BAD_INODE_NUM, fs) else
  let! '(retval, inode, fs) := ext2fs_read_inode fs ino in
  if negb (retval =? 0) then ret (retval, fs)
  else ret (if LINUX_S_ISDIR (in_mode inode) then 0 else EXT2_ET_NO_DIRECTORY, fs).

(** ** ind_block.c: blocks of block numbers

    The host is little-endian: the words are those of the block. *)
Definition ext2fs_read_ind_block (fs : ext2_filsys) (blk : Z) : prog W (Z * bytes) :=
  sys (io_read_blk64 (f_blocksize fs) blk 1).
Definition ext2fs_write_ind_block (fs : ext2_filsys) (blk : Z) (buf : bytes) : prog W Z :=
  if has (f_flags fs) EXT2_FLAG_IMAGE_FILE then ret 0
  else sys (io_write_blk64 (f_blocksize fs) blk 1 buf).
End InodeIo.

(** ** The disk

    What a channel set to blocks of [bs] bytes promises: it shows a disk that is an array
    of blocks; a read gives the block, a write that succeeds replaces it and no other. *)
Class IoDisk (bs : Z) (W : Type) `{IoChannel W} : Type := {
  disk : W → Z → bytes;
  disk_size w b : zlen (disk w b) = bs;
  disk_bytes w b : Forall is_byte (disk w b);
  disk_read b w e d w' :
    io_read_blk64 bs b 1 w = ((e, d), w') → disk w' = disk w ∧ (e = 0 → d = disk w b);
  disk_write b x w w' :
    0 ≤ b → zlen x = bs → Forall is_byte x → io_write_blk64 bs b 1 x w = (0, w') →
    ∀ b', disk w' b' = if b' =? b then x else disk w b';
}.

(** ** Checksums, set again *)
Lemma csum_set_length fs ino x : inode_wf fs x → length (ext2fs_inode_csum_set fs ino x) = length x.
Proof.
  intros Hw. pose proof (csum_has_hi_room fs x Hw) as Hroom. destruct Hw as (_ & _ & H128 & _).
  unfold ext2fs_inode_csum_set. destruct (negb _); [done|]. unfold i_checksum_lo, i_checksum_hi.
  destruct (csum_has_hi fs x); [specialize (Hroom eq_refl); rewrite set_fld_length|]; fld_len.
Qed.
Lemma csum_set_wf fs ino x : inode_wf fs x → inode_wf fs (ext2fs_inode_csum_set fs ino x).
Proof.
  intros Hw. pose proof (csum_set_length fs ino x Hw) as Hl. destruct Hw as (Hb & Hw).
  split; [|by rewrite Hl]. unfold ext2fs_inode_csum_set. destruct (negb _); [done|].
  destruct (csum_has_hi fs x); repeat apply set_fld_bytes; done.
Qed.
Lemma csum_set_twice fs ino x : inode_wf fs x →
  ext2fs_inode_csum_set fs ino (ext2fs_inode_csum_set fs ino x) = ext2fs_inode_csum_set fs ino x.
Proof.
  intros Hw. pose proof (csum_has_hi_room fs x Hw) as Hroom. destruct Hw as (Hb & Hl & H128 & Hx).
  unfold ext2fs_inode_csum_set. destruct (has_feature_metadata_csum _); cbn [negb]; [|done].
  unfold i_checksum_lo, i_checksum_hi in *.
  set (crc := ext2fs_inode_csum fs ino x (csum_has_hi fs x)).
  destruct (csum_has_hi fs x) eqn:Eh.
  - specialize (Hroom eq_refl).
    set (y := set_fld 2 130 (Z.shiftr crc 16) (set_fld 2 124 (Z.land crc 65535) x)).
    assert (Ey : csum_has_hi fs y = true).
    { rewrite <- Eh. unfold csum_has_hi, i_extra_isize, y. by rewrite !fld_set_other by fld_len. }
    assert (E : ext2fs_inode_csum fs ino y true = crc).
    { unfold crc, y, ext2fs_inode_csum, i_checksum_lo, i_checksum_hi.
      rewrite (set_fld_comm 2 124 0 2 130), set_fld_twice by fld_len.
      rewrite set_fld_twice by fld_len. done. }
    rewrite Ey, E. unfold y. rewrite (set_fld_comm 2 124 _ 2 130) by fld_len.
    rewrite !set_fld_twice by fld_len. done.
  - set (y := set_fld 2 124 (Z.land crc 65535) x).
    assert (Ey : csum_has_hi fs y = false).
    { rewrite <- Eh. unfold csum_has_hi, i_extra_isize, y. by rewrite !fld_set_other by fld_len. }
    assert (E : ext2fs_inode_csum fs ino y false = crc).
    { unfold crc, y, ext2fs_inode_csum, i_checksum_lo. by rewrite set_fld_twice by lia. }
    rewrite Ey, E. unfold y. by rewrite set_fld_twice by fld_len.
Qed.

(** Two inodes that differ at most in their checksum. *)
Definition same_inode (fs : ext2_filsys) (ino : Z) (a b : bytes) : Prop :=
  inode_wf fs a ∧ inode_wf fs b ∧ ext2fs_inode_csum_set fs ino a = ext2fs_inode_csum_set fs ino b.

(** ** Inodes on the disk *)
Definition table_loc (fs : ext2_filsys) (gd : bytes) (g : Z) : Z := item_val fs InodeTable g gd.

(** The tables of inodes are on the device and apart, an inode does not straddle blocks. *)
Record inodes_ready (bs : Z) (fs : ext2_filsys) (gd : bytes) : Prop := {
  ir_descs : descs_ready fs gd;
  ir_super : super_wf (f_super fs);
  ir_journal : has_feature_journal_dev (f_super fs) = false;
  ir_image : has (f_flags fs) EXT2_FLAG_IMAGE_FILE = false;
  ir_seed : word (f_csum_seed fs);
  ir_blocksize : f_blocksize fs = bs ∧ EXT2_BLOCK_SIZE (f_super fs) = bs ∧
    bs = 2 ^ (10 + s_log_block_size (f_super fs));
  ir_inode_size : 128 ≤ EXT2_INODE_SIZE (f_super fs) ≤ bs ∧ power_of_2 (EXT2_INODE_SIZE (f_super fs));
  ir_ipg : 0 < s_inodes_per_group (f_super fs);
  ir_32 : s_inodes_per_group (f_super fs) * EXT2_INODE_SIZE (f_super fs) < 2 ^ 32;
  ir_count : s_inodes_count (f_super fs) = f_group_desc_count fs * s_inodes_per_group (f_super fs);
  ir_blocks : s_inodes_per_group (f_super fs) * EXT2_INODE_SIZE (f_super fs) ≤ f_inode_blocks_per_group fs * bs;
  ir_tables g : 0 ≤ g < f_group_desc_count fs →
    0 < table_loc fs gd g ∧ s_first_data_block (f_super fs) ≤ table_loc fs gd g ∧
    table_loc fs gd g + f_inode_blocks_per_group fs ≤ ext2fs_blocks_count (f_super fs);
  ir_apart g g' : 0 ≤ g < f_group_desc_count fs → 0 ≤ g' < f_group_desc_count fs → g < g' →
    table_loc fs gd g + f_inode_blocks_per_group fs ≤ table_loc fs gd g' ∨
    table_loc fs gd g' + f_inode_blocks_per_group fs ≤ table_loc fs gd g;
}.

Section Places.
  Context (bs : Z) (fs : ext2_filsys) (gd : bytes) (Hr : inodes_ready bs fs gd).
  Abbreviation sb := (f_super fs).
  Abbreviation isz := (EXT2_INODE_SIZE sb).
  Abbreviation ipg := (s_inodes_per_group sb).

Definition inode_ok (ino : Z) : Prop := 1 ≤ ino ≤ s_inodes_count sb.
Definition group_no (ino : Z) : Z := (ino - 1) / ipg.
Definition table_off (ino : Z) : Z := (ino - 1) mod ipg * isz.
Definition inode_blk (ino : Z) : Z := table_loc fs gd (group_no ino) + table_off ino / bs.
Definition inode_off (ino : Z) : Z := table_off ino mod bs.

Lemma isz_divides : ∃ q, 0 < q ∧ bs = q * isz.
Proof.
  destruct (ir_inode_size _ _ _ Hr) as [[? Hle] (k & Hk & E)]. destruct (ir_blocksize _ _ _ Hr) as (_ & _ & Eb).
  set (m := 10 + s_log_block_size sb) in *.
  assert (k ≤ m).
  { destruct (Z.le_gt_cases k m); [done|]. assert (2 ^ m < 2 ^ k) by (apply Z.pow_lt_mono_r; lia). lia. }
  exists (2 ^ (m - k)). split; [apply Z.pow_pos_nonneg; lia|].
  rewrite Eb, E, <- Z.pow_add_r by lia. f_equal. lia.
Qed.
Lemma bs_bound : 128 ≤ isz ≤ bs.
Proof. apply (ir_inode_size _ _ _ Hr). Qed.

Lemma group_no_bound ino : inode_ok ino → 0 ≤ group_no ino < f_group_desc_count fs.
Proof.
  unfold inode_ok, group_no. intros Hi. pose proof (ir_ipg _ _ _ Hr). rewrite (ir_count _ _ _ Hr) in Hi.
  split; [apply Z.div_pos; lia|apply Z.div_lt_upper_bound; nia].
Qed.
Lemma table_off_bound ino : 0 ≤ table_off ino ∧ table_off ino + isz ≤ ipg * isz ∧
  table_off ino + isz ≤ f_inode_blocks_per_group fs * bs.
Proof.
  unfold table_off. pose proof (ir_ipg _ _ _ Hr). pose proof (ir_blocks _ _ _ Hr). pose proof bs_bound.
  pose proof (Z.mod_pos_bound (ino - 1) ipg). nia.
Qed.
Lemma inode_blk_bound ino : inode_ok ino →
  0 < inode_blk ino < 2 ^ 64 ∧ table_loc fs gd (group_no ino) ≤ inode_blk ino ∧
  inode_blk ino < table_loc fs gd (group_no ino) + f_inode_blocks_per_group fs.
Proof.
  intros Hi%group_no_bound. destruct (ir_tables _ _ _ Hr _ Hi) as (? & ? & ?).
  destruct (table_off_bound ino) as (? & ? & ?). pose proof bs_bound.
  pose proof (get_hilo_64 0x04 0x150 sb (ir_super _ _ _ Hr) : 0 ≤ ext2fs_blocks_count sb < _).
  unfold inode_blk. assert (0 ≤ table_off ino / bs) by (apply Z.div_pos; lia).
  assert (table_off ino / bs < f_inode_blocks_per_group fs) by (apply Z.div_lt_upper_bound; lia). lia.
Qed.

(** An inode is within its block. *)
Lemma table_off_multiple ino : ∃ k, 0 ≤ k ∧ table_off ino = k * isz.
Proof.
  unfold table_off. exists ((ino - 1) mod ipg). pose proof (ir_ipg _ _ _ Hr).
  pose proof (Z.mod_pos_bound (ino - 1) ipg). lia.
Qed.
Lemma inode_off_multiple ino : ∃ k, 0 ≤ k ∧ inode_off ino = k * isz ∧ inode_off ino + isz ≤ bs.
Proof.
  destruct isz_divides as (q & Hq & E). destruct (table_off_multiple ino) as (k & Hk & Ek). pose proof bs_bound.
  unfold inode_off. rewrite Ek, E, Z.mul_mod_distr_r by lia. exists (k mod q).
  pose proof (Z.mod_pos_bound k q). split; [lia|]. split; [done|]. nia.
Qed.

(** Different inodes are in different blocks or apart. *)
Lemma inode_apart ino ino' : inode_ok ino → inode_ok ino' → ino ≠ ino' → inode_blk ino = inode_blk ino' →
  inode_off ino + isz ≤ inode_off ino' ∨ inode_off ino' + isz ≤ inode_off ino.
Proof.
  intros Hi Hi' Hne Hb. pose proof bs_bound.
  destruct (inode_blk_bound ino Hi) as (_ & ? & ?). destruct (inode_blk_bound ino' Hi') as (_ & ? & ?).
  pose proof (group_no_bound ino Hi) as Hg. pose proof (group_no_bound ino' Hi') as Hg'.
  assert (Eg : group_no ino = group_no ino').
  { destruct (Z.lt_trichotomy (group_no ino) (group_no ino')) as [Hlt|[?|Hlt]]; [exfalso|done|exfalso].
    - destruct (ir_apart _ _ _ Hr _ _ Hg Hg' Hlt); lia.
    - destruct (ir_apart _ _ _ Hr _ _ Hg' Hg Hlt); lia. }
  unfold inode_blk in Hb. rewrite Eg in Hb. assert (Ed : table_off ino / bs = table_off ino' / bs) by lia.
  assert (Hoff : table_off ino ≠ table_off ino').
  { unfold table_off. intros E. apply Z.mul_reg_r in E; [|lia]. apply Hne.
    unfold group_no in Eg. pose proof (ir_ipg _ _ _ Hr).
    pose proof (Z.div_mod (ino - 1) ipg). pose proof (Z.div_mod (ino' - 1) ipg). nia. }
  destruct (inode_off_multiple ino) as (k & _ & Ek & _). destruct (inode_off_multiple ino') as (k' & _ & Ek' & _).
  assert (inode_off ino ≠ inode_off ino').
  { unfold inode_off. intros E. apply Hoff. pose proof (Z.div_mod (table_off ino) bs).
    pose proof (Z.div_mod (table_off ino') bs). nia. }
  rewrite Ek, Ek' in *. assert (k < k' ∨ k' < k) as [?|?] by nia; [left|right]; nia.
Qed.
End Places.

(** ** Running the operations *)
Section Run.
  Context `{Machine} {W : Type} `{IoChannel W} {bs : Z} `{!IoDisk bs W}.

Definition disk_inode (fs : ext2_filsys) (gd : bytes) (w : W) (ino : Z) : bytes :=
  take (Z.to_nat (EXT2_INODE_SIZE (f_super fs)))
    (drop (Z.to_nat (inode_off bs fs ino)) (disk w (inode_blk bs fs gd ino))).

(** The buffer and the slots agree with the disk, the slots up to the checksum. *)
Record cache_ok (fs : ext2_filsys) (gd : bytes) (w : W) (c : ext2_inode_cache) : Prop := {
  co_buffer : ic_buffer_blk c ≠ 0 → ic_buffer c = disk w (ic_buffer_blk c);
  co_size : length (ic_cache c) = 4%nat;
  co_last : -1 ≤ ic_cache_last c < 4;
  co_slots i e : ic_cache c !! i = Some e → ce_ino e ≠ 0 →
    inode_ok fs (ce_ino e) ∧ same_inode fs (ce_ino e) (ce_inode e) (disk_inode fs gd w (ce_ino e));
  co_len i e : ic_cache c !! i = Some e → zlen (ce_inode e) ≤ EXT2_INODE_SIZE (f_super fs);
  co_distinct i j e e' : ic_cache c !! i = Some e → ic_cache c !! j = Some e' →
    ce_ino e = ce_ino e' → ce_ino e ≠ 0 → i = j;
}.
Definition icache_inv (fs : ext2_filsys) (gd : bytes) (w : W) : Prop :=
  match f_icache fs with None => True | Some c => cache_ok fs gd w c end.

(** The state after the disk has moved. *)
Definition set_os (w : W) (s : state W) : state W := MkState (st_heap s) w (st_log s).

Section Ready.
  Context (gd : bytes).

Lemma set_icache_ready fs c : inodes_ready bs fs gd → inodes_ready bs (set_icache c fs) gd.
Proof. intros [Hd]. split; try done. by destruct Hd. Qed.
Lemma set_flags_ready fs fl : inodes_ready bs fs gd → has fl EXT2_FLAG_IMAGE_FILE = false →
  inodes_ready bs (set_flags fl fs) gd.
Proof. intros [Hd] ?. split; try done. by destruct Hd. Qed.

Context (fs : ext2_filsys) (Hr : inodes_ready bs fs gd).
Abbreviation isz := (EXT2_INODE_SIZE (f_super fs)).

Lemma inode_size_cases : isz = 128 ∨ 132 ≤ isz.
Proof.
  destruct (ir_inode_size _ _ _ Hr) as [[H1 _] (k & Hk & E)]. destruct (decide (isz = 128)) as [|Hne]; [by left|right].
  assert (8 ≤ k).
  { destruct (Z.le_gt_cases 8 k); [done|]. assert (2 ^ k ≤ 2 ^ 7) by (apply Z.pow_le_mono_r; lia). lia. }
  assert (2 ^ 8 ≤ 2 ^ k) by (apply Z.pow_le_mono_r; lia). lia.
Qed.
Lemma make_inode_wf x : Forall is_byte x → zlen x = isz → inode_wf fs x.
Proof. intros Hb Hl. pose proof inode_size_cases. destruct (bs_bound _ _ _ Hr). split; [done|]. lia. Qed.

Lemma disk_inode_wf w ino : inode_ok fs ino → inode_wf fs (disk_inode fs gd w ino).
Proof.
  intros Hi. destruct (inode_off_multiple _ _ _ Hr ino) as (k & ? & ? & ?). destruct (bs_bound _ _ _ Hr).
  apply make_inode_wf; [apply Forall_take, Forall_drop, disk_bytes|].
  unfold disk_inode. rewrite length_take, length_drop.
  pose proof (disk_size w (inode_blk bs fs gd ino)). lia.
Qed.

Lemma inode_index_run ino : inode_ok fs ino →
  inode_index fs ino = Ret (group_no fs ino, table_off fs ino / bs, inode_off bs fs ino).
Proof.
  intros Hi. unfold inode_index. pose proof (ir_ipg _ _ _ Hr).
  destruct (Z.eqb_spec (s_inodes_per_group (f_super fs)) 0); [lia|].
  destruct (table_off_bound _ _ _ Hr ino) as (? & ? & _). pose proof (ir_32 _ _ _ Hr).
  pose proof (bs_bound _ _ _ Hr). fold (table_off fs ino). rewrite u32_small by lia.
  destruct (ir_blocksize _ _ _ Hr) as (_ & Eb & E2). unfold inode_off, EXT2_BLOCK_SIZE_BITS. rewrite Eb.
  rewrite Z.add_comm. assert (0 ≤ s_log_block_size (f_super fs)) by (apply fld4_bound, (ir_super _ _ _ Hr)).
  rewrite Z.shiftr_div_pow2, <- E2 by lia. rewrite E2 at 2. rewrite land_ones_mod by lia. by rewrite <- E2.
Qed.

Lemma table_checked_run ino s : inode_ok fs ino →
  inode_table_checked fs (group_no fs ino) s = Ret (inr (table_loc fs gd (group_no fs ino)), s).
Proof.
  intros Hi. pose proof (group_no_bound _ _ _ Hr ino Hi) as Hg.
  destruct (ir_tables _ _ _ Hr _ Hg) as (? & ? & ?). unfold inode_table_checked.
  rewrite (bind_eq (ext2fs_inode_table_loc fs _) _ _ _ _ (item_get_run fs gd (ir_descs _ _ _ Hr) InodeTable _ s Hg)).
  fold (table_loc fs gd (group_no fs ino)).
  destruct (Z.eqb_spec (table_loc fs gd (group_no fs ino)) 0); [lia|].
  destruct (Z.ltb_spec (table_loc fs gd (group_no fs ino)) (s_first_data_block (f_super fs))); [lia|]. cbn [orb].
  pose proof (get_hilo_64 0x04 0x150 _ (ir_super _ _ _ Hr) : 0 ≤ ext2fs_blocks_count (f_super fs) < _).
  assert (0 < f_inode_blocks_per_group fs).
  { destruct (table_off_bound _ _ _ Hr ino) as (? & _ & ?). pose proof (bs_bound _ _ _ Hr). nia. }
  rewrite !u64_small by (rewrite ?u64_small; lia).
  destruct (Z.leb_spec (ext2fs_blocks_count (f_super fs))
    (table_loc fs gd (group_no fs ino) + f_inode_blocks_per_group fs - 1)); [lia|done].
Qed.

Lemma inode_place_run ino s : inode_ok fs ino →
  inode_place fs ino s = Ret (inr (inode_blk bs fs gd ino, inode_off bs fs ino), s).
Proof.
  intros Hi. unfold inode_place. rewrite (ir_image _ _ _ Hr). pose proof (group_no_bound _ _ _ Hr ino Hi).
  unfold bind at 1, lift. rewrite inode_index_run by done. cbn [obind].
  destruct (Z.ltb_spec (f_group_desc_count fs) (group_no fs ino)); [lia|].
  rewrite (bind_eq _ _ _ _ _ (table_checked_run ino s Hi)).
  destruct (inode_blk_bound _ _ _ Hr ino Hi) as (? & _). unfold ret.
  rewrite u64_small; [done|]. unfold inode_blk in *. lia.
Qed.

(** Filling the buffer. *)
Lemma load_buffer_run b c s : 0 < b → (ic_buffer_blk c ≠ 0 → ic_buffer c = disk (st_os s) (ic_buffer_blk c)) →
  ∃ e c' w', load_buffer fs b c s = Ret ((e, c'), set_os w' s) ∧ disk w' = disk (st_os s) ∧
    ic_cache c' = ic_cache c ∧ ic_cache_last c' = ic_cache_last c ∧
    (e = 0 → ic_buffer c' = disk w' b ∧ ic_buffer_blk c' = b) ∧
    (e ≠ 0 → ∃ d, io_read_blk64 bs b 1 (st_os s) = ((e, d), w')) ∧
    (w' = st_os s ∨ ∃ r, io_read_blk64 bs b 1 (st_os s) = (r, w')).
Proof.
  intros Hb Hc. unfold load_buffer. destruct (Z.eqb_spec b (ic_buffer_blk c)) as [E|].
  - exists 0, c, (st_os s). unfold ret, set_os. destruct s as [h w l]. simpl in *.
    split_and!; try done; [|by left]. intros _. split; [|done]. rewrite E. apply Hc. lia.
  - destruct (ir_blocksize _ _ _ Hr) as (-> & _). unfold bind, sys.
    destruct (io_read_blk64 bs b 1 (st_os s)) as [[e d] w'] eqn:Er. cbn [obind]. unfold ret.
    destruct (disk_read _ _ _ _ _ Er) as [Hd He].
    eexists e, _, w'. split; [done|]. split_and!; try done.
    + intros ->. cbn [Z.eqb]. simpl. split; [|done]. rewrite Hd. by apply He.
    + intros _. by exists d.
    + right. by eexists.
Qed.

(** One inode is one piece. *)
Lemma read_pieces_run ino c s : inode_ok fs ino →
  (ic_buffer_blk c ≠ 0 → ic_buffer c = disk (st_os s) (ic_buffer_blk c)) →
  ∃ e c' w' got, read_pieces (S (Z.to_nat isz)) fs isz (inode_off bs fs ino) (inode_blk bs fs gd ino) c [] s =
      Ret ((e, c', got), set_os w' s) ∧ disk w' = disk (st_os s) ∧
    ic_cache c' = ic_cache c ∧ ic_cache_last c' = ic_cache_last c ∧
    (e = 0 → got = disk_inode fs gd w' ino ∧ ic_buffer c' = disk w' (inode_blk bs fs gd ino) ∧
             ic_buffer_blk c' = inode_blk bs fs gd ino) ∧
    (e ≠ 0 → got = [] ∧ ∃ d, io_read_blk64 bs (inode_blk bs fs gd ino) 1 (st_os s) = ((e, d), w')) ∧
    (w' = st_os s ∨ ∃ r, io_read_blk64 bs (inode_blk bs fs gd ino) 1 (st_os s) = (r, w')).
Proof.
  intros Hi Hc. destruct (inode_off_multiple _ _ _ Hr ino) as (k & ? & Ek & Hin). destruct (bs_bound _ _ _ Hr).
  destruct (inode_blk_bound _ _ _ Hr ino Hi) as ((Hpos & _) & _).
  destruct (Z.to_nat isz) as [|n] eqn:En; [lia|]. cbn [read_pieces].
  destruct (Z.eqb_spec isz 0); [lia|]. destruct (ir_blocksize _ _ _ Hr) as (Ebs & _). rewrite Ebs.
  destruct (Z.ltb_spec bs (inode_off bs fs ino + isz)); [lia|].
  destruct (load_buffer_run _ c s Hpos Hc) as (e & c' & w' & El & Hd & HL1 & HL2 & HL3 & HL4 & HL5).
  rewrite (bind_eq _ _ _ _ _ El). destruct (Z.eqb_spec e 0) as [->|He]; cbn [negb].
  - destruct (HL3 eq_refl) as [Hb Hbb]. unfold bind at 1, lift. rewrite Hb.
    assert (Es : slice (inode_off bs fs ino) isz (disk w' (inode_blk bs fs gd ino)) = Some (disk_inode fs gd w' ino)).
    { apply slice_Some. rewrite disk_size. split_and!; [nia|lia|lia|done]. }
    rewrite Es. cbn [of_option obind]. rewrite Z.sub_diag. cbn [app].
    exists 0, c', w', (disk_inode fs gd w' ino). done.
  - exists e, c', w', []. split; [done|]. split_and!; try done. intros _. split; [done|]. by apply HL4.
Qed.
End Ready.

Section Cache.
  Context (gd : bytes) (fs : ext2_filsys) (Hr : inodes_ready bs fs gd).
  Abbreviation isz := (EXT2_INODE_SIZE (f_super fs)).

Lemma bind_lift {A B} (a : A) (k : A → prog W B) s : bind (lift (Ret a)) k s = k a s.
Proof. done. Qed.

(** The cache of another view of the same file system. *)
Lemma cache_ok_icache x w c : cache_ok (set_icache x fs) gd w c ↔ cache_ok fs gd w c.
Proof. split; intros []; by split. Qed.
Lemma cache_ok_disk w w' c : disk w' = disk w → cache_ok fs gd w c → cache_ok fs gd w' c.
Proof.
  intros E [Hb Hs Hl Hsl Hlen Hd]. split; try done; [by rewrite E|]. intros i e Hi He.
  unfold disk_inode. rewrite E. by apply (Hsl i).
Qed.

Lemma find_slot_Some w c ino i e : cache_ok fs gd w c → ino ≠ 0 →
  find_slot ino (ic_cache c) = Some (i, e) ↔ ic_cache c !! i = Some e ∧ ce_ino e = ino.
Proof.
  intros Hc Hino. unfold find_slot. rewrite list_find_Some. split; [tauto|]. intros [Hi He].
  split_and!; [done|done|]. intros j e' Hj Hlt He'.
  assert (j = i); [|lia]. apply (co_distinct _ _ _ _ Hc j i e' e); congruence.
Qed.
Lemma find_slot_None ino slots : find_slot ino slots = None → ∀ i e, slots !! i = Some e → ce_ino e ≠ ino.
Proof.
  intros Hf%list_find_None i e Hi. rewrite Forall_forall in Hf. apply (Hf e). by eapply list_elem_of_lookup_2.
Qed.

Context (Hslots : mem_ok (4 * sizeof_icache_ent) = true) (Hisz : mem_ok isz = true).

Lemma create_run w : icache_inv fs gd w →
  ∃ e fs', ext2fs_create_inode_cache fs 4 = Ret (e, fs') ∧
    (e = 0 → ∃ c, fs' = set_icache (Some c) fs ∧ cache_ok fs gd w c ∧
       (f_icache fs = None → ∀ i e, ic_cache c !! i = Some e → ce_ino e = 0)) ∧
    (e ≠ 0 → fs' = fs ∧ e = EXT2_ET_NO_MEMORY ∧ mem_ok sizeof_icache && mem_ok (f_blocksize fs) = false).
Proof.
  intros Hinv. unfold ext2fs_create_inode_cache, icache_inv in *. destruct (f_icache fs) as [c|] eqn:E.
  { exists 0, fs. split; [done|]. split; [|done]. intros _. exists c.
    split; [destruct fs; simpl in *; by rewrite E|]. split; done. }
  destruct (mem_ok sizeof_icache); cbn [negb andb]; [|by eexists _, _].
  destruct (mem_ok (f_blocksize fs)); cbn [negb]; [|by eexists _, _].
  rewrite Hslots, Hisz. cbn [negb]. eexists _, _. split; [done|]. split; [|done]. intros _.
  set (fresh := MkCache [] 0 (-1) (replicate 4 (MkEnt 0 []))). exists fresh. split; [done|].
  assert (Hz : ∀ i e, ic_cache fresh !! i = Some e → e = MkEnt 0 []) by (intros i e [-> _]%lookup_replicate; done).
  split; [split; try done|].
  - intros i e ->%Hz. done.
  - intros i e ->%Hz. destruct (bs_bound _ _ _ Hr). simpl. lia.
  - intros i j e e' ->%Hz _ _ He. done.
  - intros _ i e ->%Hz. done.
Qed.

End Cache.

Section Ops.
  Context (gd : bytes) (fs : ext2_filsys) (Hr : inodes_ready bs fs gd).
  Abbreviation isz := (EXT2_INODE_SIZE (f_super fs)).
Context (Hslots : mem_ok (4 * sizeof_icache_ent) = true) (Hisz : mem_ok isz = true).

(** A slot gets an inode that agrees with the disk. *)
Lemma put_slot_ok w c slot ino x last : cache_ok fs gd w c → (slot < 4)%nat → -1 ≤ last < 4 → inode_ok fs ino →
  same_inode fs ino x (disk_inode fs gd w ino) →
  (∀ i e, ic_cache c !! i = Some e → ce_ino e = ino → i = slot) →
  cache_ok fs gd w (set_last last (put_slot slot (MkEnt ino x) c)).
Proof.
  intros [Hb Hs Hl Hsl Hlen Hd] Hslot Hlast Hi Hx Hfree. split; simpl; try done.
  - by rewrite length_insert.
  - intros i e [(<- & <- & _)|[? Hi']]%list_lookup_insert_Some He; [done|by apply (Hsl i)].
  - intros i e [(<- & <- & _)|[? Hi']]%list_lookup_insert_Some; [|by apply (Hlen i)].
    destruct Hx as [(_ & E & _) _]. simpl. lia.
  - intros i j e e' [(<- & <- & _)|[? Hi']]%list_lookup_insert_Some
      [(<- & <- & _)|[? Hj']]%list_lookup_insert_Some Ee He; simpl in *; [done| | |by eapply Hd].
    + symmetry. by eapply Hfree.
    + by eapply Hfree.
Qed.
Lemma same_inode_refl ino x : inode_wf fs x → same_inode fs ino x x.
Proof. done. Qed.

(** Reading an inode. *)
Lemma read_inode2_run ino bufsize flags s : icache_inv fs gd (st_os s) → inode_ok fs ino →
  ∃ e x fs' w', ext2fs_read_inode2 fs ino bufsize flags s = Ret ((e, x, fs'), set_os w' s) ∧
    disk w' = disk (st_os s) ∧ (∃ ic, fs' = set_icache ic fs) ∧
    (w' = st_os s ∨ ∃ r, io_read_blk64 bs (inode_blk bs fs gd ino) 1 (st_os s) = (r, w')) ∧
    let good := ext2fs_inode_csum_verify fs ino (disk_inode fs gd w' ino) in
    (e = 0 → ∃ old, x = take (Z.to_nat (Z.min bufsize isz)) old ∧
       same_inode fs ino old (disk_inode fs gd w' ino) ∧
       (good = true → ∃ c slot, f_icache fs' = Some c ∧ cache_ok fs gd w' c ∧ ic_cache c !! slot = Some (MkEnt ino old))) ∧
    (e ≠ 0 → (e = EXT2_ET_INODE_CSUM_INVALID ∧ good = false ∧ has (f_flags fs) EXT2_FLAG_IGNORE_CSUM_ERRORS = false) ∨
       (e = EXT2_ET_NO_MEMORY ∧ mem_ok sizeof_icache && mem_ok (f_blocksize fs) = false) ∨
       ∃ d, io_read_blk64 bs (inode_blk bs fs gd ino) 1 (st_os s) = ((e, d), w')).
Proof.
  intros Hinv Hi. pose proof Hi as [Hi1 Hi2]. destruct (bs_bound _ _ _ Hr). unfold ext2fs_read_inode2.
  rewrite (ir_journal _ _ _ Hr). destruct (ir_blocksize _ _ _ Hr) as (Ebs & _ & E2). rewrite Ebs.
  assert (0 ≤ s_log_block_size (f_super fs)) by (apply fld4_bound, (ir_super _ _ _ Hr)).
  destruct (Z.ltb_spec bs 1024).
  { assert (2 ^ 10 ≤ 2 ^ (10 + s_log_block_size (f_super fs))) by (apply Z.pow_le_mono_r; lia). lia. }
  destruct (Z.eqb_spec ino 0); [lia|]. destruct (Z.ltb_spec (s_inodes_count (f_super fs)) ino); [lia|]. cbn [orb].
  destruct (create_run gd fs Hr Hslots Hisz _ Hinv) as (e0 & fs0 & -> & HE1 & HE2).
  rewrite bind_lift.
  assert (Hs : s = set_os (st_os s) s) by (by destruct s).
  destruct (Z.eqb_spec e0 0) as [->|He0]; cbn [negb]; cycle 1.
  { destruct (HE2 He0) as (-> & -> & Hmem0). exists EXT2_ET_NO_MEMORY, [], fs, (st_os s). rewrite <- Hs. split; [done|]. split; [done|].
    split; [exists (f_icache fs); by destruct fs|]. split; [by left|]. split; [done|]. intros _. right. left. split; [done|]. by rewrite <- Ebs. }
  destruct (HE1 eq_refl) as (c & -> & Hc & _). clear HE1 HE2 Hinv.
  change (of_option (f_icache (set_icache (Some c) fs))) with (Ret c). rewrite bind_lift. cbv zeta.
  change (EXT2_INODE_SIZE (f_super (set_icache (Some c) fs))) with isz.
  pose proof (disk_inode_wf gd fs Hr (st_os s) ino Hi) as Hwf.
  destruct (find_slot ino (ic_cache c)) as [[i en]|] eqn:Ef.
  { apply (find_slot_Some gd fs _ _ _ _ _ Hc) in Ef as [Hsl Hen]; [|lia].
    destruct (co_slots _ _ _ _ Hc i en Hsl) as [_ Hsame]; [lia|]. rewrite Hen in Hsame.
    exists 0, (take (Z.to_nat (Z.min bufsize isz)) (ce_inode en)), (set_icache (Some c) fs), (st_os s). rewrite <- Hs. split; [done|].
    split; [done|]. split; [by eexists|]. split; [by left|]. split; [|done]. intros _. exists (ce_inode en). split; [done|].
    split; [done|]. intros _. exists c, i. split; [done|]. split; [done|].
    rewrite Hsl. destruct en. simpl in *. by rewrite Hen. }
  pose proof (set_icache_ready gd fs (Some c) Hr) as Hr1.
  rewrite (bind_eq _ _ _ _ _ (inode_place_run gd (set_icache (Some c) fs) Hr1 ino s Hi)). cbv iota beta.
  rewrite (co_size _ _ _ _ Hc). cbn [Nat.eqb].
  set (slot := Z.to_nat (u32 (ic_cache_last c + 1) mod Z.of_nat 4)).
  assert (Hslot : (slot < 4)%nat) by (unfold slot; pose proof (Z.mod_pos_bound (u32 (ic_cache_last c + 1)) 4); lia).
  destruct (lookup_lt_is_Some_2 (ic_cache c) slot) as [old Hold]; [rewrite (co_size _ _ _ _ Hc); lia|].
  rewrite Hold. cbn [of_option]. rewrite bind_lift.
  destruct (read_pieces_run gd (set_icache (Some c) fs) Hr1 ino c s Hi (co_buffer _ _ _ _ Hc))
    as (e & c' & w' & got & Erun & Hd & Hcc & Hcl & Hok & Hbad & Hwhere).
  change (inode_blk bs (set_icache (Some c) fs) gd ino) with (inode_blk bs fs gd ino) in *.
  change (inode_off bs (set_icache (Some c) fs) ino) with (inode_off bs fs ino) in *.
  change (disk_inode (set_icache (Some c) fs) gd) with (disk_inode fs gd) in *.
  change (EXT2_INODE_SIZE (f_super (set_icache (Some c) fs))) with isz in *.
  rewrite (bind_eq _ _ _ _ _ Erun). cbv iota beta.
  destruct (Z.eqb_spec e 0) as [->|He]; cbn [negb]; cycle 1.
  { destruct (Hbad He) as [-> Hio].
    eexists e, [], _, w'. split; [done|]. split; [done|]. split; [by eexists|]. split; [done|]. split; [done|].
    intros _. right. by right. }
  destruct (Hok eq_refl) as (-> & Hbuf & Hblk).
  assert (Hwf' : inode_wf fs (disk_inode fs gd w' ino)) by (by apply disk_inode_wf).
  pose proof (co_len _ _ _ _ Hc slot old Hold) as Hlen.
  assert (Hl : zlen (disk_inode fs gd w' ino) = isz) by apply Hwf'.
  rewrite (drop_ge (ce_inode old)), app_nil_r by lia.
  change (ext2fs_inode_csum_verify (set_icache (Some c) fs)) with (ext2fs_inode_csum_verify fs).
  set (good := ext2fs_inode_csum_verify fs ino (disk_inode fs gd w' ino)).
  eexists _, _, _, w'. split; [done|]. split; [done|]. split; [by eexists|]. split; [done|]. cbv zeta. fold good. split.
  - intros Hret. exists (disk_inode fs gd w' ino). split; [done|]. split; [done|]. intros Hg. rewrite Hg.
    cbn [negb]. eexists _, slot. split; [done|]. split.
    + apply put_slot_ok; [|done|lia|done|done|].
      * destruct Hc as [_ Hcs Hcl' Hcsl Hcn Hcd]. rewrite <- Hcc, <- Hcl in *. split; try done.
        -- intros _. by rewrite Hblk.
        -- intros i e Hie Hne. unfold disk_inode. rewrite Hd. by apply (Hcsl i).
      * intros i e Hie He. exfalso. rewrite Hcc in Hie. by eapply find_slot_None in Ef.
    + simpl. apply list_lookup_insert_eq. rewrite Hcc, (co_size _ _ _ _ Hc). lia.
  - intros Hret. left. destruct good; cbn [negb] in *; [by rewrite andb_false_r in Hret|].
    change (f_flags (set_icache (Some c) fs)) with (f_flags fs) in *.
    destruct (has (f_flags fs) EXT2_FLAG_IGNORE_CSUM_ERRORS); [done|]. split; [|done]. by destruct (_ && _).
Qed.
End Ops.

Section Write.
  Context (gd : bytes) (fs : ext2_filsys) (Hr : inodes_ready bs fs gd).
  Abbreviation isz := (EXT2_INODE_SIZE (f_super fs)).

(** ** Writing an inode *)

(** A block with some of its bytes replaced. *)
Definition splice (off : Z) (x b : bytes) : bytes :=
  take (Z.to_nat off) b ++ x ++ drop (Z.to_nat (off + zlen x)) b.
Lemma splice_length off x b : 0 ≤ off → off + zlen x ≤ zlen b → length (splice off x b) = length b.
Proof. intros. unfold splice. rewrite !length_app, length_take, length_drop. lia. Qed.
Lemma splice_read off x b : 0 ≤ off → off + zlen x ≤ zlen b →
  take (length x) (drop (Z.to_nat off) (splice off x b)) = x.
Proof.
  intros. unfold splice. rewrite drop_app_length' by (rewrite length_take; lia). apply take_app_length.
Qed.
Lemma splice_other off x b o n : 0 ≤ off → off + zlen x ≤ zlen b → 0 ≤ o → 0 ≤ n →
  o + n ≤ off ∨ off + zlen x ≤ o →
  take (Z.to_nat n) (drop (Z.to_nat o) (splice off x b)) = take (Z.to_nat n) (drop (Z.to_nat o) b).
Proof.
  intros H1 H2 H3 H4 [Ho|Ho]; unfold splice.
  - rewrite !take_drop_commute. f_equal. rewrite take_app_le by (rewrite length_take; lia).
    rewrite take_take. f_equal. lia.
  - f_equal. rewrite app_assoc, drop_app_ge; rewrite !length_app, length_take; [|lia].
    rewrite drop_drop. f_equal. lia.
Qed.

Lemma write_pieces_run ino ptr c s : inode_ok fs ino → zlen ptr = isz → Forall is_byte ptr →
  (ic_buffer_blk c ≠ 0 → ic_buffer c = disk (st_os s) (ic_buffer_blk c)) →
  let blk := inode_blk bs fs gd ino in
  ∃ e c' w', write_pieces (S (Z.to_nat isz)) fs isz (inode_off bs fs ino) blk ptr c s = Ret ((e, c'), set_os w' s) ∧
    ic_cache c' = ic_cache c ∧ ic_cache_last c' = ic_cache_last c ∧
    (e = 0 → ic_buffer_blk c' = blk ∧ ic_buffer c' = disk w' blk ∧
       ∀ b, disk w' b = if b =? blk then splice (inode_off bs fs ino) ptr (disk (st_os s) blk) else disk (st_os s) b).
Proof.
  intros Hi Hl Hb Hc blk. destruct (inode_off_multiple _ _ _ Hr ino) as (k & ? & Ek & Hin). destruct (bs_bound _ _ _ Hr).
  destruct (inode_blk_bound _ _ _ Hr ino Hi) as ((Hpos & _) & _). fold blk in Hpos.
  assert (0 ≤ inode_off bs fs ino) by nia.
  destruct (Z.to_nat isz) as [|n] eqn:En; [lia|]. cbn [write_pieces].
  destruct (Z.eqb_spec isz 0); [lia|]. destruct (ir_blocksize _ _ _ Hr) as (Ebs & _). rewrite Ebs.
  destruct (Z.ltb_spec bs (inode_off bs fs ino + isz)); [lia|].
  destruct (load_buffer_run gd fs Hr _ c s Hpos Hc) as (e & c1 & w1 & El & Hd & HL1 & HL2 & HL3 & HL4 & _).
  rewrite (bind_eq _ _ _ _ _ El). destruct (Z.eqb_spec e 0) as [->|He]; cbn [negb]; cycle 1.
  { exists e, c1, w1. split; [done|]. by split_and!. }
  destruct (HL3 eq_refl) as [Hbuf Hbb].
  assert (Es : slice 0 isz ptr = Some ptr).
  { apply slice_Some. split_and!; [lia..|]. change (Z.to_nat 0) with 0%nat. rewrite drop_0, take_ge; [done|lia]. }
  rewrite Es. cbn [of_option]. rewrite bind_lift. pose proof (disk_size w1 blk) as Hsz.
  rewrite Hbuf, bool_decide_true by lia. cbn [negb].
  set (data := take (Z.to_nat (inode_off bs fs ino)) (disk w1 blk) ++ ptr ++
               drop (Z.to_nat (inode_off bs fs ino + isz)) (disk w1 blk)).
  assert (Edata : data = splice (inode_off bs fs ino) ptr (disk (st_os s) blk)) by (unfold data, splice; by rewrite Hl, Hd).
  assert (Hdl : zlen data = bs) by (rewrite Edata, splice_length; rewrite ?disk_size; lia).
  assert (Hdb : Forall is_byte data).
  { unfold data. rewrite !Forall_app. split_and!; [apply Forall_take, disk_bytes|done|apply Forall_drop, disk_bytes]. }
  unfold bind at 1, sys. destruct (io_write_blk64 bs blk 1 data (st_os (set_os w1 s))) as [e w2] eqn:Ew.
  cbn [obind]. destruct (Z.eqb_spec e 0) as [->|He]; cbn [negb]; cycle 1.
  { unfold ret. eexists e, _, w2. split; [done|]. by split_and!. }
  rewrite Z.sub_diag. cbn [write_pieces Z.eqb]. unfold ret. eexists 0, _, w2. split; [done|].
  split; [done|]. split; [done|]. intros _. simpl. pose proof (disk_write blk data _ _ ltac:(lia) Hdl Hdb Ew) as Hw.
  split; [done|]. split; [by rewrite Hw, Z.eqb_refl|]. intros b. rewrite Hw, Edata. simpl. by rewrite Hd.
Qed.

(** What a write changes. *)
Lemma write_effect w w' ino ptr : inode_ok fs ino → zlen ptr = isz →
  (∀ b, disk w' b = if b =? inode_blk bs fs gd ino
                    then splice (inode_off bs fs ino) ptr (disk w (inode_blk bs fs gd ino)) else disk w b) →
  disk_inode fs gd w' ino = ptr ∧
  ∀ ino', inode_ok fs ino' → ino' ≠ ino → disk_inode fs gd w' ino' = disk_inode fs gd w ino'.
Proof.
  intros Hi Hl Hd. destruct (inode_off_multiple _ _ _ Hr ino) as (k & ? & Ek & Hin). destruct (bs_bound _ _ _ Hr).
  assert (0 ≤ inode_off bs fs ino) by nia. split.
  - unfold disk_inode. rewrite Hd, Z.eqb_refl. replace (Z.to_nat isz) with (length ptr) by lia.
    apply splice_read; [done|]. rewrite disk_size. lia.
  - intros ino' Hi' Hne. unfold disk_inode. rewrite Hd.
    destruct (Z.eqb_spec (inode_blk bs fs gd ino') (inode_blk bs fs gd ino)) as [E|]; [|done]. rewrite E.
    destruct (inode_off_multiple _ _ _ Hr ino') as (k' & ? & Ek' & Hin').
    apply splice_other; [done|rewrite disk_size; lia|nia|lia|].
    destruct (inode_apart _ _ _ Hr ino ino' Hi Hi' ltac:(congruence) ltac:(congruence)); lia.
Qed.

End Write.

Section Update.
  Context (gd : bytes) (fs : ext2_filsys) (Hr : inodes_ready bs fs gd).
  Abbreviation isz := (EXT2_INODE_SIZE (f_super fs)).
  Context (Hslots : mem_ok (4 * sizeof_icache_ent) = true) (Hisz : mem_ok isz = true).

(** [inode] over the first bytes of [old]. *)
Definition over_inode (inode old : bytes) : bytes :=
  take (Z.to_nat isz) inode ++ drop (length (take (Z.to_nat isz) inode)) old.
Lemma over_inode_wf inode old : Forall is_byte inode → inode_wf fs old ∨ isz ≤ zlen inode ∧ zlen old ≤ isz →
  inode_wf fs (over_inode inode old).
Proof.
  intros Hb Ho. destruct (bs_bound _ _ _ Hr). assert (Hl : zlen old = isz ∨ isz ≤ zlen inode ∧ zlen old ≤ isz).
  { destruct Ho as [(_ & ? & _)|?]; [by left|by right]. }
  assert (Hz : zlen (over_inode inode old) = isz).
  { unfold over_inode. rewrite length_app, length_drop, length_take. lia. }
  apply (make_inode_wf gd fs Hr); [|done]. unfold over_inode. apply Forall_app. split; [by apply Forall_take|].
  destruct Ho as [(? & _)|[? ?]]; [by apply Forall_drop|]. rewrite drop_ge; [done|]. rewrite length_take. lia.
Qed.
Lemma over_inode_full inode old old' : isz ≤ zlen inode → zlen old ≤ isz → zlen old' ≤ isz →
  over_inode inode old = over_inode inode old'.
Proof.
  intros. destruct (bs_bound _ _ _ Hr). unfold over_inode.
  rewrite !drop_ge by (rewrite length_take; lia). done.
Qed.

(** The bytes that are written for an inode [x]. *)
Definition written (flags ino : Z) (x : bytes) : bytes :=
  if has flags WRITE_INODE_NOCSUM then x else ext2fs_inode_csum_set fs ino x.
Lemma written_same flags ino x : inode_wf fs x → same_inode fs ino x (written flags ino x).
Proof.
  intros Hx. unfold written. destruct (has flags _); [done|].
  split; [done|]. split; [by apply csum_set_wf|]. by rewrite csum_set_twice.
Qed.
Lemma written_wf flags ino x : inode_wf fs x → inode_wf fs (written flags ino x).
Proof. intros Hx. apply (written_same flags ino x Hx). Qed.

(** The cache once the slot of the inode, if it has one, has been changed to [x]. *)
Definition slot_changed (w : W) (ino : Z) (x : bytes) (c : ext2_inode_cache) : Prop :=
  ∃ c1, cache_ok fs gd w c1 ∧
    ((c = c1 ∧ ∀ i e, ic_cache c1 !! i = Some e → ce_ino e ≠ ino) ∨
     ∃ slot e, ic_cache c1 !! slot = Some e ∧ ce_ino e = ino ∧ c = put_slot slot (MkEnt ino x) c1).

(** The first half: what there was is read when it is needed, the cache is changed. *)
Lemma write_prepare ino inode s : icache_inv fs gd (st_os s) → inode_ok fs ino → Forall is_byte inode →
  (zlen inode < isz → ext2fs_inode_csum_verify fs ino (disk_inode fs gd (st_os s) ino) = true) →
  ∃ e w1 wi fs1, (if zlen inode <? isz then ext2fs_read_inode2 fs ino isz READ_INODE_NOCSUM else ret (0, [], fs)) s =
      Ret ((e, wi, fs1), set_os w1 s) ∧ disk w1 = disk (st_os s) ∧
    (e = 0 → (∃ ic, fs1 = set_icache ic fs) ∧ icache_inv fs gd w1 ∧ (zlen wi ≤ isz) ∧
       (match f_icache fs1 with None => isz ≤ zlen inode | Some c => cache_ok fs gd w1 c end) ∧
       ∃ old, same_inode fs ino old (disk_inode fs gd w1 ino) ∧ over_inode inode wi = over_inode inode old ∧
         ∀ c i en, f_icache fs1 = Some c → ic_cache c !! i = Some en → ce_ino en = ino →
           over_inode inode (ce_inode en) = over_inode inode old).
Proof.
  intros Hinv Hi Hb Hgood.
  assert (Hs : s = set_os (st_os s) s) by (by destruct s).
  pose proof (disk_inode_wf gd fs Hr (st_os s) ino Hi) as Hwf.
  destruct (Z.ltb_spec (zlen inode) isz) as [Hlt|Hge]; cycle 1.
  { exists 0, (st_os s), [], fs. rewrite <- Hs. split; [done|]. split; [done|]. intros _.
    split; [exists (f_icache fs); by destruct fs|]. split; [done|]. destruct (bs_bound _ _ _ Hr).
    split; [simpl; lia|]. split; [unfold icache_inv in Hinv; by destruct (f_icache fs)|].
    exists (disk_inode fs gd (st_os s) ino). destruct Hwf as (? & Hl & ?).
    split; [done|]. split; [apply over_inode_full; simpl; lia|].
    intros c i en Ec Hsl _. unfold icache_inv in Hinv. rewrite Ec in Hinv.
    pose proof (co_len _ _ _ _ Hinv _ _ Hsl). apply over_inode_full; lia. }
  destruct (read_inode2_run gd fs Hr Hslots Hisz ino isz READ_INODE_NOCSUM s Hinv Hi)
    as (e & wi & fs1 & w1 & Erun & Hd & (ic & ->) & _ & Hok & _).
  exists e, w1, wi, (set_icache ic fs). split; [done|]. split; [done|]. intros ->.
  destruct (Hok eq_refl) as (old & -> & Hsame & Hc).
  assert (Eg : ext2fs_inode_csum_verify fs ino (disk_inode fs gd w1 ino) = true).
  { unfold disk_inode. rewrite Hd. by apply Hgood. }
  destruct (Hc Eg) as (c & slot & Ec & Hcok & Hsl). simpl in Ec. subst ic.
  destruct Hsame as (Ho & ? & ?). destruct Ho as (Hob & Hol & Hor).
  assert (Et : take (Z.to_nat (Z.min isz isz)) old = old) by (apply take_ge; lia).
  rewrite Et. split; [by eexists|]. split.
  { unfold icache_inv in *. destruct (f_icache fs); [|done]. by eapply cache_ok_disk. }
  split; [lia|]. split; [done|].
  exists old. split; [done|]. split; [done|]. intros c' i en [= <-] Hsl' He.
  assert (E : i = slot).
  { apply (co_distinct _ _ _ _ Hcok i slot en (MkEnt ino old)); [done|done|done|]. destruct Hi. rewrite He. lia. }
  subst i. rewrite Hsl in Hsl'. by injection Hsl' as <-.
Qed.

(** The second half: the cache still agrees with the disk. *)
Lemma slot_changed_ok w w' ino x y c c' : inode_ok fs ino → slot_changed w ino x c → same_inode fs ino x y →
  ic_cache c' = ic_cache c → ic_cache_last c' = ic_cache_last c →
  ic_buffer c' = disk w' (ic_buffer_blk c') →
  disk_inode fs gd w' ino = y →
  (∀ ino', inode_ok fs ino' → ino' ≠ ino → disk_inode fs gd w' ino' = disk_inode fs gd w ino') →
  cache_ok fs gd w' c'.
Proof.
  intros Hi (c1 & [Hcb Hs Hl Hsl Hlen Hdis] & Hc) Hxy Hcc Hcl Hbuf Hy Hoth.
  assert (Hkeep : ∀ i e, ic_cache c1 !! i = Some e → ce_ino e ≠ 0 → ce_ino e ≠ ino →
    inode_ok fs (ce_ino e) ∧ same_inode fs (ce_ino e) (ce_inode e) (disk_inode fs gd w' (ce_ino e))).
  { intros i e Hie Hne Hni. destruct (Hsl i e Hie Hne) as [Hio Hsm]. split; [done|]. by rewrite Hoth. }
  destruct Hc as [[-> Hno]|(slot & e0 & Hslot & He0 & ->)].
  - split; rewrite ?Hcc, ?Hcl; try done. intros i e Hie Hne. apply (Hkeep i); [done|done|by eapply Hno].
  - simpl in Hcc. split; rewrite ?Hcc, ?Hcl; try done.
    + by rewrite length_insert.
    + intros i e [(<- & <- & _)|[Hni Hie]]%list_lookup_insert_Some Hne; simpl.
      * split; [done|]. by rewrite Hy.
      * apply (Hkeep i); [done|done|]. intros E. apply Hni. by apply (Hdis slot i e0 e); congruence.
    + intros i e [(<- & <- & _)|[? Hie]]%list_lookup_insert_Some; [|by apply (Hlen i)].
      simpl. destruct Hxy as [(_ & E & _) _]. lia.
    + intros i j e e' [(<- & <- & _)|[? Hie]]%list_lookup_insert_Some
        [(<- & <- & _)|[? Hje]]%list_lookup_insert_Some Ee He; simpl in *; [done| | |by eapply Hdis].
      * apply (Hdis slot j e0 e'); congruence.
      * apply (Hdis i slot e e0); congruence.
Qed.

Lemma write_inode2_run ino inode flags s : icache_inv fs gd (st_os s) → inode_ok fs ino → Forall is_byte inode →
  has (f_flags fs) EXT2_FLAG_RW = true →
  (zlen inode < isz → ext2fs_inode_csum_verify fs ino (disk_inode fs gd (st_os s) ino) = true) →
  ∃ e fs' w', ext2fs_write_inode2 fs ino inode flags s = Ret ((e, fs'), set_os w' s) ∧
    (e = 0 →
       (∃ c, fs' = set_flags (Z.lor (f_flags fs) EXT2_FLAG_CHANGED) (set_icache (Some c) fs) ∧ cache_ok fs gd w' c) ∧
       (∃ old, same_inode fs ino old (disk_inode fs gd (st_os s) ino) ∧
          disk_inode fs gd w' ino = written flags ino (over_inode inode old)) ∧
       (∀ ino', inode_ok fs ino' → ino' ≠ ino → disk_inode fs gd w' ino' = disk_inode fs gd (st_os s) ino') ∧
       (∀ b, b ≠ inode_blk bs fs gd ino → disk w' b = disk (st_os s) b)).
Proof.
  intros Hinv Hi Hb Hrw Hgood. pose proof Hi as [Hi1 Hi2]. unfold ext2fs_write_inode2.
  rewrite (ir_journal _ _ _ Hr). destruct (Z.eqb_spec ino 0); [lia|].
  destruct (Z.ltb_spec (s_inodes_count (f_super fs)) ino); [lia|]. cbn [orb]. rewrite Hisz. cbn [negb].
  destruct (write_prepare ino inode s Hinv Hi Hb Hgood) as (e & w1 & wi & fs1 & Erun & Hd & Hok).
  rewrite (bind_eq _ _ _ _ _ Erun). cbv iota beta.
  destruct (Z.eqb_spec e 0) as [->|He]; cbn [negb]; [|exists e, fs1, w1; by split].
  destruct (Hok eq_refl) as ((ic & ->) & Hinv1 & Hwi & Hic & old & Hsame & Hwo & Hslo). clear Hok.
  set (x := over_inode inode old) in *. simpl in Hic, Hslo.
  assert (Hxw : inode_wf fs x) by (apply over_inode_wf; [done|left; apply Hsame]).
  (* the cache *)
  match goal with |- context [bind ?m ?k (set_os w1 s)] =>
    assert (Hcache : ∃ e c2, m (set_os w1 s) = Ret ((e, set_icache c2 fs), set_os w1 s) ∧
      (e = 0 → ∃ c, c2 = Some c ∧ slot_changed w1 ino x c)) end.
  { change (f_icache (set_icache ic fs)) with ic. destruct ic as [c|].
    - destruct (find_slot ino (ic_cache c)) as [[slot en]|] eqn:Ef.
      + apply (find_slot_Some gd fs w1 c ino slot en Hic) in Ef as [Hsl Hen]; [|lia].
        exists 0, (Some (put_slot slot (MkEnt ino (over_inode inode (ce_inode en))) c)). split; [done|].
        intros _. eexists. split; [done|]. exists c. split; [done|]. right.
        exists slot, en. split; [done|]. split; [done|]. f_equal. f_equal. by eapply Hslo.
      + exists 0, (Some c). split; [done|]. intros _. exists c. split; [done|]. exists c. split; [done|]. left.
        split; [done|]. by apply find_slot_None.
    - destruct (create_run gd (set_icache None fs) (set_icache_ready gd fs None Hr) Hslots Hisz w1 I)
        as (e & fs2 & Ec & Hce & Hcb).
      unfold lift. rewrite Ec. cbn [obind]. destruct (decide (e = 0)) as [->|He].
      + destruct (Hce eq_refl) as (c & -> & Hcok & Hz). exists 0, (Some c). split; [done|]. intros _. exists c.
        split; [done|]. exists c.
        split; [destruct Hcok; by split|]. left. split; [done|].
        intros i en Hen. rewrite (Hz eq_refl i en Hen). lia.
      + destruct (Hcb He) as (-> & -> & _). by exists EXT2_ET_NO_MEMORY, None. }
  destruct Hcache as (e & c2 & Erun2 & Hc2).
  rewrite (bind_eq _ _ _ _ _ Erun2). cbv iota beta.
  destruct (Z.eqb_spec e 0) as [->|He]; cbn [negb]; [|eexists e, _, w1; by split].
  destruct (Hc2 eq_refl) as (c & -> & Hch). clear Hc2.
  change (f_flags (set_icache (Some c) fs)) with (f_flags fs). rewrite Hrw. cbn [negb].
  change (ext2fs_inode_csum_set (set_icache (Some c) fs)) with (ext2fs_inode_csum_set fs).
  fold (over_inode inode wi). rewrite Hwo. fold (written flags ino x).
  pose proof (set_icache_ready gd fs (Some c) Hr) as Hr2.
  rewrite (inode_index_run gd _ Hr2 ino Hi), bind_lift.
  rewrite (bind_eq _ _ _ _ _ (table_checked_run gd _ Hr2 ino _ Hi)). cbv iota beta.
  change (of_option (f_icache (set_icache (Some c) fs))) with (Ret c). rewrite bind_lift.
  change (group_no (set_icache (Some c) fs)) with (group_no fs).
  change (table_loc (set_icache (Some c) fs) gd) with (table_loc fs gd).
  change (table_off (set_icache (Some c) fs)) with (table_off fs).
  fold (inode_blk bs fs gd ino). destruct (inode_blk_bound _ _ _ Hr ino Hi) as (Hblk & _).
  rewrite u64_small by lia.
  pose proof (written_wf flags ino x Hxw) as (Hwb & Hwl & _).
  assert (Hcbuf : ic_buffer_blk c ≠ 0 → ic_buffer c = disk (st_os (set_os w1 s)) (ic_buffer_blk c)).
  { destruct Hch as (c1 & Hc1 & [[-> _]|(slot & en & _ & _ & ->)]); apply (co_buffer _ _ _ _ Hc1). }
  destruct (write_pieces_run gd _ Hr2 ino (written flags ino x) c (set_os w1 s) Hi Hwl Hwb Hcbuf)
    as (e & c' & w' & Ew & Hcc & Hcl & Hw).
  change (inode_blk bs (set_icache (Some c) fs) gd ino) with (inode_blk bs fs gd ino) in *.
  change (inode_off bs (set_icache (Some c) fs) ino) with (inode_off bs fs ino) in *.
  rewrite (bind_eq _ _ _ _ _ Ew). cbv iota beta.
  destruct (Z.eqb_spec e 0) as [->|He]; cbn [negb]; [|eexists e, _, w'; by split].
  destruct (Hw eq_refl) as (Hbb & Hbuf & Hdw). clear Hw. simpl in Hdw.
  destruct (write_effect gd fs Hr w1 w' ino (written flags ino x) Hi Hwl Hdw) as [Hmine Hothers].
  eexists 0, _, w'. split; [done|]. intros _. split; [|split; [|split]].
  - exists c'. split; [done|].
    apply (slot_changed_ok w1 w' ino x (written flags ino x) c c'); try done; [by apply written_same|by rewrite Hbb].
  - exists old. split; [|done]. unfold disk_inode in Hsame |- *. by rewrite <- Hd.
  - intros ino' Hi' Hne. rewrite Hothers by done. unfold disk_inode. by rewrite Hd.
  - intros b Hne. rewrite Hdw, Hd. by destruct (Z.eqb_spec b (inode_blk bs fs gd ino)).
Qed.
End Update.

(** ** Sequences of operations *)
Inductive inode_op : Type :=
  | OpRead (ino bufsize flags : Z)
  | OpWrite (ino : Z) (inode : bytes) (flags : Z)
  | OpFlush.

Definition run_op (fs : ext2_filsys) (op : inode_op) : prog W (Z * bytes * ext2_filsys) :=
  match op with
  | OpRead ino bufsize flags => ext2fs_read_inode2 fs ino bufsize flags
  | OpWrite ino inode flags => let! '(e, fs) := ext2fs_write_inode2 fs ino inode flags in ret (e, [], fs)
  | OpFlush => ret (0, [], ext2fs_flush_icache fs)
  end.

(** The inode of an operation has a good checksum, when it is read. *)
Definition op_ok (gd : bytes) (fs : ext2_filsys) (w : W) (op : inode_op) : Prop :=
  match op with
  | OpRead ino _ _ => inode_ok fs ino ∧ ext2fs_inode_csum_verify fs ino (disk_inode fs gd w ino) = true
  | OpWrite ino inode _ => inode_ok fs ino ∧ Forall is_byte inode ∧ has (f_flags fs) EXT2_FLAG_RW = true ∧
      (zlen inode < EXT2_INODE_SIZE (f_super fs) →
       ext2fs_inode_csum_verify fs ino (disk_inode fs gd w ino) = true)
  | OpFlush => True
  end.

(** The states that successful operations lead to. *)
Inductive inode_reach (gd : bytes) (fs0 : ext2_filsys) (s0 : state W) : ext2_filsys → state W → Prop :=
  | reach_start : inode_reach gd fs0 s0 fs0 s0
  | reach_op fs s op x fs' s' :
      inode_reach gd fs0 s0 fs s → op_ok gd fs (st_os s) op → run_op fs op s = Ret ((0, x, fs'), s') →
      inode_reach gd fs0 s0 fs' s'.

Definition enough_memory (fs : ext2_filsys) : Prop :=
  mem_ok (4 * sizeof_icache_ent) = true ∧ mem_ok (EXT2_INODE_SIZE (f_super fs)) = true.

(** What does not change: all but the cache and the flag that says that something did. *)
Definition same_filsys (fs fs' : ext2_filsys) : Prop :=
  set_icache None (set_flags 0 fs') = set_icache None (set_flags 0 fs) ∧
  has (f_flags fs') EXT2_FLAG_IMAGE_FILE = has (f_flags fs) EXT2_FLAG_IMAGE_FILE ∧
  has (f_flags fs') EXT2_FLAG_RW = has (f_flags fs) EXT2_FLAG_RW.

Lemma flush_ok gd fs w : icache_inv fs gd w → icache_inv (ext2fs_flush_icache fs) gd w.
Proof.
  unfold icache_inv, ext2fs_flush_icache. destruct (f_icache fs) as [c|] eqn:E; [|by rewrite E].
  intros [Hb Hs Hl Hsl Hlen Hd]. simpl.
  assert (Hz : ∀ i e, ((fun e => MkEnt 0 (ce_inode e)) <$> ic_cache c) !! i = Some e →
                 ce_ino e = 0 ∧ ∃ e', ic_cache c !! i = Some e' ∧ ce_inode e = ce_inode e').
  { intros i e. rewrite list_lookup_fmap, fmap_Some. intros (e' & Hi & ->). split; [done|]. by exists e'. }
  split; simpl; try done.
  - by rewrite length_map.
  - intros i e Hi%Hz. tauto.
  - intros i e Hi%Hz. destruct Hi as (_ & e' & Hi & ->). by apply (Hlen i).
  - intros i j e e' Hi%Hz. tauto.
Qed.

(** One operation: it returns, and when it succeeds the cache agrees with the disk. *)
Lemma run_op_ok gd fs op s : inodes_ready bs fs gd → enough_memory fs → icache_inv fs gd (st_os s) →
  op_ok gd fs (st_os s) op →
  ∃ e x fs' s', run_op fs op s = Ret ((e, x, fs'), s') ∧
    (e = 0 → inodes_ready bs fs' gd ∧ icache_inv fs' gd (st_os s') ∧ same_filsys fs fs').
Proof.
  intros Hr [Hm1 Hm2] Hinv Hop. destruct op as [ino n fl|ino x fl|]; cbn [run_op].
  - destruct Hop as [Hi Hg].
    destruct (read_inode2_run gd fs Hr Hm1 Hm2 ino n fl s Hinv Hi) as (e & x & fs' & w' & E & Hd & (ic & ->) & _ & Hok & _).
    eexists e, x, _, _. split; [exact E|]. intros ->. destruct (Hok eq_refl) as (old & _ & _ & Hc).
    destruct (Hc ltac:(unfold disk_inode; rewrite Hd; exact Hg)) as (c & slot & Ec & Hcok & _).
    split; [by apply set_icache_ready|]. split; [|done]. unfold icache_inv. rewrite Ec.
    destruct Hcok; by split.
  - destruct Hop as (Hi & Hb & Hrw & Hg).
    destruct (write_inode2_run gd fs Hr Hm1 Hm2 ino x fl s Hinv Hi Hb Hrw Hg) as (e & fs' & w' & E & Hok).
    rewrite (bind_eq _ _ _ _ _ E). eexists e, [], fs', _. split; [done|]. intros ->.
    destruct (Hok eq_refl) as ((c & -> & Hc) & _).
    assert (Hl : ∀ b, Z.land EXT2_FLAG_CHANGED b = 0 → has (Z.lor (f_flags fs) EXT2_FLAG_CHANGED) b = has (f_flags fs) b).
    { intros b Hb'. by apply has_lor_other. }
    split; [|split].
    + apply set_flags_ready; [by apply set_icache_ready|]. rewrite Hl by done. apply (ir_image _ _ _ Hr).
    + unfold icache_inv. simpl. destruct Hc; by split.
    + split; [done|]. simpl. by rewrite !Hl.
  - eexists 0, [], _, s. split; [done|]. intros _. split; [|split].
    + unfold ext2fs_flush_icache. destruct (f_icache fs); [by apply set_icache_ready|done].
    + by apply flush_ok.
    + unfold ext2fs_flush_icache. by destruct (f_icache fs).
Qed.

(** C8. The cache of inodes agrees with the disk: after any sequence of successful reads, writes
    and flushes, of inodes whose checksum is right when they are read, every inode in the
    cache is the inode of that number on the disk, but for its checksum, no inode is there
    twice, and the buffer is the block it is said to be. *)
Theorem inode_cache_coherent gd fs0 s0 fs s :
  inodes_ready bs fs0 gd → enough_memory fs0 → f_icache fs0 = None →
  inode_reach gd fs0 s0 fs s →
  same_filsys fs0 fs ∧
  ∀ c, f_icache fs = Some c →
    (ic_buffer_blk c ≠ 0 → ic_buffer c = disk (st_os s) (ic_buffer_blk c)) ∧
    (∀ i e, ic_cache c !! i = Some e → ce_ino e ≠ 0 →
       same_inode fs (ce_ino e) (ce_inode e) (disk_inode fs gd (st_os s) (ce_ino e)) ∧
       ∀ j e', ic_cache c !! j = Some e' → ce_ino e' = ce_ino e → j = i).
Proof.
  intros Hr Hm Hnone Hreach.
  assert (Hgoal : inodes_ready bs fs gd ∧ icache_inv fs gd (st_os s) ∧ same_filsys fs0 fs).
  { induction Hreach as [|fs s op x fs' s' _ (Hr' & Hinv & Hsame) Hop Hrun].
    { split; [done|]. split; [unfold icache_inv; by rewrite Hnone|done]. }
    assert (Hm' : enough_memory fs).
    { destruct Hm as [? Hm]. split; [done|]. destruct Hsame as [E _].
      apply (f_equal f_super) in E. simpl in E. by rewrite E. }
    destruct (run_op_ok gd fs op s Hr' Hm' Hinv Hop) as (e & y & fs1 & s1 & E & Hok).
    rewrite Hrun in E. injection E as <- <- <- <-. destruct (Hok eq_refl) as (? & ? & Hs).
    split; [done|]. split; [done|]. destruct Hsame as (E1 & E2 & E3), Hs as (F1 & F2 & F3).
    split; [by rewrite F1|]. by rewrite F2, F3. }
  destruct Hgoal as (_ & Hinv & Hsame). split; [done|]. intros c Ec. unfold icache_inv in Hinv. rewrite Ec in Hinv.
  destruct Hinv as [Hb Hs Hl Hsl Hlen Hd]. split; [done|]. intros i e Hi Hne. split; [by apply (Hsl i)|].
  intros j e' Hj Hje. apply (Hd j i e' e); congruence.
Qed.

(** ** Refinement: without checksums, the inodes are a map from their numbers to bytes *)
Definition inode_map : Type := Z → bytes.

(** What an operation returns and what becomes of the map; inodes have [size] bytes. *)
Definition map_op (size : Z) (m : inode_map) (op : inode_op) : bytes * inode_map :=
  match op with
  | OpRead ino bufsize _ => (take (Z.to_nat (Z.min bufsize size)) (m ino), m)
  | OpWrite ino inode _ =>
      ([], fun j => if j =? ino then take (Z.to_nat size) inode ++ drop (length (take (Z.to_nat size) inode)) (m ino) else m j)
  | OpFlush => ([], m)
  end.
Fixpoint map_ops (size : Z) (m : inode_map) (ops : list inode_op) : list bytes * inode_map :=
  match ops with
  | [] => ([], m)
  | op :: ops => let '(x, m) := map_op size m op in let '(xs, m) := map_ops size m ops in (x :: xs, m)
  end.

(** The operations in turn, up to the first error. *)
Fixpoint run_ops (fs : ext2_filsys) (ops : list inode_op) : prog W (Z * list bytes * ext2_filsys) :=
  match ops with
  | [] => ret (0, [], fs)
  | op :: ops =>
      let! '(e, x, fs) := run_op fs op in
      if negb (e =? 0) then ret (e, [], fs) else
      let! '(e, xs, fs) := run_ops fs ops in
      ret (e, x :: xs, fs)
  end.

Definition op_valid (fs : ext2_filsys) (op : inode_op) : Prop :=
  match op with
  | OpRead ino _ _ => inode_ok fs ino
  | OpWrite ino inode _ => inode_ok fs ino ∧ Forall is_byte inode
  | OpFlush => True
  end.

Lemma disk_inode_super gd fs fs' : f_super fs' = f_super fs → disk_inode fs' gd = disk_inode fs gd.
Proof.
  intros E. unfold disk_inode, inode_blk, inode_off, table_loc, group_no, table_off, item_val, item_wide, wide, desc_size_of.
  by rewrite E.
Qed.
Lemma inode_ok_super fs fs' ino : f_super fs' = f_super fs → inode_ok fs' ino ↔ inode_ok fs ino.
Proof. intros E. unfold inode_ok. by rewrite E. Qed.
Lemma same_filsys_super fs fs' : same_filsys fs fs' → f_super fs' = f_super fs.
Proof. intros [E _]. apply (f_equal f_super) in E. exact E. Qed.

(** Without checksums there is nothing to verify, and inodes that are the same are equal. *)
Lemma no_csum_same fs ino a b : has_feature_metadata_csum (f_super fs) = false → same_inode fs ino a b → a = b.
Proof. intros Hm (_ & _ & E). unfold ext2fs_inode_csum_set in E. by rewrite Hm in E. Qed.
Lemma no_csum_verify fs ino a : has_feature_metadata_csum (f_super fs) = false → ext2fs_inode_csum_verify fs ino a = true.
Proof. intros Hm. unfold ext2fs_inode_csum_verify. by rewrite Hm. Qed.
Lemma no_csum_written fs fl ino x : has_feature_metadata_csum (f_super fs) = false → written fs fl ino x = x.
Proof. intros Hm. unfold written, ext2fs_inode_csum_set. rewrite Hm. by destruct (has fl _). Qed.

Lemma run_op_map gd fs op s e x fs' s' : inodes_ready bs fs gd → enough_memory fs → icache_inv fs gd (st_os s) →
  has_feature_metadata_csum (f_super fs) = false → op_valid fs op → has (f_flags fs) EXT2_FLAG_RW = true →
  run_op fs op s = Ret ((e, x, fs'), s') → e = 0 →
  x = fst (map_op (EXT2_INODE_SIZE (f_super fs)) (disk_inode fs gd (st_os s)) op) ∧
  (∀ ino, inode_ok fs ino →
     disk_inode fs gd (st_os s') ino = snd (map_op (EXT2_INODE_SIZE (f_super fs)) (disk_inode fs gd (st_os s)) op) ino) ∧
  (∀ b, (∀ ino, inode_ok fs ino → b ≠ inode_blk bs fs gd ino) → disk (st_os s') b = disk (st_os s) b).
Proof.
  intros Hr [Hm1 Hm2] Hinv Hcs Hop Hrw Hrun ->. destruct op as [ino n fl|ino y fl|]; cbn [run_op map_op fst snd] in *.
  - destruct (read_inode2_run gd fs Hr Hm1 Hm2 ino n fl s Hinv Hop) as (e & x' & fs1 & w' & E & Hd & _ & _ & Hok & _).
    rewrite Hrun in E. injection E as <- -> -> ->. destruct (Hok eq_refl) as (old & -> & Hsame & _).
    rewrite (no_csum_same _ _ _ _ Hcs Hsame). simpl. split; [by unfold disk_inode; rewrite Hd|].
    split; [intros; by unfold disk_inode; rewrite Hd|]. intros b _. by rewrite Hd.
  - destruct Hop as [Hi Hb].
    destruct (write_inode2_run gd fs Hr Hm1 Hm2 ino y fl s Hinv Hi Hb Hrw (λ _, no_csum_verify _ _ _ Hcs))
      as (e & fs1 & w' & E & Hok).
    rewrite (bind_eq _ _ _ _ _ E) in Hrun. injection Hrun; intros; subst.
    destruct (Hok eq_refl) as (_ & (old & Hsame & Hmine) & Hothers & Hblocks). simpl. split; [done|].
    rewrite (no_csum_written _ _ _ _ Hcs), (no_csum_same _ _ _ _ Hcs Hsame) in Hmine. split.
    + intros j Hj. destruct (Z.eqb_spec j ino) as [->|]; [done|by apply Hothers].
    + intros b Hnot. by apply Hblocks, Hnot.
  - injection Hrun as <- _ <-. done.
Qed.

(** C9. Without checksums of metadata the inodes of an open file system are a map from their
    numbers to bytes: any sequence of reads, writes and flushes returns, and when no
    call of the channel fails every read gives the bytes of the last write over those of
    before, on the disk too at the end, and the blocks that hold no inode are as they were. *)
Theorem inode_store_refines gd fs ops s :
  inodes_ready bs fs gd → enough_memory fs → f_icache fs = None →
  has_feature_metadata_csum (f_super fs) = false → has (f_flags fs) EXT2_FLAG_RW = true → Forall (op_valid fs) ops →
  ∃ e xs fs' s', run_ops fs ops s = Ret ((e, xs, fs'), s') ∧
    (e = 0 →
     let '(ys, m) := map_ops (EXT2_INODE_SIZE (f_super fs)) (disk_inode fs gd (st_os s)) ops in
     xs = ys ∧ (∀ ino, inode_ok fs ino → disk_inode fs gd (st_os s') ino = m ino) ∧
     (∀ b, (∀ ino, inode_ok fs ino → b ≠ inode_blk bs fs gd ino) → disk (st_os s') b = disk (st_os s) b)).
Proof.
  intros Hr Hm Hnone Hcs Hrw Hops.
  assert (Hinv : icache_inv fs gd (st_os s)) by (unfold icache_inv; by rewrite Hnone). clear Hnone.
  assert (Hmap : ∀ ino, inode_ok fs ino → disk_inode fs gd (st_os s) ino = disk_inode fs gd (st_os s) ino) by done.
  revert Hmap. generalize (disk_inode fs gd (st_os s)) at 2 3. intros m. revert fs s m Hr Hm Hcs Hrw Hops Hinv.
  induction ops as [|op ops IH]; intros fs s m Hr Hm Hcs Hrw Hops Hinv Hmap.
  { exists 0, [], fs, s. split; [done|]. by cbn [map_ops]. }
  apply Forall_cons in Hops as [Hop Hops]. cbn [run_ops map_ops].
  assert (Hopok : op_ok gd fs (st_os s) op).
  { destruct op as [ino n fl|ino y fl|]; [split; [done|by apply no_csum_verify]| |done].
    destruct Hop. split_and!; try done. intros _. by apply no_csum_verify. }
  destruct (run_op_ok gd fs op s Hr Hm Hinv Hopok) as (e & x & fs1 & s1 & E & Hok).
  rewrite (bind_eq _ _ _ _ _ E). destruct (Z.eqb_spec e 0) as [->|He]; cbn [negb]; [|by eexists e, _, _, _].
  destruct (Hok eq_refl) as (Hr1 & Hinv1 & Hsame).
  pose proof (same_filsys_super _ _ Hsame) as Esb. destruct Hsame as (_ & _ & Erw).
  destruct (run_op_map gd fs op s 0 x fs1 s1 Hr Hm Hinv Hcs Hop Hrw E eq_refl) as (Hx & Hm1 & Hb1).
  destruct (map_op (EXT2_INODE_SIZE (f_super fs)) m op) as [y m1] eqn:Eop.
  assert (Hstep : y = fst (map_op (EXT2_INODE_SIZE (f_super fs)) (disk_inode fs gd (st_os s)) op) ∧
    ∀ ino, inode_ok fs ino → m1 ino = snd (map_op (EXT2_INODE_SIZE (f_super fs)) (disk_inode fs gd (st_os s)) op) ino).
  { destruct op as [ino n fl|ino z fl|]; simpl in Eop, Hop |- *; injection Eop as <- <-.
    - split; [by rewrite Hmap|]. intros j Hj. by rewrite Hmap.
    - split; [done|]. intros j Hj. destruct Hop as [Hi _]. rewrite (Hmap _ Hi). by destruct (j =? ino); [|rewrite Hmap].
    - split; [done|]. intros j Hj. by rewrite Hmap. }
  destruct Hstep as [Hy Hm1'].
  destruct (IH fs1 s1 m1) as (e & xs & fs2 & s2 & E2 & Hok2); try done.
  - unfold enough_memory. by rewrite Esb.
  - by rewrite Esb.
  - by rewrite Erw.
  - eapply Forall_impl; [exact Hops|]. intros [] ; simpl; rewrite ?(inode_ok_super fs fs1) by done; done.
  - intros ino Hi. apply (inode_ok_super fs fs1) in Hi; [|done].
    rewrite (disk_inode_super gd fs fs1 Esb), Hm1, Hm1'; done.
  - rewrite (bind_eq _ _ _ _ _ E2). eexists e, _, _, _. split; [done|]. intros He. specialize (Hok2 He).
    rewrite Esb in Hok2. destruct (map_ops _ m1 ops) as [ys m2]. destruct Hok2 as (-> & Hd2 & Hb2).
    split; [by rewrite Hx, Hy|]. split.
    + intros ino Hi. rewrite <- (disk_inode_super gd fs fs1 Esb). apply Hd2. by apply (inode_ok_super fs fs1).
    + intros b Hnot. rewrite Hb2, Hb1; [done|done|]. intros ino Hi. apply (inode_ok_super fs fs1) in Hi; [|done].
      specialize (Hnot ino Hi).
      unfold inode_blk, table_loc, group_no, table_off, item_val, item_wide, wide, desc_size_of in *. by rewrite Esb.
Qed.
End Run.

(** ** Witnesses

    Eight blocks of 1024 bytes: the superblock in block 1, the descriptor of the one group in
    block 2, its eight inodes in block 5. *)
#[export] Instance byte_disk : IoDisk 1024 bytes.
Proof.
  refine {| disk w b := bytes_at (b * 1024) 1024 w |}.
  - intros w b. by rewrite bytes_at_length.
  - intros w b. apply bytes_at_bytes.
  - intros b w e d w' E. change (byte_read 1024 b 1 w = (e, d, w')) in E.
    unfold byte_read in E. by injection E as <- <- <-.
  - intros b x w w' Hb Hl Hxb E b'. change (byte_write 1024 b 1 x w = (0, w')) in E. unfold byte_write in E.
    revert E. destruct (slice (b * 1024) (zlen x) w) as [y|] eqn:Es; [|done]. intros [= <-].
    apply slice_Some in Es as (Ho & _ & Hin & _).
    assert (Ex : map u8 x = x) by by apply u8_bytes. rewrite Ex.
    destruct (Z.eqb_spec b' b) as [->|Hne].
    + apply bytes_at_slice; [|done]. apply slice_app_mid; [rewrite length_take; lia|done].
    + unfold bytes_at. destruct (Z.ltb_spec (b' * 1024) 0) as [|Hb']; [done|].
      replace (take (Z.to_nat (b * 1024)) w ++ x ++ drop (Z.to_nat (b * 1024) + length x) w) with (splice (b * 1024) x w)
        by (unfold splice; do 3 f_equal; lia).
      change 1024%nat with (Z.to_nat 1024). rewrite splice_other by lia. done.
Defined.

Definition inode_super (ro_compat : Z) : bytes :=
  make_super [(4%nat, 0x00%nat, 8); (4%nat, 0x04%nat, 8); (4%nat, 0x14%nat, 1); (4%nat, 0x20%nat, 8192);
    (4%nat, 0x24%nat, 8192); (4%nat, 0x28%nat, 8); (2%nat, 0x38%nat, EXT2_SUPER_MAGIC); (4%nat, 0x4c%nat, 1);
    (2%nat, 0x58%nat, 128); (4%nat, 0x60%nat, 0x2); (4%nat, 0x64%nat, ro_compat); (1%nat, 0x175%nat, 1)].
Definition inode_gd : bytes := set_fld 4 0x08 5 (replicate 1024 0).
Definition inode_fs (ro_compat fl : Z) : ext2_filsys :=
  MkFilsys fl (inode_super ro_compat) 1024 1 1 (Some inode_gd) 1 0 None None 0 0 77 None.
(** The inode [ino] of the device: its number is its mode. *)
Definition numbered_inode (ino : Z) : bytes := set_fld 2 0 ino (replicate 128 0).
Definition inode_device (table : list bytes) : bytes :=
  replicate 1024 0 ++ inode_super 0 ++ inode_gd ++ replicate 2048 0 ++ concat table ++ replicate 2048 0.
Definition plain_device : bytes := inode_device (numbered_inode <$> [1; 2; 3; 4; 5; 6; 7; 8]).
(** The same with checksums, wrong for the inode 5. *)
Definition csum_device : bytes :=
  let fs := inode_fs 0x400 1 in
  inode_device ((fun i => if i =? 5 then numbered_inode i else ext2fs_inode_csum_set fs i (numbered_inode i))
                  <$> [1; 2; 3; 4; 5; 6; 7; 8]).

Lemma inode_fs_ready ro fl : ro = 0 ∨ ro = 0x400 → has fl EXT2_FLAG_IMAGE_FILE = false →
  inodes_ready 1024 (inode_fs ro fl) inode_gd.
Proof.
  intros Hro Hfl.
  assert (Hc : ∀ g, 0 ≤ g < f_group_desc_count (inode_fs ro fl) → g = 0) by (simpl; lia).
  split; [destruct Hro as [-> | ->]|destruct Hro as [-> | ->]; vm_compute; by repeat constructor
    |destruct Hro as [-> | ->]; done|done|unfold word; simpl; lia|destruct Hro as [-> | ->]; vm_compute; done| |
    destruct Hro as [-> | ->]; vm_compute; done..| |].
  1, 2: split; [done|vm_compute; done..].
  - destruct Hro as [-> | ->]; (split; [vm_compute; done|exists 7; split; [lia|vm_compute; done]]).
  - intros g ->%Hc. destruct Hro as [-> | ->]; vm_compute; done.
  - intros g g' ->%Hc ->%Hc Hlt. lia.
Qed.

(** What a run returned, the file system and the state apart. *)
Definition outcome_of {A B C S} (r : outcome (A * B * C * S)) : option (A * B) :=
  match r with Ret (a, b, _, _) => Some (a, b) | _ => None end.

Lemma inode_store_refines_witness :
  ∃ e xs fs' s', run_ops (H := small_machine) (H0 := byte_channel) (inode_fs 0 1)
      [OpWrite 3 (numbered_inode 77) 0; OpRead 3 2 0; OpRead 4 2 0] (dev_state plain_device) = Ret ((e, xs, fs'), s') ∧
    e = 0 ∧ xs = [[]; [77; 0]; [4; 0]].
Proof.
  destruct (inode_store_refines (H := small_machine) inode_gd (inode_fs 0 1)
    [OpWrite 3 (numbered_inode 77) 0; OpRead 3 2 0; OpRead 4 2 0] (dev_state plain_device))
    as (e & xs & fs' & s' & E & Hok).
  - apply inode_fs_ready; [by left|reflexivity].
  - split; reflexivity.
  - reflexivity.
  - vm_compute. reflexivity.
  - reflexivity.
  - repeat apply Forall_cons_2; try apply Forall_nil_2; [|vm_compute; split; discriminate..].
    split; [vm_compute; split; discriminate|apply (bool_decide_eq_true_1 _); vm_compute; reflexivity].
  - assert (Eo : outcome_of (run_ops (H := small_machine) (H0 := byte_channel) (inode_fs 0 1)
      [OpWrite 3 (numbered_inode 77) 0; OpRead 3 2 0; OpRead 4 2 0] (dev_state plain_device))
      = Some (0, [[]; [77; 0]; [4; 0]])) by (vm_compute; reflexivity).
    rewrite E in Eo. injection Eo as -> ->.
    exists 0, [[]; [77; 0]; [4; 0]], fs', s'. split; [exact E|split; reflexivity].
Defined.


Lemma inode_cache_coherent_witness :
  ∃ fs' s' c, inode_reach (H := small_machine) (H0 := byte_channel) (bs := 1024) inode_gd (inode_fs 0 1) (dev_state plain_device) fs' s' ∧
    f_icache fs' = Some c ∧ ce_ino <$> ic_cache c = [3; 0; 0; 0] ∧
    (∀ i e, ic_cache c !! i = Some e → ce_ino e ≠ 0 →
       same_inode fs' (ce_ino e) (ce_inode e) (disk_inode (H0 := byte_channel) (bs := 1024) fs' inode_gd (st_os s') (ce_ino e))).
Proof.
  set (run := run_op (H := small_machine) (H0 := byte_channel) (inode_fs 0 1) (OpRead 3 2 0) (dev_state plain_device)).
  assert (Eo : match run with
               | Ret (e, _, fs', _) => e = 0 ∧ (fun c => ce_ino <$> ic_cache c) <$> f_icache fs' = Some [3; 0; 0; 0]
               | _ => False end) by (vm_compute; done).
  destruct run as [[[[e x] fs'] s']| | |] eqn:E; try (exfalso; exact Eo). destruct Eo as [-> Ec]. unfold run in E.
  assert (Hreach : inode_reach (H := small_machine) (H0 := byte_channel) (bs := 1024) inode_gd (inode_fs 0 1) (dev_state plain_device) fs' s').
  { eapply reach_op; [apply reach_start| |exact E]. split; [vm_compute; split; discriminate|vm_compute; reflexivity]. }
  assert (Hc : ∃ c, f_icache fs' = Some c ∧ ce_ino <$> ic_cache c = [3; 0; 0; 0]).
  { destruct (f_icache fs') as [c|]; [|discriminate Ec]. exists c. split; [reflexivity|]. injection Ec. tauto. }
  destruct Hc as (c & Hc & Hn). exists fs', s', c. split; [exact Hreach|]. split; [exact Hc|]. split; [exact Hn|].
  destruct (inode_cache_coherent (H := small_machine) (bs := 1024) inode_gd (inode_fs 0 1) (dev_state plain_device) fs' s'
    (inode_fs_ready 0 1 (or_introl eq_refl) eq_refl) ltac:(split; reflexivity) eq_refl Hreach) as [_ Hco].
  intros i en Hi Hne. destruct (Hco c Hc) as (_ & Hs). apply (Hs i en Hi Hne).
Defined.
