(* ===== verification/DirCsum.v ===== *)
(** * Checksums of directory blocks and of extent blocks: e2fsprogs/lib/ext2fs/csum.c

    A block of a directory keeps its checksum in a fake entry at its end, a block of a hash
    tree behind the last entry it may hold, a block of extents behind the last extent it may
    hold.  All are seeded with the number and the generation of the inode, which is read. *)
From S2P Require Export InodeIo DirBlock.
#[local] Open Scope Z_scope.

Definition EXT2_ET_DIR_CORRUPTED : Z := 2133571363.
Definition EXT2_ET_DIR_NO_SPACE : Z := 2133571366.
Definition EXT2_ET_DB_NOT_FOUND : Z := 2133571406.
Definition EXT2_ET_DIR_NO_SPACE_FOR_CSUM : Z := 2133571477.
Definition EXT2_ET_DIR_CSUM_INVALID : Z := 2133571478.
Definition EXT2_DIR_NAME_LEN_CSUM : Z := 0xDE00.


(** A field of a buffer at an offset, undefined outside of it. *)
Definition at_off (n : nat) (off : Z) (buf : bytes) : outcome Z :=
  let? x := of_option (slice off (Z.of_nat n) buf) in Ret (le x).
Definition put_at (n : nat) (off v : Z) (buf : bytes) : outcome bytes :=
  if bool_decide (0 ≤ off ∧ off + Z.of_nat n ≤ zlen buf)
  then Ret (set_fld n (Z.to_nat off) v buf) else Undef.

(** [struct ext2_dir_entry], at an offset of a block. *)
Definition de_inode (off : Z) (buf : bytes) : outcome Z := at_off 4 off buf.
Definition de_rec_len (off : Z) (buf : bytes) : outcome Z := at_off 2 (off + 4) buf.
Definition de_name_len (off : Z) (buf : bytes) : outcome Z := at_off 2 (off + 6) buf.

(** ** dir_iterate.c: the length of a record, in blocks of up to 256 KiB *)
Definition ext2fs_get_rec_len (blocksize len : Z) : Z :=
  if blocksize <? 65536 then len
  else if (len =? EXT4_MAX_REC_LEN) || (len =? 0) then blocksize
  else Z.lor (Z.land len 65532) (Z.shiftl (Z.land len 3) 16).
(** The error, or the 16 bits to be stored. *)
Definition ext2fs_set_rec_len (blocksize len : Z) : Z + Z :=
  if (blocksize <? len) || (Z.shiftl 1 18 <? blocksize) || negb (Z.land len 3 =? 0) then inl EINVAL
  else if len <? 65536 then inr len
  else if len =? blocksize then inr (if blocksize =? 65536 then EXT4_MAX_REC_LEN else 0)
  else inr (Z.lor (Z.land len 65532) (Z.land (Z.shiftr len 16) 3)).

(** ** Where the checksums are *)

(** The end of [__get_dx_countlimit]: the offset found, when both numbers may be true. *)
Definition dx_check (blocksize count_offset : Z) (dirent : bytes) : outcome (Z + Z) :=
  let max_sane_entries := u32 (blocksize - count_offset) / 8 in
  let? limit := at_off 2 count_offset dirent in
  let? count := at_off 2 (count_offset + 2) dirent in
  Ret (if (max_sane_entries <? limit) || (max_sane_entries <? count)
       then inl EXT2_ET_DIR_NO_SPACE_FOR_CSUM else inr count_offset).
(** The offset of [struct ext2_dx_countlimit], or the error. *)
Definition get_dx_countlimit (blocksize : Z) (dirent : bytes) : outcome (Z + Z) :=
  let? rec_len := de_rec_len 0 dirent in
  let? name_len := de_name_len 0 dirent in
  if (rec_len =? blocksize) && (name_len =? 0) then dx_check blocksize 8 dirent
  else if rec_len =? 12 then
    let? rec_len := de_rec_len 12 dirent in
    if negb (rec_len =? u32 (blocksize - 12)) then Ret (inl EXT2_ET_DB_NOT_FOUND) else
    let? reserved_zero := at_off 4 24 dirent in
    let? info_length := at_off 1 29 dirent in
    if negb (reserved_zero =? 0) || negb (info_length =? 8) then Ret (inl EXT2_ET_DB_NOT_FOUND)
    else dx_check blocksize 32 dirent
  else Ret (inl EXT2_ET_DB_NOT_FOUND).

(** [while ((void * ) d < top)]: the offset after the last record, or the error. *)
Fixpoint tail_loop (fuel : nat) (top d : Z) (dirent : bytes) : outcome (Z + Z) :=
  match fuel with
  | O => Spin
  | S fuel =>
      if top <=? d then Ret (inr d) else
      let? rec_len := de_rec_len d dirent in
      if (rec_len <? 8) || negb (Z.land rec_len 3 =? 0) then Ret (inl EXT2_ET_DIR_CORRUPTED)
      else tail_loop fuel top (d + rec_len) dirent
  end.
Definition tail_fuel (blocksize : Z) : nat := S (Z.to_nat blocksize).
(** The offset of the tail, or the error. *)
Definition get_dirent_tail (blocksize : Z) (dirent : bytes) : outcome (Z + Z) :=
  if blocksize <? 1024 then Ret (inl EXT2_FILSYS_CORRUPTED) else
  let top := blocksize - 12 in
  let? r := tail_loop (tail_fuel blocksize) top 0 dirent in
  match r with
  | inl retval => Ret (inl retval)
  | inr d =>
      if blocksize <? d then Ret (inl EXT2_ET_DIR_CORRUPTED)
      else if negb (d =? top) then Ret (inl EXT2_ET_DIR_NO_SPACE_FOR_CSUM) else
      let? zero := at_off 4 d dirent in
      let? rec_len := at_off 2 (d + 4) dirent in
      let? name_len := at_off 2 (d + 6) dirent in
      if negb (zero =? 0) || negb (rec_len =? 12) || negb (name_len =? EXT2_DIR_NAME_LEN_CSUM)
      then Ret (inl EXT2_ET_DIR_NO_SPACE_FOR_CSUM) else Ret (inr d)
  end.
Definition ext2fs_dirent_has_tail (blocksize : Z) (dirent : bytes) : outcome bool :=
  let? r := get_dirent_tail blocksize dirent in
  Ret (match r with inl e => negb (e =? EXT2_ET_DIR_NO_SPACE_FOR_CSUM) | inr _ => true end).
(** The 12 bytes of a new tail. *)
Definition ext2fs_initialize_dirent_tail (blocksize : Z) : bytes :=
  let t := replicate 12 0 in
  let t := match ext2fs_set_rec_len blocksize 12 with inr v => set_fld 2 4 v t | inl _ => t end in
  set_fld 2 6 EXT2_DIR_NAME_LEN_CSUM t.

Section BlockCsum.
  Context `{Machine} {W : Type} `{IoChannel W}.

(** The CRC of the number and the generation of an inode: the error, the CRC. *)
Definition inode_seed (fs : ext2_filsys) (inum : Z) : prog W (Z * Z * ext2_filsys) :=
  let! '(retval, inode, fs) := ext2fs_read_inode fs inum in
  ret (retval, crc32c (crc32c (f_csum_seed fs) (le_split 4 inum)) (le_split 4 (i_generation inode)), fs).

Definition ext2fs_dirent_csum (fs : ext2_filsys) (inum : Z) (dirent : bytes) (size : Z) :
    prog W (Z * Z * ext2_filsys) :=
  let! '(retval, crc, fs) := inode_seed fs inum in
  if negb (retval =? 0) then ret (retval, 0, fs) else
  let! buf := lift (of_option (slice 0 size dirent)) in
  ret (0, crc32c crc buf, fs).
Definition ext2fs_dirent_csum_verify (fs : ext2_filsys) (inum : Z) (dirent : bytes) : prog W (bool * ext2_filsys) :=
  let! r := lift (get_dirent_tail (f_blocksize fs) dirent) in
  match r with
  | inl _ => ret (true, fs)
  | inr t =>
      let! '(retval, calculated, fs) := ext2fs_dirent_csum fs inum dirent t in
      if negb (retval =? 0) then ret (false, fs) else
      let! provided := lift (at_off 4 (t + 8) dirent) in ret (provided =? calculated, fs)
  end.
(** The error and the block. *)
Definition ext2fs_dirent_csum_set (fs : ext2_filsys) (inum : Z) (dirent : bytes) : prog W (Z * bytes * ext2_filsys) :=
  let! r := lift (get_dirent_tail (f_blocksize fs) dirent) in
  match r with
  | inl retval => ret (retval, dirent, fs)
  | inr t =>
      let! '(retval, crc, fs) := ext2fs_dirent_csum fs inum dirent t in
      if negb (retval =? 0) then ret (retval, dirent, fs) else
      let! dirent := lift (put_at 4 (t + 8) crc dirent) in ret (0, dirent, fs)
  end.

(** The error, the checksum and the offset of [struct ext2_dx_tail]. *)
Definition ext2fs_dx_csum (fs : ext2_filsys) (inum : Z) (dirent : bytes) : prog W (Z * Z * Z * ext2_filsys) :=
  let! r := lift (get_dx_countlimit (f_blocksize fs) dirent) in
  match r with
  | inl retval => ret (retval, 0, 0, fs)
  | inr count_offset =>
      let! limit := lift (at_off 2 count_offset dirent) in
      let! count := lift (at_off 2 (count_offset + 2) dirent) in
      if f_blocksize fs - 8 <? count_offset + limit * 8
      then ret (EXT2_ET_DIR_NO_SPACE_FOR_CSUM, 0, 0, fs) else
      let t := count_offset + limit * 8 in
      let size := count_offset + count * 8 in
      let! '(retval, crc, fs) := inode_seed fs inum in
      if negb (retval =? 0) then ret (retval, 0, 0, fs) else
      let! buf := lift (of_option (slice 0 size dirent)) in
      let! reserved := lift (of_option (slice t 4 dirent)) in
      ret (0, crc32c (crc32c (crc32c crc buf) reserved) (le_split 4 0), t, fs)
  end.
Definition ext2fs_dx_csum_verify (fs : ext2_filsys) (inum : Z) (dirent : bytes) : prog W (bool * ext2_filsys) :=
  let! '(retval, calculated, t, fs) := ext2fs_dx_csum fs inum dirent in
  if negb (retval =? 0) then ret (false, fs) else
  let! provided := lift (at_off 4 (t + 4) dirent) in ret (provided =? calculated, fs).
Definition ext2fs_dx_csum_set (fs : ext2_filsys) (inum : Z) (dirent : bytes) : prog W (Z * bytes * ext2_filsys) :=
  let! '(retval, crc, t, fs) := ext2fs_dx_csum fs inum dirent in
  if negb (retval =? 0) then ret (retval, dirent, fs) else
  let! dirent := lift (put_at 4 (t + 4) crc dirent) in ret (0, dirent, fs).

Definition ext2fs_dir_block_csum_verify (fs : ext2_filsys) (inum : Z) (dirent : bytes) : prog W (bool * ext2_filsys) :=
  if negb (has_feature_metadata_csum (f_super fs)) then ret (true, fs) else
  let! r := lift (get_dirent_tail (f_blocksize fs) dirent) in
  match r with
  | inr _ => ext2fs_dirent_csum_verify fs inum dirent
  | inl _ =>
      let! r := lift (get_dx_countlimit (f_blocksize fs) dirent) in
      match r with inr _ => ext2fs_dx_csum_verify fs inum dirent | inl _ => ret (false, fs) end
  end.
Definition ext2fs_dir_block_csum_set (fs : ext2_filsys) (inum : Z) (dirent : bytes) : prog W (Z * bytes * ext2_filsys) :=
  if negb (has_feature_metadata_csum (f_super fs)) then ret (0, dirent, fs) else
  let! r := lift (get_dirent_tail (f_blocksize fs) dirent) in
  match r with
  | inr _ => ext2fs_dirent_csum_set fs inum dirent
  | inl _ =>
      let! r := lift (get_dx_countlimit (f_blocksize fs) dirent) in
      match r with
      | inr _ => ext2fs_dx_csum_set fs inum dirent
      | inl _ =>
          if has (f_flags fs) EXT2_FLAG_IGNORE_CSUM_ERRORS then ret (0, dirent, fs)
          else ret (EXT2_ET_DIR_NO_SPACE_FOR_CSUM, dirent, fs)
      end
  end.

(** ** A block of extents *)
Definition EXT3_EXTENT_TAIL_OFFSET (hdr : bytes) : outcome Z :=
  let? eh_max := at_off 2 4 hdr in Ret (12 + 12 * eh_max).
(** The error and the checksum. *)
Definition ext2fs_extent_block_csum (fs : ext2_filsys) (inum : Z) (eh : bytes) : prog W (Z * Z * ext2_filsys) :=
  let! size := lift (EXT3_EXTENT_TAIL_OFFSET eh) in
  let! '(retval, crc, fs) := inode_seed fs inum in
  if negb (retval =? 0) then ret (retval, 0, fs) else
  let! buf := lift (of_option (slice 0 size eh)) in ret (0, crc32c crc buf, fs).
Definition ext2fs_extent_block_csum_verify (fs : ext2_filsys) (inum : Z) (eh : bytes) : prog W (bool * ext2_filsys) :=
  let! t := lift (EXT3_EXTENT_TAIL_OFFSET eh) in
  if negb (has_feature_metadata_csum (f_super fs)) then ret (true, fs) else
  let! provided := lift (at_off 4 t eh) in
  let! '(retval, calculated, fs) := ext2fs_extent_block_csum fs inum eh in
  ret (if negb (retval =? 0) then false else provided =? calculated, fs).
Definition ext2fs_extent_block_csum_set (fs : ext2_filsys) (inum : Z) (eh : bytes) : prog W (Z * bytes * ext2_filsys) :=
  let! t := lift (EXT3_EXTENT_TAIL_OFFSET eh) in
  if negb (has_feature_metadata_csum (f_super fs)) then ret (0, eh, fs) else
  let! '(retval, crc, fs) := ext2fs_extent_block_csum fs inum eh in
  if negb (retval =? 0) then ret (retval, eh, fs) else
  let! eh := lift (put_at 4 t crc eh) in ret (0, eh, fs).
End BlockCsum.

(** ** Reading fields *)

Lemma at_off_same n off k p v b : (p + k <= length b)%nat →
  off + Z.of_nat n ≤ Z.of_nat p ∨ Z.of_nat (p + k) ≤ off → at_off n off (set_fld k p v b) = at_off n off b.
Proof. intros. unfold at_off. by rewrite slice_set_fld. Qed.
Lemma at_off_total n off b : 0 ≤ off → off + Z.of_nat n ≤ zlen b → Forall is_byte b →
  ∃ v, at_off n off b = Ret v ∧ 0 ≤ v < 256 ^ Z.of_nat n.
Proof.
  intros Ho Hn Hb. unfold at_off. destruct (slice_is_Some off (Z.of_nat n) b) as [x Hx]; [lia..|]. rewrite Hx. simpl.
  exists (le x). split; [done|]. pose proof (le_bound x (slice_bytes _ _ _ _ Hb Hx)) as Hle.
  apply slice_Some in Hx as (_ & _ & _ & Ex). replace (Z.of_nat n) with (zlen x); [done|].
  rewrite Ex, length_take, length_drop. lia.
Qed.
Lemma put_at_run n off v b : 0 ≤ off → off + Z.of_nat n ≤ zlen b →
  put_at n off v b = Ret (set_fld n (Z.to_nat off) v b).
Proof. intros. unfold put_at. by rewrite bool_decide_eq_true_2. Qed.
Lemma at_off_put off v b : 0 ≤ off → off + 4 ≤ zlen b → word v → at_off 4 off (set_fld 4 (Z.to_nat off) v b) = Ret v.
Proof.
  intros Ho Hl Hv. unfold at_off.
  rewrite (slice_field (take (Z.to_nat off) b) (le_split 4 v) (drop (Z.to_nat off + 4) b)).
  - cbn [of_option obind]. by rewrite (le_le_split 4).
  - done.
  - rewrite length_take. lia.
  - by rewrite le_split_length.
Qed.

(** Two blocks with the same fields below [lim]. *)
Definition agree (lim : Z) (b b' : bytes) : Prop :=
  ∀ n off, off + Z.of_nat n ≤ lim → at_off n off b' = at_off n off b.
Lemma agree_put lim n off v b : 0 ≤ off → off + Z.of_nat n ≤ zlen b → lim ≤ off →
  agree lim b (set_fld n (Z.to_nat off) v b).
Proof. intros ??? m o Ho. apply at_off_same; lia. Qed.
Lemma agree_weaken lim lim' b b' : agree lim b b' → lim' ≤ lim → agree lim' b b'.
Proof. intros Ha ? n off ?. apply Ha. lia. Qed.

(** ** The tail of a block *)

Lemma tail_loop_total fuel top : ∀ d b, Forall is_byte b → 0 ≤ d → top + 6 ≤ zlen b → top - d < Z.of_nat fuel →
  0 < Z.of_nat fuel → ∃ r, tail_loop fuel top d b = Ret r ∧ ∀ d', r = inr d' → 0 ≤ d' ∧ top ≤ d'.
Proof.
  induction fuel as [|fuel IH]; intros d b Hb Hd Htop Hf H0; [lia|]. simpl.
  destruct (Z.leb_spec top d); [eexists; split; [done|]; intros ? [= <-]; done|].
  unfold de_rec_len. destruct (at_off_total 2 (d + 4) b) as (v & -> & Hv); [lia..|done|]. cbn [obind].
  destruct (Z.ltb_spec v 8); cbn [orb]; [by eexists|]. destruct (negb _); [by eexists|]. apply IH; [done|lia..].
Qed.
Lemma tail_loop_agree fuel top : ∀ d b b', agree (top + 6) b b' → tail_loop fuel top d b' = tail_loop fuel top d b.
Proof.
  induction fuel as [|fuel IH]; intros d b b' Ha; [done|]. simpl. destruct (Z.leb_spec top d); [done|].
  unfold de_rec_len. rewrite (Ha 2%nat (d + 4)) by lia. destruct (at_off 2 (d + 4) b) as [v| | |]; [|done..].
  cbn [obind]. destruct (_ || _); [done|by apply IH].
Qed.

Lemma get_dirent_tail_total bs b : Forall is_byte b → zlen b = bs →
  ∃ r, get_dirent_tail bs b = Ret r ∧ ∀ t, r = inr t → t = bs - 12 ∧ 1024 ≤ bs.
Proof.
  intros Hb Hl. unfold get_dirent_tail. destruct (Z.ltb_spec bs 1024); [by eexists|].
  destruct (tail_loop_total (tail_fuel bs) (bs - 12) 0 b) as (r & -> & Hr); [done|unfold tail_fuel; lia..|].
  cbn [obind]. destruct r as [e|d]; [by eexists|]. destruct (Hr d eq_refl). destruct (Z.ltb_spec bs d); [by eexists|].
  destruct (Z.eqb_spec d (bs - 12)) as [->|]; cbn [negb]; [|by eexists].
  destruct (at_off_total 4 (bs - 12) b) as (v1 & -> & _); [lia..|done|].
  destruct (at_off_total 2 (bs - 12 + 4) b) as (v2 & -> & _); [lia..|done|].
  destruct (at_off_total 2 (bs - 12 + 6) b) as (v3 & -> & _); [lia..|done|]. cbn [obind].
  destruct (_ || _); [by eexists|]. eexists. split; [done|]. intros t [= <-]. done.
Qed.
Lemma get_dirent_tail_agree bs b b' : agree (bs - 4) b b' → get_dirent_tail bs b' = get_dirent_tail bs b.
Proof.
  intros Ha. unfold get_dirent_tail. destruct (Z.ltb_spec bs 1024); [done|].
  rewrite (tail_loop_agree _ _ _ b b') by (apply (agree_weaken (bs - 4)); [done|lia]).
  destruct (tail_loop _ _ _ b) as [[e|d]| | |]; [done| |done..]. cbn [obind]. destruct (Z.ltb_spec bs d); [done|].
  destruct (Z.eqb_spec d (bs - 12)) as [->|]; [|done]. cbn [negb].
  by rewrite (Ha 4%nat (bs - 12)), (Ha 2%nat (bs - 12 + 4)), (Ha 2%nat (bs - 12 + 6)) by lia.
Qed.

(** ** The count and the limit of a node of a hash tree *)

(** What a successful search has found. *)
Record dx_found (bs o limit count : Z) (b : bytes) : Prop := {
  dx_off : o = 8 ∨ o = 32;
  dx_limit : at_off 2 o b = Ret limit ∧ 0 ≤ limit ∧ limit * 8 ≤ bs - o;
  dx_count : at_off 2 (o + 2) b = Ret count ∧ 0 ≤ count ∧ count * 8 ≤ bs - o;
}.
Lemma dx_check_spec bs o b : Forall is_byte b → zlen b = bs → 1024 ≤ bs < 2 ^ 32 → o = 8 ∨ o = 32 →
  ∃ r, dx_check bs o b = Ret r ∧ ∀ o', r = inr o' → o' = o ∧ (∃ limit count, dx_found bs o limit count b) ∧
    ∀ b', agree (o + 4) b b' → dx_check bs o b' = Ret (inr o).
Proof.
  intros Hb Hl Hbs Ho. unfold dx_check.
  destruct (at_off_total 2 o b) as (limit & El & Hlim); [lia..|done|].
  destruct (at_off_total 2 (o + 2) b) as (count & Ec & Hcnt); [lia..|done|].
  rewrite El, Ec. cbn [obind]. eexists. split; [done|]. intros o'. rewrite u32_small by lia.
  destruct (Z.ltb_spec ((bs - o) / 8) limit) as [|H1]; [done|]. destruct (Z.ltb_spec ((bs - o) / 8) count) as [|H2]; [done|].
  cbn [orb]. intros [= <-]. split; [done|]. pose proof (Z.mul_div_le (bs - o) 8). split.
  - exists limit, count. split; [done|..]; (split; [done|lia]).
  - intros b' Ha. rewrite (Ha 2%nat o), (Ha 2%nat (o + 2)), El, Ec by lia. cbn [obind].
    by rewrite !(proj2 (Z.ltb_ge _ _)).
Qed.

(** A node of a hash tree has no tail: its record covers the block. *)
Lemma whole_record_no_tail bs b : 1024 ≤ bs → Z.land bs 3 = 0 → de_rec_len 0 b = Ret bs →
  get_dirent_tail bs b = Ret (inl EXT2_ET_DIR_NO_SPACE_FOR_CSUM).
Proof.
  intros Hbs H4 E. unfold get_dirent_tail. rewrite (proj2 (Z.ltb_ge _ _)) by lia. unfold tail_fuel.
  destruct (Z.to_nat bs) as [|n] eqn:En; [lia|]. cbn [tail_loop]. rewrite (proj2 (Z.leb_gt (bs - 12) 0)), E by lia. cbn [obind].
  rewrite (proj2 (Z.ltb_ge bs 8)), H4 by lia. cbn [orb negb Z.eqb]. rewrite Z.add_0_l.
  rewrite (proj2 (Z.leb_le (bs - 12) bs)) by lia. cbn [obind].
  rewrite (proj2 (Z.ltb_ge bs bs)), (proj2 (Z.eqb_neq bs (bs - 12))) by lia. done.
Qed.
Lemma two_records_no_tail bs b : 1024 ≤ bs → Z.land bs 3 = 0 → de_rec_len 0 b = Ret 12 → de_rec_len 12 b = Ret (bs - 12) →
  get_dirent_tail bs b = Ret (inl EXT2_ET_DIR_NO_SPACE_FOR_CSUM).
Proof.
  intros Hbs H4 E1 E2. unfold get_dirent_tail. rewrite (proj2 (Z.ltb_ge _ _)) by lia. unfold tail_fuel.
  destruct (Z.to_nat bs) as [|[|n]] eqn:En; [lia..|].
  cbn [tail_loop]. rewrite (proj2 (Z.leb_gt (bs - 12) 0)), E1 by lia. cbn [obind Z.ltb Z.land Z.eqb negb orb Z.compare].
  change (12 <? 8) with false. change (negb (Z.land 12 3 =? 0)) with false. cbn [orb]. change (0 + 12) with 12.
  rewrite (proj2 (Z.leb_gt (bs - 12) 12)), E2 by lia. cbn [obind].
  rewrite (proj2 (Z.ltb_ge (bs - 12) 8)) by lia. cbn [orb].
  replace (Z.land (bs - 12) 3) with 0
    by (change 3 with (Z.ones 2) in *; rewrite !Z.land_ones in * by lia; by rewrite Zminus_mod, H4).
  cbn [negb Z.eqb]. replace (12 + (bs - 12)) with bs by lia. rewrite (proj2 (Z.leb_le (bs - 12) bs)) by lia. cbn [obind].
  rewrite (proj2 (Z.ltb_ge bs bs)), (proj2 (Z.eqb_neq bs (bs - 12))) by lia. done.
Qed.

Lemma get_dx_countlimit_spec bs b : Forall is_byte b → zlen b = bs → 1024 ≤ bs < 2 ^ 32 → Z.land bs 3 = 0 →
  ∃ r, get_dx_countlimit bs b = Ret r ∧
    ∀ o, r = inr o → (∃ limit count, dx_found bs o limit count b) ∧
      get_dirent_tail bs b = Ret (inl EXT2_ET_DIR_NO_SPACE_FOR_CSUM) ∧
      ∀ b', agree (o + 4) b b' → get_dx_countlimit bs b' = Ret (inr o) ∧
        get_dirent_tail bs b' = Ret (inl EXT2_ET_DIR_NO_SPACE_FOR_CSUM).
Proof.
  intros Hb Hl Hbs H4. unfold get_dx_countlimit.
  destruct (at_off_total 2 (0 + 4) b) as (rl & Er & _); [lia..|done|].
  destruct (at_off_total 2 (0 + 6) b) as (nl & En & _); [lia..|done|].
  unfold de_rec_len, de_name_len. rewrite Er, En. cbn [obind].
  destruct ((rl =? bs) && (nl =? 0)) eqn:Ecase.
  - apply andb_prop in Ecase as [E1%Z.eqb_eq E2%Z.eqb_eq]. subst rl nl.
    destruct (dx_check_spec bs 8 b) as (r & -> & Hr); [done..|lia|by left|]. exists r. split; [done|].
    intros o ->. destruct (Hr o eq_refl) as (-> & Hf & Ha). split; [done|]. split; [by apply whole_record_no_tail; [lia|..]|].
    intros b' Hab. rewrite (Hab 2%nat (0 + 4)), (Hab 2%nat (0 + 6)), Er, En by lia. cbn [obind]. rewrite Z.eqb_refl. cbn [andb Z.eqb].
    split; [by apply Ha|]. apply whole_record_no_tail; [lia|done|]. unfold de_rec_len. by rewrite (Hab 2%nat (0 + 4)) by lia.
  - destruct (Z.eqb_spec rl 12) as [->|]; [|by eexists].
    destruct (at_off_total 2 (12 + 4) b) as (rl2 & Er2 & _); [lia..|done|].
    destruct (at_off_total 4 24 b) as (z & Ez & _); [lia..|done|].
    destruct (at_off_total 1 29 b) as (il & Ei & _); [lia..|done|].
    rewrite Er2, Ez, Ei. cbn [obind]. rewrite (u32_small (bs - 12)) by lia.
    destruct (Z.eqb_spec rl2 (bs - 12)) as [->|]; cbn [negb]; [|by eexists].
    destruct (_ || _) eqn:Eroot; [by eexists|].
    destruct (dx_check_spec bs 32 b) as (r & -> & Hr); [done..|lia|by right|]. exists r. split; [done|].
    intros o ->. destruct (Hr o eq_refl) as (-> & Hf & Ha). split; [done|]. split; [by apply two_records_no_tail; [lia|..]|].
    intros b' Hab. unfold de_rec_len, de_name_len in *.
    rewrite (Hab 2%nat (0 + 4)), (Hab 2%nat (0 + 6)), (Hab 2%nat (12 + 4)), (Hab 4%nat 24), (Hab 1%nat 29), Er, En by lia.
    rewrite Er2, Ez, Ei. cbn [obind]. rewrite Ecase, Eroot. cbn [Z.eqb Pos.eqb]. rewrite Z.eqb_refl. cbn [negb].
    split; [by apply Ha|]. apply two_records_no_tail; [lia|done|..]; unfold de_rec_len.
    + by rewrite (Hab 2%nat (0 + 4)) by lia.
    + by rewrite (Hab 2%nat (12 + 4)) by lia.
Qed.

(** ** The seed *)
Section Seeds.
  Context `{Machine} {W : Type} `{IoChannel W} {bs : Z} `{!IoDisk bs W}.
  Context (gd : bytes) (fs : ext2_filsys) (Hr : inodes_ready bs fs gd) (Hmem : enough_memory fs).

(** An inode of the cache is read without the disk. *)
Lemma read_cached c ino slot old (t : state W) : inode_ok fs ino → ∀ w, cache_ok fs gd w c →
  ic_cache c !! slot = Some (MkEnt ino old) →
  ext2fs_read_inode (set_icache (Some c) fs) ino t =
    Ret ((0, take (Z.to_nat (Z.min sizeof_ext2_inode (EXT2_INODE_SIZE (f_super fs)))) old, set_icache (Some c) fs), t).
Proof.
  intros Hi w Hc Hs. pose proof Hi as [Hi1 Hi2]. destruct (bs_bound _ _ _ Hr) as [H128 Hisz].
  destruct (ir_blocksize _ _ _ Hr) as (Ebs & _ & E2).
  assert (0 ≤ s_log_block_size (f_super fs)) by (apply fld4_bound, (ir_super _ _ _ Hr)).
  assert (2 ^ 10 ≤ 2 ^ (10 + s_log_block_size (f_super fs))) by (apply Z.pow_le_mono_r; lia).
  unfold ext2fs_read_inode, ext2fs_read_inode2. cbn [f_super f_blocksize set_icache].
  rewrite (ir_journal _ _ _ Hr), Ebs, (proj2 (Z.ltb_ge bs 1024)) by lia.
  rewrite (proj2 (Z.eqb_neq ino 0)), (proj2 (Z.ltb_ge _ ino)) by lia. cbn [orb].
  unfold ext2fs_create_inode_cache. cbn [f_icache set_icache]. rewrite bind_lift. cbn [negb Z.eqb f_icache set_icache of_option]. rewrite bind_lift.
  assert (Ef : find_slot ino (ic_cache c) = Some (slot, MkEnt ino old)).
  { apply (find_slot_Some gd fs w c); [done|lia|done]. }
  by rewrite Ef.
Qed.

Lemma seed_word ino x : word (crc32c (crc32c (f_csum_seed fs) (le_split 4 ino)) (le_split 4 (i_generation x))).
Proof. apply crc32c_word; [|apply le_split_bytes]. apply crc32c_word; [apply (ir_seed _ _ _ Hr)|apply le_split_bytes]. Qed.

Lemma inode_seed_run ino s : icache_inv fs gd (st_os s) → inode_ok fs ino →
  ext2fs_inode_csum_verify fs ino (disk_inode fs gd (st_os s) ino) = true →
  ∃ e seed ic w', inode_seed fs ino s = Ret ((e, seed, set_icache ic fs), set_os w' s) ∧
    disk w' = disk (st_os s) ∧ word seed ∧
    (e = 0 → ∀ t, inode_seed (set_icache ic fs) ino t = Ret ((0, seed, set_icache ic fs), t)).
Proof.
  intros Hinv Hi Hgood. destruct Hmem as [Hm1 Hm2].
  destruct (read_inode2_run gd fs Hr Hm1 Hm2 ino sizeof_ext2_inode 0 s Hinv Hi)
    as (e & x & fs' & w' & E & Ed & (ic & ->) & _ & Hok & _).
  unfold inode_seed. rewrite (bind_eq _ _ _ _ _ E). eexists e, _, ic, w'. split; [done|]. split; [done|].
  split; [apply seed_word|]. intros -> t.
  destruct (Hok eq_refl) as (old & -> & _ & Hc).
  destruct Hc as (c & slot & Ec & Hc & Hs); [unfold disk_inode in *; by rewrite Ed|]. cbn in Ec. subst ic.
  rewrite (bind_eq _ _ _ _ _ (read_cached c ino slot old t Hi w' Hc Hs)). done.
Qed.
Lemma bs_facts : 1024 ≤ bs < 2 ^ 31 ∧ Z.land bs 3 = 0.
Proof.
  destruct (ir_blocksize _ _ _ Hr) as (_ & E1 & E2).
  assert (0 ≤ s_log_block_size (f_super fs)) by (apply fld4_bound, (ir_super _ _ _ Hr)).
  set (k := s_log_block_size (f_super fs)) in *.
  assert (2 ^ 10 ≤ 2 ^ (10 + k)) by (apply Z.pow_le_mono_r; lia). split.
  - split; [lia|]. rewrite <- E1. unfold EXT2_BLOCK_SIZE, i32. fold k. pose proof (Z.mod_pos_bound (Z.shiftl 1024 k + 2 ^ 31) (2 ^ 32) eq_refl). lia.
  - change 3 with (Z.ones 2). rewrite Z.land_ones, E2 by lia. replace (10 + k) with (2 + (8 + k)) by lia.
    rewrite Z.pow_add_r, Z.mul_comm by lia. apply Z.mod_mul. lia.
Qed.

Lemma icache_bs ic : f_blocksize (set_icache ic fs) = bs.
Proof. apply (ir_blocksize _ _ _ Hr). Qed.

Lemma slice_total n b : zlen b = bs → 0 ≤ n ≤ bs → Forall is_byte b →
  ∃ x, slice 0 n b = Some x ∧ Forall is_byte x.
Proof.
  intros Hl Hn Hb. destruct (slice_is_Some 0 n b) as [x Hx]; [lia..|]. exists x. split; [done|]. by eapply slice_bytes.
Qed.

(** A checksum has been set and verifies from then on, whatever happens meanwhile. *)
Definition checked (run : prog W (Z * bytes * ext2_filsys)) (verify : ext2_filsys → bytes → prog W (bool * ext2_filsys))
    (b : bytes) (s : state W) : Prop :=
  ∃ e b' fs' s', run s = Ret ((e, b', fs'), s') ∧ disk (st_os s') = disk (st_os s) ∧
    (e ≠ 0 → b' = b) ∧
    (e = 0 → (b' = b ∨ ∃ off v, 0 ≤ off ≤ bs - 4 ∧ b' = set_fld 4 (Z.to_nat off) v b) ∧
       ∀ t, verify fs' b' t = Ret ((true, fs'), t)).

Context (ino : Z) (b : bytes) (s : state W) (Hinv : icache_inv fs gd (st_os s)) (Hi : inode_ok fs ino)
  (Hgood : ext2fs_inode_csum_verify fs ino (disk_inode fs gd (st_os s) ino) = true)
  (Hl : zlen b = bs) (Hb : Forall is_byte b) (Hon : has_feature_metadata_csum (f_super fs) = true).

(** The checksum of the first bytes of a block, given the seed. *)
Lemma dirent_csum_run fs' e seed fs'' n x b' s1 s2 : inode_seed fs' ino s1 = Ret ((e, seed, fs''), s2) →
  slice 0 n b' = Some x →
  ext2fs_dirent_csum fs' ino b' n s1 = Ret ((e, if e =? 0 then crc32c seed x else 0, fs''), s2).
Proof.
  intros E Ex. unfold ext2fs_dirent_csum. rewrite (bind_eq _ _ _ _ _ E), Ex.
  destruct (Z.eqb_spec e 0) as [->|]; done.
Qed.

Lemma dirent_checked t : get_dirent_tail bs b = Ret (inr t) →
  checked (ext2fs_dirent_csum_set fs ino b) (fun fs' b' => ext2fs_dir_block_csum_verify fs' ino b') b s.
Proof.
  intros Et. destruct (get_dirent_tail_total bs b Hb Hl) as (r & Et' & Hpos). rewrite Et in Et'. injection Et' as <-.
  destruct (Hpos t eq_refl) as [-> Hbs]. clear Hpos. destruct (ir_blocksize _ _ _ Hr) as (Ebs & _).
  destruct (inode_seed_run ino s Hinv Hi Hgood) as (e & seed & ic & w' & E & Ed & Hw & Hagain).
  destruct (slice_total (bs - 12) b) as (x & Ex & Hx); [done|lia|done|].
  unfold checked, ext2fs_dirent_csum_set. rewrite Ebs, Et, bind_lift, (bind_eq _ _ _ _ _ (dirent_csum_run _ _ _ _ _ _ _ _ _ E Ex)).
  destruct (Z.eqb_spec e 0) as [->|He]; cbn [negb]; cycle 1.
  { eexists _, _, _, _. split; [done|]. by split_and!. }
  rewrite put_at_run by lia. rewrite bind_lift. replace (bs - 12 + 8) with (bs - 4) by lia.
  eexists _, _, _, _. split; [done|]. split; [done|]. split; [done|]. intros _. split.
  { right. eexists _, _. split; [|done]. lia. }
  intros t. unfold ext2fs_dir_block_csum_verify. rewrite icache_bs. change (f_super (set_icache ic fs)) with (f_super fs).
  rewrite Hon. cbn [negb].
  assert (Ha : agree (bs - 4) b (set_fld 4 (Z.to_nat (bs - 4)) (crc32c seed x) b)) by (apply agree_put; lia).
  rewrite (get_dirent_tail_agree _ _ _ Ha), Et, bind_lift. unfold ext2fs_dirent_csum_verify.
  rewrite icache_bs, (get_dirent_tail_agree _ _ _ Ha), Et, bind_lift.
  assert (Ex' : slice 0 (bs - 12) (set_fld 4 (Z.to_nat (bs - 4)) (crc32c seed x) b) = Some x) by (rewrite slice_set_fld; [done|lia..]).
  rewrite (bind_eq _ _ _ _ _ (dirent_csum_run _ _ _ _ _ _ _ _ _ (Hagain eq_refl t) Ex')).
  cbn [negb Z.eqb]. replace (bs - 12 + 8) with (bs - 4) by lia.
  rewrite at_off_put, bind_lift, Z.eqb_refl by (lia || by apply crc32c_word). done.
Qed.

Lemma dx_csum_run fs' e seed fs'' o limit count x y b' s1 s2 : f_blocksize fs' = bs →
  get_dx_countlimit bs b' = Ret (inr o) → dx_found bs o limit count b' → o + limit * 8 ≤ bs - 8 →
  inode_seed fs' ino s1 = Ret ((e, seed, fs''), s2) →
  slice 0 (o + count * 8) b' = Some x → slice (o + limit * 8) 4 b' = Some y →
  ext2fs_dx_csum fs' ino b' s1 = Ret ((if e =? 0 then
    (0, crc32c (crc32c (crc32c seed x) y) (le_split 4 0), o + limit * 8, fs'') else (e, 0, 0, fs'')), s2).
Proof.
  intros Ebs Eo [_ [El _] [Ec _]] Hroom E Ex Ey. unfold ext2fs_dx_csum.
  rewrite Ebs, Eo, bind_lift, El, bind_lift, Ec, bind_lift, (proj2 (Z.ltb_ge _ _)) by lia.
  rewrite (bind_eq _ _ _ _ _ E). destruct (Z.eqb_spec e 0) as [->|]; cbn [negb]; [|done].
  rewrite Ex, Ey. cbn [of_option]. by rewrite !bind_lift.
Qed.

Lemma dx_found_agree o limit count b' : dx_found bs o limit count b → agree (o + 4) b b' → dx_found bs o limit count b'.
Proof.
  intros [Ho [El ?] [Ec ?]] Ha. split; [done|..]; (split; [|done]).
  - by rewrite (Ha 2%nat o) by lia.
  - by rewrite (Ha 2%nat (o + 2)) by lia.
Qed.

Lemma dx_checked o : get_dx_countlimit bs b = Ret (inr o) →
  (∀ limit count, dx_found bs o limit count b → count ≤ limit) →
  checked (ext2fs_dx_csum_set fs ino b) (fun fs' b' => ext2fs_dir_block_csum_verify fs' ino b') b s.
Proof.
  intros Eo Hsane. destruct bs_facts as [Hbs H4].
  destruct (get_dx_countlimit_spec bs b Hb Hl ltac:(lia) H4) as (r & Er & Hspec). rewrite Eo in Er. injection Er as <-.
  destruct (Hspec o eq_refl) as ((limit & count & Hf) & _ & Hsame). specialize (Hsane limit count Hf).
  destruct (ir_blocksize _ _ _ Hr) as (Ebs & _). pose proof Hf as [Ho [El Hlim] [Ec Hcnt]].
  unfold checked, ext2fs_dx_csum_set.
  destruct (Z.ltb_spec (bs - 8) (o + limit * 8)) as [Hfull|Hroom].
  { exists EXT2_ET_DIR_NO_SPACE_FOR_CSUM, b, fs, s. split; [|by split_and!]. unfold ext2fs_dx_csum.
    rewrite (bind_eq _ _ s (EXT2_ET_DIR_NO_SPACE_FOR_CSUM, 0, 0, fs) s); [done|].
    by rewrite Ebs, Eo, bind_lift, El, bind_lift, Ec, bind_lift, (proj2 (Z.ltb_lt _ _)) by lia. }
  destruct (inode_seed_run ino s Hinv Hi Hgood) as (e & seed & ic & w' & E & Ed & Hw & Hagain).
  destruct (slice_total (o + count * 8) b) as (x & Ex & Hx); [done|lia|done|].
  destruct (slice_is_Some (o + limit * 8) 4 b) as [y Ey]; [lia..|]. assert (Hy := slice_bytes _ _ _ _ Hb Ey).
  rewrite (bind_eq _ _ _ _ _ (dx_csum_run _ _ _ _ _ _ _ _ _ _ _ _ Ebs Eo Hf Hroom E Ex Ey)).
  destruct (Z.eqb_spec e 0) as [->|He]; cycle 1.
  { rewrite (proj2 (Z.eqb_neq e 0)) by done. cbn [negb]. eexists _, _, _, _. split; [done|]. by split_and!. }
  cbn [negb Z.eqb]. rewrite put_at_run, bind_lift by lia.
  set (crc := crc32c _ _). set (b' := set_fld _ _ _ _). assert (Hcrc : word crc).
  { repeat (apply crc32c_word; [|done || apply le_split_bytes]). done. }
  assert (Ha : agree (o + 4) b b') by (apply agree_put; lia). destruct (Hsame b' Ha) as [Eo' Et'].
  assert (Ex' : slice 0 (o + count * 8) b' = Some x) by (unfold b'; rewrite slice_set_fld; [done|lia..]).
  assert (Ey' : slice (o + limit * 8) 4 b' = Some y) by (unfold b'; rewrite slice_set_fld; [done|lia..]).
  eexists _, _, _, _. split; [done|]. split; [done|]. split; [done|]. intros _. split.
  { right. eexists _, _. split; [|done]. lia. }
  intros t. unfold ext2fs_dir_block_csum_verify. rewrite icache_bs. change (f_super (set_icache ic fs)) with (f_super fs).
  rewrite Hon. cbn [negb]. rewrite Et', bind_lift, Eo', bind_lift. unfold ext2fs_dx_csum_verify.
  rewrite (bind_eq _ _ _ _ _ (dx_csum_run _ _ _ _ _ _ _ _ _ _ _ _ (icache_bs ic) Eo'
    (dx_found_agree _ _ _ _ Hf Ha) Hroom (Hagain eq_refl t) Ex' Ey')). cbn [negb Z.eqb]. fold crc.
  unfold b'. rewrite at_off_put, bind_lift, Z.eqb_refl by (lia || done). done.
Qed.

Lemma dir_block_checked : has (f_flags fs) EXT2_FLAG_IGNORE_CSUM_ERRORS = false →
  (∀ o limit count, dx_found bs o limit count b → count ≤ limit) →
  checked (ext2fs_dir_block_csum_set fs ino b) (fun fs' b' => ext2fs_dir_block_csum_verify fs' ino b') b s.
Proof.
  intros Hign Hsane. destruct bs_facts as [Hbs H4]. destruct (ir_blocksize _ _ _ Hr) as (Ebs & _).
  destruct (get_dirent_tail_total bs b Hb Hl) as (rt & Et & _).
  destruct (get_dx_countlimit_spec bs b Hb Hl ltac:(lia) H4) as (ro & Eo & _).
  assert (Hrun : ∀ e, e ≠ 0 → checked (ret (e, b, fs)) (fun fs' b' => ext2fs_dir_block_csum_verify fs' ino b') b s).
  { intros e He. eexists _, _, _, _. split; [done|]. by split_and!. }
  unfold checked, ext2fs_dir_block_csum_set in *. rewrite Hon, Ebs, Et. cbn [negb]. rewrite bind_lift.
  destruct rt as [e|t]; [|by apply (dirent_checked t)]. rewrite Eo, bind_lift.
  destruct ro as [e'|o]; [rewrite Hign; by apply Hrun|]. apply (dx_checked o); [done|by apply Hsane].
Qed.

(** A block of extents with room for the checksum behind its entries. *)
Lemma extent_block_checked eh_max : at_off 2 4 b = Ret eh_max → 12 + 12 * eh_max + 4 ≤ bs →
  checked (ext2fs_extent_block_csum_set fs ino b) (fun fs' b' => ext2fs_extent_block_csum_verify fs' ino b') b s.
Proof.
  intros Em Hroom. assert (Hm : 0 ≤ eh_max).
  { destruct bs_facts. destruct (at_off_total 2 4 b) as (v & Ev & Hv); [lia..|done|]. rewrite Em in Ev. injection Ev as ->. lia. }
  destruct (inode_seed_run ino s Hinv Hi Hgood) as (e & seed & ic & w' & E & Ed & Hw & Hagain).
  destruct (slice_total (12 + 12 * eh_max) b) as (x & Ex & Hx); [done|lia|done|].
  assert (Hrun : ∀ fs' e seed fs'' b' s1 s2, at_off 2 4 b' = Ret eh_max → slice 0 (12 + 12 * eh_max) b' = Some x →
    inode_seed fs' ino s1 = Ret ((e, seed, fs''), s2) →
    ext2fs_extent_block_csum fs' ino b' s1 = Ret ((e, if e =? 0 then crc32c seed x else 0, fs''), s2)).
  { intros fs' e' seed' fs'' b' s1 s2 Em' Ex' E'. unfold ext2fs_extent_block_csum, EXT3_EXTENT_TAIL_OFFSET.
    rewrite Em'. cbn [obind]. rewrite bind_lift, (bind_eq _ _ _ _ _ E'), Ex'. destruct (Z.eqb_spec e' 0) as [->|]; done. }
  unfold checked, ext2fs_extent_block_csum_set, EXT3_EXTENT_TAIL_OFFSET. rewrite Em. cbn [obind].
  rewrite bind_lift, Hon. cbn [negb]. rewrite (bind_eq _ _ _ _ _ (Hrun _ _ _ _ _ _ _ Em Ex E)).
  destruct (Z.eqb_spec e 0) as [->|He]; cbn [negb]; cycle 1.
  { eexists _, _, _, _. split; [done|]. by split_and!. }
  rewrite put_at_run, bind_lift by lia. set (b' := set_fld _ _ _ _). eexists _, _, _, _.
  split; [done|]. split; [done|]. split; [done|]. intros _. split; [right; eexists _, _; split; [|done]; lia|].
  assert (Em' : at_off 2 4 b' = Ret eh_max) by (unfold b'; rewrite at_off_same; [done|lia..]).
  assert (Ex' : slice 0 (12 + 12 * eh_max) b' = Some x) by (unfold b'; rewrite slice_set_fld; [done|lia..]).
  intros t. unfold ext2fs_extent_block_csum_verify, EXT3_EXTENT_TAIL_OFFSET. rewrite Em'. cbn [obind].
  change (f_super (set_icache ic fs)) with (f_super fs). rewrite bind_lift, Hon. cbn [negb].
  unfold b' at 1. rewrite at_off_put, bind_lift by (lia || by apply crc32c_word).
  rewrite (bind_eq _ _ _ _ _ (Hrun _ _ _ _ _ _ _ Em' Ex' (Hagain eq_refl t))). cbn [negb Z.eqb]. by rewrite Z.eqb_refl.
Qed.
End Seeds.


(** ** Examples *)

(** A block with one record and a tail; a node of a hash tree with [count] of [limit] entries;
    a block for up to 84 extents. *)
Definition sample_leaf : bytes :=
  set_fld 2 4 1012 (replicate 1012 0) ++ ext2fs_initialize_dirent_tail 1024.
Definition sample_node (limit count : Z) : bytes :=
  set_fld 2 8 limit (set_fld 2 10 count (set_fld 2 4 1024 (replicate 1024 0))).
Definition sample_extents : bytes := set_fld 2 4 84 (replicate 1024 0).

(** Sets the checksum of a block of the inode 3, damages the byte [at_], verifies. *)
Definition set_verify (b : bytes) (at_ : nat) : outcome (Z * bool) :=
  let run : prog bytes (Z * bool) :=
    let! '(e, b', fs) := ext2fs_dir_block_csum_set (H := small_machine) (H0 := byte_channel) (inode_fs 0x400 1) 3 b in
    let! '(ok, _) := ext2fs_dir_block_csum_verify (H := small_machine) (H0 := byte_channel) fs 3
                       (alter (fun c => (c + 1) mod 256) at_ b') in
    ret (e, ok) in
  let? '(r, _) := run (dev_state csum_device) in Ret r.

Example leaf_is_checked : set_verify sample_leaf 1024 = Ret (0, true) ∧ set_verify sample_leaf 100 = Ret (0, false).
Proof. split; vm_compute; reflexivity. Qed.

(** A node of a hash tree whose count is above its limit gets a checksum that does not verify:
    it covers the bytes it is stored in. *)
Lemma node_above_limit : set_verify (sample_node 100 100) 1024 = Ret (0, true) ∧
  set_verify (sample_node 100 102) 1024 = Ret (0, false).
Proof. split; vm_compute; reflexivity. Qed.

