(* ===== verification/DirIter.v ===== *)
(** * Blocks of directories: dir_iterate.c, dirblock.c, link.c, unlink.c, lookup.c, newdir.c
      of e2fsprogs/lib/ext2fs

    A block of a directory is walked record by record, and a function is called on the
    records; linking, unlinking and looking up a name are such functions.  The definitions
    are all here, with the safety of the walk on any bytes, its agreement with the parser of
    src/fs.c, and the records of the on-disk format of DirBlock as the walk sees them. *)
From S2P Require Export DirCsum.
#[local] Open Scope Z_scope.

Definition DIRENT_CHANGED : Z := 1.
Definition DIRENT_ABORT : Z := 2.
Definition DIRENT_FLAG_INCLUDE_EMPTY : Z := 1.
Definition DIRENT_FLAG_INCLUDE_REMOVED : Z := 2.
Definition DIRENT_FLAG_INCLUDE_CSUM : Z := 4.
Definition DIRENT_FLAG_INCLUDE_INLINE_DATA : Z := 8.
Definition DIRENT_DOT_FILE : Z := 1.
Definition DIRENT_OTHER_FILE : Z := 3.
Definition DIRENT_DELETED_FILE : Z := 4.
Definition DIRENT_CHECKSUM : Z := 5.
Definition DIRENT_MIN_LENGTH : Z := 12.
Definition BLOCK_INLINE_DATA_CHANGED : Z := 8.
Definition EXT2FS_UNLINK_FORCE : Z := 1.
Definition sizeof_dir_entry_tail : Z := 12.
Definition EXT2_FT_DIR : Z := 2.
Definition has_feature_filetype (sb : bytes) : bool := has (s_feature_incompat sb) 0x2.

(** ** Accessors of ext2fs.h and ext2_fs.h *)
Definition ext2fs_dirent_name_len (off : Z) (buf : bytes) : outcome Z :=
  let? v := de_name_len off buf in Ret (Z.land v 0xff).
Definition ext2fs_dirent_set_name_len (off len : Z) (buf : bytes) : outcome bytes :=
  let? v := de_name_len off buf in put_at 2 (off + 6) (Z.lor (Z.land v 0xff00) (Z.land len 0xff)) buf.
Definition ext2fs_dirent_set_file_type (off type : Z) (buf : bytes) : outcome bytes :=
  let? v := de_name_len off buf in put_at 2 (off + 6) (Z.lor (Z.land v 0xff) (Z.shiftl type 8)) buf.
(** Its argument is a [__u8]. *)
Definition EXT2_DIR_REC_LEN (name_len : Z) : Z := Z.ldiff (u8 name_len + 8 + 3) 3.
(** Bytes copied to an offset. *)
Definition put_bytes (off : Z) (x buf : bytes) : outcome bytes :=
  if bool_decide (0 ≤ off ∧ off + zlen x ≤ zlen buf)
  then Ret (take (Z.to_nat off) buf ++ x ++ drop (Z.to_nat off + length x) buf) else Undef.
(** [ext2fs_set_rec_len] on the record at [off]: the error, or the buffer. *)
Definition store_rec_len (blocksize off len : Z) (buf : bytes) : outcome (Z + bytes) :=
  match ext2fs_set_rec_len blocksize len with
  | inl e => Ret (inl e)
  | inr v => let? buf := put_at 2 (off + 4) v buf in Ret (inr buf)
  end.

(** ** The walk *)

(** [while ((offset < final_offset) && (offset <= fs->blocksize - DIRENT_MIN_LENGTH))] *)
Fixpoint ext2fs_validate_entry (fuel : nat) (blocksize : Z) (buf : bytes) (offset final_offset : Z) : outcome bool :=
  match fuel with
  | O => Spin
  | S fuel =>
      if (offset <? final_offset) && (offset <=? blocksize - DIRENT_MIN_LENGTH) then
        let? len := de_rec_len offset buf in
        let rec_len := ext2fs_get_rec_len blocksize len in
        let? name_len := ext2fs_dirent_name_len offset buf in
        if (rec_len <? 8) || negb (rec_len mod 4 =? 0) || (rec_len <? name_len + 8) then Ret false
        else ext2fs_validate_entry fuel blocksize buf (offset + rec_len) final_offset
      else Ret (offset =? final_offset)
  end.
(** Where the next record that looks valid is, deleted ones included. *)
Fixpoint skip_invalid (fuel : nat) (blocksize : Z) (buf : bytes) (offset final_offset : Z) : outcome Z :=
  match fuel with
  | O => Spin
  | S fuel =>
      if offset <? final_offset then
        let? valid := ext2fs_validate_entry (tail_fuel blocksize) blocksize buf offset final_offset in
        if valid then Ret offset else skip_invalid fuel blocksize buf (offset + 4) final_offset
      else Ret offset
  end.

(** How the walk of a block ends: at an error, or with what was changed and whether to stop. *)
Inductive walk_end : Type := WalkError (errcode : Z) | WalkEnd (changed do_abort : bool).

Section Walk.
  Context {P : Type}.
(** The function: kind of entry, offset of the record, size of the block, block and private
    data to its result, the block and the private data. *)
Definition dir_func : Type := Z → Z → Z → bytes → P → outcome (Z * bytes * P).
Context (blocksize buflen csum_size flags : Z) (func : dir_func).

(** What follows the label [next]: the offset and [next_real_entry]. *)
Definition next_offset (rec_len offset next_real_entry : Z) (buf : bytes) : outcome (Z * Z) :=
  let next_real_entry := if next_real_entry =? offset then next_real_entry + rec_len else next_real_entry in
  if has flags DIRENT_FLAG_INCLUDE_REMOVED then
    let? name_len := ext2fs_dirent_name_len offset buf in
    let size := Z.ldiff (name_len + 11) 3 in
    if negb (rec_len =? size) then
      let final_offset := offset + rec_len in
      let? offset := skip_invalid (tail_fuel buflen) blocksize buf (offset + size) final_offset in
      Ret (offset, next_real_entry)
    else Ret (offset + rec_len, next_real_entry)
  else Ret (offset + rec_len, next_real_entry).

(** The tests of the record at [offset]: its length as it is stored and as it is meant, or
    [None] when the directory is corrupted. *)
Definition walk_record (offset : Z) (buf : bytes) : outcome (option (Z * Z)) :=
  let? len := de_rec_len offset buf in
  let rec_len := ext2fs_get_rec_len blocksize len in
  let? name_len := ext2fs_dirent_name_len offset buf in
  Ret (if (buflen <? offset + rec_len) || (rec_len <? 8) || negb (rec_len mod 4 =? 0) || (rec_len <? name_len + 8)
       then None else Some (len, rec_len)).
(** Whether a record is left out, and the kind of entry. *)
Definition walk_skips (len offset entry : Z) (buf : bytes) : outcome (bool * Z) :=
  let? inode := de_inode offset buf in
  if negb (inode =? 0) then Ret (false, entry) else
  let? name_len := de_name_len offset buf in
  if negb (has flags DIRENT_FLAG_INCLUDE_INLINE_DATA) && (offset =? buflen - csum_size)
     && (len =? csum_size) && (name_len =? EXT2_DIR_NAME_LEN_CSUM)
  then Ret (if has flags DIRENT_FLAG_INCLUDE_CSUM then (false, DIRENT_CHECKSUM) else (true, entry))
  else Ret (negb (has flags DIRENT_FLAG_INCLUDE_EMPTY), entry).

(** [while (offset < buflen - 8)] *)
Fixpoint walk (fuel : nat) (offset next_real_entry entry : Z) (changed : bool) (buf : bytes) (p : P) :
    outcome (walk_end * bytes * P) :=
  match fuel with
  | O => Spin
  | S fuel =>
      if buflen - 8 <=? offset then Ret (WalkEnd changed false, buf, p) else
      let? r := walk_record offset buf in
      match r with
      | None => Ret (WalkError EXT2_ET_DIR_CORRUPTED, buf, p)
      | Some (len, rec_len) =>
          let? '(skip, entry) := walk_skips len offset entry buf in
          if (skip : bool) then
            let? '(offset, next_real_entry) := next_offset rec_len offset next_real_entry buf in
            walk fuel offset next_real_entry entry changed buf p
          else
          let? '(result, buf, p) :=
            func (if offset <? next_real_entry then DIRENT_DELETED_FILE else entry) offset buflen buf p in
          let entry := if entry <? DIRENT_OTHER_FILE then entry + 1 else entry in
          let? rec_len := if has result DIRENT_CHANGED
                          then let? len := de_rec_len offset buf in Ret (ext2fs_get_rec_len blocksize len)
                          else Ret rec_len in
          let changed := changed || has result DIRENT_CHANGED in
          if has result DIRENT_ABORT then Ret (WalkEnd changed true, buf, p) else
          let? '(offset, next_real_entry) := next_offset rec_len offset next_real_entry buf in
          walk fuel offset next_real_entry entry changed buf p
      end
  end.
End Walk.
Arguments dir_func P : clear implicits.

(** [struct dir_context], without the function. *)
Record dir_context (P : Type) : Type := MkDirCtx {
  dc_dir : Z; dc_flags : Z; dc_buf : bytes; dc_buflen : Z; dc_errcode : Z; dc_priv : P;
}.
Arguments MkDirCtx {P}. Arguments dc_dir {P}. Arguments dc_flags {P}. Arguments dc_buf {P}.
Arguments dc_buflen {P}. Arguments dc_errcode {P}. Arguments dc_priv {P}.

Section Process.
  Context `{Machine} {W : Type} `{IoChannel W} {P : Type}.

(** The error, the block. *)
Definition ext2fs_read_dir_block4 (fs : ext2_filsys) (block ino : Z) : prog W (Z * bytes * ext2_filsys) :=
  let! '(retval, buf) := sys (io_read_blk64 (f_blocksize fs) block 1) in
  if negb (retval =? 0) then ret (retval, buf, fs) else
  if has (f_flags fs) EXT2_FLAG_IGNORE_CSUM_ERRORS then ret (0, buf, fs) else
  let! '(ok, fs) := ext2fs_dir_block_csum_verify fs ino buf in
  ret (if (ok : bool) then 0 else EXT2_ET_DIR_CSUM_INVALID, buf, fs).
(** The error, and the block as it was written. *)
Definition ext2fs_write_dir_block4 (fs : ext2_filsys) (block : Z) (buf : bytes) (ino : Z) :
    prog W (Z * bytes * ext2_filsys) :=
  let! '(retval, buf, fs) := ext2fs_dir_block_csum_set fs ino buf in
  if negb (retval =? 0) then ret (retval, buf, fs) else
  let! retval := sys (io_write_blk64 (f_blocksize fs) block 1 buf) in
  ret (retval, buf, fs).

Definition ext2fs_process_dir_block (fs : ext2_filsys) (blocknr blockcnt : Z) (func : dir_func P) (ctx : dir_context P) :
    prog W (Z * ext2_filsys * dir_context P) :=
  let with_ e buf p := MkDirCtx (dc_dir ctx) (dc_flags ctx) buf (dc_buflen ctx) e p in
  if blockcnt <? 0 then ret (0, fs, ctx) else
  let entry := if blockcnt =? 0 then DIRENT_DOT_FILE else DIRENT_OTHER_FILE in
  let inline_data := has (dc_flags ctx) DIRENT_FLAG_INCLUDE_INLINE_DATA in
  let! '(errcode, buf, fs) :=
    if inline_data then ret (dc_errcode ctx, dc_buf ctx, fs)
    else ext2fs_read_dir_block4 fs blocknr (dc_dir ctx) in
  if negb inline_data && negb (errcode =? 0) then ret (BLOCK_ABORT, fs, with_ errcode buf (dc_priv ctx)) else
  let buflen := if inline_data then dc_buflen ctx else f_blocksize fs in
  let csum_size := if has_feature_metadata_csum (f_super fs) then sizeof_dir_entry_tail else 0 in
  if buflen <? 8 then ret (BLOCK_ABORT, fs, with_ EXT2_ET_DIR_CORRUPTED buf (dc_priv ctx)) else
  let! '(r, buf, p) := lift (walk (f_blocksize fs) buflen csum_size (dc_flags ctx) func (tail_fuel buflen)
                               0 0 entry false buf (dc_priv ctx)) in
  match r with
  | WalkError e => ret (BLOCK_ABORT, fs, with_ e buf p)
  | WalkEnd changed do_abort =>
      let abort := if do_abort then BLOCK_ABORT else 0 in
      if negb changed then ret (abort, fs, with_ errcode buf p)
      else if inline_data then ret (Z.lor BLOCK_INLINE_DATA_CHANGED abort, fs, with_ errcode buf p)
      else
      let! '(errcode, buf, fs) := ext2fs_write_dir_block4 fs blocknr buf (dc_dir ctx) in
      ret (if negb (errcode =? 0) then BLOCK_ABORT else abort, fs, with_ errcode buf p)
  end.
End Process.

(** ** link.c: a name is added *)
Record link_struct : Type := MkLink { ls_done : Z; ls_err : Z }.

Section Link.
  Context (fs : ext2_filsys) (name : bytes) (ino fl : Z).
  Abbreviation bsz := (f_blocksize fs).

(** The next record is absorbed when it is unused: the error, or the result, the length of
    the record and the block. *)
Definition absorb_next (offset blocksize curr_rec_len : Z) (buf : bytes) : outcome (Z + Z * Z * bytes) :=
  let csum_size := if has_feature_metadata_csum (f_super fs) then sizeof_dir_entry_tail else 0 in
  let next := offset + curr_rec_len in
  if negb (next <? blocksize - (8 + csum_size)) then Ret (inr (0, curr_rec_len, buf)) else
  let? next_inode := de_inode next buf in
  if negb (next_inode =? 0) then Ret (inr (0, curr_rec_len, buf)) else
  let? next_len := de_rec_len next buf in
  if negb (next + next_len <=? blocksize) then Ret (inr (0, curr_rec_len, buf)) else
  let? r := store_rec_len bsz offset (curr_rec_len + next_len) buf in
  Ret (match r with inl e => inl e | inr buf => inr (DIRENT_CHANGED, curr_rec_len + next_len, buf) end).

(** A used record is cut in two: the error, the block. *)
Definition split_record (offset curr_rec_len min_rec_len : Z) (buf : bytes) : outcome (Z * bytes) :=
  let? r := store_rec_len bsz offset min_rec_len buf in
  match r with
  | inl e => Ret (e, buf)
  | inr buf =>
      let? rec_len := de_rec_len offset buf in
      let next := offset + rec_len in
      let? buf := put_at 4 next 0 buf in
      let? buf := ext2fs_dirent_set_name_len next 0 buf in
      let? buf := ext2fs_dirent_set_file_type next 0 buf in
      let? r := store_rec_len bsz next (curr_rec_len - min_rec_len) buf in
      Ret (match r with inl e => (e, buf) | inr buf => (0, buf) end)
  end.

(** An unused record gets the name. *)
Definition fill_record (offset : Z) (buf : bytes) : outcome bytes :=
  let? buf := put_at 4 offset ino buf in
  let? buf := ext2fs_dirent_set_name_len offset (zlen name) buf in
  let? buf := put_bytes (offset + 8) name buf in
  if has_feature_filetype (f_super fs) then ext2fs_dirent_set_file_type offset (Z.land fl 7) buf else Ret buf.

(** [name] is a C string: [strlen(name)] is its length. *)
Definition link_proc : dir_func link_struct := fun _ offset blocksize buf ls =>
  if negb (ls_done ls =? 0) then Ret (DIRENT_ABORT, buf, ls) else
  let rec_len := EXT2_DIR_REC_LEN (zlen name) in
  let? len := de_rec_len offset buf in
  let? r := absorb_next offset blocksize (ext2fs_get_rec_len bsz len) buf in
  match r with
  | inl e => Ret (DIRENT_ABORT, buf, MkLink (ls_done ls) e)
  | inr (result, curr_rec_len, buf) =>
      let? inode := de_inode offset buf in
      if negb (inode =? 0) then
        let? name_len := ext2fs_dirent_name_len offset buf in
        let min_rec_len := EXT2_DIR_REC_LEN name_len in
        if curr_rec_len <? min_rec_len + rec_len then Ret (result, buf, MkLink (ls_done ls) 0) else
        let? '(e, buf) := split_record offset curr_rec_len min_rec_len buf in
        Ret (if negb (e =? 0) then DIRENT_ABORT else DIRENT_CHANGED, buf, MkLink (ls_done ls) e)
      else if curr_rec_len <? rec_len then Ret (result, buf, MkLink (ls_done ls) 0) else
      let? buf := fill_record offset buf in
      Ret (Z.lor DIRENT_ABORT DIRENT_CHANGED, buf, MkLink (ls_done ls + 1) 0)
  end.
End Link.

(** ** unlink.c: a name is removed *)
Record unlink_struct : Type := MkUnlink { us_prev : option Z; us_done : Z }.

(** The comparisons of names of unlink_proc and lookup_proc: of the name, which holds no NUL,
    with the bytes of the record. *)
Definition same_name (name : bytes) (offset : Z) (buf : bytes) : outcome bool :=
  let? name_len := ext2fs_dirent_name_len offset buf in
  if negb (name_len =? zlen name) then Ret false else
  let? x := of_option (slice (offset + 8) name_len buf) in Ret (bool_decide (x = name)).

Definition unlink_proc (name : option bytes) (ino fl : Z) : dir_func unlink_struct := fun _ offset _ buf ls =>
  let prev := us_prev ls in
  let ls := MkUnlink (Some offset) (us_done ls) in
  let? same := match name with Some nm => same_name nm offset buf | None => Ret true end in
  if negb same then Ret (0, buf, ls) else
  let? inode := de_inode offset buf in
  if (if negb (has fl EXT2FS_UNLINK_FORCE) && negb (ino =? 0) then negb (inode =? ino) else inode =? 0)
  then Ret (0, buf, ls) else
  let? buf := if offset =? 0 then put_at 4 offset 0 buf
              else
              let? prev := of_option prev in
              let? prev_len := de_rec_len prev buf in
              let? len := de_rec_len offset buf in
              put_at 2 (prev + 4) (u16 (prev_len + len)) buf in
  Ret (Z.lor DIRENT_ABORT DIRENT_CHANGED, buf, MkUnlink (Some offset) (us_done ls + 1)).

(** ** lookup.c: the inode of a name, once found *)
Definition lookup_proc (name : bytes) : dir_func (option Z) := fun _ offset _ buf found =>
  let? same := same_name name offset buf in
  if negb same then Ret (0, buf, found) else
  let? inode := de_inode offset buf in Ret (DIRENT_ABORT, buf, Some inode).

(** ** newdir.c: the block of a new directory, or a block without names *)
Definition ext2fs_new_dir_block `{Machine} (fs : ext2_filsys) (dir_ino parent_ino : Z) : outcome (Z * bytes) :=
  let bsz := f_blocksize fs in
  if negb (mem_ok bsz) then Ret (EXT2_ET_NO_MEMORY, []) else
  let buf := replicate (Z.to_nat bsz) 0 in
  let csum_size := if has_feature_metadata_csum (f_super fs) then sizeof_dir_entry_tail else 0 in
  let filetype := if has_feature_filetype (f_super fs) then EXT2_FT_DIR else 0 in
  let? r := store_rec_len bsz 0 (bsz - csum_size) buf in
  match r with
  | inl e => Ret (e, [])
  | inr buf =>
      let? r := if dir_ino =? 0 then Ret (inr buf) else
        let? buf := put_at 4 0 dir_ino buf in
        let? buf := ext2fs_dirent_set_name_len 0 1 buf in
        let? buf := ext2fs_dirent_set_file_type 0 filetype buf in
        let? buf := put_bytes 8 (bs ".") buf in
        let rec_len := bsz - csum_size - EXT2_DIR_REC_LEN 1 in
        let? buf := put_at 2 4 (EXT2_DIR_REC_LEN 1) buf in
        let? off := de_rec_len 0 buf in
        let? r := store_rec_len bsz off rec_len buf in
        match r with
        | inl e => Ret (inl e)
        | inr buf =>
            let? buf := put_at 4 off parent_ino buf in
            let? buf := ext2fs_dirent_set_name_len off 2 buf in
            let? buf := ext2fs_dirent_set_file_type off filetype buf in
            let? buf := put_bytes (off + 8) (bs "..") buf in
            Ret (inr buf)
        end in
      match r with
      | inl e => Ret (e, [])
      | inr buf =>
          if csum_size =? 0 then Ret (0, buf) else
          let? buf := put_bytes (bsz - 12) (ext2fs_initialize_dirent_tail bsz) buf in Ret (0, buf)
      end
  end.

(** The walk of a block by a function, as ext2fs_process_dir_block does it. *)
Definition walk_block {P} (fs : ext2_filsys) (flags : Z) (func : dir_func P) (buf : bytes) (p : P) :
    outcome (walk_end * bytes * P) :=
  let csum_size := if has_feature_metadata_csum (f_super fs) then sizeof_dir_entry_tail else 0 in
  walk (f_blocksize fs) (f_blocksize fs) csum_size flags func (tail_fuel (f_blocksize fs)) 0 0 DIRENT_DOT_FILE false buf p.

(** ** The walk is safe on any bytes *)
Lemma land_ff v : Z.land v 0xff = v mod 256.
Proof. change 0xff with (2 ^ 8 - 1). by rewrite land_ones_mod by lia. Qed.
Lemma name_len_total off buf : Forall is_byte buf → 0 ≤ off → off + 8 ≤ zlen buf →
  ∃ nl, ext2fs_dirent_name_len off buf = Ret nl ∧ 0 ≤ nl < 256.
Proof.
  intros Hb Ho Hl. unfold ext2fs_dirent_name_len, de_name_len.
  destruct (at_off_total 2 (off + 6) buf) as (v & -> & _); [lia..|done|]. cbn [obind]. rewrite land_ff.
  eexists. split; [done|]. by apply Z.mod_pos_bound.
Qed.

(** A record that lies in the block, and its name in the record. *)
Definition record_in (blocksize buflen off : Z) (buf : bytes) : Prop :=
  ∃ len name_len, de_rec_len off buf = Ret len ∧ ext2fs_dirent_name_len off buf = Ret name_len ∧
    let rec_len := ext2fs_get_rec_len blocksize len in
    0 ≤ off ∧ 0 ≤ name_len ∧ 8 + name_len ≤ rec_len ∧ rec_len mod 4 = 0 ∧ off + rec_len ≤ buflen.

Section Safe.
  Context {P : Type} (bsz csum_size flags : Z) (func : dir_func P) (buf : bytes).
  Context (Hb : Forall is_byte buf) (Hl : zlen buf = bsz).

Lemma validate_total fuel : ∀ off final, 0 ≤ off → bsz - off < Z.of_nat fuel → 0 < Z.of_nat fuel →
  ∃ v, ext2fs_validate_entry fuel bsz buf off final = Ret v.
Proof.
  induction fuel as [|fuel IH]; intros off final Ho Hf H0; [lia|]. cbn [ext2fs_validate_entry].
  destruct (Z.ltb_spec off final); cbn [andb]; [|by eexists].
  unfold DIRENT_MIN_LENGTH. destruct (Z.leb_spec off (bsz - 12)); [|by eexists].
  unfold de_rec_len. destruct (at_off_total 2 (off + 4) buf) as (len & -> & _); [lia..|done|]. cbn [obind].
  destruct (name_len_total off buf) as (nl & -> & ?); [done|lia..|]. cbn [obind].
  destruct (Z.ltb_spec (ext2fs_get_rec_len bsz len) 8); cbn [orb]; [by eexists|].
  destruct (_ || _); [by eexists|]. apply IH; lia.
Qed.
Lemma skip_invalid_total fuel : ∀ off final, 0 ≤ off → final - off < Z.of_nat fuel → 0 < Z.of_nat fuel →
  ∃ o, skip_invalid fuel bsz buf off final = Ret o ∧ off ≤ o.
Proof.
  induction fuel as [|fuel IH]; intros off final Ho Hf H0; [lia|]. cbn [skip_invalid].
  destruct (Z.ltb_spec off final); [|by exists off].
  destruct (validate_total (tail_fuel bsz) off final) as [[] ->]; [unfold tail_fuel; lia..| |]; cbn [obind]; [by exists off|].
  destruct (IH (off + 4) final) as (o & -> & ?); [lia..|]. exists o. split; [done|lia].
Qed.

Lemma walk_record_total off : 0 ≤ off → off + 8 ≤ bsz →
  ∃ r, walk_record bsz bsz off buf = Ret r ∧
    ∀ len rec_len, r = Some (len, rec_len) → record_in bsz bsz off buf ∧ de_rec_len off buf = Ret len ∧
      rec_len = ext2fs_get_rec_len bsz len ∧ 8 ≤ rec_len ∧ off + rec_len ≤ bsz.
Proof.
  intros Ho Hend. unfold walk_record, de_rec_len.
  destruct (at_off_total 2 (off + 4) buf) as (len & El & _); [lia..|done|]. rewrite El. cbn [obind].
  destruct (name_len_total off buf) as (nl & En & ?); [done|lia..|]. rewrite En. cbn [obind]. eexists. split; [done|].
  intros len' rl. destruct (Z.ltb_spec bsz (off + ext2fs_get_rec_len bsz len)); [done|].
  destruct (Z.ltb_spec (ext2fs_get_rec_len bsz len) 8); [done|].
  destruct (Z.eqb_spec (ext2fs_get_rec_len bsz len mod 4) 0); [|done].
  destruct (Z.ltb_spec (ext2fs_get_rec_len bsz len) (nl + 8)); [done|]. cbn [orb negb]. intros [= <- <-].
  split_and!; [|done|done|lia..]. exists len, nl. split_and!; [done|done|cbv zeta; lia..].
Qed.
Lemma walk_skips_total len off entry : 0 ≤ off → off + 8 ≤ bsz →
  ∃ r, walk_skips bsz csum_size flags len off entry buf = Ret r.
Proof.
  intros Ho Hend. unfold walk_skips, de_inode, de_name_len.
  destruct (at_off_total 4 off buf) as (ino & -> & _); [lia..|done|]. cbn [obind]. destruct (negb _); [by eexists|].
  destruct (at_off_total 2 (off + 6) buf) as (nl & -> & _); [lia..|done|]. cbn [obind]. destruct (_ && _); by eexists.
Qed.
Lemma next_offset_total rec_len off next : 0 ≤ off → off + 8 ≤ bsz → 8 ≤ rec_len → off + rec_len ≤ bsz →
  ∃ off' next', next_offset bsz bsz flags rec_len off next buf = Ret (off', next') ∧ off + 8 ≤ off'.
Proof.
  intros Ho Hend Hr Hfit. unfold next_offset. destruct (has flags _); [|eexists _, _; split; [done|lia]].
  destruct (name_len_total off buf) as (nl & -> & ?); [done|lia..|]. cbn [obind].
  destruct (negb _); [|eexists _, _; split; [done|lia]].
  assert (8 ≤ Z.ldiff (nl + 11) 3).
  { change 3 with (Z.ones 2). rewrite Z.ldiff_ones_r, Z.shiftr_div_pow2, Z.shiftl_mul_pow2 by lia.
    change (2 ^ 2) with 4. pose proof (Z.div_mod (nl + 11) 4). pose proof (Z.mod_pos_bound (nl + 11) 4). lia. }
  destruct (skip_invalid_total (tail_fuel bsz) (off + Z.ldiff (nl + 11) 3) (off + rec_len)) as (o & -> & ?); [unfold tail_fuel; lia..|].
  cbn [obind]. eexists _, _. split; [done|]. lia.
Qed.

(** A function that reads the records it is shown, which lie in the block. *)
Context (Hfunc : ∀ entry off p, record_in bsz bsz off buf →
  ∃ r p', func entry off bsz buf p = Ret (r, buf, p') ∧ has r DIRENT_CHANGED = false).

Lemma walk_total fuel : ∀ off next entry p, 0 ≤ off → bsz - off < Z.of_nat fuel → 0 < Z.of_nat fuel →
  ∃ r p', walk bsz bsz csum_size flags func fuel off next entry false buf p = Ret (r, buf, p') ∧
    (r = WalkError EXT2_ET_DIR_CORRUPTED ∨ ∃ ab, r = WalkEnd false ab).
Proof.
  induction fuel as [|fuel IH]; intros off next entry p Ho Hf H0; [lia|]. cbn [walk].
  destruct (Z.leb_spec (bsz - 8) off); [eexists _, _; split; [done|right; by eexists]|].
  destruct (walk_record_total off) as (r & -> & Hrec); [lia..|]. cbn [obind].
  destruct r as [[len rl]|]; [|eexists _, _; split; [done|by left]].
  destruct (Hrec len rl eq_refl) as (Hin & _ & _ & Hrl & Hfit).
  destruct (walk_skips_total len off entry) as [[skip entry'] ->]; [lia..|]. cbn [obind].
  destruct (next_offset_total rl off next) as (off' & next' & En & Hoff); [lia..|].
  destruct skip; [rewrite En; cbn [obind]; apply IH; lia|].
  destruct (Hfunc (if off <? next then DIRENT_DELETED_FILE else entry') off p Hin) as (res & p' & -> & Hch). cbn [obind].
  rewrite Hch. cbn [obind orb]. destruct (has res DIRENT_ABORT); [eexists _, _; split; [done|right; by eexists]|].
  rewrite En. cbn [obind]. apply IH; lia.
Qed.
End Safe.

(** ** The walk and the parser of src/fs.c *)

(** The record at [off] as the parser returns it. *)
Definition entry_at (off : Z) (buf : bytes) : outcome my_dir_entry :=
  let? inode := de_inode off buf in
  let? name_len := ext2fs_dirent_name_len off buf in
  let? word := de_name_len off buf in
  let? name := of_option (slice (off + 8) name_len buf) in
  Ret (MkEntry inode name_len (Z.shiftr word 8) 0 (name ++ [0])).
(** A function that lists the records it is shown. *)
Definition list_entry : dir_func (list my_dir_entry) := fun _ off _ buf es =>
  let? e := entry_at off buf in Ret (0, buf, es ++ [e]).
(** The names but "." and "..", as the parser keeps them. *)
Definition kept_entry (e : my_dir_entry) : Prop := live_name (take (Z.to_nat (name_len e)) (name e)) = true.
#[export] Instance kept_entry_dec e : Decision (kept_entry e).
Proof. unfold kept_entry. apply _. Defined.

Section Agree.
  Context `{Machine} (bsz csum_size : Z) (buf : bytes).
  Context (Hb : Forall is_byte buf) (Hl : zlen buf = bsz) (H64 : bsz < 65536).

Lemma land_65532 n : 0 ≤ n < 65536 → Z.land n 65532 = n / 4 * 4.
Proof.
  intros Hn. change 65532 with (Z.ldiff (Z.ones 16) (Z.ones 2)).
  rewrite Z.ldiff_land, Z.land_assoc, <- Z.ldiff_land, Z.land_ones, Z.mod_small by lia.
  by rewrite Z.ldiff_ones_r, Z.shiftr_div_pow2, Z.shiftl_mul_pow2 by lia.
Qed.
Lemma raw_len_cases raw : 0 ≤ raw < 65536 → raw mod 4 ≠ 0 →
  65536 ≤ Z.lor (Z.land raw 65532) (Z.shiftl (Z.land raw 3) 16).
Proof.
  intros Hr Hm. pose proof (Z.div_mod raw 4). pose proof (Z.mod_pos_bound raw 4).
  rewrite land_65532, Z.shiftl_mul_pow2 by lia. rewrite lor_add_disjoint by lia.
  change 3 with (2 ^ 2 - 1). rewrite land_ones_mod by lia. change (2 ^ 2) with 4. lia.
Qed.

Lemma bool_decide_live (P : Prop) `{Decision P} (b : bool) : (P ↔ b = true) → bool_decide P = b.
Proof. intros E. case_bool_decide; destruct b; tauto || naive_solver. Qed.
Lemma at_off_slice n off b x : slice off (Z.of_nat n) b = Some x → at_off n off b = Ret (le x).
Proof. unfold at_off. by intros ->. Qed.

(** One turn of the parser, by one turn of the walk. *)
Lemma step_by_record off : 0 ≤ off → off + 8 ≤ bsz →
  ∃ r, walk_record bsz bsz off buf = Ret r ∧
    match r with
    | None => ext2_step buf bsz off = Ret DStop
    | Some (len, rl) => ∃ ino e, de_inode off buf = Ret ino ∧ entry_at off buf = Ret e ∧
        ext2_step buf bsz off = Ret (if (ino =? 0) || negb (bool_decide (kept_entry e)) then DSkip rl else DEmit rl e)
    end.
Proof.
  intros Ho Hend.
  destruct (slice_is_Some off 4 buf) as [xi Hi]; [lia..|]. destruct (slice_is_Some (off + 4) 2 buf) as [xl Hx]; [lia..|].
  destruct (slice_is_Some (off + 6) 2 buf) as [xn Hn]; [lia..|].
  destruct (rd_le4_zero _ _ _ (slice_bytes _ _ _ _ Hb Hi) Hi) as (raw_i & Ei & Ei1 & Ei2).
  pose proof (rd_le2 _ _ _ (slice_bytes _ _ _ _ Hb Hx) Hx) as El. apply fmap_Some_inv in El as (raw & El & El1).
  assert (Hxl : 0 ≤ le xl < 65536).
  { pose proof (le_bound xl (slice_bytes _ _ _ _ Hb Hx)) as Hle. rewrite (slice_length _ _ _ _ Hx) in Hle. change (256 ^ Z.of_nat (Z.to_nat 2)) with 65536 in Hle. lia. }
  pose proof (slice_length _ _ _ _ Hn) as Hln. destruct xn as [|nl [|ty [|? ?]]]; try discriminate Hln.
  pose proof (rd8_slice _ _ _ _ 0 nl Hn eq_refl) as E6. rewrite Z.add_0_r in E6.
  pose proof (rd8_slice _ _ _ _ 1 ty Hn eq_refl) as E7. replace (off + 6 + Z.of_nat 1) with (off + 7) in E7 by lia.
  pose proof (slice_bytes _ _ _ _ Hb Hn) as [Hnl [Hty _]%Forall_cons]%Forall_cons. unfold is_byte in Hnl, Hty.
  assert (Enl : ext2fs_dirent_name_len off buf = Ret nl).
  { unfold ext2fs_dirent_name_len, de_name_len. rewrite (at_off_slice 2 _ _ _ Hn). cbn [obind le]. rewrite land_ff.
    f_equal. replace (nl + 256 * (ty + 256 * 0)) with (nl + ty * 256) by lia. by rewrite Z.mod_add, Z.mod_small by lia. }
  unfold walk_record, de_rec_len. rewrite (at_off_slice 2 _ _ _ Hx). cbn [obind]. rewrite Enl. cbn [obind].
  unfold ext2fs_get_rec_len. rewrite (proj2 (Z.ltb_lt bsz 65536)) by done. eexists. split; [done|].
  unfold ext2_step. cbv zeta. rewrite El, Ei. cbn [of_option obind]. rewrite <- El1, Ei1, Ei2. unfold EXT4_MAX_REC_LEN.
  destruct (Z.eqb_spec (le xl) 65535) as [->|N1]; cbn [orb].
  { replace (65535 mod 4 =? 0) with false by done. by rewrite orb_true_r. }
  destruct (Z.eqb_spec (le xl) 0) as [->|N2]; [by rewrite (orb_true_r (bsz <? _))|].
  destruct (Z.eq_dec (le xl mod 4) 0) as [Hm|Hm]; cycle 1.
  { rewrite (proj2 (Z.eqb_neq (le xl mod 4) 0)) by done. rewrite orb_true_r. cbn [orb].
    pose proof (raw_len_cases _ Hxl Hm). rewrite (proj2 (Z.ltb_lt bsz _)) by lia. by rewrite orb_true_r. }
  rewrite rec_len_aligned, Hm by lia. cbn [negb Z.eqb].
  destruct (Z.ltb_spec bsz (off + le xl)) as [|Hfit]; [by rewrite orb_true_r|].
  destruct (Z.ltb_spec (le xl) 8) as [|H8]; [done|]. cbn [orb]. rewrite E6. cbn [obind of_option].
  destruct (Z.ltb_spec (le xl) (nl + 8)) as [|Hname]; [done|].
  destruct (slice_is_Some (off + 8) nl buf) as [nm Hnm]; [lia..|].
  assert (Hlnm : zlen nm = nl) by (rewrite (slice_length _ _ _ _ Hnm); lia).
  exists (le xi), (MkEntry (le xi) nl ty 0 (nm ++ [0])). split; [by apply (at_off_slice 4)|]. split.
  { unfold entry_at, de_inode, de_name_len. rewrite (at_off_slice 4 _ _ _ Hi), (at_off_slice 2 _ _ _ Hn). cbn [obind]. rewrite Enl. cbn [obind]. rewrite Hnm. cbn [of_option obind le].
    do 2 f_equal. rewrite Z.shiftr_div_pow2 by lia. change (2 ^ 8) with 256.
    replace (nl + 256 * (ty + 256 * 0)) with (nl + ty * 256) by lia. by rewrite Z.div_add, Z.div_small by lia. }
  destruct (le xi =? 0); [done|]. rewrite <- Hlnm in Hnm |- *. rewrite (is_dot_field _ _ _ Hnm), (is_dotdot_field _ _ _ Hnm).
  cbn [obind orb]. rewrite E7, Hnm. cbn [of_option obind].
  assert (Hk : bool_decide (kept_entry (MkEntry (le xi) (zlen nm) ty 0 (nm ++ [0]))) = live_name nm).
  { unfold kept_entry. cbn [Prog.name name_len].
    assert (Et : take (Z.to_nat (zlen nm)) (nm ++ [0]) = nm) by (rewrite Nat2Z.id; apply take_app_length).
    apply bool_decide_live. by rewrite Et. }
  rewrite Hk. unfold live_name. destruct (bool_decide (nm = [46])); [done|]. destruct (bool_decide (nm = [46; 46])); [done|].
  cbn [orb]. destruct (Z.eqb_spec (zlen nm) 0) as [Hz|Hz].
  - rewrite bool_decide_true; [done|]. destruct nm; [done|]. simpl in Hz. lia.
  - rewrite bool_decide_false; [done|]. intros E. by rewrite E in Hz.
Qed.

Lemma walk_scan fuel : ∀ off next entry es, 0 ≤ off → bsz - off < Z.of_nat fuel → 0 < Z.of_nat fuel →
  ∃ r es', walk bsz bsz csum_size 0 list_entry fuel off next entry false buf es = Ret (r, buf, es ++ es') ∧
    dir_scan fuel (ext2_step buf bsz) (bsz - 8) off = Ret (filter kept_entry es').
Proof.
  induction fuel as [|fuel IH]; intros off next entry es Ho Hf H0; [lia|]. cbn [walk dir_scan].
  destruct (Z.leb_spec (bsz - 8) off) as [Hge|Hlt].
  { rewrite (proj2 (Z.ltb_ge off (bsz - 8))) by lia. eexists _, []. rewrite app_nil_r. split; done. }
  rewrite (proj2 (Z.ltb_lt off (bsz - 8))) by lia. destruct (step_by_record off) as (r & Er & Hstep); [lia..|].
  destruct (walk_record_total bsz buf Hb Hl off) as (r' & Er' & Hrec); [lia..|].
  rewrite Er in Er'. injection Er' as <-. rewrite Er. cbn [obind].
  destruct r as [[len rl]|]; cycle 1.
  { rewrite Hstep. eexists _, []. rewrite app_nil_r. split; done. }
  destruct (Hrec len rl eq_refl) as (_ & _ & _ & Hrl & _). destruct Hstep as (ino & e & Ei & Ee & ->).
  assert (Hs : walk_skips bsz csum_size 0 len off entry buf = Ret (ino =? 0, entry)).
  { unfold walk_skips. rewrite Ei. cbn [obind]. destruct (ino =? 0) eqn:E0; [|done]. cbn [negb].
    unfold de_name_len. destruct (at_off_total 2 (off + 6) buf) as (nl & -> & _); [lia..|done|]. cbn [obind].
    by destruct (_ && _). }
  rewrite Hs. cbn [obind]. unfold next_offset. change (has 0 DIRENT_FLAG_INCLUDE_REMOVED) with false. cbn [obind].
  destruct (ino =? 0); cbn [orb].
  { edestruct (IH (off + rl)) as (r' & es' & Hw & Hd); [lia..|]. rewrite Hw, Hd. by exists r', es'. }
  unfold list_entry at 1. rewrite Ee. cbn [obind orb]. change (has 0 DIRENT_CHANGED) with false.
  change (has 0 DIRENT_ABORT) with false. cbn [obind].
  edestruct (IH (off + rl)) as (r' & es' & Hw & Hd); [lia..|]. rewrite Hw. exists r', (e :: es').
  rewrite <- app_assoc. split; [done|]. case_bool_decide as Hk; cbn [negb]; rewrite Hd.
  - by rewrite filter_cons_True.
  - by rewrite filter_cons_False.
Qed.
End Agree.

(** ** Records on the disk *)

(** A record by its fields; [word] holds the length of the name and the type. *)
Definition raw_rec (ino len word : Z) (body : bytes) : bytes :=
  le_split 4 ino ++ le_split 2 len ++ le_split 2 word ++ body.
Definition name_word (len type : Z) : Z := len + 256 * type.

Lemma raw_rec_length ino len word body : zlen (raw_rec ino len word body) = 8 + zlen body.
Proof. unfold raw_rec. rewrite !length_app, !le_split_length. lia. Qed.
Lemma encode_raw r : ext2_rec_wf r →
  ext2_encode r = raw_rec (r_inode r) (rec_size r) (name_word (zlen (r_name r)) (r_type r)) (r_name r ++ r_slack r).
Proof.
  intros (_ & Ht & _ & _ & Hn & _). unfold is_byte in Ht. unfold ext2_encode, raw_rec, name_word. do 2 f_equal.
  change (le_split 2 ?v ++ ?l) with (v mod 256 :: v / 256 mod 256 :: l).
  replace (zlen (r_name r) + 256 * r_type r) with (zlen (r_name r) + r_type r * 256) by lia.
  rewrite Z.mod_add, Z.mod_small, Z.div_add, Z.div_small, Z.add_0_l, Z.mod_small by lia. done.
Qed.
Lemma raw_rec_bytes ino len word body : Forall is_byte body → Forall is_byte (raw_rec ino len word body).
Proof. intros. unfold raw_rec. repeat apply Forall_app_2; done || apply le_split_bytes. Qed.
Lemma encode_bytes r : ext2_rec_wf r → Forall is_byte (ext2_encode r).
Proof.
  intros Hr. rewrite encode_raw by done. destruct Hr as (_ & _ & ? & ? & _). apply raw_rec_bytes. by apply Forall_app_2.
Qed.
(** A record from its fields, the name being the first bytes of its body. *)
Lemma raw_encode ino type nm slack : is_byte type → zlen nm < 256 →
  raw_rec ino (8 + zlen (nm ++ slack)) (name_word (zlen nm) type) (nm ++ slack) = ext2_encode (MkExt2Rec ino type nm slack).
Proof.
  intros Ht Hn. unfold is_byte in Ht. unfold ext2_encode, raw_rec, name_word, rec_size. simpl r_inode. simpl r_name. simpl r_slack.
  rewrite length_app, Nat2Z.inj_add, Z.add_assoc. do 2 f_equal.
  change (le_split 2 ?v ++ ?l) with (v mod 256 :: v / 256 mod 256 :: l). simpl r_type.
  replace (zlen nm + 256 * type) with (zlen nm + type * 256) by lia.
  rewrite Z.mod_add, Z.mod_small, Z.div_add, Z.div_small, Z.add_0_l, Z.mod_small by lia. done.
Qed.
(** Any eight bytes are the header of some record. *)
Lemma raw_of_bytes x : Forall is_byte x → (8 <= length x)%nat →
  ∃ ino len lo hi, x = raw_rec ino len (name_word lo hi) (drop 8 x) ∧ 0 ≤ lo < 256 ∧ is_byte hi.
Proof.
  intros Hb Hl. destruct x as [|c0 [|c1 [|c2 [|c3 [|c4 [|c5 [|c6 [|c7 x]]]]]]]]; try (simpl in Hl; lia).
  rewrite !Forall_cons in Hb. exists (le [c0; c1; c2; c3]), (le [c4; c5]), c6, c7. unfold raw_rec.
  replace (name_word c6 c7) with (le [c6; c7]) by (unfold name_word; simpl; lia).
  pose proof (le_split_le [c0; c1; c2; c3] ltac:(bytes_list)) as E1. pose proof (le_split_le [c4; c5] ltac:(bytes_list)) as E2.
  pose proof (le_split_le [c6; c7] ltac:(bytes_list)) as E3. cbn [length] in E1, E2, E3. rewrite E1, E2, E3.
  split; [done|]. split; [apply Hb|apply Hb].
Qed.

(** *** Its fields, read and written *)
Section Raw.
  Context (pre post : bytes) (ino len lo hi : Z) (body : bytes).
  Context (Hi : 0 ≤ ino < 2 ^ 32) (Hlen : 0 ≤ len < 65536) (Hlo : 0 ≤ lo < 256) (Hhi : 0 ≤ hi < 256).
  Abbreviation buf := (pre ++ raw_rec ino len (name_word lo hi) body ++ post).

Lemma raw_inode : de_inode (zlen pre) buf = Ret ino.
Proof.
  unfold de_inode. rewrite (at_off_slice 4 _ _ (le_split 4 ino)); [by rewrite (le_le_split 4) by done|].
  apply (slice_field pre _ (le_split 2 len ++ le_split 2 (name_word lo hi) ++ body ++ post)); [|done..].
  unfold raw_rec. by rewrite <- !app_assoc.
Qed.
Lemma raw_len : de_rec_len (zlen pre) buf = Ret len.
Proof.
  unfold de_rec_len. rewrite (at_off_slice 2 _ _ (le_split 2 len)); [by rewrite (le_le_split 2) by (change (256 ^ Z.of_nat 2) with 65536; lia)|].
  apply (slice_field (pre ++ le_split 4 ino) _ (le_split 2 (name_word lo hi) ++ body ++ post)); [|rewrite length_app, le_split_length; lia|done].
  unfold raw_rec. by rewrite <- !app_assoc.
Qed.
Lemma raw_word : de_name_len (zlen pre) buf = Ret (name_word lo hi).
Proof.
  unfold de_name_len. rewrite (at_off_slice 2 _ _ (le_split 2 (name_word lo hi))); [by rewrite (le_le_split 2) by (change (256 ^ Z.of_nat 2) with 65536; unfold name_word; lia)|].
  apply (slice_field (pre ++ le_split 4 ino ++ le_split 2 len) _ (body ++ post)); [|rewrite !length_app, !le_split_length; lia|done].
  unfold raw_rec. by rewrite <- !app_assoc.
Qed.
Lemma word_lo : Z.land (name_word lo hi) 0xff = lo.
Proof. rewrite land_ff. unfold name_word. replace (lo + 256 * hi) with (lo + hi * 256) by lia. by rewrite Z.mod_add, Z.mod_small. Qed.
Lemma raw_name_len : ext2fs_dirent_name_len (zlen pre) buf = Ret lo.
Proof. unfold ext2fs_dirent_name_len. rewrite raw_word. cbn [obind]. by rewrite word_lo. Qed.

Lemma put_inode v : put_at 4 (zlen pre) v buf = Ret (pre ++ raw_rec v len (name_word lo hi) body ++ post).
Proof.
  unfold raw_rec. rewrite put_at_run by (rewrite ?length_app, ?le_split_length; lia).
  rewrite <- !app_assoc, set_fld_parts; [done|lia|apply le_split_length].
Qed.
Lemma put_len v : put_at 2 (zlen pre + 4) v buf = Ret (pre ++ raw_rec ino v (name_word lo hi) body ++ post).
Proof.
  unfold raw_rec. rewrite put_at_run by (rewrite ?length_app, ?le_split_length; lia).
  rewrite <- !app_assoc, (app_assoc pre), set_fld_parts; [by rewrite <- !app_assoc|rewrite length_app, le_split_length; lia|apply le_split_length].
Qed.
Lemma put_word v : put_at 2 (zlen pre + 6) v buf = Ret (pre ++ raw_rec ino len v body ++ post).
Proof.
  unfold raw_rec. rewrite put_at_run by (rewrite ?length_app, ?le_split_length; lia).
  rewrite <- !app_assoc, (app_assoc (le_split 4 ino)), (app_assoc pre), set_fld_parts;
    [by rewrite <- !app_assoc|rewrite !length_app, !le_split_length; lia|apply le_split_length].
Qed.
Lemma set_name_len_raw n : 0 ≤ n < 256 → ext2fs_dirent_set_name_len (zlen pre) n buf =
  Ret (pre ++ raw_rec ino len (name_word n hi) body ++ post).
Proof.
  intros Hn. unfold ext2fs_dirent_set_name_len. rewrite raw_word. cbn [obind]. rewrite put_word. do 3 f_equal.
  change 0xff00 with (255 * 2 ^ 8). rewrite land_byte_mask, land_ff, (Z.mod_small n) by lia. unfold name_word. change (2 ^ 8) with 256.
  replace (lo + 256 * hi) with (lo + hi * 256) by lia. rewrite Z.div_add, Z.div_small, Z.add_0_l, Z.mod_small by lia.
  rewrite Z.lor_comm. change (hi * 256) with (hi * 2 ^ 8). rewrite lor_add_disjoint by lia. f_equal. lia.
Qed.
Lemma set_file_type_raw t : 0 ≤ t < 256 → ext2fs_dirent_set_file_type (zlen pre) t buf =
  Ret (pre ++ raw_rec ino len (name_word lo t) body ++ post).
Proof.
  intros Ht. unfold ext2fs_dirent_set_file_type. rewrite raw_word. cbn [obind]. rewrite word_lo, put_word. do 3 f_equal.
  rewrite Z.shiftl_mul_pow2 by lia. rewrite lor_add_disjoint by lia. unfold name_word. f_equal. lia.
Qed.
End Raw.

Lemma raw_body pre ino len word body post n : n ≤ zlen body → 0 ≤ n →
  slice (zlen pre + 8) n (pre ++ raw_rec ino len word body ++ post) = Some (take (Z.to_nat n) body).
Proof.
  intros Hn H0. apply (slice_field (pre ++ le_split 4 ino ++ le_split 2 len ++ le_split 2 word) _ (drop (Z.to_nat n) body ++ post)).
  - unfold raw_rec. rewrite <- !app_assoc. by rewrite (app_assoc (take _ _)), take_drop.
  - rewrite !length_app, !le_split_length. lia.
  - rewrite length_take. lia.
Qed.
Lemma put_body pre ino len word body post x : zlen x ≤ zlen body →
  put_bytes (zlen pre + 8) x (pre ++ raw_rec ino len word body ++ post) =
    Ret (pre ++ raw_rec ino len word (x ++ drop (length x) body) ++ post).
Proof.
  intros Hx. unfold put_bytes. rewrite bool_decide_eq_true_2 by (rewrite !length_app, !Nat2Z.inj_add, raw_rec_length; lia).
  set (h := pre ++ le_split 4 ino ++ le_split 2 len ++ le_split 2 word).
  assert (Hh : zlen pre + 8 = zlen h) by (unfold h; rewrite !length_app, !le_split_length; lia).
  replace (pre ++ raw_rec ino len word body ++ post) with (h ++ body ++ post) by (unfold h, raw_rec; by rewrite <- !app_assoc).
  rewrite Hh, Nat2Z.id, take_app_length, <- drop_drop, drop_app_length, drop_app_le by lia.
  f_equal. unfold h, raw_rec. by rewrite <- !app_assoc.
Qed.
Lemma store_len bsz pre ino len lo hi body post v : 0 ≤ v ≤ bsz → bsz < 65536 → v mod 4 = 0 →
  store_rec_len bsz (zlen pre) v (pre ++ raw_rec ino len (name_word lo hi) body ++ post) =
    Ret (inr (pre ++ raw_rec ino v (name_word lo hi) body ++ post)).
Proof.
  intros Hv Hbs Hm. unfold store_rec_len, ext2fs_set_rec_len.
  rewrite (proj2 (Z.ltb_ge bsz v)) by lia. change (Z.shiftl 1 18) with 262144. rewrite (proj2 (Z.ltb_ge _ bsz)) by lia.
  change 3 with (Z.ones 2). rewrite Z.land_ones by lia. change (2 ^ 2) with 4. rewrite Hm. cbn [orb negb Z.eqb].
  rewrite (proj2 (Z.ltb_lt v 65536)) by lia. by rewrite put_len.
Qed.

(** *** Records of a block *)
Lemma block_cons r rest : ext2_block (r :: rest) = ext2_encode r ++ ext2_block rest.
Proof. done. Qed.
Lemma block_app rs rs' : ext2_block (rs ++ rs') = ext2_block rs ++ ext2_block rs'.
Proof. unfold ext2_block. by rewrite fmap_app, concat_app. Qed.
Lemma block_size r rest : zlen (ext2_block (r :: rest)) = rec_size r + zlen (ext2_block rest).
Proof. rewrite block_cons, length_app, Nat2Z.inj_add, ext2_encode_length. done. Qed.
Lemma block_bytes rs : Forall ext2_rec_wf rs → Forall is_byte (ext2_block rs).
Proof. induction 1; [done|]. rewrite block_cons. by apply Forall_app_2; [apply encode_bytes|]. Qed.
Lemma rec_size_pos r : 8 ≤ rec_size r.
Proof. unfold rec_size. lia. Qed.

Section RecAt.
  Context (pre : bytes) (r : ext2_rec) (rest : list ext2_rec) (Hr : ext2_rec_wf r).
  Abbreviation buf := (pre ++ ext2_block (r :: rest)).

Lemma rec_bounds : 0 ≤ r_inode r < 2 ^ 32 ∧ 0 ≤ rec_size r < 65536 ∧ 0 ≤ zlen (r_name r) < 256 ∧ 0 ≤ r_type r < 256.
Proof. destruct Hr as (? & Ht & _ & _ & ? & _ & ?). unfold is_byte in Ht. pose proof (rec_size_pos r). lia. Qed.
Lemma rec_inode : de_inode (zlen pre) buf = Ret (r_inode r).
Proof. destruct rec_bounds as (? & ? & ? & ?). rewrite block_cons, encode_raw by done. by apply raw_inode. Qed.
Lemma rec_len_at : de_rec_len (zlen pre) buf = Ret (rec_size r).
Proof. destruct rec_bounds as (? & ? & ? & ?). rewrite block_cons, encode_raw by done. by apply raw_len. Qed.
Lemma rec_word : de_name_len (zlen pre) buf = Ret (name_word (zlen (r_name r)) (r_type r)).
Proof. destruct rec_bounds as (? & ? & ? & ?). rewrite block_cons, encode_raw by done. by apply raw_word. Qed.
Lemma rec_name_len : ext2fs_dirent_name_len (zlen pre) buf = Ret (zlen (r_name r)).
Proof. destruct rec_bounds as (? & ? & ? & ?). rewrite block_cons, encode_raw by done. by apply raw_name_len. Qed.
Lemma rec_name : slice (zlen pre + 8) (zlen (r_name r)) buf = Some (r_name r).
Proof.
  rewrite block_cons, encode_raw, raw_body by (done || rewrite ?length_app; lia).
  by rewrite Nat2Z.id, take_app_length.
Qed.
Lemma rec_same_name nm : same_name nm (zlen pre) buf = Ret (bool_decide (r_name r = nm)).
Proof.
  unfold same_name. rewrite rec_name_len. cbn [obind]. destruct (Z.eqb_spec (zlen (r_name r)) (zlen nm)) as [|Hne]; cbn [negb].
  - by rewrite rec_name.
  - rewrite bool_decide_eq_false_2; [done|]. by intros <-.
Qed.

(** The walk accepts it. *)
Lemma rec_walk bsz : bsz < 65536 → zlen buf = bsz →
  walk_record bsz bsz (zlen pre) buf = Ret (Some (rec_size r, rec_size r)).
Proof.
  intros H64 Hl. rewrite length_app, Nat2Z.inj_add, block_size in Hl. unfold walk_record. rewrite rec_len_at. cbn [obind].
  rewrite rec_name_len. cbn [obind]. unfold ext2fs_get_rec_len. rewrite (proj2 (Z.ltb_lt bsz 65536)) by done.
  pose proof (rec_size_pos r). rewrite (proj2 (Z.ltb_ge bsz _)), (proj2 (Z.ltb_ge _ 8)) by lia.
  destruct Hr as (_ & _ & _ & _ & _ & -> & _). rewrite (proj2 (Z.ltb_ge (rec_size r) _)) by (unfold rec_size; lia). done.
Qed.
End RecAt.

(** The entry that holds the checksum. *)
Definition is_tail (r : ext2_rec) : Prop :=
  r_inode r = 0 ∧ r_name r = [] ∧ r_type r = 0xDE ∧ rec_size r = 12.

(** Whether the walk leaves a record of a block with [csum_size] bytes of checksum out. *)
Definition left_out (bsz csum_size flags off : Z) (r : ext2_rec) : bool :=
  (r_inode r =? 0) &&
  (if (off =? bsz - csum_size) && (rec_size r =? csum_size) && (name_word (zlen (r_name r)) (r_type r) =? EXT2_DIR_NAME_LEN_CSUM)
   then true else negb (has flags DIRENT_FLAG_INCLUDE_EMPTY)).
Lemma rec_skips bsz csum_size flags pre r rest entry : ext2_rec_wf r →
  has flags DIRENT_FLAG_INCLUDE_CSUM = false → has flags DIRENT_FLAG_INCLUDE_INLINE_DATA = false →
  walk_skips bsz csum_size flags (rec_size r) (zlen pre) entry (pre ++ ext2_block (r :: rest)) =
    Ret (left_out bsz csum_size flags (zlen pre) r, entry).
Proof.
  intros Hr Hc Hi. unfold walk_skips, left_out. rewrite rec_inode by done. cbn [obind].
  destruct (r_inode r =? 0); [|done]. cbn [negb andb]. rewrite rec_word by done. cbn [obind]. rewrite Hi, Hc. cbn [negb andb].
  by destruct (_ && _).
Qed.

(** ** EXT2_DIR_REC_LEN *)
Lemma dir_rec_len n : 0 ≤ n < 256 → let m := EXT2_DIR_REC_LEN n in n + 8 ≤ m ≤ n + 11 ∧ m mod 4 = 0.
Proof.
  intros Hn. unfold EXT2_DIR_REC_LEN, u8. rewrite Z.mod_small by lia. change 3 with (Z.ones 2) at 2 4 6.
  rewrite Z.ldiff_ones_r, Z.shiftr_div_pow2, Z.shiftl_mul_pow2 by lia. change (2 ^ 2) with 4. cbv zeta.
  pose proof (Z.div_mod (n + 8 + 3) 4). pose proof (Z.mod_pos_bound (n + 8 + 3) 4). split; [lia|]. apply Z.mod_mul. lia.
Qed.

(** ** What a block lists: name, inode and type of the records in use *)
Definition dentry : Type := (bytes * Z * Z)%type.
Definition dentry_of (r : ext2_rec) : dentry := (r_name r, r_inode r, r_type r).
Definition used (r : ext2_rec) : Prop := r_inode r ≠ 0.
Definition listing (rs : list ext2_rec) : list dentry := dentry_of <$> filter used rs.
Lemma listing_cons r rs : listing (r :: rs) = if r_inode r =? 0 then listing rs else dentry_of r :: listing rs.
Proof.
  unfold listing, used. destruct (Z.eqb_spec (r_inode r) 0) as [E|E].
  - by rewrite filter_cons_False by lia.
  - by rewrite filter_cons_True by lia.
Qed.
Lemma listing_app rs rs' : listing (rs ++ rs') = listing rs ++ listing rs'.
Proof. unfold listing. by rewrite filter_app, fmap_app. Qed.

(** ** One turn of the walk over records *)
Section Turn.
  Context {P : Type} (bsz csum_size flags : Z) (func : dir_func P).
  Context (H64 : bsz < 65536) (Hc : has flags DIRENT_FLAG_INCLUDE_CSUM = false)
    (Hi : has flags DIRENT_FLAG_INCLUDE_INLINE_DATA = false) (Hrem : has flags DIRENT_FLAG_INCLUDE_REMOVED = false).
  Abbreviation walk_ := (walk bsz bsz csum_size flags func).

Lemma walk_over fuel off next entry ch buf p : bsz - 8 ≤ off →
  walk_ (S fuel) off next entry ch buf p = Ret (WalkEnd ch false, buf, p).
Proof. intros Ho. cbn [walk]. by rewrite (proj2 (Z.leb_le _ _)). Qed.
Lemma walk_left_out fuel pre r rest next entry ch p : ext2_rec_wf r → zlen (pre ++ ext2_block (r :: rest)) = bsz →
  zlen pre < bsz - 8 → left_out bsz csum_size flags (zlen pre) r = true →
  ∃ next', walk_ (S fuel) (zlen pre) next entry ch (pre ++ ext2_block (r :: rest)) p =
    walk_ fuel (zlen pre + rec_size r) next' entry ch (pre ++ ext2_block (r :: rest)) p.
Proof.
  intros Hr Hl Hin Ho. cbn [walk]. rewrite (proj2 (Z.leb_gt (bsz - 8) (zlen pre))), rec_walk by done. cbn [obind].
  rewrite rec_skips by done. cbn [obind]. rewrite Ho. unfold next_offset. rewrite Hrem. cbn [obind]. by eexists.
Qed.
Lemma walk_shown fuel pre r rest next entry ch p result buf' p' rec_len : ext2_rec_wf r →
  zlen (pre ++ ext2_block (r :: rest)) = bsz → zlen pre < bsz - 8 → left_out bsz csum_size flags (zlen pre) r = false →
  (∀ kind, func kind (zlen pre) bsz (pre ++ ext2_block (r :: rest)) p = Ret (result, buf', p')) →
  (if has result DIRENT_CHANGED then de_rec_len (zlen pre) buf' = Ret rec_len else rec_len = rec_size r) →
  ∃ next' entry', walk_ (S fuel) (zlen pre) next entry ch (pre ++ ext2_block (r :: rest)) p =
    if has result DIRENT_ABORT then Ret (WalkEnd (ch || has result DIRENT_CHANGED) true, buf', p')
    else walk_ fuel (zlen pre + rec_len) next' entry' (ch || has result DIRENT_CHANGED) buf' p'.
Proof.
  intros Hr Hl Hin Ho Hf Hlen. cbn [walk]. rewrite (proj2 (Z.leb_gt (bsz - 8) (zlen pre))), rec_walk by done. cbn [obind].
  rewrite rec_skips by done. cbn [obind]. rewrite Ho, Hf. cbn [obind]. unfold ext2fs_get_rec_len. rewrite (proj2 (Z.ltb_lt bsz 65536)) by done.
  destruct (has result DIRENT_CHANGED); [rewrite Hlen|subst rec_len]; cbn [obind]; (destruct (has result DIRENT_ABORT); [by exists next, entry|]);
    unfold next_offset; rewrite Hrem; cbn [obind]; by eexists _, _.
Qed.
End Turn.

(** ** Properties *)

(** C6. Whatever the bytes of a block, the walk and the parser of src/fs.c see the same records:
    in blocks of less than 64 KiB, the parser returns exactly the entries that the walk, with
    no flag, shows to its function before it ends or finds the block corrupted, "." and ".."
    and empty names left out.  Both end and read no byte outside of the block. *)
Theorem dir_walk_agrees `{Machine} fs buf :
  f_blocksize fs < 65536 → Forall is_byte buf → zlen buf = f_blocksize fs →
  ∃ r es, walk_block fs 0 list_entry buf [] = Ret (r, buf, es) ∧
    dir_scan (dir_fuel (f_blocksize fs)) (ext2_step buf (f_blocksize fs)) (f_blocksize fs - 8) 0 = Ret (filter kept_entry es).
Proof.
  intros H64 Hb Hl. unfold walk_block.
  destruct (walk_scan (f_blocksize fs) (if has_feature_metadata_csum (f_super fs) then sizeof_dir_entry_tail else 0) buf Hb Hl H64
    (tail_fuel (f_blocksize fs)) 0 0 DIRENT_DOT_FILE []) as (r & es & E & Es); [lia|unfold tail_fuel; lia..|].
  exists r, es. split; [exact E|exact Es].
Qed.

(** C27. Whatever the bytes of a block, with any flags, deleted records included, the walk ends and
    shows its function only records that lie in the block, their names in them: a function
    that reads such records without fault makes the walk one that does, and the block is
    either walked or found corrupted. *)
Theorem dir_walk_safe {P} fs flags (func : dir_func P) buf p :
  Forall is_byte buf → zlen buf = f_blocksize fs →
  (∀ kind off p, record_in (f_blocksize fs) (f_blocksize fs) off buf →
     ∃ r p', func kind off (f_blocksize fs) buf p = Ret (r, buf, p') ∧ has r DIRENT_CHANGED = false) →
  ∃ r p', walk_block fs flags func buf p = Ret (r, buf, p') ∧
    (r = WalkError EXT2_ET_DIR_CORRUPTED ∨ ∃ abort, r = WalkEnd false abort).
Proof.
  intros Hb Hl Hf. unfold walk_block. apply walk_total; [done|done|done|lia|unfold tail_fuel; lia..].
Qed.

(** ** Examples *)

(** A block that is full of names of eight bytes. *)
Definition full_block : list ext2_rec := replicate 64 (MkExt2Rec 12 1 (bs "modprobe") []).
Lemma dir_walk_agrees_witness :
  ∃ r es, walk_block (inode_fs 0x400 1) 0 list_entry (ext2_block full_block) [] = Ret (r, ext2_block full_block, es) ∧ length es = 64%nat ∧
    dir_scan (dir_fuel 1024) (ext2_step (H := small_machine) (ext2_block full_block) 1024) (1024 - 8) 0 = Ret (filter kept_entry es).
Proof.
  destruct (dir_walk_agrees (H := small_machine) (inode_fs 0x400 1) (ext2_block full_block)) as (r & es & E & Es).
  - reflexivity.
  - apply (bool_decide_eq_true_1 _). vm_compute. reflexivity.
  - vm_compute. reflexivity.
  - assert (Eo : match walk_block (inode_fs 0x400 1) 0 list_entry (ext2_block full_block) [] with
                 | Ret (_, _, es) => length es = 64%nat | _ => False end) by (vm_compute; reflexivity).
    rewrite E in Eo. exists r, es. split; [exact E|]. split; [exact Eo|exact Es].
Defined.

(** In blocks of 64 KiB the parser stops at a record that fills its block, which the walk shows. *)
Definition wide_fs : ext2_filsys := MkFilsys 1 (inode_super 0) 65536 1 1 None 1 0 None None 0 0 77 None.
Definition wide_block : bytes := ext2_encode (MkExt2Rec 12 1 (bs "a.ko") []) ++ replicate 65524 0.
Lemma wide_record_lost :
  let buf := set_fld 2 4 65535 wide_block in
  (let? '(_, _, es) := walk_block wide_fs 0 list_entry buf [] in Ret (name <$> es)) = Ret [bs "a.ko" ++ [0]] ∧
  dir_scan (dir_fuel 65536) (ext2_step (H := small_machine) buf 65536) (65536 - 8) 0 = Ret [].
Proof. split; vm_compute; reflexivity. Qed.

(** Deleted records are shown when asked for. *)
Definition deleted_block : bytes :=
  ext2_block [MkExt2Rec 12 1 (bs "a") ([0; 0; 0] ++ ext2_encode (MkExt2Rec 13 1 (bs "gone") [])); MkExt2Rec 14 1 (bs "b") (replicate 991 0)].
Example deleted_shown :
  (let? '(_, _, es) := walk_block (inode_fs 0 1) DIRENT_FLAG_INCLUDE_REMOVED list_entry deleted_block [] in Ret (name <$> es)) = Ret [bs "a" ++ [0]; bs "gone" ++ [0]; bs "b" ++ [0]].
Proof. vm_compute. reflexivity. Qed.

Lemma list_entry_reads fs buf kind off es : Forall is_byte buf → zlen buf = f_blocksize fs →
  record_in (f_blocksize fs) (f_blocksize fs) off buf →
  ∃ r es', list_entry kind off (f_blocksize fs) buf es = Ret (r, buf, es') ∧ has r DIRENT_CHANGED = false.
Proof.
  intros Hb Hl (len & nl & _ & En & Ho & Hn & Hr & _ & Hend). unfold list_entry, entry_at, de_inode, de_name_len.
  destruct (at_off_total 4 off buf) as (i & -> & _); [lia..|done|]. destruct (at_off_total 2 (off + 6) buf) as (w & -> & _); [lia..|done|].
  rewrite En. cbn [obind]. destruct (slice_is_Some (off + 8) nl buf) as [x ->]; [lia..|]. cbn [of_option obind].
  eexists _, _. split; done.
Qed.
Lemma dir_walk_safe_witness :
  ∃ r es, walk_block (inode_fs 0 1) DIRENT_FLAG_INCLUDE_REMOVED list_entry deleted_block [] = Ret (r, deleted_block, es) ∧
    (r = WalkError EXT2_ET_DIR_CORRUPTED ∨ ∃ abort, r = WalkEnd false abort).
Proof.
  assert (Hb : Forall is_byte deleted_block) by (apply (bool_decide_eq_true_1 _); vm_compute; reflexivity).
  apply (dir_walk_safe (inode_fs 0 1) DIRENT_FLAG_INCLUDE_REMOVED list_entry deleted_block []).
  - exact Hb.
  - vm_compute. reflexivity.
  - intros kind off es Hin. apply (list_entry_reads (inode_fs 0 1)); [exact Hb|vm_compute; reflexivity|exact Hin].
Defined.
