(* ===== verification/DirLink.v ===== *)
(** * Names added to and removed from blocks of directories

    The functions of link.c, unlink.c and lookup.c on a block of well-formed records: a block
    refines a list of entries. *)
From S2P Require Export DirIter.
#[local] Open Scope Z_scope.

(** ** Linking *)
(** The record [r] with the next one as its slack. *)
Definition merge (r r2 : ext2_rec) : ext2_rec :=
  MkExt2Rec (r_inode r) (r_type r) (r_name r) (r_slack r ++ ext2_encode r2).
Lemma merge_size r r2 : rec_size (merge r r2) = rec_size r + rec_size r2.
Proof.
  unfold merge. unfold rec_size at 1 2. cbn [r_name r_slack]. rewrite length_app, Nat2Z.inj_add, ext2_encode_length. lia.
Qed.
Lemma merge_wf r r2 : ext2_rec_wf r → ext2_rec_wf r2 → rec_size r + rec_size r2 < 65535 → ext2_rec_wf (merge r r2).
Proof.
  intros H1 H2 Hs. pose proof (encode_bytes _ H2). destruct H1 as (? & ? & ? & ? & ? & E1 & ?).
  destruct H2 as (_ & _ & _ & _ & _ & E2 & _). unfold ext2_rec_wf. rewrite merge_size. cbn [merge r_inode r_type r_name r_slack]. split_and!; try first [done|lia].
  - by apply Forall_app_2.
  - by rewrite Z.add_mod, E1, E2.
Qed.
(** A record whose length covers the next one. *)
Lemma merge_raw r r2 : ext2_rec_wf r → 
  raw_rec (r_inode r) (rec_size r + rec_size r2) (name_word (zlen (r_name r)) (r_type r)) (r_name r ++ r_slack r) ++ ext2_encode r2
  = ext2_encode (merge r r2).
Proof.
  intros (_ & Ht & _ & _ & Hn & _). unfold merge. rewrite <- raw_encode by done. unfold raw_rec. rewrite <- !app_assoc.
  do 3 f_equal.
  rewrite !length_app, !Nat2Z.inj_add, ext2_encode_length. unfold rec_size at 1. lia.
Qed.

Section LinkSpec.
  Context (fs : ext2_filsys) (nm : bytes) (ino fl : Z).
  Abbreviation bsz := (f_blocksize fs).
  Context (Hbs : bsz < 65536).
  Context (Hnm : Forall is_byte nm) (Hnml : 1 ≤ zlen nm < 256) (Hino : 0 < ino < 2 ^ 32).
  Abbreviation csum := (if has_feature_metadata_csum (f_super fs) then sizeof_dir_entry_tail else 0).
  Abbreviation need := (EXT2_DIR_REC_LEN (zlen nm)).

Lemma store_merge pre r r2 rest : ext2_rec_wf r → ext2_rec_wf r2 → rec_size r + rec_size r2 ≤ bsz →
  store_rec_len bsz (zlen pre) (rec_size r + rec_size r2) (pre ++ ext2_block (r :: r2 :: rest)) =
    Ret (inr (pre ++ ext2_block (merge r r2 :: rest))).
Proof.
  intros Hr H2 Hs. destruct (rec_bounds r Hr) as (? & ? & ? & ?). pose proof (rec_size_pos r). pose proof (rec_size_pos r2).
  rewrite !block_cons, encode_raw by done. rewrite store_len; [|lia|done|].
  - by rewrite <- merge_raw, <- app_assoc.
  - destruct Hr as (_ & _ & _ & _ & _ & E1 & _), H2 as (_ & _ & _ & _ & _ & E2 & _). by rewrite Z.add_mod, E1, E2.
Qed.

Lemma absorb_spec pre r rest : Forall ext2_rec_wf (r :: rest) → zlen (pre ++ ext2_block (r :: rest)) = bsz →
  absorb_next fs (zlen pre) bsz (rec_size r) (pre ++ ext2_block (r :: rest)) = Ret (inr (0, rec_size r, pre ++ ext2_block (r :: rest))) ∨
  ∃ r2 rest2, rest = r2 :: rest2 ∧ r_inode r2 = 0 ∧ zlen pre + rec_size r < bsz - (8 + csum) ∧
    absorb_next fs (zlen pre) bsz (rec_size r) (pre ++ ext2_block (r :: rest)) =
      Ret (inr (DIRENT_CHANGED, rec_size (merge r r2), pre ++ ext2_block (merge r r2 :: rest2))).
Proof.
  intros [Hr Hrest]%Forall_cons Hl. unfold absorb_next.
  destruct (Z.ltb_spec (zlen pre + rec_size r) (bsz - (8 + csum))) as [Hlt|]; cbn [negb]; [|by left].
  rewrite length_app, Nat2Z.inj_add, block_size in Hl.
  destruct rest as [|r2 rest]; [simpl in Hl; unfold sizeof_dir_entry_tail in Hlt; destruct (has_feature_metadata_csum _); lia|].
  apply Forall_cons in Hrest as [H2 Hrest].
  assert (E : pre ++ ext2_block (r :: r2 :: rest) = (pre ++ ext2_encode r) ++ ext2_block (r2 :: rest)) by (by rewrite <- app_assoc).
  assert (Ez : zlen pre + rec_size r = zlen (pre ++ ext2_encode r)) by (by rewrite length_app, Nat2Z.inj_add, ext2_encode_length).
  assert (Ei : de_inode (zlen pre + rec_size r) (pre ++ ext2_block (r :: r2 :: rest)) = Ret (r_inode r2))
    by (rewrite E, Ez; by apply rec_inode).
  assert (El : de_rec_len (zlen pre + rec_size r) (pre ++ ext2_block (r :: r2 :: rest)) = Ret (rec_size r2))
    by (rewrite E, Ez; by apply rec_len_at).
  rewrite Ei. cbn [obind]. destruct (Z.eqb_spec (r_inode r2) 0) as [E0|]; cbn [negb]; [|by left].
  rewrite El. cbn [obind]. pose proof (rec_size_pos r). rewrite block_size in Hl. rewrite (proj2 (Z.leb_le _ bsz)) by lia. cbn [negb].
  rewrite store_merge by (done || lia). cbn [obind]. right. exists r2, rest. rewrite merge_size. done.
Qed.

(** The two halves of a used record. *)
Definition half1 (r : ext2_rec) (m : Z) : ext2_rec :=
  MkExt2Rec (r_inode r) (r_type r) (r_name r) (take (Z.to_nat (m - 8 - zlen (r_name r))) (r_slack r)).
Definition half2 (r : ext2_rec) (m : Z) : ext2_rec :=
  MkExt2Rec 0 0 [] (drop (Z.to_nat (m - zlen (r_name r))) (r_slack r)).
Lemma halves r m : ext2_rec_wf r → 8 + zlen (r_name r) ≤ m → m + 8 ≤ rec_size r → m mod 4 = 0 →
  ext2_rec_wf (half1 r m) ∧ ext2_rec_wf (half2 r m) ∧ rec_size (half1 r m) = m ∧ rec_size (half2 r m) = rec_size r - m.
Proof.
  intros (Hw1 & Hw2 & Hw3 & Hw4 & Hw5 & Hm & Hw6) H1 H2 H4.
  assert (E1 : rec_size (half1 r m) = m) by (unfold rec_size, half1 in *; simpl; rewrite length_take; lia).
  assert (E2 : rec_size (half2 r m) = rec_size r - m) by (unfold rec_size, half2 in *; simpl; rewrite length_drop; lia).
  split_and!; [| |done|done]; unfold ext2_rec_wf; rewrite ?E1, ?E2; cbn [half1 half2 r_inode r_type r_name r_slack]; split_and!; try first [done|lia].
  - by apply Forall_take.
  - by apply Forall_drop.
  - by rewrite Zminus_mod, Hm, H4.
Qed.

Lemma split_spec pre r rest m : ext2_rec_wf r → rec_size r ≤ bsz → 8 + zlen (r_name r) ≤ m → m + 8 ≤ rec_size r → m mod 4 = 0 →
  split_record fs (zlen pre) (rec_size r) m (pre ++ ext2_block (r :: rest)) =
    Ret (0, pre ++ ext2_block (half1 r m :: half2 r m :: rest)).
Proof.
  intros Hr Hs H1 H2 H4. destruct (halves r m Hr H1 H2 H4) as (W1 & W2 & S1 & S2).
  destruct (rec_bounds r Hr) as (? & ? & ? & ?). pose proof Hr as (_ & _ & _ & Hsl & _ & Hm & _).
  unfold split_record. rewrite block_cons, encode_raw by done. rewrite store_len by (done || lia). cbn [obind].
  rewrite raw_len by (done || lia). cbn [obind].
  set (h := take 8 (drop (Z.to_nat (m - 8 - zlen (r_name r))) (r_slack r))).
  assert (Eb : r_name r ++ r_slack r = (r_name r ++ r_slack (half1 r m)) ++ h ++ r_slack (half2 r m)).
  { simpl. rewrite <- app_assoc. f_equal. unfold h.
    replace (Z.to_nat (m - zlen (r_name r))) with (Z.to_nat (m - 8 - zlen (r_name r)) + 8)%nat by lia.
    rewrite <- drop_drop. by rewrite take_drop, take_drop. }
  assert (Hh : length h = 8%nat) by (unfold h, rec_size in *; rewrite length_take, length_drop; lia).
  destruct (raw_of_bytes h) as (i2 & l2 & lo & hi & Eh & Hlo & Hhi); [by apply Forall_take, Forall_drop|lia|].
  rewrite (drop_ge h 8) in Eh by lia.
  assert (E1 : raw_rec (r_inode r) m (name_word (zlen (r_name r)) (r_type r)) (r_name r ++ r_slack r) ++ ext2_block rest =
    ext2_encode (half1 r m) ++ raw_rec i2 l2 (name_word lo hi) (r_slack (half2 r m)) ++ ext2_block rest).
  { rewrite (encode_raw (half1 r m)), S1, Eb by done. rewrite Eh. unfold raw_rec. simpl r_inode. simpl r_name. simpl r_type.
    by rewrite <- !app_assoc. }
  rewrite E1, (app_assoc pre). 
  assert (Ez : zlen pre + m = zlen (pre ++ ext2_encode (half1 r m))) by (rewrite length_app, Nat2Z.inj_add, ext2_encode_length; lia).
  rewrite Ez. unfold is_byte in Hhi. rewrite put_inode. cbn [obind]. rewrite set_name_len_raw by lia. cbn [obind].
  rewrite set_file_type_raw by lia. cbn [obind].
  rewrite store_len; [|lia|lia|by rewrite Zminus_mod, Hm, H4]. cbn [obind]. do 2 f_equal.
  rewrite <- app_assoc, !block_cons. do 3 f_equal. rewrite encode_raw by done. rewrite S2. done.
Qed.

(** A record that gets the name. *)
Definition filled (r : ext2_rec) : ext2_rec :=
  MkExt2Rec ino (if has_feature_filetype (f_super fs) then Z.land fl 7 else r_type r) nm
    (drop (length nm) (r_name r ++ r_slack r)).
Lemma filled_wf r : ext2_rec_wf r → need ≤ rec_size r → ext2_rec_wf (filled r) ∧ rec_size (filled r) = rec_size r.
Proof.
  intros (? & Ht & ? & ? & ? & ? & ?) Hn. destruct (dir_rec_len (zlen nm)) as [? _]; [lia|].
  assert (E : rec_size (filled r) = rec_size r).
  { unfold rec_size, filled in *. simpl. rewrite length_drop, length_app. lia. }
  split; [|done]. unfold ext2_rec_wf. rewrite E. cbn [filled r_inode r_type r_name r_slack]. split_and!; try first [done|lia].
  - destruct (has_feature_filetype _); [|done]. unfold is_byte. change 7 with (2 ^ 3 - 1). rewrite land_ones_mod by lia.
    pose proof (Z.mod_pos_bound fl (2 ^ 3) eq_refl). lia.
  - by apply Forall_drop, Forall_app_2.
Qed.
Lemma fill_spec pre r rest : ext2_rec_wf r → need ≤ rec_size r →
  fill_record fs nm ino fl (zlen pre) (pre ++ ext2_block (r :: rest)) = Ret (pre ++ ext2_block (filled r :: rest)).
Proof.
  intros Hr Hn. destruct (filled_wf r Hr Hn) as [Hf Hs]. destruct (rec_bounds r Hr) as (? & ? & ? & ?).
  destruct (dir_rec_len (zlen nm)) as [? _]; [lia|].
  unfold fill_record. rewrite !block_cons, encode_raw by done. rewrite put_inode. cbn [obind].
  rewrite set_name_len_raw by lia. cbn [obind].
  rewrite put_body by (rewrite length_app; unfold rec_size in *; lia). cbn [obind].
  rewrite (encode_raw (filled r)) by done. rewrite Hs. cbn [filled r_inode r_type r_name r_slack].
  destruct (has_feature_filetype (f_super fs)); [|done]. rewrite set_file_type_raw; [done|lia..|].
  change 7 with (2 ^ 3 - 1). rewrite land_ones_mod by lia. pose proof (Z.mod_pos_bound fl (2 ^ 3) eq_refl). lia.
Qed.

(** What link_proc may absorb: whether it did, the record and those after it. *)
Inductive absorbed (pre : bytes) (r : ext2_rec) (rest : list ext2_rec) : bool → ext2_rec → list ext2_rec → Prop :=
  | absorbed_none : absorbed pre r rest false r rest
  | absorbed_next r2 rest2 : rest = r2 :: rest2 → r_inode r2 = 0 → zlen pre + rec_size r < bsz - (8 + csum) →
      absorbed pre r rest true (merge r r2) rest2.
Definition changed_bit (c : bool) : Z := if c then DIRENT_CHANGED else 0.

Lemma link_proc_spec pre r rest : Forall ext2_rec_wf (r :: rest) → zlen (pre ++ ext2_block (r :: rest)) = bsz →
  ∃ c r1 rest1, absorbed pre r rest c r1 rest1 ∧ Forall ext2_rec_wf (r1 :: rest1) ∧
    zlen (ext2_block (r1 :: rest1)) = zlen (ext2_block (r :: rest)) ∧
    let m := EXT2_DIR_REC_LEN (zlen (r_name r)) in
    ∀ entry, link_proc fs nm ino fl entry (zlen pre) bsz (pre ++ ext2_block (r :: rest)) (MkLink 0 0) = Ret (
      if negb (r_inode r =? 0) then
        if rec_size r1 <? m + need then (changed_bit c, pre ++ ext2_block (r1 :: rest1), MkLink 0 0)
        else (DIRENT_CHANGED, pre ++ ext2_block (half1 r1 m :: half2 r1 m :: rest1), MkLink 0 0)
      else if rec_size r1 <? need then (changed_bit c, pre ++ ext2_block (r1 :: rest1), MkLink 0 0)
      else (Z.lor DIRENT_ABORT DIRENT_CHANGED, pre ++ ext2_block (filled r1 :: rest1), MkLink 1 0)).
Proof.
  intros Hwf Hl. pose proof Hwf as [Hr Hrest]%Forall_cons.
  assert (Hend : zlen pre + zlen (ext2_block (r :: rest)) = bsz) by (rewrite length_app in Hl; lia).
  assert (Hab : ∃ c r1 rest1, absorbed pre r rest c r1 rest1 ∧ Forall ext2_rec_wf (r1 :: rest1) ∧
    zlen (ext2_block (r1 :: rest1)) = zlen (ext2_block (r :: rest)) ∧ r_inode r1 = r_inode r ∧ r_name r1 = r_name r ∧
    absorb_next fs (zlen pre) bsz (rec_size r) (pre ++ ext2_block (r :: rest)) =
      Ret (inr (changed_bit c, rec_size r1, pre ++ ext2_block (r1 :: rest1)))).
  { destruct (absorb_spec pre r rest Hwf Hl) as [E|(r2 & rest2 & -> & E0 & Hlt & E)].
    - exists false, r, rest. split; [constructor|]. done.
    - apply Forall_cons in Hrest as [H2 Hrest]. exists true, (merge r r2), rest2. split; [by econstructor|].
      rewrite !block_size in *. pose proof (merge_size r r2). split; [|split; [lia|done]].
      apply Forall_cons. split; [|done]. apply merge_wf; [done..|].
      destruct Hr as (_ & _ & _ & _ & _ & E1 & _), H2 as (_ & _ & _ & _ & _ & E2 & _).
      assert ((rec_size r + rec_size r2) mod 4 = 0) by (by rewrite Z.add_mod, E1, E2).
      destruct (Z.eq_dec (rec_size r + rec_size r2) 65535) as [E65|]; [|lia]. rewrite E65 in *. done. }
  destruct Hab as (c & r1 & rest1 & Hab & Hwf1 & Hsz & Ei & Enm & Habs). exists c, r1, rest1. split_and!; [done..|]. intros m entry. subst m.
  pose proof Hwf1 as [Hr1 Hrest1]%Forall_cons. destruct (rec_bounds r Hr) as (? & ? & ? & ?).
  destruct (dir_rec_len (zlen (r_name r))) as [Hm Hm4]; [lia|]. destruct (dir_rec_len (zlen nm)) as [Hn Hn4]; [lia|].
  unfold link_proc. cbn [ls_done negb Z.eqb]. rewrite rec_len_at by done. cbn [obind].
  unfold ext2fs_get_rec_len. rewrite (proj2 (Z.ltb_lt bsz 65536)), Habs by done. cbn [obind].
  rewrite rec_inode by done. cbn [obind]. rewrite Ei. destruct (negb (r_inode r =? 0)).
  - rewrite rec_name_len by done. cbn [obind]. rewrite Enm.
    destruct (Z.ltb_spec (rec_size r1) (EXT2_DIR_REC_LEN (zlen (r_name r)) + need)); [done|].
    rewrite split_spec; [done|done| |rewrite Enm; lia|lia|done].
    rewrite block_size in Hsz, Hend. rewrite block_size in Hsz. lia.
  - destruct (Z.ltb_spec (rec_size r1) need); [done|]. by rewrite fill_spec.
Qed.

(** What the walk with link_proc does to a listing. *)
Definition linked (done_ : bool) (l l' : list dentry) : Prop :=
  if done_ then ∃ l1 l2 ty, l = l1 ++ l2 ∧ l' = l1 ++ (nm, ino, ty) :: l2 ∧
                  (has_feature_filetype (f_super fs) = true → ty = Z.land fl 7)
  else l' = l.
Lemma linked_cons d x l l' : linked d l l' → linked d (x :: l) (x :: l').
Proof.
  destruct d; simpl; [|by intros ->]. intros (l1 & l2 & ty & -> & -> & Ht). by exists (x :: l1), l2, ty.
Qed.
(** The entry of the checksum is left at the end of the block. *)
Definition keeps_tail (rs rs' : list ext2_rec) : Prop :=
  has_feature_metadata_csum (f_super fs) = true → ∀ t, is_tail t → last rs = Some t → last rs' = Some t.
(** A record without room for the name. *)
Definition no_room (r : ext2_rec) : Prop :=
  rec_size r < (if r_inode r =? 0 then 0 else EXT2_DIR_REC_LEN (zlen (r_name r))) + need.
Record link_result (done_ : bool) (rs rs' : list ext2_rec) : Prop := {
  lr_wf : Forall ext2_rec_wf rs';
  lr_size : zlen (ext2_block rs') = zlen (ext2_block rs);
  lr_listing : linked done_ (listing rs) (listing rs');
  lr_tail : keeps_tail rs rs';
  lr_full : done_ = false → Forall (fun r => is_tail r ∨ no_room r) rs';
}.
Lemma last_some_cons {A} (x y : A) l : last l = Some y → last (x :: l) = Some y.
Proof. intros E. by rewrite last_cons, E. Qed.

(** A record the walk shows to link_proc is not the entry of the checksum. *)
Lemma shown_not_tail pre r rest c r1 rest1 t : zlen (pre ++ ext2_block (r :: rest)) = bsz →
  left_out bsz csum DIRENT_FLAG_INCLUDE_EMPTY (zlen pre) r = false → absorbed pre r rest c r1 rest1 →
  has_feature_metadata_csum (f_super fs) = true → is_tail t → last (r :: rest) = Some t → last rest1 = Some t.
Proof.
  intros Hl Hshown Hab Hcs (Ti & Tn & Tt & Ts) Hlast. rewrite length_app, Nat2Z.inj_add, block_size in Hl.
  unfold left_out, sizeof_dir_entry_tail in *. rewrite Hcs in *. rewrite last_cons in Hlast. destruct Hab as [|r2 rest2 -> E0 Hlt].
  - destruct (last rest) as [y|] eqn:E; [done|]. injection Hlast as ->. apply last_None in E as ->. simpl in Hl.
    rewrite Ti, Tn, Tt, Ts in Hshown. rewrite Ts in Hl. replace (zlen pre) with (bsz - 12) in Hshown by lia.
    rewrite !Z.eqb_refl in Hshown. discriminate Hshown.
  - rewrite last_cons in Hlast. destruct (last rest2) as [y|] eqn:E; [done|]. injection Hlast as ->. apply last_None in E as ->.
    rewrite block_size in Hl. rewrite Hcs in Hlt. unfold sizeof_dir_entry_tail in Hlt. simpl in Hl. lia.
Qed.

Abbreviation walk_link := (walk bsz bsz csum DIRENT_FLAG_INCLUDE_EMPTY (link_proc fs nm ino fl)).

(** A record that is shown, unused and large enough gets the name. *)
Lemma walk_fill fuel pre r rest next entry ch : Forall ext2_rec_wf (r :: rest) →
  zlen (pre ++ ext2_block (r :: rest)) = bsz → r_inode r = 0 → r_name r = [] → r_type r = 0 → need ≤ rec_size r →
  ∃ rs', walk_link (S fuel) (zlen pre) next entry ch (pre ++ ext2_block (r :: rest)) (MkLink 0 0) =
      Ret (WalkEnd true true, pre ++ ext2_block rs', MkLink 1 0) ∧ link_result true (r :: rest) rs'.
Proof.
  intros Hwf Hl E0 En Et Hneed. pose proof Hwf as [Hr Hrest]%Forall_cons. destruct (dir_rec_len (zlen nm)) as [Hn _]; [lia|].
  pose proof Hl as Hl'. rewrite length_app, Nat2Z.inj_add, block_size in Hl'.
  assert (Hshown : left_out bsz csum DIRENT_FLAG_INCLUDE_EMPTY (zlen pre) r = false).
  { unfold left_out. rewrite E0, En, Et. cbn. by rewrite !andb_false_r. }
  destruct (link_proc_spec pre r rest Hwf Hl) as (c & r1 & rest1 & Hab & Hwf1 & Hsz & Hproc).
  pose proof Hwf1 as [Hr1 Hrest1]%Forall_cons.
  assert (Hbig : need ≤ rec_size r1 ∧ listing rest1 = listing rest).
  { destruct Hab as [|r2 rest2 -> E2 _]; [done|]. rewrite merge_size, listing_cons, E2. pose proof (rec_size_pos r2). split; [lia|done]. }
  destruct Hbig as [Hbig Hlist]. cbv zeta in Hproc. rewrite E0, (proj2 (Z.ltb_ge _ need)) in Hproc by done. cbn [negb Z.eqb] in Hproc.
  destruct (filled_wf r1 Hr1 Hbig) as [Hf Hfs].
  destruct (walk_shown bsz csum DIRENT_FLAG_INCLUDE_EMPTY (link_proc fs nm ino fl) Hbs eq_refl eq_refl eq_refl fuel pre r rest next entry
    ch _ _ _ _ (rec_size (filled r1)) Hr Hl ltac:(lia) Hshown Hproc) as (next' & entry' & ->); [by apply rec_len_at|].
  exists (filled r1 :: rest1). split; [by rewrite orb_true_r|]. split.
  - by apply Forall_cons.
  - rewrite <- Hsz, !block_size. lia.
  - rewrite !listing_cons, E0, Hlist. cbn [filled r_inode Z.eqb]. rewrite (proj2 (Z.eqb_neq ino 0)) by lia.
    eexists [], (listing rest), _. split; [done|]. split; [done|]. cbn [filled r_type]. by intros ->.
  - intros Hcs t Ht Hlast. apply last_some_cons. by apply (shown_not_tail pre r rest c r1).
  - done.
Qed.

(** What is left out is the entry of the checksum. *)
Lemma left_out_tail (pre : bytes) r : ext2_rec_wf r → zlen pre < bsz - 8 →
  left_out bsz csum DIRENT_FLAG_INCLUDE_EMPTY (zlen pre) r = true → is_tail r.
Proof.
  intros Hr Hin. unfold left_out. rewrite andb_true_iff, Z.eqb_eq. intros [Ei Hc].
  destruct (_ && _ && _) eqn:Eb; [|discriminate Hc]. rewrite !andb_true_iff, !Z.eqb_eq in Eb. destruct Eb as [[E1 E2] E3].
  destruct (has_feature_metadata_csum _); [|lia]. unfold sizeof_dir_entry_tail, name_word, EXT2_DIR_NAME_LEN_CSUM in *.
  destruct (rec_bounds r Hr) as (_ & _ & ? & ?). split_and!; [done| |lia|done].
  apply nil_length_inv. lia.
Qed.
Lemma link_result_cons d x y rest rest' : ext2_rec_wf y → r_inode y = r_inode x → dentry_of y = dentry_of x →
  rec_size y + zlen (ext2_block rest') = zlen (ext2_block (x :: rest)) → Forall ext2_rec_wf rest' →
  linked d (listing rest) (listing rest') → keeps_tail (x :: rest) (y :: rest') →
  (d = false → (is_tail y ∨ no_room y) ∧ Forall (fun r => is_tail r ∨ no_room r) rest') → link_result d (x :: rest) (y :: rest').
Proof.
  intros Hy Ei Ed Es Hw Hli Hk Hn. split; [by apply Forall_cons|by rewrite block_size| |done|intros Hd; by apply Forall_cons, Hn].
  rewrite !listing_cons, Ei, Ed. destruct (r_inode x =? 0); [done|]. by apply linked_cons.
Qed.

(** What the walk from [pre] on does to the records [rs]. *)
Definition walk_links (fuel : nat) (pre : bytes) (rs : list ext2_rec) : Prop :=
  ∀ next entry ch, ∃ ch' rs' d, walk_link fuel (zlen pre) next entry ch (pre ++ ext2_block rs) (MkLink 0 0) =
      Ret (WalkEnd ch' d, pre ++ ext2_block rs', MkLink (if d then 1 else 0) 0) ∧ link_result d rs rs' ∧
      (d = true → ch' = true) ∧ (ch' = false → rs' = rs) ∧ (ch = true → ch' = true).

Section Step.
  Context (fuel : nat) (pre : bytes) (r : ext2_rec) (rest : list ext2_rec).
  Context (Hwf : Forall ext2_rec_wf (r :: rest)) (Hl : zlen (pre ++ ext2_block (r :: rest)) = bsz) (Hin : zlen pre < bsz - 8).

(** What follows a record that was left as it is, or that has absorbed the next one. *)
Lemma walk_links_after x rest1 : ext2_rec_wf x → zlen (ext2_block (x :: rest1)) = zlen (ext2_block (r :: rest)) →
  walk_links fuel (pre ++ ext2_encode x) rest1 →
  r_inode x = r_inode r → dentry_of x = dentry_of r → listing rest1 = listing rest → is_tail x ∨ no_room x →
  (∀ rs', Forall ext2_rec_wf rs' → zlen (ext2_block rs') = zlen (ext2_block rest1) → keeps_tail rest1 rs' → keeps_tail (r :: rest) (x :: rs')) →
  ∀ next entry ch, ∃ ch' rs' d, walk_link fuel (zlen pre + rec_size x) next entry ch (pre ++ ext2_block (x :: rest1)) (MkLink 0 0) =
      Ret (WalkEnd ch' d, pre ++ ext2_block (x :: rs'), MkLink (if d then 1 else 0) 0) ∧ link_result d (r :: rest) (x :: rs') ∧
      (d = true → ch' = true) ∧ (ch' = false → rs' = rest1) ∧ (ch = true → ch' = true).
Proof.
  intros Hx Hsz IH Ei Ed Eli Hn Hk next entry ch.
  assert (Ez : zlen pre + rec_size x = zlen (pre ++ ext2_encode x)) by (by rewrite length_app, Nat2Z.inj_add, ext2_encode_length).
  rewrite Ez, block_cons, (app_assoc pre). destruct (IH next entry ch) as (ch' & rs' & d & E & [Hw Hs Hli Hk' Hfull] & Hrest).
  exists ch', rs', d. rewrite E, <- app_assoc. split; [done|]. split; [|done].
  apply link_result_cons; try done; [rewrite <- Hsz, block_size; lia|by rewrite <- Eli|by apply Hk|].
  intros Hd. split; [done|by apply Hfull].
Qed.

Lemma walk_links_step : (∀ x rest1, ext2_rec_wf x → Forall ext2_rec_wf rest1 →
    zlen (ext2_block (x :: rest1)) = zlen (ext2_block (r :: rest)) → walk_links fuel (pre ++ ext2_encode x) rest1) →
  fuel ≠ O → walk_links (S fuel) pre (r :: rest).
Proof.
  intros IH Hfuel next entry ch. pose proof Hwf as [Hr Hrest]%Forall_cons.
  destruct (left_out bsz csum DIRENT_FLAG_INCLUDE_EMPTY (zlen pre) r) eqn:Hshown.
  { destruct (walk_left_out bsz csum DIRENT_FLAG_INCLUDE_EMPTY (link_proc fs nm ino fl) Hbs eq_refl eq_refl eq_refl fuel pre r rest next
      entry ch (MkLink 0 0) Hr Hl Hin Hshown) as (next' & ->).
    edestruct (walk_links_after r rest) as (ch' & rs' & d & E & Hres & Hd & Hsame & Hch); [done|done|by apply IH|done|done|done| | |].
    - left. by apply (left_out_tail pre).
    - intros rs' _ Hs Hk Hcs t Ht. rewrite !last_cons. destruct (last rest) as [y|] eqn:Ey.
      + intros [= ->]. by rewrite (Hk Hcs t Ht Ey).
      + apply last_None in Ey as ->. destruct rs' as [|y rs']; [done|]. rewrite block_size in Hs. pose proof (rec_size_pos y). simpl in Hs. lia.
    - exists ch', (r :: rs'), d. split; [exact E|]. split; [done|]. split; [done|]. split; [|done]. intros Hc. by rewrite Hsame. }
  destruct (link_proc_spec pre r rest Hwf Hl) as (c & r1 & rest1 & Hab & Hwf1 & Hsz & Hproc).
  pose proof Hwf1 as [Hr1 Hrest1]%Forall_cons. cbv zeta in Hproc.
  assert (Hlast : ∀ t, has_feature_metadata_csum (f_super fs) = true → is_tail t → last (r :: rest) = Some t → last rest1 = Some t).
  { intros t Hcs Ht. by apply (shown_not_tail pre r rest c r1). }
  assert (Hlr : listing rest1 = listing rest ∧ r_inode r1 = r_inode r ∧ dentry_of r1 = dentry_of r ∧ r_name r1 = r_name r ∧
                (c = false → r1 = r ∧ rest1 = rest)).
  { destruct Hab as [|r2 rest2 -> E2 _]; [done|]. by rewrite listing_cons, E2. }
  destruct Hlr as (Elist & Ei & Ed & Enm & Ec).
  assert (Hl1 : zlen (pre ++ ext2_block (r1 :: rest1)) = bsz) by (rewrite length_app in *; lia).
  assert (Hplain : (∀ kind, link_proc fs nm ino fl kind (zlen pre) bsz (pre ++ ext2_block (r :: rest)) (MkLink 0 0) =
      Ret (changed_bit c, pre ++ ext2_block (r1 :: rest1), MkLink 0 0)) → no_room r1 →
    ∃ ch' rs' d, walk_link (S fuel) (zlen pre) next entry ch (pre ++ ext2_block (r :: rest)) (MkLink 0 0) =
      Ret (WalkEnd ch' d, pre ++ ext2_block rs', MkLink (if d then 1 else 0) 0) ∧ link_result d (r :: rest) rs' ∧
      (d = true → ch' = true) ∧ (ch' = false → rs' = r :: rest) ∧ (ch = true → ch' = true)).
  { intros Hp Hroom. assert (Hc : has (changed_bit c) DIRENT_CHANGED = c ∧ has (changed_bit c) DIRENT_ABORT = false) by (by destruct c).
    destruct Hc as [Hc1 Hc2].
    destruct (walk_shown bsz csum DIRENT_FLAG_INCLUDE_EMPTY (link_proc fs nm ino fl) Hbs eq_refl eq_refl eq_refl fuel pre r rest next entry
      ch _ _ _ _ (rec_size r1) Hr Hl Hin Hshown Hp) as (next' & entry' & ->).
    { rewrite Hc1. destruct c; [by apply rec_len_at|]. by destruct (Ec eq_refl) as [-> _]. }
    rewrite Hc1, Hc2. destruct (walk_links_after r1 rest1) with next' entry' (ch || c) as (ch' & rs' & d & E & Hres & Hd & Hsame & Hch); try done.
    - by apply IH.
    - by right.
    - intros rs' _ _ Hk Hcs t Ht Ht'. apply last_some_cons. apply (Hk Hcs t Ht). by apply Hlast.
    - exists ch', (r1 :: rs'), d. split; [exact E|]. split; [done|]. split; [done|]. split.
      + intros Hf. rewrite (Hsame Hf). destruct c; [|by destruct (Ec eq_refl) as [-> ->]].
        specialize (Hch (orb_true_r ch)). congruence.
      + intros ->. by apply Hch. }
  destruct (Z.eqb_spec (r_inode r) 0) as [E0|E0]; cbn [negb] in Hproc.
  - destruct (Z.ltb_spec (rec_size r1) need) as [Hsmall|Hbig].
    { apply Hplain; [done|]. unfold no_room. rewrite Ei, E0. cbn. lia. }
    destruct (filled_wf r1 Hr1 Hbig) as [Hf Hfs].
    destruct (walk_shown bsz csum DIRENT_FLAG_INCLUDE_EMPTY (link_proc fs nm ino fl) Hbs eq_refl eq_refl eq_refl fuel pre r rest next entry
      ch _ _ _ _ (rec_size (filled r1)) Hr Hl Hin Hshown Hproc) as (next' & entry' & ->); [by apply rec_len_at|].
    exists true, (filled r1 :: rest1), true. split; [by rewrite orb_true_r|]. split; [|done]. split.
    + by apply Forall_cons.
    + rewrite <- Hsz, !block_size. lia.
    + rewrite !listing_cons, E0, Elist. cbn [filled r_inode Z.eqb]. rewrite (proj2 (Z.eqb_neq ino 0)) by lia.
      eexists [], (listing rest), _. split; [done|]. split; [done|]. cbn [filled r_type]. by intros ->.
    + intros Hcs t Ht Hlst. apply last_some_cons. by apply Hlast.
    + done.
  - set (m := EXT2_DIR_REC_LEN (zlen (r_name r))) in *. 
    destruct (Z.ltb_spec (rec_size r1) (m + need)) as [Hsmall|Hbig].
    { apply Hplain; [done|]. unfold no_room. rewrite Ei, (proj2 (Z.eqb_neq _ _) E0), Enm. lia. }
    destruct (rec_bounds r Hr) as (? & ? & ? & ?). destruct (dir_rec_len (zlen (r_name r))) as [Hm Hm4]; [lia|].
    destruct (dir_rec_len (zlen nm)) as [Hn Hn4]; [lia|]. fold m in Hm, Hm4.
    destruct (halves r1 m Hr1) as (W1 & W2 & S1 & S2); [rewrite Enm; lia|lia|done|].
    pose proof (rec_len_at pre (half1 r1 m) (half2 r1 m :: rest1) W1) as Elen.
    destruct (walk_shown bsz csum DIRENT_FLAG_INCLUDE_EMPTY (link_proc fs nm ino fl) Hbs eq_refl eq_refl eq_refl fuel pre r rest next entry
      ch _ _ _ _ (rec_size (half1 r1 m)) Hr Hl Hin Hshown Hproc) as (next' & entry' & ->); [exact Elen|].
    change (has DIRENT_CHANGED DIRENT_ABORT) with false. cbv iota. rewrite S1.
    assert (Ez : zlen pre + m = zlen (pre ++ ext2_encode (half1 r1 m))) by (rewrite length_app, Nat2Z.inj_add, ext2_encode_length; lia).
    rewrite Ez, block_cons, (app_assoc pre). destruct fuel as [|fuel']; [done|].
    destruct (walk_fill fuel' (pre ++ ext2_encode (half1 r1 m)) (half2 r1 m) rest1 next' entry' (ch || has DIRENT_CHANGED DIRENT_CHANGED))
      as (rs' & -> & [Hw Hs Hli Hk _]); [by apply Forall_cons| |done|done|done|lia|].
    { rewrite length_app, Nat2Z.inj_add, block_size in Hl1. rewrite !length_app, !Nat2Z.inj_add, ext2_encode_length, block_size. lia. }
    exists true, (half1 r1 m :: rs'), true. rewrite <- app_assoc. split; [done|]. split; [|done].
    rewrite !block_size in Hs. rewrite block_size in Hsz. apply link_result_cons; try done; [lia| |].
    + rewrite listing_cons, Elist in Hli. exact Hli.
    + intros Hcs t Ht Hlst. apply last_some_cons. apply (Hk Hcs t Ht). by apply last_some_cons, Hlast.
Qed.
End Step.

Lemma walk_link_spec fuel : ∀ pre rs, Forall ext2_rec_wf rs → zlen (pre ++ ext2_block rs) = bsz →
  zlen (ext2_block rs) < Z.of_nat fuel → walk_links fuel pre rs.
Proof.
  induction fuel as [|fuel IH]; intros pre rs Hwf Hl Hf; [lia|].
  destruct (Z.le_gt_cases (bsz - 8) (zlen pre)) as [Hend|Hin].
  { intros next entry ch. rewrite walk_over by done. exists ch, rs, false. split; [done|]. split_and!; [|done..].
    split; try done; [by intros ? t ?|]. intros _. destruct rs as [|r [|r2 rs]]; [done| |].
    - rewrite length_app, Nat2Z.inj_add, block_size in Hl. simpl in Hl. apply Forall_cons. split; [|done]. right. unfold no_room.
      destruct (dir_rec_len (zlen nm)) as [? _]; [lia|]. destruct (r_inode r =? 0); [lia|]. destruct (rec_bounds r) as (_ & _ & ? & _); [by apply Forall_inv in Hwf|].
      destruct (dir_rec_len (zlen (r_name r))) as [? _]; lia.
    - rewrite length_app, Nat2Z.inj_add, !block_size in Hl. pose proof (rec_size_pos r). pose proof (rec_size_pos r2). lia. }
  destruct rs as [|r rest]; [rewrite app_nil_r in Hl; lia|]. rewrite length_app, Nat2Z.inj_add in Hl.
  apply walk_links_step; [done|rewrite length_app; lia|done| |].
  - intros x rest1 Hx Hw1 Hsz. pose proof (rec_size_pos x). rewrite <- Hsz, block_size in Hl, Hf. apply IH; [done| |lia].
    rewrite !length_app, !Nat2Z.inj_add, ext2_encode_length. lia.
  - rewrite block_size in Hf. pose proof (rec_size_pos r). pose proof (Zle_0_nat (length (ext2_block rest))). lia.
Qed.
End LinkSpec.

(** ** Unlinking and looking up *)

(** The first element that [p] selects, removed. *)
Fixpoint remove_first (p : dentry → bool) (l : list dentry) : list dentry :=
  match l with
  | [] => []
  | x :: l => if p x then l else x :: remove_first p l
  end.
Lemma remove_first_none p l : existsb p l = false → remove_first p l = l.
Proof. induction l as [|x l IH]; [done|]. cbn. destruct (p x); cbn; [done|]. intros E. by rewrite IH. Qed.

(** Whether unlink_proc takes an entry: its name, and its inode when one is given. *)
Definition unlinkable (nm : bytes) (ino fl : Z) (x : dentry) : bool :=
  bool_decide (x.1.1 = nm) && (if negb (has fl EXT2FS_UNLINK_FORCE) && negb (ino =? 0) then x.1.2 =? ino else true).
Definition named (nm : bytes) (x : dentry) : bool := bool_decide (x.1.1 = nm).

(** No name fits in the last eight bytes of a block. *)
Lemma rest_unnamed pre rs bsz nm : zlen (pre ++ ext2_block rs) = bsz → bsz - 8 ≤ zlen pre → nm ≠ [] →
  existsb (named nm) (listing rs) = false.
Proof.
  intros Hl Ho Hne. rewrite length_app, Nat2Z.inj_add in Hl. destruct rs as [|r [|r2 rs]]; [done| |].
  - rewrite block_size in Hl. simpl in Hl. rewrite listing_cons. destruct (r_inode r =? 0); [done|]. cbn.
    unfold named. cbn. rewrite bool_decide_eq_false_2; [done|]. intros E. unfold rec_size in Hl. rewrite E in Hl.
    destruct nm; [done|]. simpl in Hl. lia.
  - rewrite !block_size in Hl. pose proof (rec_size_pos r). pose proof (rec_size_pos r2). lia.
Qed.

Section Reading.
  Context (bsz csum_size : Z) (nm : bytes).
  Context (H64 : bsz < 65536) (Hne : nm ≠ []).

Lemma walk_lookup_spec fuel : ∀ pre rs next entry, Forall ext2_rec_wf rs → zlen (pre ++ ext2_block rs) = bsz →
  zlen (ext2_block rs) < Z.of_nat fuel →
  let found := find (named nm) (listing rs) in
  walk bsz bsz csum_size 0 (lookup_proc nm) fuel (zlen pre) next entry false (pre ++ ext2_block rs) None =
    Ret (WalkEnd false (match found with Some _ => true | None => false end), pre ++ ext2_block rs, (fun x => x.1.2) <$> found).
Proof.
  induction fuel as [|fuel IH]; intros pre rs next entry Hwf Hl Hf; [lia|]. cbv zeta.
  destruct (Z.le_gt_cases (bsz - 8) (zlen pre)) as [Hend|Hin].
  { rewrite walk_over by done. pose proof (rest_unnamed pre rs bsz nm Hl Hend Hne) as Hno.
    destruct (find (named nm) (listing rs)) as [x|] eqn:E; [|done]. apply find_some in E as [Hx Hp].
    assert (existsb (named nm) (listing rs) = true) by (apply existsb_exists; by exists x). congruence. }
  destruct rs as [|r rest]; [rewrite app_nil_r in Hl; lia|]. pose proof Hwf as [Hr Hrest]%Forall_cons.
  assert (Hnext : ∀ next entry, walk bsz bsz csum_size 0 (lookup_proc nm) fuel (zlen pre + rec_size r) next entry false (pre ++ ext2_block (r :: rest)) None =
    Ret (WalkEnd false (match find (named nm) (listing rest) with Some _ => true | None => false end),
         pre ++ ext2_block (r :: rest), (fun x => x.1.2) <$> find (named nm) (listing rest))).
  { intros next' entry'. assert (Ez : zlen pre + rec_size r = zlen (pre ++ ext2_encode r)) by (by rewrite length_app, Nat2Z.inj_add, ext2_encode_length).
    pose proof (rec_size_pos r). rewrite block_size in Hf. rewrite Ez, block_cons, (app_assoc pre). apply IH; [done| |lia].
    by rewrite <- app_assoc, <- block_cons. }
  destruct (left_out bsz csum_size 0 (zlen pre) r) eqn:Hshown.
  { destruct (walk_left_out bsz csum_size 0 (lookup_proc nm) H64 eq_refl eq_refl eq_refl fuel pre r rest next entry false None Hr Hl Hin Hshown)
      as (next' & ->). rewrite Hnext, listing_cons. unfold left_out in Hshown. by destruct (r_inode r =? 0). }
  assert (E0 : r_inode r =? 0 = false).
  { unfold left_out in Hshown. destruct (r_inode r =? 0); [|done]. cbn in Hshown. by destruct (_ && _). }
  assert (Hproc : ∀ kind, lookup_proc nm kind (zlen pre) bsz (pre ++ ext2_block (r :: rest)) None =
    Ret (if named nm (dentry_of r) then (DIRENT_ABORT, pre ++ ext2_block (r :: rest), Some (r_inode r))
         else (0, pre ++ ext2_block (r :: rest), None))).
  { intros kind. unfold lookup_proc, named. rewrite rec_same_name by done. cbn [obind dentry_of fst].
    case_bool_decide; [|done]. cbn [negb]. by rewrite rec_inode. }
  rewrite listing_cons, E0. cbn [find]. destruct (named nm (dentry_of r)).
  - edestruct (walk_shown bsz csum_size 0 (lookup_proc nm) H64 eq_refl eq_refl eq_refl fuel pre r rest next entry false) as (next' & entry' & ->);
      [done..|exact Hproc|reflexivity|]. done.
  - edestruct (walk_shown bsz csum_size 0 (lookup_proc nm) H64 eq_refl eq_refl eq_refl fuel pre r rest next entry false) as (next' & entry' & ->);
      [done..|exact Hproc|reflexivity|]. apply Hnext.
Qed.

Context (ino fl : Z) (Hino : 0 ≤ ino).

(** The previous record unlink_proc keeps the address of. *)
Definition prev_of (before : list ext2_rec) (prev : option Z) : Prop :=
  before = [] ∨ ∃ b0 p, before = b0 ++ [p] ∧ prev = Some (zlen (ext2_block b0)).

(** What is left when the entry [r] is removed: the previous record takes its room, or it has
    no inode any more. *)
Definition cleared (r : ext2_rec) : ext2_rec := MkExt2Rec 0 (r_type r) (r_name r) (r_slack r).
Lemma cleared_raw r : ext2_rec_wf r →
  raw_rec 0 (rec_size r) (name_word (zlen (r_name r)) (r_type r)) (r_name r ++ r_slack r) = ext2_encode (cleared r) ∧
  ext2_rec_wf (cleared r).
Proof.
  intros (? & ? & ? & ? & ? & ? & ?). assert (Hw : ext2_rec_wf (cleared r)) by (unfold ext2_rec_wf; split_and!; done).
  split; [|done]. by rewrite (encode_raw (cleared r)).
Qed.

Lemma unlink_proc_spec before r rest prev n : Forall ext2_rec_wf (before ++ r :: rest) →
  zlen (ext2_block (before ++ r :: rest)) = bsz → prev_of before prev →
  ∃ rs', (Forall ext2_rec_wf rs' ∧ zlen (ext2_block rs') = bsz ∧ listing rs' = listing (before ++ rest) ∧
      ∀ t, is_tail t → last rest = Some t → last rs' = Some t) ∧
    (∃ len, de_rec_len (zlen (ext2_block before)) (ext2_block rs') = Ret len) ∧
    ∀ kind, unlink_proc (Some nm) ino fl kind (zlen (ext2_block before)) bsz (ext2_block (before ++ r :: rest)) (MkUnlink prev n) =
      Ret (if negb (r_inode r =? 0) && unlinkable nm ino fl (dentry_of r)
           then (Z.lor DIRENT_ABORT DIRENT_CHANGED, ext2_block rs', MkUnlink (Some (zlen (ext2_block before))) (n + 1))
           else (0, ext2_block (before ++ r :: rest), MkUnlink (Some (zlen (ext2_block before))) n)).
Proof.
  intros Hwf Hl Hprev. pose proof Hwf as [Hbefore [Hr Hrest]%Forall_cons]%Forall_app.
  rewrite (block_app before) in *.
  destruct (rec_bounds r Hr) as (? & ? & ? & ?). pose proof (rec_size_pos r).
  rewrite length_app, Nat2Z.inj_add, block_size in Hl.
  assert (Hdecide : ∀ kind, unlink_proc (Some nm) ino fl kind (zlen (ext2_block before)) bsz
      (ext2_block before ++ ext2_block (r :: rest)) (MkUnlink prev n) =
    (if negb (r_inode r =? 0) && unlinkable nm ino fl (dentry_of r) then
       let? buf := if zlen (ext2_block before) =? 0 then put_at 4 (zlen (ext2_block before)) 0 (ext2_block before ++ ext2_block (r :: rest))
                   else
                   let? prev := of_option prev in
                   let? prev_len := de_rec_len prev (ext2_block before ++ ext2_block (r :: rest)) in
                   let? len := de_rec_len (zlen (ext2_block before)) (ext2_block before ++ ext2_block (r :: rest)) in
                   put_at 2 (prev + 4) (u16 (prev_len + len)) (ext2_block before ++ ext2_block (r :: rest)) in
       Ret (Z.lor DIRENT_ABORT DIRENT_CHANGED, buf, MkUnlink (Some (zlen (ext2_block before))) (n + 1))
     else Ret (0, ext2_block before ++ ext2_block (r :: rest), MkUnlink (Some (zlen (ext2_block before))) n))).
  { intros kind. unfold unlink_proc, unlinkable. cbn [us_prev us_done dentry_of fst snd]. rewrite rec_same_name by done. cbn [obind].
    case_bool_decide; cbn [negb andb]; [|by rewrite andb_false_r]. rewrite rec_inode by done. cbn [obind].
    destruct (negb (has fl EXT2FS_UNLINK_FORCE) && negb (ino =? 0)) eqn:Eb.
    - apply andb_prop in Eb as [_ Eb]. destruct (Z.eqb_spec ino 0); [discriminate Eb|].
      destruct (Z.eqb_spec (r_inode r) ino) as [->|]; cbn [negb andb]; [|by rewrite andb_false_r].
      rewrite (proj2 (Z.eqb_neq ino 0)) by done. done.
    - rewrite andb_true_r. by destruct (r_inode r =? 0). }
  destruct Hprev as [->|(b0 & p & -> & ->)].
  - destruct (cleared_raw r Hr) as [Eraw Hc]. exists (cleared r :: rest). split; [split_and!|split].
    + by apply Forall_cons.
    + rewrite block_size in *. simpl in Hl. unfold rec_size in *. exact Hl.
    + rewrite listing_cons. done.
    + intros t _ E. by apply last_some_cons.
    + eexists. apply (rec_len_at [] (cleared r) rest Hc).
    + intros kind. rewrite Hdecide. change (zlen (ext2_block []) =? 0) with true. cbv iota.
      rewrite block_cons, encode_raw by done. change (ext2_block []) with ([] : bytes).
      rewrite put_inode, Eraw. cbn [obind]. by destruct (_ && _).
  - apply Forall_app in Hbefore as [Hb0 Hp%Forall_inv].
    assert (Ebuf : ext2_block (b0 ++ [p]) ++ ext2_block (r :: rest) = ext2_block b0 ++ ext2_block (p :: r :: rest))
      by (by rewrite <- !block_app, <- app_assoc).
    assert (Epos : zlen (ext2_block (b0 ++ [p])) = zlen (ext2_block b0) + rec_size p).
    { rewrite block_app, length_app, Nat2Z.inj_add, block_size. simpl. lia. }
    rewrite Epos in *. pose proof (rec_size_pos p). destruct (rec_bounds p Hp) as (? & ? & ? & ?).
    assert (Hsum : rec_size p + rec_size r ≤ bsz) by lia.
    assert (Hw' : Forall ext2_rec_wf (b0 ++ merge p r :: rest)).
    { apply Forall_app. split; [done|]. apply Forall_cons. split; [|done]. apply merge_wf; [done..|].
      destruct Hp as (_ & _ & _ & _ & _ & E1 & _), Hr as (_ & _ & _ & _ & _ & E2 & _).
      assert ((rec_size p + rec_size r) mod 4 = 0) by (by rewrite Z.add_mod, E1, E2).
      destruct (Z.eq_dec (rec_size p + rec_size r) 65535) as [E65|]; [|lia]. rewrite E65 in *. done. }
    assert (Hs' : zlen (ext2_block (b0 ++ merge p r :: rest)) = bsz)
      by (rewrite block_app, length_app, Nat2Z.inj_add, block_size, merge_size; lia).
    exists (b0 ++ merge p r :: rest). split; [split_and!; [done|done| |]|split].
    + rewrite <- app_assoc. change ([p] ++ rest) with (p :: rest). by rewrite !listing_app, !listing_cons.
    + intros t _ E. rewrite last_app. by rewrite (last_some_cons _ t).
    + destruct (at_off_total 2 (zlen (ext2_block b0) + rec_size p + 4) (ext2_block (b0 ++ merge p r :: rest))) as (v & Ev & _);
        [lia|lia|by apply block_bytes|]. by exists v.
    + intros kind. rewrite Hdecide. rewrite (proj2 (Z.eqb_neq (zlen (ext2_block b0) + rec_size p) 0)) by lia. cbn [of_option obind].
      rewrite <- Epos, rec_len_at, Ebuf, rec_len_at by done. cbn [obind]. unfold u16. rewrite Z.mod_small by lia.
      rewrite block_cons, encode_raw, put_len, (block_cons r), (app_assoc (raw_rec _ _ _ _)), merge_raw by done. cbn [obind].
      rewrite <- block_cons, <- block_app. by destruct (_ && _).
Qed.

Abbreviation unl := (unlinkable nm ino fl).
Abbreviation walk_unlink := (walk bsz bsz csum_size DIRENT_FLAG_INCLUDE_EMPTY (unlink_proc (Some nm) ino fl)).

Lemma walk_unlink_spec fuel : ∀ before rs prev next entry, Forall ext2_rec_wf (before ++ rs) →
  zlen (ext2_block (before ++ rs)) = bsz → prev_of before prev → zlen (ext2_block rs) < Z.of_nat fuel →
  let n := existsb unl (listing rs) in
  ∃ rs' prev', walk_unlink fuel (zlen (ext2_block before)) next entry false (ext2_block (before ++ rs)) (MkUnlink prev 0) =
      Ret (WalkEnd n n, ext2_block rs', MkUnlink prev' (if n then 1 else 0)) ∧ Forall ext2_rec_wf rs' ∧
      zlen (ext2_block rs') = bsz ∧ listing rs' = listing before ++ remove_first unl (listing rs) ∧
      (∀ t, is_tail t → last (before ++ rs) = Some t → last rs' = Some t) ∧ (n = false → rs' = before ++ rs).
Proof.
  induction fuel as [|fuel IH]; intros before rs prev next entry Hwf Hl Hprev Hf; [lia|]. cbv zeta.
  assert (Hl2 : zlen (ext2_block before) + zlen (ext2_block rs) = bsz) by (rewrite block_app, length_app in Hl; lia).
  assert (Hstop : bsz - 8 ≤ zlen (ext2_block before) → existsb unl (listing rs) = false).
  { intros Hend. apply not_true_is_false. intros (x & Hx & Hu)%existsb_exists.
    assert (Hno := rest_unnamed (ext2_block before) rs bsz nm ltac:(by rewrite <- block_app) Hend Hne).
    assert (existsb (named nm) (listing rs) = true); [|congruence]. apply existsb_exists. exists x. split; [done|].
    unfold unlinkable in Hu. by apply andb_prop in Hu as [? _]. }
  destruct (Z.le_gt_cases (bsz - 8) (zlen (ext2_block before))) as [Hend|Hin].
  { rewrite walk_over by done. rewrite Hstop by done. eexists _, prev. split; [done|]. split; [done|]. split; [done|].
    rewrite remove_first_none, listing_app by (by apply Hstop). done. }
  destruct rs as [|r rest]; [simpl in Hl2; lia|]. rewrite block_size in Hl2, Hf.
  pose proof Hwf as [Hbefore [Hr Hrest]%Forall_cons]%Forall_app. pose proof (rec_size_pos r).
  pose proof Hl as Hl1. rewrite block_app in Hl1.
  assert (Ez : zlen (ext2_block before) + rec_size r = zlen (ext2_block (before ++ [r]))).
  { rewrite block_app, length_app, Nat2Z.inj_add, block_size. simpl. lia. }
  assert (Eb : before ++ r :: rest = (before ++ [r]) ++ rest) by (by rewrite <- app_assoc).
  destruct (left_out bsz csum_size DIRENT_FLAG_INCLUDE_EMPTY (zlen (ext2_block before)) r) eqn:Hshown.
  { destruct (walk_left_out bsz csum_size DIRENT_FLAG_INCLUDE_EMPTY (unlink_proc (Some nm) ino fl) H64 eq_refl eq_refl eq_refl fuel
      (ext2_block before) r rest next entry false (MkUnlink prev 0) Hr Hl1 Hin Hshown) as (next' & E).
    unfold left_out in Hshown. apply andb_prop in Hshown as [Ei Hc]. destruct (_ && _ && _) eqn:Ec; [|discriminate Hc].
    rewrite !andb_true_iff, !Z.eqb_eq in Ec. destruct Ec as [[E1 E2] _]. destruct rest as [|r2 rest]; cycle 1.
    { rewrite block_size in Hl2. pose proof (rec_size_pos r2). lia. }
    rewrite listing_cons, Ei. cbn [existsb listing]. rewrite block_app, E. destruct fuel; [lia|]. rewrite walk_over by lia.
    exists (before ++ [r]), prev. rewrite block_app. split; [done|]. split; [done|]. split; [by rewrite <- block_app|].
    rewrite listing_app, listing_cons, Ei. done. }
  destruct (unlink_proc_spec before r rest prev 0 Hwf Hl Hprev) as (rs1 & (Hw1 & Hs1 & Hli1 & Ht1) & (len1 & Elen) & Hproc).
  rewrite (block_app before) in Hproc |- *.
  destruct (negb (r_inode r =? 0) && unl (dentry_of r)) eqn:Eu.
  - apply andb_prop in Eu as [Ei Eu]. destruct (Z.eqb_spec (r_inode r) 0) as [|E0]; [discriminate Ei|].
    edestruct (walk_shown bsz csum_size DIRENT_FLAG_INCLUDE_EMPTY (unlink_proc (Some nm) ino fl) H64 eq_refl eq_refl eq_refl fuel
      (ext2_block before) r rest next entry false) as (next' & entry' & ->); [done|exact Hl1|done|done|exact Hproc|exact Elen|].
    rewrite listing_cons, (proj2 (Z.eqb_neq _ _) E0). cbn [existsb remove_first]. rewrite Eu. cbn [orb].
    exists rs1, (Some (zlen (ext2_block before))). split; [done|]. split; [done|]. split; [done|].
    split; [by rewrite Hli1, listing_app|]. split; [|done].
    intros t Ht. rewrite Eb, last_app. destruct (last rest) as [y|] eqn:Ey; [intros [= ->]; by apply Ht1|].
    rewrite last_snoc. intros [= ->]. by destruct Ht.
  - edestruct (walk_shown bsz csum_size DIRENT_FLAG_INCLUDE_EMPTY (unlink_proc (Some nm) ino fl) H64 eq_refl eq_refl eq_refl fuel
      (ext2_block before) r rest next entry false) as (next' & entry' & ->); [done|exact Hl1|done|done|exact Hproc|reflexivity|].
    change (has 0 DIRENT_ABORT) with false. change (false || has 0 DIRENT_CHANGED) with false. cbv iota.
    rewrite Ez, <- block_app, Eb.
    destruct (IH (before ++ [r]) rest (Some (zlen (ext2_block before))) next' entry') as (rs' & prev' & E & Hw & Hs & Hli & Ht & Hn);
      [by rewrite <- Eb|by rewrite <- Eb|right; by exists before, r|lia|].
    assert (Hno : existsb unl (listing (r :: rest)) = existsb unl (listing rest) ∧
              listing before ++ remove_first unl (listing (r :: rest)) = listing (before ++ [r]) ++ remove_first unl (listing rest)).
    { rewrite listing_app, !listing_cons, <- app_assoc. destruct (r_inode r =? 0); [done|]. cbn [negb andb] in Eu.
      cbn [existsb remove_first]. by rewrite Eu. }
    destruct Hno as [-> ->]. exists rs', prev'. done.
Qed.
End Reading.

(** ** The block of a new directory *)

(** Rewrites with a fact about the start of a buffer. *)
Ltac at_start H :=
  let E := fresh "E" in
  pose proof H as E; change (zlen (@nil Z)) with 0 in E; rewrite !app_nil_l, ?app_nil_r in E;
  try change (0 + 8) with 8 in E; try change (0 + 4) with 4 in E; rewrite E; clear E; cbn [obind].
Section NewBlock.
  Context `{Machine} (fs : ext2_filsys) (Hbs : 1024 ≤ f_blocksize fs < 65536) (H4 : f_blocksize fs mod 4 = 0).
  Context (Hmem : mem_ok (f_blocksize fs) = true).
  Abbreviation bsz := (f_blocksize fs).
  Abbreviation csum := (if has_feature_metadata_csum (f_super fs) then sizeof_dir_entry_tail else 0).
  Abbreviation ft := (if has_feature_filetype (f_super fs) then EXT2_FT_DIR else 0).

Definition zeros (n : nat) : bytes := replicate n 0.
Lemma zeros_raw n : zeros (8 + n) = raw_rec 0 0 (name_word 0 0) (zeros n).
Proof. done. Qed.
Lemma put_bytes_mid a y b x off : off = zlen a → length y = length x → put_bytes off x (a ++ y ++ b) = Ret (a ++ x ++ b).
Proof.
  intros -> Hy. unfold put_bytes. rewrite bool_decide_eq_true_2 by (rewrite !length_app; lia).
  by rewrite Nat2Z.id, take_app_length, <- drop_drop, drop_app_length, <- Hy, drop_app_length.
Qed.

(** The entry of the checksum, when there is one. *)
Definition tail_rec : ext2_rec := MkExt2Rec 0 0xDE [] [0; 0; 0; 0].
Definition tail_recs : list ext2_rec := if has_feature_metadata_csum (f_super fs) then [tail_rec] else [].
Lemma tail_recs_wf : Forall ext2_rec_wf tail_recs ∧ zlen (ext2_block tail_recs) = csum ∧ listing tail_recs = [].
Proof.
  unfold tail_recs. destruct (has_feature_metadata_csum _); split_and!; try done.
  apply Forall_cons. split; [|done]. apply (bool_decide_eq_true_1 _). vm_compute. done.
Qed.
(** The end of a block of zeros becomes the entry of the checksum. *)
Lemma put_tail a n : zlen a + Z.of_nat n = bsz → csum ≤ Z.of_nat n →
  (if csum =? 0 then Ret (0, a ++ zeros n) else
   let? buf := put_bytes (bsz - 12) (ext2fs_initialize_dirent_tail bsz) (a ++ zeros n) in Ret (0, buf)) =
  Ret (0, a ++ zeros (n - Z.to_nat csum) ++ ext2_block tail_recs).
Proof.
  intros Hn Hc. unfold tail_recs, sizeof_dir_entry_tail in *. destruct (has_feature_metadata_csum (f_super fs)); cbn [Z.eqb].
  - assert (Ez : zeros n = zeros (n - Z.to_nat 12) ++ zeros 12 ++ []).
    { unfold zeros. rewrite app_nil_r, <- replicate_add. f_equal. lia. }
    rewrite Ez, (app_assoc a).
    assert (Et : ext2fs_initialize_dirent_tail bsz = ext2_block [tail_rec]).
    { unfold ext2fs_initialize_dirent_tail, ext2fs_set_rec_len. rewrite (proj2 (Z.ltb_ge bsz 12)) by lia.
      change (Z.shiftl 1 18) with 262144. rewrite (proj2 (Z.ltb_ge _ bsz)) by lia. done. }
    rewrite Et, put_bytes_mid by (done || rewrite length_app; unfold zeros; rewrite ?length_replicate; lia).
    cbn [obind]. by rewrite app_nil_r, <- app_assoc.
  - change (Z.to_nat 0) with 0%nat. rewrite Nat.sub_0_r. unfold ext2_block. cbn. by rewrite app_nil_r.
Qed.

Lemma new_dir_block_run dir parent : 0 < dir < 2 ^ 32 → 0 < parent < 2 ^ 32 →
  let r1 := MkExt2Rec dir ft (bs ".") [0; 0; 0] in
  let r2 := MkExt2Rec parent ft (bs "..") (zeros (Z.to_nat (bsz - csum - 22))) in
  ext2fs_new_dir_block fs dir parent = Ret (0, ext2_block (r1 :: r2 :: tail_recs)) ∧
  Forall ext2_rec_wf (r1 :: r2 :: tail_recs) ∧ zlen (ext2_block (r1 :: r2 :: tail_recs)) = bsz.
Proof.
  intros Hd Hp r1 r2. destruct tail_recs_wf as (Hwt & Hlt & _).
  assert (Hc : 0 ≤ csum ≤ 12 ∧ csum mod 4 = 0) by (unfold sizeof_dir_entry_tail; destruct (has_feature_metadata_csum _); split; done || lia).
  assert (Hft : is_byte ft ∧ 0 ≤ ft < 256) by (unfold is_byte, EXT2_FT_DIR; destruct (has_feature_filetype _); lia).
  assert (Hw1 : ext2_rec_wf r1).
  { unfold ext2_rec_wf, r1. cbn [r_inode r_type r_name r_slack]. split_and!; try first [done|lia|tauto]; apply (bool_decide_eq_true_1 _); vm_compute; done. }
  assert (Hz : zlen (zeros (Z.to_nat (bsz - csum - 22))) = bsz - csum - 22) by (unfold zeros; rewrite length_replicate; lia).
  assert (Hs2 : rec_size r2 = bsz - csum - 12) by (unfold rec_size, r2; cbn [r_name r_slack]; rewrite Hz; change (zlen (bs "..")) with 2; lia).
  assert (Hmod : (bsz - csum - 12) mod 4 = 0).
  { rewrite Zminus_mod, (Zminus_mod bsz csum), H4. destruct Hc as [_ ->]. done. }
  assert (Hw2 : ext2_rec_wf r2).
  { unfold ext2_rec_wf. rewrite Hs2. unfold r2. cbn [r_inode r_type r_name r_slack]. split_and!; try first [done|lia|tauto].
    - apply (bool_decide_eq_true_1 _); vm_compute; done.
    - apply Forall_replicate. unfold is_byte. lia. }
  split; [|split; [by repeat apply Forall_cons_2|]]; cycle 1.
  { rewrite !block_size, Hs2, Hlt. change (rec_size r1) with 12. lia. }
  unfold ext2fs_new_dir_block. rewrite Hmem. cbn [negb].
  set (n := Z.to_nat (bsz - 22)). assert (En : Z.to_nat bsz = (8 + (4 + (8 + (2 + n))))%nat) by lia. rewrite En.
  change (replicate (8 + (4 + (8 + (2 + n)))) 0) with (zeros (8 + (4 + (8 + (2 + n))))). rewrite zeros_raw.
  assert (Hmod2 : (bsz - csum) mod 4 = 0) by (rewrite Zminus_mod, H4; by destruct Hc as [_ ->]).
  at_start (store_len bsz [] 0 0 0 0 (zeros (4 + (8 + (2 + n)))) [] (bsz - csum) ltac:(lia) ltac:(lia) Hmod2).
  rewrite (proj2 (Z.eqb_neq dir 0)) by lia.
  at_start (put_inode [] [] 0 (bsz - csum) 0 0 (zeros (4 + (8 + (2 + n)))) dir).
  at_start (set_name_len_raw [] [] dir (bsz - csum) 0 0 (zeros (4 + (8 + (2 + n)))) ltac:(lia) ltac:(lia) 1 ltac:(lia)).
  at_start (set_file_type_raw [] [] dir (bsz - csum) 1 0 (zeros (4 + (8 + (2 + n)))) ltac:(lia) ltac:(lia) ft ltac:(lia)).
  at_start (put_body [] dir (bsz - csum) (name_word 1 ft) (zeros (4 + (8 + (2 + n)))) [] (bs ".") ltac:(unfold zeros; rewrite length_replicate; simpl; lia)).
  change (EXT2_DIR_REC_LEN 1) with 12. set (body := bs "." ++ drop _ _).
  at_start (put_len [] [] dir (bsz - csum) 1 ft body 12).
  at_start (raw_len [] [] dir 12 1 ft body ltac:(lia)).
  set (h := raw_rec dir 12 (name_word 1 ft) [46; 0; 0; 0]).
  assert (Eh : raw_rec dir 12 (name_word 1 ft) body = h ++ raw_rec 0 0 (name_word 0 0) (zeros (2 + n)) ++ []).
  { rewrite app_nil_r, <- zeros_raw. unfold h, raw_rec. by rewrite <- !app_assoc. }
  assert (Hh : 12 = zlen h) by (unfold h; by rewrite raw_rec_length). rewrite Eh, Hh.
  rewrite store_len by (lia || (rewrite <- Hh; replace (bsz - csum - 12) with (bsz - csum - 12) by lia; done)). cbn [obind].
  rewrite put_inode. cbn [obind]. rewrite set_name_len_raw by lia. cbn [obind]. rewrite set_file_type_raw by lia. cbn [obind].
  rewrite put_body by (unfold zeros; rewrite length_replicate; simpl; lia). cbn [obind].
  assert (Er : h ++ raw_rec parent (bsz - csum - zlen h) (name_word 2 ft) (bs ".." ++ drop (length (bs "..")) (zeros (2 + n))) ++ [] =
    (h ++ raw_rec parent (bsz - csum - 12) (name_word 2 ft) (bs "..")) ++ zeros n).
  { rewrite app_nil_r, <- Hh, <- app_assoc. unfold raw_rec. by rewrite <- !app_assoc. }
  rewrite Er, <- Hh, put_tail; [|rewrite length_app, Nat2Z.inj_add, raw_rec_length, <- Hh; change (zlen (bs "..")) with 2; lia|lia].
  do 2 f_equal. rewrite !block_cons, (encode_raw r1), (encode_raw r2), Hs2 by done. rewrite <- app_assoc. f_equal.
  unfold raw_rec. cbn [r2 r_inode r_name r_type r_slack]. rewrite <- !app_assoc. do 4 f_equal.
  replace (n - Z.to_nat csum)%nat with (Z.to_nat (bsz - csum - 22)) by lia. done.
Qed.

(** The block ext2fs_new_dir_block makes lists "." and "..", and ends with the entry of the
    checksum when the file system has checksums. *)
Theorem new_dir_block_lists dir parent : 0 < dir < 2 ^ 32 → 0 < parent < 2 ^ 32 →
  ∃ rs, ext2fs_new_dir_block fs dir parent = Ret (0, ext2_block rs) ∧ Forall ext2_rec_wf rs ∧
    zlen (ext2_block rs) = bsz ∧ listing rs = [(bs ".", dir, ft); (bs "..", parent, ft)] ∧
    (has_feature_metadata_csum (f_super fs) = true → ∃ t, last rs = Some t ∧ is_tail t).
Proof.
  intros Hd Hp. destruct (new_dir_block_run dir parent Hd Hp) as (E & Hw & Hs). cbv zeta in *.
  eexists. split; [exact E|]. split; [done|]. split; [done|]. split.
  - destruct tail_recs_wf as (_ & _ & Et). rewrite !listing_cons, Et. cbn [r_inode].
    by rewrite !(proj2 (Z.eqb_neq _ 0)) by lia.
  - intros Hcs. unfold tail_recs. rewrite Hcs. by exists tail_rec.
Qed.
End NewBlock.

(** ** A block of a directory as a list of entries *)
Inductive dir_op : Type :=
  | OpLink (nm : bytes) (ino fl : Z)
  | OpUnlink (nm : bytes) (ino fl : Z)
  | OpLookup (nm : bytes).
Definition dir_op_ok (op : dir_op) : Prop :=
  match op with
  | OpLink nm ino _ => Forall is_byte nm ∧ 1 ≤ zlen nm < 256 ∧ 0 < ino < 2 ^ 32
  | OpUnlink nm ino _ => nm ≠ [] ∧ 0 ≤ ino
  | OpLookup nm => nm ≠ []
  end.

(** The number of names linked or unlinked, the inode found or 0; [None] for a corrupted block. *)
Definition run_dir_op (fs : ext2_filsys) (buf : bytes) (op : dir_op) : outcome (option Z * bytes) :=
  match op with
  | OpLink nm ino fl =>
      let? '(r, buf, ls) := walk_block fs DIRENT_FLAG_INCLUDE_EMPTY (link_proc fs nm ino fl) buf (MkLink 0 0) in
      Ret (match r with WalkEnd _ _ => Some (ls_done ls) | WalkError _ => None end, buf)
  | OpUnlink nm ino fl =>
      let? '(r, buf, ls) := walk_block fs DIRENT_FLAG_INCLUDE_EMPTY (unlink_proc (Some nm) ino fl) buf (MkUnlink None 0) in
      Ret (match r with WalkEnd _ _ => Some (us_done ls) | WalkError _ => None end, buf)
  | OpLookup nm =>
      let? '(r, buf, found) := walk_block fs 0 (lookup_proc nm) buf None in
      Ret (match r with WalkEnd _ _ => Some (default 0 found) | WalkError _ => None end, buf)
  end.
Fixpoint run_dir_ops (fs : ext2_filsys) (buf : bytes) (ops : list dir_op) : outcome (list (option Z) * bytes) :=
  match ops with
  | [] => Ret ([], buf)
  | op :: ops =>
      let? '(r, buf) := run_dir_op fs buf op in
      let? '(rs, buf) := run_dir_ops fs buf ops in Ret (r :: rs, buf)
  end.

(** What the operations do to a list of entries: a new entry has some place in it. *)
Inductive dir_step (filetype : bool) (l : list dentry) : dir_op → Z → list dentry → Prop :=
  | step_linked nm ino fl l1 l2 ty : l = l1 ++ l2 → (filetype = true → ty = Z.land fl 7) →
      dir_step filetype l (OpLink nm ino fl) 1 (l1 ++ (nm, ino, ty) :: l2)
  | step_full nm ino fl : dir_step filetype l (OpLink nm ino fl) 0 l
  | step_unlink nm ino fl : dir_step filetype l (OpUnlink nm ino fl)
      (if existsb (unlinkable nm ino fl) l then 1 else 0) (remove_first (unlinkable nm ino fl) l)
  | step_lookup nm : dir_step filetype l (OpLookup nm)
      (match find (named nm) l with Some x => x.1.2 | None => 0 end) l.
Inductive dir_steps (filetype : bool) (l : list dentry) : list dir_op → list Z → list dentry → Prop :=
  | steps_nil : dir_steps filetype l [] [] l
  | steps_cons op ops r rs l1 l2 : dir_step filetype l op r l1 → dir_steps filetype l1 ops rs l2 →
      dir_steps filetype l (op :: ops) (r :: rs) l2.

(** The entries the parser of src/fs.c is to return. *)
Definition parsed_of (x : dentry) : my_dir_entry := MkEntry x.1.2 (zlen x.1.1) x.2 0 (x.1.1 ++ [0]).
Definition live_dentry (x : dentry) : bool := live_name x.1.1.
Lemma parsed_listing rs : ext2_entry <$> filter (fun r => ext2_live r = true) rs =
  parsed_of <$> filter (fun x => live_dentry x = true) (listing rs).
Proof.
  induction rs as [|r rs IH]; [done|]. rewrite listing_cons. unfold ext2_live, live_dentry in *.
  destruct (r_inode r =? 0) eqn:E0.
  - rewrite filter_cons_False by (by rewrite E0). exact IH.
  - destruct (live_name (r_name r)) eqn:El.
    + rewrite !filter_cons_True by (rewrite ?E0, ?El; done). cbn [fmap list_fmap]. by rewrite IH.
    + rewrite !filter_cons_False by (rewrite ?E0; cbn; by rewrite El). exact IH.
Qed.

Section Refine.
  Context `{Machine} (fs : ext2_filsys) (Hbs : f_blocksize fs < 65536).
  Abbreviation bsz := (f_blocksize fs).
  Abbreviation filetype := (has_feature_filetype (f_super fs)).

Lemma dir_op_step rs op : Forall ext2_rec_wf rs → zlen (ext2_block rs) = bsz → dir_op_ok op →
  ∃ r rs', run_dir_op fs (ext2_block rs) op = Ret (Some r, ext2_block rs') ∧ Forall ext2_rec_wf rs' ∧
    zlen (ext2_block rs') = bsz ∧ dir_step filetype (listing rs) op r (listing rs') ∧ keeps_tail fs rs rs'.
Proof.
  intros Hwf Hl Hop. assert (Hfuel : zlen (ext2_block rs) < Z.of_nat (tail_fuel bsz)) by (unfold tail_fuel; lia).
  destruct op as [nm ino fl|nm ino fl|nm]; unfold run_dir_op, walk_block.
  - destruct Hop as (Hb & Hn & Hi).
    destruct (walk_link_spec fs nm ino fl Hbs Hb Hn Hi (tail_fuel bsz) [] rs Hwf Hl Hfuel 0 DIRENT_DOT_FILE false)
      as (ch' & rs' & d & E & [Hw Hs Hli Hk _] & _).
    change (zlen []) with 0 in E. rewrite !app_nil_l in E. rewrite E. cbn [obind ls_done].
    eexists _, rs'. split; [done|]. split; [done|]. split; [by rewrite Hs|]. split; [|done].
    destruct d; [|rewrite Hli; constructor]. destruct Hli as (l1 & l2 & ty & -> & -> & Ht). by constructor.
  - destruct Hop as [Hne Hi].
    destruct (walk_unlink_spec bsz (if has_feature_metadata_csum (f_super fs) then sizeof_dir_entry_tail else 0) nm Hbs Hne ino fl
      (tail_fuel bsz) [] rs None 0 DIRENT_DOT_FILE) as (rs' & prev' & E & Hw & Hs & Hli & Ht & _); [done|done|by left|done|].
    change (zlen (ext2_block [])) with 0 in E. rewrite !app_nil_l in *. rewrite E. cbn [obind us_done].
    eexists _, rs'. split; [done|]. split; [done|]. split; [done|]. split; [|intros _; apply Ht].
    change (listing []) with ([] : list dentry) in Hli. rewrite Hli. constructor.
  - pose proof (walk_lookup_spec bsz (if has_feature_metadata_csum (f_super fs) then sizeof_dir_entry_tail else 0) nm Hbs Hop
      (tail_fuel bsz) [] rs 0 DIRENT_DOT_FILE Hwf Hl Hfuel) as E. cbv zeta in E.
    change (zlen []) with 0 in E. rewrite !app_nil_l in E. rewrite E. cbn [obind].
    eexists _, rs. split; [done|]. split; [done|]. split; [done|]. split; [|by intros ? t ?].
    pose proof (step_lookup filetype (listing rs) nm) as Hst. by destruct (find (named nm) (listing rs)).
Qed.

Lemma dir_ops_steps ops : ∀ rs, Forall ext2_rec_wf rs → zlen (ext2_block rs) = bsz → Forall dir_op_ok ops →
  ∃ res rs', run_dir_ops fs (ext2_block rs) ops = Ret (Some <$> res, ext2_block rs') ∧ Forall ext2_rec_wf rs' ∧
    zlen (ext2_block rs') = bsz ∧ dir_steps filetype (listing rs) ops res (listing rs') ∧ keeps_tail fs rs rs'.
Proof.
  induction ops as [|op ops IH]; intros rs Hwf Hl Hops.
  { exists [], rs. split; [done|]. split; [done|]. split; [done|]. split; [constructor|by intros ? t ?]. }
  apply Forall_cons in Hops as [Hop Hops]. destruct (dir_op_step rs op Hwf Hl Hop) as (r & rs1 & E1 & Hw1 & Hl1 & Hs1 & Hk1).
  destruct (IH rs1 Hw1 Hl1 Hops) as (res & rs2 & E2 & Hw2 & Hl2 & Hs2 & Hk2). cbn [run_dir_ops]. rewrite E1. cbn [obind].
  rewrite E2. cbn [obind]. exists (r :: res), rs2. split; [done|]. split; [done|]. split; [done|].
  split; [by econstructor|]. intros Hcs t Ht Hla. by apply Hk2, Hk1.
Qed.
End Refine.

(** ** Properties *)

(** C5. A block of a directory refines a list of entries.  On a block of well-formed records, any
    sequence of linkings, unlinkings and look-ups of names returns; a linking adds the entry
    or changes nothing, an unlinking removes the first entry it is meant for, a look-up gives
    the inode of the first entry of that name; the entry of the checksum stays in its place;
    and the parser of src/fs.c reads from the block exactly the entries that are left. *)
Theorem dir_block_refines `{Machine} fs rs ops :
  f_blocksize fs < 65536 → Forall ext2_rec_wf rs → zlen (ext2_block rs) = f_blocksize fs → Forall dir_op_ok ops →
  ∃ res rs', run_dir_ops fs (ext2_block rs) ops = Ret (Some <$> res, ext2_block rs') ∧ Forall ext2_rec_wf rs' ∧
    dir_steps (has_feature_filetype (f_super fs)) (listing rs) ops res (listing rs') ∧ keeps_tail fs rs rs' ∧
    dir_scan (dir_fuel (f_blocksize fs)) (ext2_step (ext2_block rs') (f_blocksize fs)) (f_blocksize fs - 8) 0 =
      Ret (parsed_of <$> filter (fun x => live_dentry x = true) (listing rs')).
Proof.
  intros Hbs Hwf Hl Hops. destruct (dir_ops_steps fs Hbs ops rs Hwf Hl Hops) as (res & rs' & E & Hw & Hs & Hst & Hk).
  exists res, rs'. split_and!; [done..|]. rewrite <- parsed_listing, <- Hs.
  apply (ext2_scan_encoded rs' [] (dir_fuel (zlen (ext2_block rs'))) Hw).
  unfold dir_fuel. pose proof (ext2_block_length rs' Hw). lia.
Qed.

(** C31. A name that is not linked has no room: every record of the block, but the entry of the
    checksum, is then too short for the name, next to the name it holds.  The block may have
    changed, unused records being absorbed by those before them, but not its entries. *)
Theorem link_refused_when_full fs rs nm ino fl buf :
  f_blocksize fs < 65536 → Forall ext2_rec_wf rs → zlen (ext2_block rs) = f_blocksize fs →
  dir_op_ok (OpLink nm ino fl) → run_dir_op fs (ext2_block rs) (OpLink nm ino fl) = Ret (Some 0, buf) →
  ∃ rs', buf = ext2_block rs' ∧ listing rs' = listing rs ∧ zlen (ext2_block rs') = zlen (ext2_block rs) ∧
    Forall (fun r => is_tail r ∨ no_room nm r) rs'.
Proof.
  intros Hbs Hwf Hl (Hb & Hn & Hi). unfold run_dir_op, walk_block.
  destruct (walk_link_spec fs nm ino fl Hbs Hb Hn Hi (tail_fuel (f_blocksize fs)) [] rs Hwf Hl ltac:(unfold tail_fuel; simpl; lia) 0 DIRENT_DOT_FILE false)
    as (ch' & rs' & d & E & [Hw Hs Hli Hk Hfull] & _).
  change (zlen []) with 0 in E. rewrite !app_nil_l in E. rewrite E. cbn [obind ls_done]. intros [= Ed <-].
  destruct d; [discriminate Ed|]. exists rs'. split; [done|]. split; [done|]. split; [done|]. by apply Hfull.
Qed.

(** ** Examples *)
Definition dir_fs : ext2_filsys := inode_fs 0x400 1.
(** The block of the directory 3, and some of the entries it is to hold. *)
Definition dir_sample : list ext2_rec :=
  [MkExt2Rec 3 2 (bs ".") [0; 0; 0]; MkExt2Rec 2 2 (bs "..") (zeros 990); tail_rec].
Example dir_sample_made : ext2fs_new_dir_block (H := small_machine) dir_fs 3 2 = Ret (0, ext2_block dir_sample).
Proof. vm_compute. reflexivity. Qed.
Lemma dir_sample_wf : Forall ext2_rec_wf dir_sample.
Proof. apply (bool_decide_eq_true_1 _). vm_compute. reflexivity. Qed.

Definition dir_sample_ops : list dir_op :=
  [OpLink (bs "a.ko") 12 1; OpLink (bs "b") 13 2; OpLookup (bs "a.ko"); OpUnlink (bs "a.ko") 12 0; OpLookup (bs "a.ko")].
Lemma dir_sample_ops_ok : Forall dir_op_ok dir_sample_ops.
Proof.
  repeat apply Forall_cons_2; try apply Forall_nil_2; try (split; [discriminate|vm_compute; discriminate]); try discriminate.
  all: split; [apply (bool_decide_eq_true_1 _); vm_compute; reflexivity|split; split; vm_compute; congruence].
Qed.

Lemma dir_block_refines_witness :
  ∃ rs', run_dir_ops dir_fs (ext2_block dir_sample) dir_sample_ops =
      Ret ([Some 1; Some 1; Some 12; Some 1; Some 0], ext2_block rs') ∧
    dir_steps true (listing dir_sample) dir_sample_ops [1; 1; 12; 1; 0] (listing rs') ∧ last rs' = Some tail_rec.
Proof.
  destruct (dir_block_refines (H := small_machine) dir_fs dir_sample dir_sample_ops) as (res & rs' & E & Hw & Hst & Ht & _).
  - reflexivity.
  - apply dir_sample_wf.
  - vm_compute. reflexivity.
  - apply dir_sample_ops_ok.
  - assert (Eo : match run_dir_ops dir_fs (ext2_block dir_sample) dir_sample_ops with
                 | Ret (r, _) => r = [Some 1; Some 1; Some 12; Some 1; Some 0] | _ => False end) by (vm_compute; reflexivity).
    rewrite E in Eo. do 5 (destruct res as [|? res]; [discriminate Eo|]). destruct res; [|discriminate Eo].
    injection Eo as -> -> -> -> ->. exists rs'. split; [exact E|]. split; [exact Hst|].
    apply (Ht eq_refl tail_rec); [repeat split|reflexivity].
Defined.

Lemma link_refused_when_full_witness :
  ∃ rs', ext2_block full_block = ext2_block rs' ∧ listing rs' = listing full_block ∧
    Forall (fun r => is_tail r ∨ no_room (bs "a.ko") r) rs'.
Proof.
  destruct (link_refused_when_full (inode_fs 0 1) full_block (bs "a.ko") 12 1 (ext2_block full_block))
    as (rs' & E & El & _ & Hf).
  - reflexivity.
  - apply (bool_decide_eq_true_1 _). vm_compute. reflexivity.
  - vm_compute. reflexivity.
  - split; [apply (bool_decide_eq_true_1 _); vm_compute; reflexivity|split; split; vm_compute; congruence].
  - vm_compute. reflexivity.
  - exists rs'. split; [exact E|]. split; [exact El|exact Hf].
Defined.

