(* ===== verification/DirDisk.v ===== *)
(** * Blocks of directories on the disk

    The walk of a block read from the device and written back with its checksum. *)
From S2P Require Export DirLink.
#[local] Open Scope Z_scope.

(** ** Blocks on the disk *)

(** The walk over the records that looks for the tail. *)
Lemma tail_loop_records fuel t : ∀ rs pre, Forall ext2_rec_wf rs → ext2_rec_wf t → (length rs < fuel)%nat →
  tail_loop fuel (zlen pre + zlen (ext2_block rs)) (zlen pre) (pre ++ ext2_block (rs ++ [t])) =
    Ret (inr (zlen pre + zlen (ext2_block rs))).
Proof.
  induction fuel as [|fuel IH]; intros rs pre Hwf Ht Hf; [lia|]. cbn [tail_loop].
  destruct rs as [|r rs]; [simpl; by rewrite Z.add_0_r, (proj2 (Z.leb_le _ _)) by lia|].
  apply Forall_cons in Hwf as [Hr Hwf]. pose proof (rec_size_pos r). rewrite block_size.
  rewrite (proj2 (Z.leb_gt _ (zlen pre))) by lia. cbn [app]. rewrite rec_len_at by done. cbn [obind].
  rewrite (proj2 (Z.ltb_ge _ 8)) by lia. change 3 with (Z.ones 2). rewrite Z.land_ones by lia. change (2 ^ 2) with 4.
  destruct Hr as (Hr1 & Hr2 & Hr3 & Hr4 & Hr5 & Hm & Hr6). rewrite Hm. cbn [orb negb Z.eqb].
  assert (Ez : zlen pre + rec_size r = zlen (pre ++ ext2_encode r)) by (by rewrite length_app, Nat2Z.inj_add, ext2_encode_length).
  rewrite Z.add_assoc, Ez, block_cons, (app_assoc pre). apply IH; [done|done|simpl in Hf; lia].
Qed.

Section OnDisk.
  Context `{Machine} {W : Type} `{IoChannel W} {bs : Z} `{!IoDisk bs W}.
  Context (gd : bytes) (fs : ext2_filsys) (Hr : inodes_ready bs fs gd) (Hmem : enough_memory fs) (Hbs : bs < 65536).
  Abbreviation meta := (has_feature_metadata_csum (f_super fs)).

(** The records of a block; with checksums, the last one holds the checksum. *)
Definition dir_records (rs : list ext2_rec) : Prop :=
  Forall ext2_rec_wf rs ∧ zlen (ext2_block rs) = bs ∧ (meta = true → ∃ t, last rs = Some t ∧ is_tail t).

Lemma tail_of rs : Forall ext2_rec_wf rs → zlen (ext2_block rs) = bs → (∃ t, last rs = Some t ∧ is_tail t) →
  ∃ rs0 t, rs = rs0 ++ [t] ∧ Forall ext2_rec_wf rs0 ∧ ext2_rec_wf t ∧ is_tail t ∧ zlen (ext2_block rs0) = bs - 12 ∧
    get_dirent_tail bs (ext2_block rs) = Ret (inr (bs - 12)).
Proof.
  intros Hwf Hl (t & Hlast & Ht). destruct (bs_facts gd fs Hr) as [Hk _]. apply last_Some in Hlast as [rs0 ->]. exists rs0, t.
  apply Forall_app in Hwf as [Hw0 Hwt%Forall_inv]. pose proof Ht as (Ei & En & Et & Es).
  rewrite block_app, length_app, Nat2Z.inj_add, block_size, Es in Hl. simpl in Hl. split_and!; try done; [lia|].
  unfold get_dirent_tail. rewrite (proj2 (Z.ltb_ge bs 1024)) by lia. 
  assert (Ez : bs - 12 = zlen ([] : bytes) + zlen (ext2_block rs0)) by (simpl; lia).
  pose proof (tail_loop_records (tail_fuel bs) t rs0 [] Hw0 Hwt) as Eloop. rewrite <- Ez in Eloop. change (zlen (@nil Z)) with 0 in Eloop.
  rewrite app_nil_l in Eloop. rewrite Eloop; cycle 1.
  { pose proof (ext2_block_length rs0 Hw0). unfold tail_fuel. lia. }
  cbn [obind]. rewrite (proj2 (Z.ltb_ge bs (bs - 12))), Z.eqb_refl by lia. cbn [negb]. 
  rewrite block_app. replace (bs - 12) with (zlen (ext2_block rs0)) by lia.
  pose proof (rec_inode (ext2_block rs0) t [] Hwt) as E1. pose proof (rec_len_at (ext2_block rs0) t [] Hwt) as E2.
  pose proof (rec_word (ext2_block rs0) t [] Hwt) as E3. unfold de_inode, de_rec_len, de_name_len in *.
  rewrite E1, E2, E3. cbn [obind]. rewrite Ei, En, Et, Es. done.
Qed.

(** The checksum stored in the tail. *)
Definition with_csum (v : Z) (t : ext2_rec) : ext2_rec := MkExt2Rec 0 0xDE [] (le_split 4 v).
Lemma set_tail rs0 t v : ext2_rec_wf t → is_tail t → zlen (ext2_block rs0) = bs - 12 → 16 ≤ bs →
  set_fld 4 (Z.to_nat (bs - 4)) v (ext2_block (rs0 ++ [t])) = ext2_block (rs0 ++ [with_csum v t]) ∧
  ext2_rec_wf (with_csum v t) ∧ is_tail (with_csum v t).
Proof.
  intros Hw (Ei & En & Et & Es) Hl H16.
  assert (Hv : ext2_rec_wf (with_csum v t)).
  { unfold ext2_rec_wf, with_csum, rec_size. cbn [r_inode r_type r_name r_slack]. rewrite le_split_length.
    split_and!; try done. apply le_split_bytes. }
  split; [|split; [done|by split_and!]]. rewrite !block_app. change (ext2_block [?x]) with (ext2_encode x ++ []). rewrite !app_nil_r.
  rewrite (encode_raw t), (encode_raw (with_csum v t)) by done. rewrite Ei, En, Et, Es. unfold raw_rec. cbn [with_csum r_inode r_name r_type r_slack].
  change (rec_size (with_csum v t)) with (8 + zlen (@nil Z) + zlen (le_split 4 v)). rewrite le_split_length.
  assert (Hsl : length (r_slack t) = 4%nat) by (unfold rec_size in Es; rewrite En in Es; simpl in Es; lia).
  rewrite !app_nil_l. set (h := le_split 4 0 ++ le_split 2 12 ++ le_split 2 (name_word (zlen (@nil Z)) 222)).
  rewrite <- (app_nil_r (r_slack t)). 
  assert (E : ext2_block rs0 ++ le_split 4 0 ++ le_split 2 12 ++ le_split 2 (name_word (zlen (@nil Z)) 222) ++ r_slack t ++ [] =
    (ext2_block rs0 ++ h) ++ r_slack t ++ []) by (unfold h; by rewrite <- !app_assoc).
  rewrite E, set_fld_parts; [|rewrite length_app; unfold h; rewrite !length_app, !le_split_length; lia|done].
  unfold h. rewrite app_nil_r, <- !app_assoc. done.
Qed.

Lemma icache_super ic : f_super (set_icache ic fs) = f_super fs.
Proof. done. Qed.

(** The checksum of a block of records is verified: the run, whatever it finds. *)
Lemma verify_run ino rs ic e seed fs2 (s1 s2 : state W) : dir_records rs →
  inode_seed (set_icache ic fs) ino s1 = Ret ((e, seed, fs2), s2) →
  ∃ ok fs', ext2fs_dir_block_csum_verify (set_icache ic fs) ino (ext2_block rs) s1 = Ret ((ok, fs'), if meta then s2 else s1) ∧
    fs' = (if meta then fs2 else set_icache ic fs) ∧ (ok = true → meta = true → e = 0).
Proof.
  intros (Hw & Hl & Ht) E. unfold ext2fs_dir_block_csum_verify. rewrite icache_super, (icache_bs gd fs Hr).
  destruct meta; cbn [negb]; [|by exists true, (set_icache ic fs)].
  destruct (bs_facts gd fs Hr) as [Hk _].
  destruct (tail_of rs Hw Hl (Ht eq_refl)) as (rs0 & t & -> & Hw0 & Hwt & Hist & Hl0 & Etail). rewrite Etail, bind_lift.
  unfold ext2fs_dirent_csum_verify. rewrite (icache_bs gd fs Hr), Etail, bind_lift.
  destruct (slice_is_Some 0 (bs - 12) (ext2_block (rs0 ++ [t]))) as [x Ex]; [lia..|].
  rewrite (bind_eq _ _ _ _ _ (dirent_csum_run ino _ _ _ _ _ _ _ _ _ E Ex)).
  destruct (Z.eqb_spec e 0) as [->|]; cbn [negb]; [|by exists false, fs2].
  destruct (at_off_total 4 (bs - 12 + 8) (ext2_block (rs0 ++ [t]))) as (v & Ev & _); [lia..|by apply block_bytes|].
  rewrite Ev, bind_lift. by eexists _, fs2.
Qed.

(** With the inode in the cache, a block of records is given its checksum, and verifies. *)
Lemma set_run ino rs ic seed : dir_records rs → word seed →
  (meta = true → ∀ t : state W, inode_seed (set_icache ic fs) ino t = Ret ((0, seed, set_icache ic fs), t)) →
  ∃ rs', dir_records rs' ∧ listing rs' = listing rs ∧ ∀ t : state W,
    ext2fs_dir_block_csum_set (set_icache ic fs) ino (ext2_block rs) t = Ret ((0, ext2_block rs', set_icache ic fs), t) ∧
    ext2fs_dir_block_csum_verify (set_icache ic fs) ino (ext2_block rs') t = Ret ((true, set_icache ic fs), t).
Proof.
  intros Hrec Hw Hseed. pose proof Hrec as (Hwf & Hl & Ht). unfold ext2fs_dir_block_csum_set, ext2fs_dir_block_csum_verify.
  rewrite icache_super, (icache_bs gd fs Hr). unfold dir_records.
  destruct meta eqn:Em; cbn [negb]; [|by exists rs].
  destruct (bs_facts gd fs Hr) as [Hk _]. specialize (Hseed eq_refl).
  destruct (tail_of rs Hwf Hl (Ht eq_refl)) as (rs0 & t & -> & Hw0 & Hwt & Hist & Hl0 & Etail).
  destruct (slice_is_Some 0 (bs - 12) (ext2_block (rs0 ++ [t]))) as [x Ex]; [lia..|].
  assert (Hx : Forall is_byte x) by (by eapply slice_bytes; [apply block_bytes|done]).
  set (crc := crc32c seed x). destruct (set_tail rs0 t crc Hwt Hist Hl0) as (Eset & Hwv & Htv); [lia|].
  assert (Hl' : zlen (ext2_block (rs0 ++ [with_csum crc t])) = bs).
  { rewrite <- Eset, set_fld_length by lia. done. }
  assert (Hw' : Forall ext2_rec_wf (rs0 ++ [with_csum crc t])) by (apply Forall_app; split; [done|by apply Forall_cons_2]).
  exists (rs0 ++ [with_csum crc t]). split; [|split].
  { split; [done|]. split; [done|]. intros _. exists (with_csum crc t). split; [apply last_snoc|done]. }
  { rewrite !listing_app, !listing_cons. destruct Hist as (-> & _). done. }
  intros s. destruct (tail_of _ Hw' Hl') as (rs1 & t1 & E1 & _ & _ & _ & _ & Etail').
  { exists (with_csum crc t). split; [apply last_snoc|done]. }
  rewrite Etail, Etail', !bind_lift. unfold ext2fs_dirent_csum_set, ext2fs_dirent_csum_verify.
  rewrite (icache_bs gd fs Hr), Etail, Etail', !bind_lift.
  rewrite (bind_eq _ _ _ _ _ (dirent_csum_run ino _ _ _ _ _ _ _ _ _ (Hseed s) Ex)). cbn [negb Z.eqb].
  rewrite put_at_run by lia. replace (bs - 12 + 8) with (bs - 4) by lia. fold crc. rewrite Eset, bind_lift. split; [done|].
  assert (Ex' : slice 0 (bs - 12) (ext2_block (rs0 ++ [with_csum crc t])) = Some x).
  { rewrite <- Eset. rewrite slice_set_fld; [done|lia..]. }
  rewrite (bind_eq _ _ _ _ _ (dirent_csum_run ino _ _ _ _ _ _ _ _ _ (Hseed s) Ex')). cbn [negb Z.eqb]. fold crc.
  rewrite <- Eset, at_off_put, bind_lift, Z.eqb_refl; [done|lia..|by apply crc32c_word].
Qed.

Lemma sys_eq {A} (call : W → A * W) s a w : call (st_os s) = (a, w) → sys call s = Ret (a, set_os w s).
Proof. intros E. unfold sys. by rewrite E. Qed.

(** Reading a block of records; on success the seed of its checksum is known from then on. *)
Lemma read_dir_block_run blk ino rs s : icache_inv fs gd (st_os s) → inode_ok fs ino →
  ext2fs_inode_csum_verify fs ino (disk_inode fs gd (st_os s) ino) = true →
  has (f_flags fs) EXT2_FLAG_IGNORE_CSUM_ERRORS = false → disk (st_os s) blk = ext2_block rs → dir_records rs →
  ∃ e b ic w, ext2fs_read_dir_block4 fs blk ino s = Ret ((e, b, set_icache ic fs), set_os w s) ∧ disk w = disk (st_os s) ∧
    (e = 0 → b = ext2_block rs ∧ ∃ seed, word seed ∧
       (meta = true → ∀ t : state W, inode_seed (set_icache ic fs) ino t = Ret ((0, seed, set_icache ic fs), t))).
Proof.
  intros Hinv Hi Hgood Hign Hblk Hrec. unfold ext2fs_read_dir_block4. destruct (ir_blocksize _ _ _ Hr) as (Ebs & _). rewrite Ebs.
  assert (Hself : fs = set_icache (f_icache fs) fs) by (by destruct fs).
  destruct (io_read_blk64 bs blk 1 (st_os s)) as [[e d] w] eqn:Er. destruct (disk_read _ _ _ _ _ Er) as [Ed He].
  rewrite (bind_eq _ _ _ _ _ (sys_eq _ _ _ _ Er)). destruct (Z.eqb_spec e 0) as [->|]; cbn [negb]; cycle 1.
  { exists e, d, (f_icache fs), w. rewrite <- Hself. done. }
  rewrite Hign. specialize (He eq_refl). subst d.
  assert (Hinv' : icache_inv fs gd (st_os (set_os w s))).
  { unfold icache_inv in *. destruct (f_icache fs) as [c|]; [|done]. by apply (cache_ok_disk _ _ (st_os s)). }
  assert (Hgood' : ext2fs_inode_csum_verify fs ino (disk_inode fs gd (st_os (set_os w s)) ino) = true).
  { unfold disk_inode in *. simpl. by rewrite Ed. }
  destruct (inode_seed_run gd fs Hr Hmem ino (set_os w s) Hinv' Hi Hgood') as (e & seed & ic & w' & Es & Ed' & Hword & Hagain).
  assert (Es' : inode_seed (set_icache (f_icache fs) fs) ino (set_os w s) = Ret ((e, seed, set_icache ic fs), set_os w' (set_os w s)))
    by (by rewrite <- Hself).
  destruct (verify_run ino rs (f_icache fs) e seed (set_icache ic fs) _ _ Hrec Es') as (ok & fs' & Ev & -> & Hok).
  rewrite <- Hself in Ev. rewrite Hblk, (bind_eq _ _ _ _ _ Ev). simpl in Ed'. destruct meta eqn:Em.
  - exists (if ok then 0 else EXT2_ET_DIR_CSUM_INVALID), (ext2_block rs), ic, w'. split; [by destruct s|]. split; [by rewrite Ed'|].
    destruct ok; [|done]. intros _. rewrite (Hok eq_refl eq_refl) in Hagain. split; [done|]. exists seed. split; [done|]. intros _. by apply Hagain.
  - exists (if ok then 0 else EXT2_ET_DIR_CSUM_INVALID), (ext2_block rs), (f_icache fs), w. split; [by rewrite <- Hself|]. split; [done|].
    intros _. split; [done|]. by exists seed.
Qed.
End OnDisk.

(** C7. Linking a name in a block on the disk: ext2fs_process_dir_block with link_proc returns
    whatever the disk answers.  When it reports no error, the block holds well-formed records
    whose entries are those of before, with the new one in some place when a name was linked;
    every other block is as it was; and a block with a new name has a checksum that verifies. *)
Theorem process_links_name `{Machine} {W} `{IoChannel W} {bs} `{!IoDisk bs W} gd fs dir blk blockcnt rs nm ino fl (s : state W) :
  inodes_ready bs fs gd → enough_memory fs → bs < 65536 → icache_inv (bs := bs) fs gd (st_os s) → inode_ok fs dir →
  ext2fs_inode_csum_verify fs dir (disk_inode (bs := bs) fs gd (st_os s) dir) = true →
  has (f_flags fs) EXT2_FLAG_IGNORE_CSUM_ERRORS = false → 0 ≤ blk → 0 ≤ blockcnt →
  disk (bs := bs) (st_os s) blk = ext2_block rs → dir_records (bs := bs) fs rs → dir_op_ok (OpLink nm ino fl) →
  ∃ r fs' ctx s', ext2fs_process_dir_block fs blk blockcnt (link_proc fs nm ino fl)
      (MkDirCtx dir DIRENT_FLAG_INCLUDE_EMPTY [] 0 0 (MkLink 0 0)) s = Ret ((r, fs', ctx), s') ∧
    (dc_errcode ctx = 0 → ∃ rs' d, disk (bs := bs) (st_os s') blk = ext2_block rs' ∧ dir_records (bs := bs) fs rs' ∧
       linked fs nm ino fl d (listing rs) (listing rs') ∧ ls_done (dc_priv ctx) = (if d then 1 else 0) ∧
       (∀ b, b ≠ blk → disk (bs := bs) (st_os s') b = disk (bs := bs) (st_os s) b) ∧
       (d = true → r = BLOCK_ABORT ∧
          ∀ t : state W, ext2fs_dir_block_csum_verify fs' dir (ext2_block rs') t = Ret ((true, fs'), t))).
Proof.
  intros Hr Hmem H64 Hinv Hi Hgood Hign Hblk Hcnt Hdisk Hrec (Hnm & Hnml & Hino).
  pose proof Hrec as (Hwf & Hl & Htail). destruct (bs_facts gd fs Hr) as [Hk _].
  destruct (read_dir_block_run gd fs Hr Hmem blk dir rs s Hinv Hi Hgood Hign Hdisk Hrec) as (e & b & ic & w & E & Ed & Hok).
  unfold ext2fs_process_dir_block. rewrite (proj2 (Z.ltb_ge blockcnt 0)) by done. cbn [dc_flags dc_dir dc_buflen dc_priv dc_errcode].
  change (has DIRENT_FLAG_INCLUDE_EMPTY DIRENT_FLAG_INCLUDE_INLINE_DATA) with false. cbv iota zeta.
  rewrite (bind_eq _ _ _ _ _ E). cbn [negb andb]. destruct (Z.eqb_spec e 0) as [->|He]; cbn [negb]; cycle 1.
  { eexists _, _, _, _. split; [done|]. done. }
  destruct (Hok eq_refl) as (-> & seed & Hseed & Hagain). rewrite (icache_bs gd fs Hr), icache_super.
  rewrite (proj2 (Z.ltb_ge bs 8)) by lia.
  assert (Hbz : f_blocksize fs = bs) by apply (ir_blocksize _ _ _ Hr).
  destruct (walk_link_spec fs nm ino fl ltac:(lia) Hnm Hnml Hino (tail_fuel bs) [] rs Hwf ltac:(rewrite Hbz; done)
    ltac:(unfold tail_fuel; lia) 0 (if blockcnt =? 0 then DIRENT_DOT_FILE else DIRENT_OTHER_FILE) false)
    as (ch & rs1 & d & Ew & [Hw1 Hs1 Hli1 Hk1 _] & Hdch & Hsame & _).
  change (zlen (@nil Z)) with 0 in Ew. rewrite !app_nil_l, Hbz in Ew. rewrite Ew, bind_lift.
  destruct ch; cbn [negb]; cycle 1.
  { eexists _, _, _, _. split; [done|]. intros _. exists rs1, d. rewrite (Hsame eq_refl) in *. simpl. rewrite Ed.
    split; [done|]. split; [done|]. split; [done|]. split; [done|]. split; [done|]. intros ->. by specialize (Hdch eq_refl). }
  assert (Hrec1 : dir_records (bs := bs) fs rs1).
  { split; [done|]. split; [by rewrite Hs1|]. intros Em. destruct (Htail Em) as (t & Hlast & Ht). exists t. split; [|done]. by apply (Hk1 Em). }
  destruct (set_run gd fs Hr dir rs1 ic seed Hrec1 Hseed Hagain) as (rs2 & Hrec2 & Hli2 & Hset).
  unfold ext2fs_write_dir_block4. rewrite bind_assoc.
  rewrite (bind_eq _ _ _ _ _ (proj1 (Hset _))). cbn [negb Z.eqb]. rewrite bind_assoc, (icache_bs gd fs Hr).
  destruct (io_write_blk64 bs blk 1 (ext2_block rs2) (st_os (set_os w s))) as [e2 w2] eqn:Ewr.
  rewrite (bind_eq _ _ _ _ _ (sys_eq _ _ _ _ Ewr)). 
  rewrite bind_ret_l. cbv beta iota. eexists _, _, _, _. split; [reflexivity|]. cbn [dc_errcode dc_priv]. intros ->.
  exists rs2, d. pose proof Hrec2 as (Hw2 & Hl2 & _).
  assert (Hwrite := disk_write blk (ext2_block rs2) _ w2 Hblk Hl2 (block_bytes rs2 Hw2) Ewr). cbn [st_os set_os] in Hwrite.
  split; [cbn [st_os set_os]; by rewrite Hwrite, Z.eqb_refl|]. split; [done|]. split; [by rewrite Hli2|]. split; [done|]. split.
  - intros b Hb. cbn [st_os set_os]. rewrite Hwrite, (proj2 (Z.eqb_neq b blk)), Ed by done. done.
  - intros ->. split; [done|]. intros t. by destruct (Hset t).
Qed.

(** The device of InodeIo with that directory, and its checksum, in the block 6. *)
Definition dir_csum : Z :=
  match ext2fs_dirent_csum (H := small_machine) (H0 := byte_channel) dir_fs 3 (ext2_block dir_sample) 1012 (dev_state csum_device) with
  | Ret (_, crc, _, _) => crc | _ => 0 end.
Definition dir_on_disk : list ext2_rec :=
  [MkExt2Rec 3 2 (bs ".") [0; 0; 0]; MkExt2Rec 2 2 (bs "..") (zeros 990); with_csum dir_csum tail_rec].
Definition dir_device : bytes := take 6144 csum_device ++ ext2_block dir_on_disk ++ drop 7168 csum_device.

Lemma process_links_name_witness :
  ∃ fs' ctx s', ext2fs_process_dir_block (H := small_machine) (H0 := byte_channel) dir_fs 6 0 (link_proc dir_fs (bs "a.ko") 5 1)
      (MkDirCtx 3 DIRENT_FLAG_INCLUDE_EMPTY [] 0 0 (MkLink 0 0)) (dev_state dir_device) = Ret ((BLOCK_ABORT, fs', ctx), s') ∧
    ∃ rs', disk (H := byte_channel) (bs := 1024) (st_os s') 6 = ext2_block rs' ∧
      linked dir_fs (bs "a.ko") 5 1 true (listing dir_on_disk) (listing rs') ∧
      ∀ t, ext2fs_dir_block_csum_verify (H := small_machine) (H0 := byte_channel) fs' 3 (ext2_block rs') t = Ret ((true, fs'), t).
Proof.
  destruct (process_links_name (H := small_machine) (H0 := byte_channel) (bs := 1024) inode_gd dir_fs 3 6 0 dir_on_disk (bs "a.ko") 5 1
    (dev_state dir_device)) as (r & fs' & ctx & s' & E & Hok).
  - apply inode_fs_ready; [by right|reflexivity].
  - split; reflexivity.
  - reflexivity.
  - reflexivity.
  - vm_compute. split; discriminate.
  - vm_compute. reflexivity.
  - reflexivity.
  - discriminate.
  - discriminate.
  - vm_compute. reflexivity.
  - split; [apply (bool_decide_eq_true_1 _); vm_compute; reflexivity|]. split; [vm_compute; reflexivity|].
    intros _. eexists. split; [reflexivity|]. repeat split.
  - split; [apply (bool_decide_eq_true_1 _); vm_compute; reflexivity|split; split; vm_compute; congruence].
  - assert (Eo : match ext2fs_process_dir_block (H := small_machine) (H0 := byte_channel) dir_fs 6 0 (link_proc dir_fs (bs "a.ko") 5 1)
        (MkDirCtx 3 DIRENT_FLAG_INCLUDE_EMPTY [] 0 0 (MkLink 0 0)) (dev_state dir_device) with
      | Ret (_, _, ctx, _) => dc_errcode ctx = 0 ∧ ls_done (dc_priv ctx) = 1 | _ => False end) by (vm_compute; split; reflexivity).
    rewrite E in Eo. destruct Eo as [Ee Edone]. destruct (Hok Ee) as (rs' & d & Ed & _ & Hl & Hd & _ & Hver).
    destruct d; [|rewrite Edone in Hd; discriminate Hd]. destruct (Hver eq_refl) as [-> Hv].
    exists fs', ctx, s'. split; [exact E|]. exists rs'. split; [exact Ed|]. split; [exact Hl|exact Hv].
Defined.
