(* ===== verification/BlockIter.v ===== *)
(** * The block iterator: e2fsprogs/lib/ext2fs/block.c

    ext2fs_block_iterate3 calls a function on the blocks of an inode, direct ones,
    those under one, two and three levels of blocks of block numbers, or those of a
    tree of extents.  The function may change the number of a block, and stops the
    iteration with BLOCK_ABORT. *)
From S2P Require Export Ext2Fs.
#[local] Open Scope Z_scope.

Section Iter.
  Context `{Machine} {W Hd P : Type} `{Ext2Fs W Hd}.

(** [struct block_context]: what the iteration changes, the private data of the
    function included. *)
Record block_context : Type := MkCtx { bcount : Z; errcode : Z; priv_data : P }.

Definition add_bcount (n : Z) (ctx : block_context) : block_context :=
  MkCtx (bcount ctx + n) (errcode ctx) (priv_data ctx).
Definition set_errcode (e : Z) (ctx : block_context) : block_context :=
  MkCtx (bcount ctx) e (priv_data ctx).

(** The function: block, block count, referring block, offset in it and private data
    to its result, the block and the private data. *)
Definition block_func : Type := Z → Z → Z → Z → P → prog W (Z * Z * P).

Context (flags : Z) (func : block_func).

(** A call through [ctx->func] whose block is read from and stored to a [blk_t]. *)
Definition call_func (blk count ref_block ref_offset : Z) (ctx : block_context) :
    prog W (Z * Z * block_context) :=
  let! '(r, blk, p) := func blk count ref_block ref_offset (priv_data ctx) in
  ret (r, u32 blk, MkCtx (bcount ctx) (errcode ctx) p).

(** The test of check_for_ro_violation. *)
Definition ro_violation (r : Z) : bool := has flags BLOCK_FLAG_READ_ONLY && has r BLOCK_CHANGED.

Definition limit : Z := Z.shiftr fs_blocksize 2.

(** What a loop over a block of numbers leaves: the numbers, [changed], the bits to
    add to [ret] and the context. *)
Definition map_result : Type := (list Z * Z * Z * block_context)%type.

(** The loops of block_iterate_ind; only with BLOCK_FLAG_APPEND are the zeros shown. *)
Fixpoint ind_loop (block_nr : list Z) (ind_block offset changed : Z) (ctx : block_context) :
    prog W map_result :=
  match block_nr with
  | [] => ret ([], changed, 0, ctx)
  | b :: block_nr =>
      if negb (has flags BLOCK_FLAG_APPEND) && (b =? 0) then
        let! '(bs, changed, add, ctx) :=
          ind_loop block_nr ind_block (offset + 4) changed (add_bcount 1 ctx) in
        ret (b :: bs, changed, add, ctx)
      else
      let! '(r, b, ctx) := call_func b (bcount ctx) ind_block offset ctx in
      let changed := Z.lor changed r in
      if has r BLOCK_ABORT then ret (b :: block_nr, changed, BLOCK_ABORT, ctx) else
      let! '(bs, changed, add, ctx) :=
        ind_loop block_nr ind_block (offset + 4) changed (add_bcount 1 ctx) in
      ret (b :: bs, changed, add, ctx)
  end.

(** What the three levels share: [count] is the block count the map block is shown
    with, [bad] the error of an impossible number, [whole] the number of blocks under
    it and [loop] the loop over its numbers. *)
Definition iterate_map (count bad whole : Z)
    (loop : list Z → Z → Z → Z → block_context → prog W map_result)
    (blk ref_block ref_offset : Z) (ctx : block_context) : prog W (Z * Z * block_context) :=
  let! '(r, blk, ctx) :=
    (if negb (has flags BLOCK_FLAG_DEPTH_TRAVERSE) && negb (has flags BLOCK_FLAG_DATA_ONLY)
     then call_func blk count ref_block ref_offset ctx else ret (0, blk, ctx)) in
  if ro_violation r then
    ret (Z.lor r (Z.lor BLOCK_ABORT BLOCK_ERROR), blk, set_errcode EXT2_ET_RO_BLOCK_ITERATE ctx)
  else if (blk =? 0) || has r BLOCK_ABORT then ret (r, blk, add_bcount whole ctx)
  else if (fs_blocks_count <=? blk) || (blk <? fs_first_data_block) then
    ret (Z.lor r BLOCK_ERROR, blk, set_errcode bad ctx)
  else
  let! '(e, block_nr) := sys (sys_read_ind blk) in
  let ctx := set_errcode e ctx in
  if negb (e =? 0) then ret (Z.lor r BLOCK_ERROR, blk, ctx) else
  let! '(block_nr, changed, add, ctx) := loop block_nr blk 0 0 ctx in
  let r := Z.lor r add in
  if ro_violation changed then
    ret (Z.lor changed (Z.lor BLOCK_ABORT BLOCK_ERROR), blk,
         set_errcode EXT2_ET_RO_BLOCK_ITERATE ctx)
  else
  let! '(r, ctx) :=
    (if has changed BLOCK_CHANGED then
       let! e := sys (sys_write_ind blk block_nr) in
       ret (if e =? 0 then r else Z.lor r (Z.lor BLOCK_ERROR BLOCK_ABORT), set_errcode e ctx)
     else ret (r, ctx)) in
  let! '(r, blk, ctx) :=
    (if has flags BLOCK_FLAG_DEPTH_TRAVERSE && negb (has flags BLOCK_FLAG_DATA_ONLY)
        && negb (has r BLOCK_ABORT)
     then let! '(r', blk, ctx) := call_func blk count ref_block ref_offset ctx in
          ret (Z.lor r r', blk, ctx)
     else ret (r, blk, ctx)) in
  if ro_violation r then
    ret (Z.lor r (Z.lor BLOCK_ABORT BLOCK_ERROR), blk, set_errcode EXT2_ET_RO_BLOCK_ITERATE ctx)
  else ret (r, blk, ctx).

Definition block_iterate_ind : Z → Z → Z → block_context → prog W (Z * Z * block_context) :=
  iterate_map BLOCK_COUNT_IND EXT2_ET_BAD_IND_BLOCK limit ind_loop.

(** The loops of block_iterate_dind and block_iterate_tind: [skip] blocks under a zero,
    for which the offset is not advanced. *)
Fixpoint level_loop (skip : Z)
    (iterate : Z → Z → Z → block_context → prog W (Z * Z * block_context))
    (block_nr : list Z) (map_block offset changed : Z) (ctx : block_context) : prog W map_result :=
  match block_nr with
  | [] => ret ([], changed, 0, ctx)
  | b :: block_nr =>
      if negb (has flags BLOCK_FLAG_APPEND) && (b =? 0) then
        let! '(bs, changed, add, ctx) :=
          level_loop skip iterate block_nr map_block offset changed (add_bcount skip ctx) in
        ret (b :: bs, changed, add, ctx)
      else
      let! '(r, b, ctx) := iterate b map_block offset ctx in
      let changed := Z.lor changed r in
      if has r (Z.lor BLOCK_ABORT BLOCK_ERROR)
      then ret (b :: block_nr, changed, Z.land r (Z.lor BLOCK_ABORT BLOCK_ERROR), ctx)
      else
      let! '(bs, changed, add, ctx) :=
        level_loop skip iterate block_nr map_block (offset + 4) changed ctx in
      ret (b :: bs, changed, add, ctx)
  end.

Definition block_iterate_dind : Z → Z → Z → block_context → prog W (Z * Z * block_context) :=
  iterate_map BLOCK_COUNT_DIND EXT2_ET_BAD_DIND_BLOCK (limit * limit)
    (level_loop limit block_iterate_ind).

Definition block_iterate_tind : Z → Z → Z → block_context → prog W (Z * Z * block_context) :=
  iterate_map BLOCK_COUNT_TIND EXT2_ET_BAD_TIND_BLOCK (limit * limit * limit)
    (level_loop (limit * limit) block_iterate_dind).

(** ** Files mapped by extents

    The blocks [blk], [blk + 1], ... of an extent, [k] of them: [ret], whether to leave
    for extent_done, the cursor, the block count and the context. *)
Fixpoint extent_blocks_loop (k : nat) (blk blockcnt uninit ret_ : Z) (handle : Hd)
    (ctx : block_context) : prog W (Z * bool * Hd * Z * block_context) :=
  match k with
  | O => ret (ret_, false, handle, blockcnt, ctx)
  | S k =>
      let! '(r, new_blk, p) := func blk blockcnt 0 0 (priv_data ctx) in
      let ctx := MkCtx (bcount ctx) (errcode ctx) p in
      let ret_ := Z.lor ret_ r in
      if ro_violation ret_ then
        ret (Z.lor ret_ (Z.lor BLOCK_ABORT BLOCK_ERROR), true, handle, blockcnt,
             set_errcode EXT2_ET_RO_BLOCK_ITERATE ctx)
      else
      let! '(handle, ctx) :=
        (if has r BLOCK_CHANGED then
           let! '(e, handle) := sys (sys_extent_set_bmap handle blockcnt new_blk uninit) in
           ret (handle, set_errcode e ctx)
         else ret (handle, ctx)) in
      if has r BLOCK_CHANGED && negb (errcode ctx =? 0)
      then ret (ret_, true, handle, blockcnt, ctx)
      else if has ret_ BLOCK_ABORT then ret (ret_, true, handle, blockcnt, ctx)
      else extent_blocks_loop k (u64 (blk + 1)) (blockcnt + 1) uninit ret_ handle ctx
  end.

(** The blocks a function appends to the file after its last extent. *)
Fixpoint append_loop (fuel : nat) (blockcnt ret_ : Z) (handle : Hd) (ctx : block_context) :
    prog W (Z * Hd * block_context) :=
  match fuel with
  | O => spin
  | S fuel =>
      let! '(r, blk, p) := func 0 blockcnt 0 0 (priv_data ctx) in
      let ctx := MkCtx (bcount ctx) (errcode ctx) p in
      let ret_ := Z.lor ret_ r in
      if ro_violation ret_ then
        ret (Z.lor ret_ (Z.lor BLOCK_ABORT BLOCK_ERROR), handle,
             set_errcode EXT2_ET_RO_BLOCK_ITERATE ctx)
      else if has r BLOCK_CHANGED then
        let! '(e, handle) := sys (sys_extent_set_bmap handle blockcnt blk 0) in
        let ctx := set_errcode e ctx in
        if negb (e =? 0) || has ret_ BLOCK_ABORT then ret (ret_, handle, ctx)
        else if negb (blk =? 0) then append_loop fuel (blockcnt + 1) ret_ handle ctx
        else ret (ret_, handle, ctx)
      else ret (ret_, handle, ctx)
  end.

(** A block of the tree itself is shown on its first visit, or on its second with
    BLOCK_FLAG_DEPTH_TRAVERSE. *)
Definition node_shown (extent : ext2fs_extent) : bool :=
  let second := has (e_flags extent) EXT2_EXTENT_FLAGS_SECOND_VISIT in
  let depth := has flags BLOCK_FLAG_DEPTH_TRAVERSE in
  (negb second && negb depth) || (second && depth).

(** [extent] is the one at hand when [op] is EXT2_EXTENT_CURRENT. *)
Fixpoint extents_loop (fuel : nat) (handle : Hd) (op : Z) (extent : ext2fs_extent)
    (blockcnt ret_ : Z) (ctx : block_context) : prog W (Z * block_context) :=
  match fuel with
  | O => spin
  | S fuel =>
      let! '(e, extent, handle) :=
        (if op =? EXT2_EXTENT_CURRENT then ret (0, extent, handle)
         else sys (sys_extent_get handle op)) in
      let ctx := set_errcode e ctx in
      if negb (e =? 0) then
        if negb (e =? EXT2_ET_EXTENT_NO_NEXT) then ret (ret_, ctx) else
        let ctx := set_errcode 0 ctx in
        if negb (has flags BLOCK_FLAG_APPEND) then ret (ret_, ctx) else
        let! '(ret_, _, ctx) := append_loop fuel blockcnt ret_ handle ctx in
        ret (ret_, ctx)
      else
      let op := EXT2_EXTENT_NEXT in
      let blk := e_pblk extent in
      if negb (has (e_flags extent) EXT2_EXTENT_FLAGS_LEAF) then
        if has flags BLOCK_FLAG_DATA_ONLY then
          extents_loop fuel handle op extent blockcnt ret_ ctx
        else if node_shown extent then
          let! '(r, blk, p) := func blk (-1) 0 0 (priv_data ctx) in
          let ctx := MkCtx (bcount ctx) (errcode ctx) p in
          let ret_ := Z.lor ret_ r in
          let! '(extent, handle, ctx) :=
            (if has ret_ BLOCK_CHANGED then
               let extent := MkExtent blk (e_lblk extent) (e_len extent) (e_flags extent) in
               let! '(e, handle) := sys (sys_extent_replace handle extent) in
               ret (extent, handle, set_errcode e ctx)
             else ret (extent, handle, ctx)) in
          if has ret_ BLOCK_CHANGED && negb (errcode ctx =? 0) then ret (ret_, ctx)
          else if has ret_ BLOCK_ABORT then ret (ret_, ctx)
          else extents_loop fuel handle op extent blockcnt ret_ ctx
        else extents_loop fuel handle op extent blockcnt ret_ ctx
      else
      let uninit := if has (e_flags extent) EXT2_EXTENT_FLAGS_UNINIT
                    then EXT2_EXTENT_SET_BMAP_UNINIT else 0 in
      let! '(retval, next, handle) := sys (sys_extent_get handle op) in
      if u64 (e_lblk extent + e_len extent) <=? u64 blockcnt then
        extents_loop fuel handle op extent blockcnt ret_ ctx
      else
      let blockcnt := if u64 blockcnt <? e_lblk extent then e_lblk extent else blockcnt in
      let j := u32 (blockcnt - e_lblk extent) in
      let! '(ret_, out, handle, blockcnt, ctx) :=
        extent_blocks_loop (Z.to_nat (e_len extent)) (u64 (blk + j)) (e_lblk extent) uninit ret_
          handle ctx in
      if out : bool then ret (ret_, ctx)
      else if retval =? 0 then extents_loop fuel handle EXT2_EXTENT_CURRENT next blockcnt ret_ ctx
      else extents_loop fuel handle op extent blockcnt ret_ ctx
  end.

(** ** The whole *)

(** The direct blocks, with their index; [None] in the second place when the function
    aborts. *)
Fixpoint direct_loop (i_blocks : list Z) (i ret_ : Z) (ctx : block_context) :
    prog W (list Z * Z * bool * block_context) :=
  match i_blocks with
  | [] => ret ([], ret_, false, ctx)
  | b :: i_blocks =>
      if negb (b =? 0) || has flags BLOCK_FLAG_APPEND then
        let! '(r, b, ctx) := call_func b (bcount ctx) 0 i ctx in
        let ret_ := Z.lor ret_ r in
        if has ret_ BLOCK_ABORT then ret (b :: i_blocks, ret_, true, ctx) else
        let! '(bs, ret_, out, ctx) := direct_loop i_blocks (i + 1) ret_ (add_bcount 1 ctx) in
        ret (b :: bs, ret_, out, ctx)
      else
        let! '(bs, ret_, out, ctx) := direct_loop i_blocks (i + 1) ret_ (add_bcount 1 ctx) in
        ret (b :: bs, ret_, out, ctx)
  end.

(** [if (inode.i_block[i] || (flags & BLOCK_FLAG_APPEND)) ret |= iterate(...); else
    ctx.bcount += whole]: the number, [ret] and the context. *)
Definition root_block (iterate : Z → Z → Z → block_context → prog W (Z * Z * block_context))
    (b i whole ret_ : Z) (ctx : block_context) : prog W (Z * Z * block_context) :=
  if negb (b =? 0) || has flags BLOCK_FLAG_APPEND then
    let! '(r, b, ctx) := iterate b 0 i ctx in ret (b, Z.lor ret_ r, ctx)
  else ret (b, ret_, add_bcount whole ctx).

(** The blocks under the inode: its 15 numbers, [ret] and the context. *)
Definition iterate_blocks (i_block : list Z) (ret_ : Z) (ctx : block_context) :
    prog W (list Z * Z * block_context) :=
  match drop 12 i_block with
  | ind :: dind :: tind :: rest =>
      let! '(direct, ret_, out, ctx) := direct_loop (take 12 i_block) 0 ret_ ctx in
      if out : bool then ret (direct ++ ind :: dind :: tind :: rest, ret_, ctx) else
      if ro_violation ret_ then
        ret (direct ++ ind :: dind :: tind :: rest,
             Z.lor ret_ (Z.lor BLOCK_ABORT BLOCK_ERROR), set_errcode EXT2_ET_RO_BLOCK_ITERATE ctx)
      else
      let! '(ind, ret_, ctx) := root_block block_iterate_ind ind EXT2_IND_BLOCK limit ret_ ctx in
      if has ret_ BLOCK_ABORT then ret (direct ++ ind :: dind :: tind :: rest, ret_, ctx) else
      let! '(dind, ret_, ctx) :=
        root_block block_iterate_dind dind EXT2_DIND_BLOCK (limit * limit) ret_ ctx in
      if has ret_ BLOCK_ABORT then ret (direct ++ ind :: dind :: tind :: rest, ret_, ctx) else
      let! '(tind, ret_, ctx) := root_block block_iterate_tind tind EXT2_TIND_BLOCK 0 ret_ ctx in
      ret (direct ++ ind :: dind :: tind :: rest, ret_, ctx)
  | _ => undef
  end.


(** [abort_exit], then [errout]: the error code that is returned. *)
Definition finish_iterate (ino : Z) (inode : ext2_inode) (ret_ : Z) (ctx : block_context) :
    prog W (Z * P) :=
  let! '(ret_, ctx) :=
    (if has ret_ BLOCK_CHANGED then
       let! retval := sys (sys_write_inode ino inode) in
       ret (if retval =? 0 then (ret_, ctx)
            else (Z.lor ret_ BLOCK_ERROR, set_errcode retval ctx))
     else ret (ret_, ctx)) in
  ret (if has ret_ BLOCK_ERROR then errcode ctx else 0, priv_data ctx).

Definition set_i_block (inode : ext2_inode) (l : list Z) : ext2_inode :=
  MkInode (i_mode inode) (i_flags inode) (i_size inode) (i_size_high inode) l (h_i_translator inode).
Definition set_translator (inode : ext2_inode) (t : Z) : ext2_inode :=
  MkInode (i_mode inode) (i_flags inode) (i_size inode) (i_size_high inode) (i_block inode) t.

(** [fuel] bounds the visits of a tree of extents. *)
Definition ext2fs_block_iterate3 (fuel : nat) (ino : Z) (p : P) : prog W (Z * P) :=
  if negb fs_magic_ok then ret (EXT2_ET_MAGIC_EXT2FS_FILSYS, p) else
  let! '(e, inode) := sys (sys_read_inode ino) in
  if negb (e =? 0) then ret (e, p) else
  if has (i_flags inode) EXT4_INLINE_DATA_FL then ret (EXT2_ET_INLINE_DATA_CANT_ITERATE, p) else
  if has flags BLOCK_FLAG_NO_LARGE && negb (LINUX_S_ISDIR (i_mode inode))
     && negb (i_size_high inode =? 0) then ret (EXT2_ET_FILE_TOO_BIG, p) else
  if negb (mem_ok (3 * fs_blocksize)) then ret (EXT2_ET_NO_MEMORY, p) else
  let ctx := MkCtx 0 0 p in
  let! '(inode, ret_, ctx) :=
    (if fs_hurd && negb (has flags BLOCK_FLAG_DATA_ONLY) && negb (h_i_translator inode =? 0) then
       let! '(r, t, ctx) := call_func (h_i_translator inode) BLOCK_COUNT_TRANSLATOR 0 0 ctx in
       ret (set_translator inode t, r, ctx)
     else ret (inode, 0, ctx)) in
  if has ret_ BLOCK_ABORT then finish_iterate ino inode ret_ ctx else
  if ro_violation ret_ then
    finish_iterate ino inode (Z.lor ret_ (Z.lor BLOCK_ABORT BLOCK_ERROR))
      (set_errcode EXT2_ET_RO_BLOCK_ITERATE ctx)
  else
  if has (i_flags inode) EXT4_EXTENTS_FL then
    let! '(e, handle) := sys (sys_extent_open ino) in
    let ctx := set_errcode e ctx in
    if negb (e =? 0) then finish_iterate ino inode ret_ ctx else
    let! '(_, ctx) :=
      extents_loop fuel handle EXT2_EXTENT_ROOT (MkExtent 0 0 0 0) 0 ret_ ctx in
    ret (errcode ctx, priv_data ctx)
  else
  let! '(l, ret_, ctx) := iterate_blocks (i_block inode) ret_ ctx in
  finish_iterate ino (set_i_block inode l) ret_ ctx.

End Iter.
Arguments block_context P : clear implicits.
Arguments block_func W P : clear implicits.

(** ** The older interfaces

    [xlate64_func] and [xlate_func] pass a function of 32-bit numbers through the
    wider interface. *)
Section Xlate.
  Context `{Machine} {W Hd P : Type} `{Ext2Fs W Hd}.

Definition xlate64_func (func : block_func W P) : block_func W P :=
  fun blocknr blockcnt ref_blk ref_offset p =>
    let! '(r, block32, p) := func (u32 blocknr) blockcnt (u32 ref_blk) ref_offset p in
    ret (r, u32 block32, p).

Definition ext2fs_block_iterate2 (flags : Z) (func : block_func W P) (fuel : nat) (ino : Z)
    (p : P) : prog W (Z * P) :=
  ext2fs_block_iterate3 flags (xlate64_func func) fuel ino p.

Definition xlate_func (func : Z → Z → P → prog W (Z * Z * P)) : block_func W P :=
  fun blocknr blockcnt _ _ p => func blocknr (i32 blockcnt) p.

Definition ext2fs_block_iterate (flags : Z) (func : Z → Z → P → prog W (Z * Z * P)) (fuel : nat)
    (ino : Z) (p : P) : prog W (Z * P) :=
  ext2fs_block_iterate2 (Z.lor BLOCK_FLAG_NO_LARGE flags) (xlate_func func) fuel ino p.

End Xlate.

(** ** What a file mapped by blocks is

    [disk b] are the numbers in the block [b]; the number 0 stands for a hole. *)
Section Map.
  Context `{Machine} {W Hd : Type} `{Ext2Fs W Hd}.
  Context (disk : Z → list Z).

(** A tree of [n] levels of blocks of numbers. *)
Fixpoint map_wf (n : nat) (b : Z) : Prop :=
  match n with
  | O => 0 ≤ b < 2 ^ 32
  | S n => b = 0 ∨
      (0 < b < 2 ^ 32 ∧ fs_first_data_block ≤ b < fs_blocks_count ∧
       zlen (disk b) = limit ∧ Forall (map_wf n) (disk b))
  end.

#[export] Instance map_wf_dec n : ∀ b, Decision (map_wf n b).
Proof. induction n as [|n IH]; intros b; simpl; apply _. Defined.

(** How many blocks of the file are under it, and which. *)
Definition span (n : nat) : Z := limit ^ Z.of_nat n.
Fixpoint file_blocks (n : nat) (b : Z) : list Z :=
  match n with
  | O => [b]
  | S n => if b =? 0 then replicate (Z.to_nat (span (S n))) 0
           else concat (file_blocks n <$> disk b)
  end.

(** The blocks of a file with their number in it, holes left out. *)
Definition indexed (off : Z) (bs : list Z) : list (Z * Z) :=
  filter (fun v => v.1 ≠ 0) (zip bs (seqZ off (zlen bs))).

(** The calls of the function on a tree whose first block has the number [off], each
    block of numbers before what it maps. *)
Definition visits_list (visits : Z → Z → list (Z * Z)) (step : Z) : Z → list Z → list (Z * Z) :=
  fix go off bs := match bs with [] => [] | b :: bs => visits off b ++ go (off + step) bs end.
Fixpoint visits (n : nat) (off b : Z) : list (Z * Z) :=
  if b =? 0 then [] else
  match n with
  | O => [(b, off)]
  | S n => (b, - Z.of_nat (S n)) :: visits_list (visits n) (span n) off (disk b)
  end.

(** A file: twelve blocks and three trees. *)
Inductive inode_map : list Z → list Z → Z → Z → Z → Prop :=
  | IMap direct ind dind tind :
      zlen direct = 12 → Forall (map_wf 0) direct → map_wf 1 ind → map_wf 2 dind →
      map_wf 3 tind → inode_map (direct ++ [ind; dind; tind]) direct ind dind tind.

Definition inode_blocks (direct : list Z) (ind dind tind : Z) : list Z :=
  direct ++ file_blocks 1 ind ++ file_blocks 2 dind ++ file_blocks 3 tind.
Definition inode_visits (direct : list Z) (ind dind tind : Z) : list (Z * Z) :=
  visits_list (visits 0) 1 0 direct ++ visits 1 12 ind ++ visits 2 (12 + limit) dind ++
  visits 3 (12 + limit + limit * limit) tind.

(** The calls on blocks of the file itself. *)
Definition data_visits (vs : list (Z * Z)) : list (Z * Z) := filter (fun v => 0 ≤ v.2) vs.

Lemma indexed_app off a b : indexed off (a ++ b) = indexed off a ++ indexed (off + zlen a) b.
Proof.
  unfold indexed. rewrite length_app, Nat2Z.inj_add, seqZ_app by lia.
  rewrite zip_with_app by (rewrite length_seqZ; lia). by rewrite filter_app.
Qed.

Lemma indexed_cons off b bs : indexed off (b :: bs) = indexed off [b] ++ indexed (off + 1) bs.
Proof. apply (indexed_app off [b] bs). Qed.

Lemma indexed_one off b : indexed off [b] = if b =? 0 then [] else [(b, off)].
Proof.
  unfold indexed. change (seqZ off (zlen [b])) with [0 + off]. simpl zip.
  destruct (Z.eqb_spec b 0) as [->|]; [by rewrite filter_cons_False by (simpl; lia)|].
  by rewrite filter_cons_True by (simpl; lia).
Qed.

Lemma indexed_zeros off k : indexed off (replicate k 0) = [].
Proof.
  revert off. induction k as [|k IH]; intros off; [done|].
  by rewrite replicate_S, indexed_cons, IH.
Qed.

Context (Hlimit : 0 ≤ limit).

Lemma span_S n : span (S n) = limit * span n.
Proof. unfold span. rewrite Nat2Z.inj_succ, Z.pow_succ_r by lia. done. Qed.
Lemma span_nonneg n : 0 ≤ span n.
Proof. unfold span. by apply Z.pow_nonneg. Qed.

Lemma file_blocks_length n b : map_wf n b → zlen (file_blocks n b) = span n.
Proof.
  revert b. induction n as [|n IH]; intros b; simpl; [done|].
  intros [->|(Hb & _ & Hlen & Hwf)].
  { simpl. rewrite length_replicate. pose proof (span_nonneg (S n)). lia. }
  rewrite (proj2 (Z.eqb_neq _ _)), span_S, <- Hlen by lia. clear Hlen.
  induction Hwf as [|c bs Hc _ IHbs]; [done|].
  rewrite fmap_cons, concat_cons, length_app. specialize (IH c Hc). simpl length. lia.
Qed.

(** The calls on data are the blocks of the file, under their numbers. *)
Lemma visits_data n b off :
  0 ≤ off → map_wf n b → data_visits (visits n off b) = indexed off (file_blocks n b).
Proof.
  revert b off. induction n as [|n IH]; intros b off Hoff Hwf.
  - cbn [file_blocks visits]. rewrite indexed_one. destruct (b =? 0); [done|].
    unfold data_visits. by rewrite filter_cons_True by done.
  - destruct Hwf as [->|(Hb & _ & Hlen & Hwf)].
    { cbn [visits file_blocks]. rewrite Z.eqb_refl. by rewrite indexed_zeros. }
    cbn [visits file_blocks]. rewrite (proj2 (Z.eqb_neq b 0)) by lia.
    unfold data_visits. rewrite filter_cons_False by (simpl; lia). clear Hlen.
    revert off Hoff. induction Hwf as [|c bs Hc _ IHbs]; intros off Hoff; [done|].
    rewrite fmap_cons, concat_cons, indexed_app, (file_blocks_length n c Hc). simpl.
    rewrite filter_app. f_equal; [by apply IH|].
    apply IHbs. pose proof (span_nonneg n). lia.
Qed.

Lemma visits_data_list direct off :
  0 ≤ off → Forall (map_wf 0) direct →
  data_visits (visits_list (visits 0) 1 off direct) = indexed off direct.
Proof.
  intros Hoff Hwf. revert off Hoff. induction Hwf as [|b bs Hb _ IH]; intros off Hoff; [done|].
  rewrite indexed_cons. simpl. unfold data_visits in *. rewrite filter_app, IH by lia.
  f_equal. by apply (visits_data 0 b off).
Qed.

Lemma inode_visits_data l direct ind dind tind :
  inode_map l direct ind dind tind →
  data_visits (inode_visits direct ind dind tind) =
  indexed 0 (inode_blocks direct ind dind tind).
Proof.
  intros [d i dd t Hlen Hdir Hi Hdd Ht]. unfold inode_visits, inode_blocks.
  rewrite !indexed_app, !file_blocks_length, Hlen by done. unfold data_visits.
  rewrite !filter_app. fold (data_visits (visits_list (visits 0) 1 0 d)).
  assert (0 ≤ limit * limit) by nia.
  rewrite visits_data_list by (done || lia).
  pose proof (visits_data 1 i 12) as E1. pose proof (visits_data 2 dd (12 + limit)) as E2.
  pose proof (visits_data 3 t (12 + limit + limit * limit)) as E3. unfold data_visits in *.
  rewrite E1, E2, E3 by (done || lia).
  do 3 f_equal; unfold span; simpl; lia || (f_equal; unfold span; simpl; lia).
Qed.

End Map.

(** ** Going through the map of a file

    A function that may stop the iteration, and change what it runs on.  [Q p s seen]: the
    private data and the state are what they may be after the calls [seen]; [D p s]: after a
    call that stopped the iteration.  [V] are the calls on the whole file.  The function keeps
    the numbers it is shown, and the blocks of the map stay what they are. *)
Section Stopping.
  Context `{Machine} {W Hd P : Type} `{Ext2Fs W Hd}.
  Context (disk : Z → list Z) (func : block_func W P).
  Context (Q : P → state W → list (Z * Z) → Prop) (D : P → state W → Prop) (V : list (Z * Z)).
  Context (Hread : ∀ b c p (s : state W) seen, seen `prefix_of` V → (b, c) ∈ seen → c < 0 →
             fs_first_data_block ≤ b < fs_blocks_count → Q p s seen →
             ∃ s', sys (sys_read_ind b) s = Ret ((0, disk b), s') ∧ Q p s' seen).
  Context (Hfunc : ∀ b count ref off p s seen, seen ++ [(b, count)] `prefix_of` V → 0 < b < 2 ^ 32 → Q p s seen →
             ∃ r p' s', func b count ref off p s = Ret ((r, b, p'), s') ∧
               (r = 0 ∧ Q p' s' (seen ++ [(b, count)]) ∨ r = BLOCK_ABORT ∧ D p' s')).
  Context (Hlimit : 0 ≤ limit).
  Notation flags := BLOCK_FLAG_READ_ONLY.
  Notation ctx_t := (block_context P).
  Notation wf := (map_wf disk).
  Notation seq := (visits disk).

(** After the calls [vs] on top of [seen], or one of them that stopped. *)
Definition after (seen vs : list (Z * Z)) (n r : Z) (ctx ctx' : ctx_t) (s' : state W) : Prop :=
  r = 0 ∧ bcount ctx' = bcount ctx + n ∧ Q (priv_data ctx') s' (seen ++ vs) ∨
  r = BLOCK_ABORT ∧ D (priv_data ctx') s'.
(** What [iterate] does on a tree of [n] levels, and [loop] on a list of them. *)
Definition tree_ok (n : nat) (iterate : Z → Z → Z → ctx_t → prog W (Z * Z * ctx_t)) : Prop :=
  ∀ b ref off ctx s seen, 0 < b → wf n b → seen ++ seq n (bcount ctx) b `prefix_of` V → Q (priv_data ctx) s seen →
    ∃ r ctx' s', iterate b ref off ctx s = Ret ((r, b, ctx'), s') ∧
      after seen (seq n (bcount ctx) b) (span n) r ctx ctx' s'.
Definition list_ok (n : nat)
    (loop : list Z → Z → Z → Z → ctx_t → prog W (list Z * Z * Z * ctx_t)) : Prop :=
  ∀ bs blk off ctx s seen, Forall (wf n) bs → seen ++ visits_list (seq n) (span n) (bcount ctx) bs `prefix_of` V →
    Q (priv_data ctx) s seen →
    ∃ r ctx' s', loop bs blk off 0 ctx s = Ret ((bs, r, r, ctx'), s') ∧
      after seen (visits_list (seq n) (span n) (bcount ctx) bs) (zlen bs * span n) r ctx ctx' s'.

Lemma call_func_ok b count ref off (ctx : ctx_t) s seen :
  0 < b < 2 ^ 32 → seen ++ [(b, count)] `prefix_of` V → Q (priv_data ctx) s seen →
  ∃ r ctx' s', call_func func b count ref off ctx s = Ret ((r, b, ctx'), s') ∧
    after seen [(b, count)] 0 r ctx ctx' s'.
Proof.
  intros Hb HV HQ. destruct (Hfunc b count ref off _ _ _ HV Hb HQ) as (r & p' & s' & Hf & Hok).
  eexists r, _, s'. unfold call_func. rewrite (bind_eq _ _ _ _ _ Hf). unfold ret. rewrite u32_small by lia.
  split; [done|]. destruct Hok as [[-> ?]|[-> ?]]; [left|by right]. simpl. by rewrite Z.add_0_r.
Qed.

Lemma map_wf_nonneg n b : wf n b → 0 ≤ b.
Proof. destruct n; simpl; [lia|intros [->|[? _]]; lia]. Qed.
Lemma seq_zero n off : seq n off 0 = [].
Proof. by destruct n. Qed.

Lemma after_step seen vs1 vs2 n1 n2 r ctx ctx1 ctx2 s2 :
  bcount ctx1 = bcount ctx + n1 →
  after (seen ++ vs1) vs2 n2 r ctx1 ctx2 s2 → after seen (vs1 ++ vs2) (n1 + n2) r ctx ctx2 s2.
Proof.
  intros B1 [(-> & B2 & Q2)|?]; [left|by right]. rewrite <- app_assoc in Q2. split; [done|]. split; [lia|done].
Qed.
Lemma after_abort seen vs n ctx ctx' s' : D (priv_data ctx') s' → after seen vs n BLOCK_ABORT ctx ctx' s'.
Proof. by right. Qed.
Lemma after_none seen ctx s : Q (priv_data ctx) s seen → after seen [] 0 0 ctx ctx s.
Proof. left. rewrite app_nil_r. split; [done|]. split; [lia|done]. Qed.
(** The calls on the rest of a list, after those on its head. *)
Lemma after_cons n (f : Z → Z → list (Z * Z)) seen b (bs : list Z) r ctx ctx1 ctx2 s2 :
  bcount ctx1 = bcount ctx + n →
  after (seen ++ f (bcount ctx) b) (visits_list f n (bcount ctx1) bs) (zlen bs * n) r ctx1 ctx2 s2 →
  after seen (visits_list f n (bcount ctx) (b :: bs)) (zlen (b :: bs) * n) r ctx ctx2 s2.
Proof.
  intros B1 Ha. cbn [visits_list]. rewrite B1 in Ha.
  replace (zlen (b :: bs) * n) with (n + zlen bs * n) by (simpl length; lia). by apply (after_step _ _ _ _ _ _ _ ctx1).
Qed.

Ltac stopped := eexists _, _, _; split; [reflexivity|by apply after_abort].

Lemma ind_loop_ok : list_ok 0 (ind_loop flags func).
Proof.
  intros bs blk off ctx s seen Hwf. revert off ctx s seen.
  induction Hwf as [|b bs Hb _ IH]; intros off ctx s seen HV HQ.
  { eexists 0, ctx, s. split; [done|]. by apply after_none. }
  cbn [ind_loop]. change (has flags BLOCK_FLAG_APPEND) with false. cbn [negb andb].
  cbn [visits_list] in HV. change (span 0) with 1 in *. rewrite app_assoc in HV.
  destruct (Z.eqb_spec b 0) as [->|Hnz].
  - destruct (IH (off + 4) (add_bcount 1 ctx) s (seen ++ seq 0 (bcount ctx) 0)) as (r & ctx' & s' & Hrun & Ha); [done|by rewrite seq_zero, app_nil_r|].
    eexists r, ctx', s'. rewrite (bind_eq _ _ _ _ _ Hrun). split; [done|].
    by apply (after_cons 1 (seq 0) seen 0 bs r ctx (add_bcount 1 ctx)).
  - cbn [visits] in *. rewrite (proj2 (Z.eqb_neq b 0)) in * by done. simpl in Hb.
    destruct (call_func_ok b (bcount ctx) blk off ctx s seen) as (r & ctx1 & s1 & Hcall & [(-> & B1 & Q1)|[-> HD]]);
      [lia|by eapply prefix_app_l|done| |]; rewrite (bind_eq _ _ _ _ _ Hcall); [|stopped].
    change (has 0 BLOCK_ABORT) with false. cbv iota.
    destruct (IH (off + 4) (add_bcount 1 ctx1) s1 (seen ++ [(b, bcount ctx)])) as (r & ctx' & s' & Hrun & Ha).
    { simpl. by rewrite B1, Z.add_0_r. } { done. }
    eexists r, ctx', s'. rewrite (bind_eq _ _ _ _ _ Hrun). split; [done|].
    apply (after_cons 1 (seq 0) seen b bs r ctx (add_bcount 1 ctx1)); [simpl; lia|]. cbn [visits]. by rewrite (proj2 (Z.eqb_neq b 0)).
Qed.

Lemma level_loop_ok n iterate : tree_ok n iterate → list_ok n (level_loop flags (span n) iterate).
Proof.
  intros Hit bs blk off ctx s seen Hwf. revert off ctx s seen.
  induction Hwf as [|b bs Hb _ IH]; intros off ctx s seen HV HQ.
  { eexists 0, ctx, s. split; [done|]. by apply after_none. }
  cbn [level_loop]. change (has flags BLOCK_FLAG_APPEND) with false. cbn [negb andb].
  cbn [visits_list] in HV. rewrite app_assoc in HV.
  destruct (Z.eqb_spec b 0) as [->|Hnz].
  - destruct (IH off (add_bcount (span n) ctx) s (seen ++ seq n (bcount ctx) 0)) as (r & ctx' & s' & Hrun & Ha); [done|by rewrite seq_zero, app_nil_r|].
    eexists r, ctx', s'. rewrite (bind_eq _ _ _ _ _ Hrun). split; [done|].
    by apply (after_cons (span n) (seq n) seen 0 bs r ctx (add_bcount (span n) ctx)).
  - assert (Hpos : 0 < b) by (apply map_wf_nonneg in Hb; lia).
    destruct (Hit b blk off ctx s seen) as (r & ctx1 & s1 & Hcall & [(-> & B1 & Q1)|[-> HD]]);
      [done|done|by eapply prefix_app_l|done| |]; rewrite (bind_eq _ _ _ _ _ Hcall); [|stopped].
    change (has 0 (Z.lor BLOCK_ABORT BLOCK_ERROR)) with false. cbv iota.
    destruct (IH (off + 4) ctx1 s1 (seen ++ seq n (bcount ctx) b)) as (r & ctx' & s' & Hrun & Ha); [by rewrite B1|done|].
    eexists r, ctx', s'. rewrite (bind_eq _ _ _ _ _ Hrun). split; [done|]. by apply (after_cons (span n) (seq n) seen b bs r ctx ctx1).
Qed.

Lemma iterate_map_ok n bad loop :
  list_ok n loop → tree_ok (S n) (iterate_map flags func (- Z.of_nat (S n)) bad (span (S n)) loop).
Proof.
  intros Hloop b ref off ctx s seen Hpos Hwf. cbn [visits].
  rewrite (proj2 (Z.eqb_neq b 0)) by lia. intros HV HQ. rewrite cons_middle, app_assoc in HV.
  destruct Hwf as [->|(Hb & Hrange & Hlen & Hwf)]; [lia|].
  unfold iterate_map. change (negb (has flags BLOCK_FLAG_DEPTH_TRAVERSE) && _) with true. cbv iota.
  destruct (call_func_ok b (- Z.of_nat (S n)) ref off ctx s seen) as (r & ctx1 & s1 & Hcall & [(-> & B1 & Q1)|[-> HD]]);
    [lia|by eapply prefix_app_l|done| |]; rewrite (bind_eq _ _ _ _ _ Hcall);
    [|change (ro_violation flags BLOCK_ABORT) with false; change (has BLOCK_ABORT BLOCK_ABORT) with true; cbv iota; rewrite orb_true_r; stopped].
  change (ro_violation flags 0) with false. change (has 0 BLOCK_ABORT) with false. cbv iota.
  rewrite (proj2 (Z.eqb_neq b 0)), (proj2 (Z.leb_gt _ _)), (proj2 (Z.ltb_ge _ _)) by lia. cbn [orb].
  destruct (Hread b (- Z.of_nat (S n)) (priv_data ctx1) s1 (seen ++ [(b, - Z.of_nat (S n))])) as (s2 & Er & Q2);
    [by eapply prefix_app_l|set_solver|lia|done|done|].
  rewrite (bind_eq _ _ _ _ _ Er). cbn [negb Z.eqb].
  destruct (Hloop (disk b) b 0 (set_errcode 0 ctx1) s2 (seen ++ [(b, - Z.of_nat (S n))])) as (r & ctx' & s' & Hrun & Ha);
    [done|simpl; by rewrite B1, Z.add_0_r|done|]. rewrite (bind_eq _ _ _ _ _ Hrun).
  assert (Hr : r = 0 ∨ r = BLOCK_ABORT) by (destruct Ha as [(-> & _)|[-> _]]; auto).
  exists r, ctx', s'. split; [by destruct Hr as [-> | ->]|].
  replace (span (S n)) with (0 + zlen (disk b) * span n) by (rewrite span_S, Hlen; lia).
  simpl in Ha. rewrite B1, Z.add_0_r in Ha. apply (after_step seen [_] _ 0 _ r ctx (set_errcode 0 ctx1)); [done|]. done.
Qed.

Lemma limit_span : limit = span 1.
Proof. unfold span. simpl. lia. Qed.

Lemma ind_ok : tree_ok 1 (block_iterate_ind flags func).
Proof.
  unfold block_iterate_ind. rewrite limit_span. apply (iterate_map_ok 0), ind_loop_ok.
Qed.
Lemma dind_ok : tree_ok 2 (block_iterate_dind flags func).
Proof.
  unfold block_iterate_dind. rewrite limit_span.
  replace (span 1 * span 1) with (span 2) by (unfold span; simpl; lia).
  apply (iterate_map_ok 1), level_loop_ok, ind_ok.
Qed.
Lemma tind_ok : tree_ok 3 (block_iterate_tind flags func).
Proof.
  unfold block_iterate_tind. rewrite limit_span.
  replace (span 1 * span 1 * span 1) with (span 3) by (unfold span; simpl; lia).
  replace (span 1 * span 1) with (span 2) by (unfold span; simpl; lia).
  apply (iterate_map_ok 2), level_loop_ok, dind_ok.
Qed.

(** Whether a loop was left early. *)
Definition left_early (r : Z) : bool := negb (r =? 0).
Lemma after_ret seen vs n r ctx ctx' s' : after seen vs n r ctx ctx' s' → r = 0 ∨ r = BLOCK_ABORT.
Proof. intros [(-> & _)|[-> _]]; auto. Qed.

Lemma direct_loop_ok bs i (ctx : ctx_t) s seen :
  Forall (wf 0) bs → seen ++ visits_list (seq 0) 1 (bcount ctx) bs `prefix_of` V → Q (priv_data ctx) s seen →
  ∃ r ctx' s', direct_loop flags func bs i 0 ctx s = Ret ((bs, r, left_early r, ctx'), s') ∧
    after seen (visits_list (seq 0) 1 (bcount ctx) bs) (zlen bs * 1) r ctx ctx' s'.
Proof.
  intros Hwf. revert i ctx s seen. induction Hwf as [|b bs Hb _ IH]; intros i ctx s seen HV HQ.
  { eexists 0, ctx, s. split; [done|]. by apply after_none. }
  cbn [direct_loop]. change (has flags BLOCK_FLAG_APPEND) with false. rewrite orb_false_r.
  cbn [visits_list] in HV. rewrite app_assoc in HV. destruct (Z.eqb_spec b 0) as [->|Hnz]; cbn [negb].
  - destruct (IH (i + 1) (add_bcount 1 ctx) s (seen ++ seq 0 (bcount ctx) 0)) as (r & ctx' & s' & Hrun & Ha); [done|by rewrite seq_zero, app_nil_r|].
    eexists r, ctx', s'. rewrite (bind_eq _ _ _ _ _ Hrun). split; [done|].
    by apply (after_cons 1 (seq 0) seen 0 bs r ctx (add_bcount 1 ctx)).
  - cbn [visits] in *. rewrite (proj2 (Z.eqb_neq b 0)) in * by done. simpl in Hb.
    destruct (call_func_ok b (bcount ctx) 0 i ctx s seen) as (r & ctx1 & s1 & Hcall & [(-> & B1 & Q1)|[-> HD]]);
      [lia|by eapply prefix_app_l|done| |]; rewrite (bind_eq _ _ _ _ _ Hcall); [|by exists BLOCK_ABORT, ctx1, s1; split; [reflexivity|apply after_abort]].
    change (has (Z.lor 0 0) BLOCK_ABORT) with false. cbv iota.
    destruct (IH (i + 1) (add_bcount 1 ctx1) s1 (seen ++ [(b, bcount ctx)])) as (r & ctx' & s' & Hrun & Ha).
    { simpl. by rewrite B1, Z.add_0_r. } { done. }
    eexists r, ctx', s'. rewrite (bind_eq _ _ _ _ _ Hrun). split; [done|].
    apply (after_cons 1 (seq 0) seen b bs r ctx (add_bcount 1 ctx1)); [simpl; lia|]. cbn [visits]. by rewrite (proj2 (Z.eqb_neq b 0)).
Qed.

Lemma root_block_ok n iterate b i whole (ctx : ctx_t) s seen :
  tree_ok n iterate → wf n b → (b = 0 → whole = span n ∨ n = 3%nat) →
  seen ++ seq n (bcount ctx) b `prefix_of` V → Q (priv_data ctx) s seen →
  ∃ r ctx' s' m, root_block flags iterate b i whole 0 ctx s = Ret ((b, r, ctx'), s') ∧
    after seen (seq n (bcount ctx) b) m r ctx ctx' s' ∧ (m = span n ∨ n = 3%nat).
Proof.
  intros Hit Hwf Hwhole HV HQ. unfold root_block. pose proof (map_wf_nonneg n b Hwf).
  change (has flags BLOCK_FLAG_APPEND) with false. rewrite orb_false_r.
  destruct (Z.eqb_spec b 0) as [->|Hnz]; cbn [negb].
  - exists 0, (add_bcount whole ctx), s, whole. split; [done|]. rewrite seq_zero. split; [|by apply Hwhole].
    left. by rewrite app_nil_r.
  - destruct (Hit b 0 i ctx s seen) as (r & ctx' & s' & Hrun & Ha); [lia|done..|].
    exists r, ctx', s', (span n). rewrite (bind_eq _ _ _ _ _ Hrun). split; [|auto].
    by destruct (after_ret _ _ _ _ _ _ _ Ha) as [-> | ->].
Qed.

(** The iteration over the numbers of an inode: all the calls, or it was stopped. *)
Lemma iterate_blocks_ok l direct ind dind tind p s :
  inode_map disk l direct ind dind tind → V = inode_visits disk direct ind dind tind → Q p s [] →
  ∃ r ctx' s', iterate_blocks flags func l 0 (MkCtx 0 0 p) s = Ret ((l, r, ctx'), s') ∧
    (r = 0 ∧ Q (priv_data ctx') s' V ∨ r = BLOCK_ABORT ∧ D (priv_data ctx') s').
Proof.
  intros [d i dd t Hlen Hdir Hi Hdd Ht] EV HQ. unfold inode_visits in EV.
  set (v0 := visits_list (seq 0) 1 0 d) in *. set (v1 := seq 1 12 i) in *. set (v2 := seq 2 (12 + limit) dd) in *.
  set (v3 := seq 3 (12 + limit + limit * limit) t) in *. unfold iterate_blocks.
  assert (HV3 : ((v0 ++ v1) ++ v2) ++ v3 `prefix_of` V) by (by rewrite EV, <- !app_assoc).
  pose proof (prefix_app_l _ _ _ HV3) as HV2. pose proof (prefix_app_l _ _ _ HV2) as HV1.
  replace 12%nat with (length d) by lia. rewrite drop_app_length, take_app_length.
  destruct (direct_loop_ok d 0 (MkCtx 0 0 p) s []) as (r & c1 & s1 & E1 & [(-> & B1 & Q1)|[-> HD]]);
    [done|by eapply prefix_app_l|done| |]; rewrite (bind_eq _ _ _ _ _ E1); [|by eexists _, _, _; split; [reflexivity|right]].
  change (left_early 0) with false. change (ro_violation flags 0) with false. cbv iota.
  cbn [bcount priv_data] in B1, Q1. rewrite app_nil_l in Q1. fold v0 in Q1.
  assert (Ec1 : bcount c1 = 12) by lia. clear B1.
  destruct (root_block_ok 1 (block_iterate_ind flags func) i EXT2_IND_BLOCK limit c1 s1 v0)
    as (r & c2 & s2 & m & E2 & [(-> & B2 & Q2)|[-> HD]] & Hm);
    [apply ind_ok|done|left; apply limit_span|by rewrite Ec1|done| |]; rewrite (bind_eq _ _ _ _ _ E2); [|by eexists _, _, _; split; [reflexivity|right]].
  change (has 0 BLOCK_ABORT) with false. cbv iota. destruct Hm as [->|?]; [|done]. rewrite <- limit_span, Ec1 in B2. rewrite Ec1 in Q2. fold v1 in Q2.
  destruct (root_block_ok 2 (block_iterate_dind flags func) dd EXT2_DIND_BLOCK (limit * limit) c2 s2 (v0 ++ v1))
    as (r & c3 & s3 & m & E3 & [(-> & B3 & Q3)|[-> HD]] & Hm);
    [apply dind_ok|done|left; unfold span; simpl; lia|by rewrite B2|done| |]; rewrite (bind_eq _ _ _ _ _ E3); [|by eexists _, _, _; split; [reflexivity|right]].
  change (has 0 BLOCK_ABORT) with false. cbv iota. destruct Hm as [->|?]; [|done]. rewrite B2 in B3, Q3. fold v2 in Q3.
  assert (Ec3 : bcount c3 = 12 + limit + limit * limit) by (rewrite B3; unfold span; simpl; lia).
  destruct (root_block_ok 3 (block_iterate_tind flags func) t EXT2_TIND_BLOCK 0 c3 s3 ((v0 ++ v1) ++ v2))
    as (r & c4 & s4 & m & E4 & Ha & _); [apply tind_ok|done|by right|by rewrite Ec3|done|].
  rewrite (bind_eq _ _ _ _ _ E4). exists r, c4, s4. split; [done|].
  destruct Ha as [(-> & _ & Q4)|[-> HD]]; [left|by right]. split; [done|]. rewrite Ec3 in Q4. fold v3 in Q4.
  rewrite EV. by rewrite <- !app_assoc in Q4.
Qed.

Lemma block_iterate3_ok fuel ino inode direct ind dind tind p s s0 :
  fs_magic_ok = true → (∀ n, mem_ok n = true) → fs_hurd = false →
  sys (sys_read_inode ino) s = Ret ((0, inode), s0) → Q p s0 [] →
  has (i_flags inode) EXT4_INLINE_DATA_FL = false → has (i_flags inode) EXT4_EXTENTS_FL = false →
  inode_map disk (i_block inode) direct ind dind tind → V = inode_visits disk direct ind dind tind →
  ∃ p' s', ext2fs_block_iterate3 flags func fuel ino p s = Ret ((0, p'), s') ∧ (Q p' s' V ∨ D p' s').
Proof.
  intros Hmagic Hmem Hhurd Hino HQ Hinline Hext Hmap EV. unfold ext2fs_block_iterate3.
  rewrite Hmagic, Hhurd. cbn [negb]. rewrite (bind_eq _ _ _ _ _ Hino). cbn [Z.eqb negb].
  rewrite Hinline, Hmem. change (has flags BLOCK_FLAG_NO_LARGE) with false.
  cbn [andb negb]. rewrite bind_ret_l. cbv beta iota. rewrite Hext.
  change (has 0 BLOCK_ABORT) with false. change (ro_violation flags 0) with false. cbv iota.
  destruct (iterate_blocks_ok _ _ _ _ _ p s0 Hmap EV HQ) as (r & ctx' & s' & Hrun & Hok).
  rewrite (bind_eq _ _ _ _ _ Hrun). exists (priv_data ctx'), s'.
  destruct Hok as [[-> ?]|[-> ?]]; (split; [done|]); auto.
Qed.
End Stopping.

(** ** Reading the map of a file

    [R p vs]: the private data [p] is what it must be after the calls [vs].  The
    function keeps the blocks it is shown, and takes [room] calls; nothing it does
    changes the disk. *)
Section Reading.
  Context `{Machine} {W Hd P : Type} `{Ext2Fs W Hd}.
  Context (disk : Z → list Z) (func : block_func W P) (R : P → list (Z * Z) → Prop) (room : Z).
  Context (s : state W).
  Context (Hread : ∀ b, fs_first_data_block ≤ b < fs_blocks_count →
             sys_read_ind b (st_os s) = ((0, disk b), st_os s)).
  Context (Hfunc : ∀ b count ref off p seen, 0 < b < 2 ^ 32 → R p seen → zlen seen < room →
             ∃ p', func b count ref off p s = Ret ((0, b, p'), s) ∧ R p' (seen ++ [(b, count)])).
  Context (Hlimit : 0 ≤ limit).
  Notation flags := BLOCK_FLAG_READ_ONLY.

Lemma sys_same {A} (call : W → A * W) a : call (st_os s) = (a, st_os s) → sys call s = Ret (a, s).
Proof. intros E. unfold sys. rewrite E. by destruct s. Qed.

Lemma block_iterate3_reads fuel ino inode direct ind dind tind p :
  fs_magic_ok = true → (∀ n, mem_ok n = true) → fs_hurd = false →
  sys_read_inode ino (st_os s) = ((0, inode), st_os s) →
  has (i_flags inode) EXT4_INLINE_DATA_FL = false → has (i_flags inode) EXT4_EXTENTS_FL = false →
  inode_map disk (i_block inode) direct ind dind tind → R p [] →
  zlen (inode_visits disk direct ind dind tind) ≤ room →
  ∃ p', ext2fs_block_iterate3 flags func fuel ino p s = Ret ((0, p'), s) ∧
    R p' (inode_visits disk direct ind dind tind).
Proof.
  intros Hmagic Hmem Hhurd Hino%sys_same Hinline Hext Hmap HR Hroom.
  destruct (block_iterate3_ok disk func (fun p s' seen => s' = s ∧ R p seen) (fun _ _ => False)
    (inode_visits disk direct ind dind tind)) with (fuel := fuel) (s := s) (s0 := s) (p := p) (ino := ino) (inode := inode)
      (direct := direct) (ind := ind) (dind := dind) (tind := tind)
    as (p' & s' & Hrun & [[-> HR']|[]]); try done; [| |by exists p'].
  - intros b c q s' seen _ _ _ Hb [-> HR']. exists s. split; [by apply sys_same, Hread|done].
  - intros b count ref off q s' seen Hp Hb [-> HR']. apply prefix_length in Hp. rewrite length_app in Hp. simpl in Hp.
    destruct (Hfunc b count ref off q seen Hb HR') as (p' & Hf & HR2); [lia|]. exists 0, p', s. split; [done|]. by left.
Qed.

(** C33. The iterator shows a file as it is: on the inode of a file mapped by blocks,
    whose blocks of numbers can be read and lie in the file system, a read-only
    ext2fs_block_iterate3 with a function that keeps what it is shown returns 0 after
    calling it on the blocks of the map, each before what it maps, and on the blocks of
    the file in order, each with its number in the file and holes left out, sparse maps
    included; nothing is written. *)
Theorem block_iterate_reads fuel ino inode direct ind dind tind p :
  fs_magic_ok = true → (∀ n, mem_ok n = true) → fs_hurd = false →
  sys_read_inode ino (st_os s) = ((0, inode), st_os s) →
  has (i_flags inode) EXT4_INLINE_DATA_FL = false → has (i_flags inode) EXT4_EXTENTS_FL = false →
  inode_map disk (i_block inode) direct ind dind tind → R p [] →
  zlen (inode_visits disk direct ind dind tind) ≤ room →
  ∃ p' vs, ext2fs_block_iterate3 flags func fuel ino p s = Ret ((0, p'), s) ∧
    R p' vs ∧ vs = inode_visits disk direct ind dind tind ∧
    data_visits vs = indexed 0 (inode_blocks disk direct ind dind tind).
Proof.
  intros Hmagic Hmem Hhurd Hino Hinline Hext Hmap HR Hroom.
  destruct (block_iterate3_reads fuel ino inode direct ind dind tind p) as (p' & Hrun & HR'); try done.
  exists p', (inode_visits disk direct ind dind tind). split_and!; [done..|].
  by apply (inode_visits_data disk Hlimit (i_block inode)).
Qed.

End Reading.

(** ** What a read-only iteration leaves alone

    [Inv] holds of a file system as long as nobody writes a block of numbers or maps a
    block of an extent; whatever the function answers, neither happens with
    BLOCK_FLAG_READ_ONLY.  The inode and the index nodes of a tree of extents are not
    so protected. *)
Section ReadOnly.
  Context `{Machine} {W Hd P : Type} `{Ext2Fs W Hd}.
  Context (flags : Z) (func : block_func W P) (Inv : W → Prop).
  Notation ctx_t := (block_context P).
  Context (Hro : has flags BLOCK_FLAG_READ_ONLY = true).

(** [m] keeps [Inv] whenever it returns. *)
Definition keeps {A} (m : prog W A) : Prop :=
  ∀ s a s', Inv (st_os s) → m s = Ret (a, s') → Inv (st_os s').
Definition kept {A} (call : W → A * W) : Prop := ∀ w, Inv w → Inv (snd (call w)).

Context (Hinode : ∀ ino, kept (sys_read_inode ino)) (Hind : ∀ b, kept (sys_read_ind b)).
Context (Hwinode : ∀ ino i, kept (sys_write_inode ino i)).
Context (Hopen : ∀ ino, kept (sys_extent_open ino)) (Hget : ∀ h op, kept (sys_extent_get h op)).
Context (Hreplace : ∀ h e, kept (sys_extent_replace h e)).
Context (Hfunc : ∀ b count ref off p, keeps (func b count ref off p)).

Lemma keeps_ret {A} (a : A) : keeps (ret a).
Proof. by intros s a' s' Hs [= <- <-]. Qed.
Lemma keeps_spin {A} : keeps (spin : prog W A).
Proof. done. Qed.
Lemma keeps_undef {A} : keeps (undef : prog W A).
Proof. done. Qed.
Lemma keeps_bind {A B} (m : prog W A) (k : A → prog W B) :
  keeps m → (∀ a, keeps (k a)) → keeps (bind m k).
Proof. intros Hm Hk s b s' Hs (a & s1 & H1 & H2)%bind_inv. eapply Hk; [|done]. by eapply Hm. Qed.
Lemma keeps_sys {A} (call : W → A * W) : kept call → keeps (sys call).
Proof.
  intros Hc s a s' Hs. unfold sys. specialize (Hc _ Hs). by destruct (call (st_os s)); intros [= <- <-].
Qed.

(** Without a violation nothing has changed. *)
Lemma ro_unchanged r : ro_violation flags r = false → has r BLOCK_CHANGED = false.
Proof. unfold ro_violation. by rewrite Hro. Qed.
Lemma has_lor a b : has (Z.lor a b) BLOCK_CHANGED = false → has b BLOCK_CHANGED = false.
Proof.
  unfold has. rewrite !negb_false_iff, !Z.eqb_eq, Z.land_lor_distr_l.
  by intros [_ ?]%Z.lor_eq_0_iff.
Qed.

Local Ltac keeps_step :=
  first [ apply keeps_ret | apply keeps_spin | apply keeps_undef | apply Hfunc
        | apply keeps_sys; by auto | assumption | by auto
        | apply keeps_bind; [|intros ?]
        | progress cbv beta zeta
        | match goal with
          | Hv : ro_violation flags ?r = false |- context [has ?r BLOCK_CHANGED] =>
              rewrite (ro_unchanged r Hv)
          | Hv : ro_violation flags (Z.lor ?a ?r) = false |- context [has ?r BLOCK_CHANGED] =>
              rewrite (has_lor a r (ro_unchanged _ Hv))
          | |- keeps (match ?x with _ => _ end) => destruct x eqn:?
          end ].
Local Ltac keeps_all := repeat keeps_step.

Lemma keeps_call b count ref off ctx : keeps (call_func func b count ref off ctx).
Proof. unfold call_func. keeps_all. Qed.
#[local] Hint Resolve keeps_call : core.

Lemma keeps_ind_loop bs blk off ch ctx : keeps (ind_loop flags func bs blk off ch ctx).
Proof. revert off ch ctx. induction bs; intros; cbn [ind_loop]; keeps_all. Qed.

Lemma keeps_level_loop skip iterate bs blk off ch (ctx : ctx_t) :
  (∀ b ref o c, keeps (iterate b ref o c)) →
  keeps (level_loop flags skip iterate bs blk off ch ctx).
Proof. intros Hit. revert off ch ctx. induction bs; intros; cbn [level_loop]; keeps_all. Qed.

Lemma keeps_map count bad whole loop b ref off (ctx : ctx_t) :
  (∀ bs blk o ch c, keeps (loop bs blk o ch c)) →
  keeps (iterate_map flags func count bad whole loop b ref off ctx).
Proof. intros Hloop. unfold iterate_map. keeps_all. Qed.
#[local] Hint Resolve keeps_ind_loop keeps_level_loop keeps_map : core.

Lemma keeps_root iterate b i whole r (ctx : ctx_t) :
  (∀ b ref o c, keeps (iterate b ref o c)) → keeps (root_block flags iterate b i whole r ctx).
Proof. intros Hit. unfold root_block. keeps_all. Qed.

Lemma keeps_direct bs i r ctx : keeps (direct_loop flags func bs i r ctx).
Proof. revert i r ctx. induction bs; intros; cbn [direct_loop]; keeps_all. Qed.
#[local] Hint Resolve keeps_root keeps_direct : core.

Lemma keeps_ind b ref off ctx : keeps (block_iterate_ind flags func b ref off ctx).
Proof. unfold block_iterate_ind. auto. Qed.
Lemma keeps_dind b ref off ctx : keeps (block_iterate_dind flags func b ref off ctx).
Proof. unfold block_iterate_dind. auto using keeps_ind. Qed.
Lemma keeps_tind b ref off ctx : keeps (block_iterate_tind flags func b ref off ctx).
Proof. unfold block_iterate_tind. auto using keeps_dind. Qed.
#[local] Hint Resolve keeps_ind keeps_dind keeps_tind : core.

Lemma keeps_blocks l r ctx : keeps (iterate_blocks flags func l r ctx).
Proof. unfold iterate_blocks. keeps_all. Qed.

Lemma keeps_extent_blocks k blk cnt u r h ctx :
  keeps (extent_blocks_loop flags func k blk cnt u r h ctx).
Proof. revert blk cnt r h ctx. induction k; intros; cbn [extent_blocks_loop]; keeps_all. Qed.

Lemma keeps_append fuel cnt r h ctx : keeps (append_loop flags func fuel cnt r h ctx).
Proof. revert cnt r h ctx. induction fuel; intros; cbn [append_loop]; keeps_all. Qed.
#[local] Hint Resolve keeps_blocks keeps_extent_blocks keeps_append : core.

Lemma keeps_extents fuel h op e cnt r ctx : keeps (extents_loop flags func fuel h op e cnt r ctx).
Proof. revert h op e cnt r ctx. induction fuel; intros; cbn [extents_loop]; keeps_all. Qed.

Lemma keeps_finish ino inode r ctx : keeps (finish_iterate ino inode r ctx : prog W (Z * P)).
Proof. unfold finish_iterate. keeps_all. Qed.
#[local] Hint Resolve keeps_extents keeps_finish : core.

(** A read-only iteration writes no block of numbers and maps no block, whatever
    the function it calls answers and whatever errors occur: what holds of a file
    system as long as neither is written holds when ext2fs_block_iterate3 returns. *)
Theorem read_only_keeps_maps fuel ino p s r s' :
  Inv (st_os s) → ext2fs_block_iterate3 flags func fuel ino p s = Ret (r, s') → Inv (st_os s').
Proof. revert s r s'. change (keeps (ext2fs_block_iterate3 flags func fuel ino p)).
  unfold ext2fs_block_iterate3. keeps_all.
Qed.

End ReadOnly.

(** ** A sparse file *)
#[local] Existing Instance x86_64.

Definition sparse_inode : ext2_inode :=
  MkInode 33188 0 0 0 ([21; 22; 0; 0; 0; 0; 0; 0; 0; 0; 0; 23] ++ [40; 41; 43]) 0.
Definition sparse_fs : state sample_fs :=
  MkState (MkHeap ∅ 4096)
    (MkFs 0 [(12, sparse_inode)]
       [(40, [24; 0]); (41, [0; 42]); (42, [25; 26]); (43, [0; 44]); (44, [0; 45]); (45, [0; 27])]
       []) [].

(** It remembers what it was called with, and claims to have changed the block 26. *)
Definition record_block (blame : Z) : block_func sample_fs (list (Z * Z)) :=
  fun b count _ _ vs => ret (if b =? blame then BLOCK_CHANGED else 0, b, vs ++ [(b, count)]).

Lemma block_iterate_reads_witness :
  ∃ p' vs, ext2fs_block_iterate3 BLOCK_FLAG_READ_ONLY (record_block 0) 0 12 [] sparse_fs
           = Ret ((0, p'), sparse_fs) ∧
    p' = vs ∧
    vs = inode_visits (sample_map (st_os sparse_fs)) (take 12 (i_block sparse_inode)) 40 41 43 ∧
    data_visits vs =
      indexed 0 (inode_blocks (sample_map (st_os sparse_fs)) (take 12 (i_block sparse_inode)) 40 41 43).
Proof.
  apply (block_iterate_reads (sample_map (st_os sparse_fs)) (record_block 0) eq 100 sparse_fs)
    with (inode := sparse_inode).
  - done.
  - intros b count ref off p seen Hb <- _. exists (p ++ [(b, count)]). split; [|done].
    unfold record_block. by rewrite (proj2 (Z.eqb_neq b 0)) by lia.
  - apply (bool_decide_eq_true_1 _). vm_compute. reflexivity.
  - done.
  - done.
  - done.
  - done.
  - done.
  - done.
  - apply (IMap _ (take 12 (i_block sparse_inode)));
      apply (bool_decide_eq_true_1 _); vm_compute; reflexivity.
  - done.
  - apply (bool_decide_eq_true_1 _). vm_compute. reflexivity.
Defined.

(** The numbers of a sparse file. *)
Example sparse_numbers :
  data_visits (inode_visits (sample_map (st_os sparse_fs)) (take 12 (i_block sparse_inode)) 40 41 43)
  = [(21, 0); (22, 1); (23, 11); (24, 12); (25, 16); (26, 17); (27, 25)].
Proof. vm_compute. reflexivity. Qed.

(** The function claims a change in the third level: nothing is written there, but the
    inode is. *)
Lemma read_only_keeps_maps_witness :
  ∃ s' p', ext2fs_block_iterate3 BLOCK_FLAG_READ_ONLY (record_block 26) 0 12 [] sparse_fs
           = Ret ((EXT2_ET_RO_BLOCK_ITERATE, p'), s') ∧
    length (sf_inodes (st_os s')) = 2%nat ∧ sf_maps (st_os s') = sf_maps (st_os sparse_fs).
Proof.
  eexists _, _. split; [vm_compute; reflexivity|]. split; [reflexivity|].
  apply (read_only_keeps_maps BLOCK_FLAG_READ_ONLY (record_block 26)
           (fun w => sf_maps w = sf_maps (st_os sparse_fs)))
    with (fuel := 0%nat) (ino := 12) (p := []) (s := sparse_fs)
         (r := (EXT2_ET_RO_BLOCK_ITERATE,
                [(21, 0); (22, 1); (23, 11); (40, -1); (24, 12); (41, -2); (42, -1);
                 (25, 16); (26, 17)])).
  - done.
  - by intros ino w ?; simpl.
  - by intros b w ?.
  - by intros ino i w ?.
  - by intros ino w ?.
  - by intros h op w ?.
  - by intros h e w ?.
  - intros b count ref off p s a s' Hs. by intros [= <- <-].
  - done.
  - vm_compute. reflexivity.
Defined.
