(* ===== verification/Debugfs.v ===== *)
(** * The block lists of debugfs: e2fsprogs/stat/debugfs.c

    The two printers whose output blk.c reads: [dump_extents] for files mapped by
    extents, [dump_blocks] for files mapped by indirect blocks.  What they iterate
    over is a list: the extents with the level of the tree they are on, or the
    blocks with their logical number, negative for the blocks of the map itself.  The
    table that another command asks for with DUMP_EXTENT_TABLE is left out. *)
From S2P Require Export Ext2Fs Extents.
#[local] Open Scope Z_scope.

(** [%lld] of a 64-bit value. *)
Definition lld (v : Z) : bytes := dec ((v + 2 ^ 63) mod 2 ^ 64 - 2 ^ 63).

(** ** Extents *)
Definition DUMP_LEAF_EXTENTS : Z := 1.
Definition DUMP_NODE_EXTENTS : Z := 2.

(** One turn of the loop: what is printed; the second component is [curr_level],
    [None] when [ext2fs_extent_get_info] fails. *)
Definition extent_text (flags : Z) (v : ext2fs_extent * option Z) : option bytes :=
  let '(extent, info) := v in
  if has (e_flags extent) EXT2_EXTENT_FLAGS_SECOND_VISIT then None else
  if (if has (e_flags extent) EXT2_EXTENT_FLAGS_LEAF then negb (has flags DUMP_LEAF_EXTENTS)
      else negb (has flags DUMP_NODE_EXTENTS)) then None else
  match info with
  | None => None
  | Some curr_level =>
      if negb (has (e_flags extent) EXT2_EXTENT_FLAGS_LEAF) then
        Some (bs "(ETB" ++ dec curr_level ++ bs "):" ++ udec (e_pblk extent))
      else
      let u := if has (e_flags extent) EXT2_EXTENT_FLAGS_UNINIT then bs "[u]" else [] in
      if e_len extent =? 0 then None
      else if e_len extent =? 1 then
        Some (bs "(" ++ lld (e_lblk extent) ++ u ++ bs "):" ++ lld (e_pblk extent))
      else
        Some (bs "(" ++ lld (e_lblk extent) ++ bs "-" ++
              lld (u64 (e_lblk extent + (e_len extent - 1))) ++ u ++ bs "):" ++
              lld (e_pblk extent) ++ bs "-" ++ lld (u64 (e_pblk extent + (e_len extent - 1))))
  end.

Fixpoint dump_extents_loop (visits : list (ext2fs_extent * option Z)) (flags : Z)
    (printed : bool) : bytes :=
  match visits with
  | [] => if printed then [10] else []
  | v :: visits =>
      match extent_text flags v with
      | None => dump_extents_loop visits flags printed
      | Some t => (if printed then bs ", " else []) ++ t ++ dump_extents_loop visits flags true
      end
  end.

Definition dump_extents (visits : list (ext2fs_extent * option Z)) (prefix : bytes)
    (flags : Z) : bytes :=
  prefix ++ bs "EXTENTS:" ++ [10] ++ prefix ++ dump_extents_loop visits flags false.

(** ** Block maps *)
Record list_blocks_struct : Type := MkLb {
  lb_out : bytes;
  lb_total : Z;
  first_block : Z;
  last_block : Z;
  first_bcnt : Z;
  last_bcnt : Z;
  lb_first : bool;
}.

Definition finish_range (lb : list_blocks_struct) : list_blocks_struct :=
  if first_block lb =? 0 then lb else
  let out := lb_out lb ++ (if lb_first lb then [] else bs ", ") in
  let out :=
    if first_block lb =? last_block lb
    then out ++ bs "(" ++ lld (first_bcnt lb) ++ bs "):" ++ udec (first_block lb)
    else out ++ bs "(" ++ lld (first_bcnt lb) ++ bs "-" ++ lld (last_bcnt lb) ++ bs "):" ++
         udec (first_block lb) ++ bs "-" ++ udec (last_block lb) in
  MkLb out (lb_total lb) 0 (last_block lb) (first_bcnt lb) (last_bcnt lb) false.

Definition ind_label (blockcnt : Z) : bytes :=
  if blockcnt =? -1 then bs "IND" else if blockcnt =? -2 then bs "DIND" else bs "TIND".

Definition list_blocks_proc (blocknr blockcnt : Z) (lb : list_blocks_struct) :
    list_blocks_struct :=
  let lb := MkLb (lb_out lb) (lb_total lb + 1) (first_block lb) (last_block lb)
                 (first_bcnt lb) (last_bcnt lb) (lb_first lb) in
  if 0 <=? blockcnt then
    if negb (first_block lb =? 0) && (u64 (last_block lb + 1) =? blocknr)
       && (last_bcnt lb + 1 =? blockcnt)
    then MkLb (lb_out lb) (lb_total lb) (first_block lb) blocknr (first_bcnt lb) blockcnt
              (lb_first lb)
    else
      let lb := finish_range lb in
      MkLb (lb_out lb) (lb_total lb) blocknr blocknr blockcnt blockcnt (lb_first lb)
  else
    let lb := finish_range lb in
    let out := lb_out lb ++ (if lb_first lb then [] else bs ", ") in
    let out := if (-3 <=? blockcnt)
               then out ++ bs "(" ++ ind_label blockcnt ++ bs "):" ++ udec blocknr else out in
    MkLb out (lb_total lb) (first_block lb) (last_block lb) (first_bcnt lb) (last_bcnt lb) false.

(** [last_block] and the counts are read only after [first_block] is set. *)
Definition dump_blocks (visits : list (Z * Z)) (prefix : bytes) : bytes :=
  let lb := foldl (fun lb v => list_blocks_proc v.1 v.2 lb) (MkLb [] 0 0 0 0 0 true) visits in
  let lb := finish_range lb in
  prefix ++ bs "BLOCKS:" ++ [10] ++ prefix ++ lb_out lb ++
  (if lb_total lb =? 0 then [] else [10] ++ prefix ++ bs "TOTAL: " ++ dec (lb_total lb) ++ [10])
  ++ [10].

(** ** The tokens of the two printers *)
Lemma lld_udec v : 0 ≤ v < 2 ^ 63 → lld v = udec v.
Proof.
  intros Hv. unfold lld, dec. rewrite Z.mod_small by lia.
  replace (v + 2 ^ 63 - 2 ^ 63) with v by lia. by rewrite (proj2 (Z.ltb_ge _ _)) by lia.
Qed.

Lemma udec_label cs v : 0 ≤ v → Forall (fun c => isdigit c = false) cs → free_of cs (udec v).
Proof. intros. apply digits_free_of; [by apply udec_spec|done]. Qed.

Lemma udec_app_head v r : 0 ≤ v → head (udec v ++ r) ≠ Some 69.
Proof.
  intros Hv. destruct (udec_head v Hv) as (c & d & -> & Hc%isdigit_spec). simpl.
  intros [= ->]. lia.
Qed.

(** The blocks of a visited extent, in the range the format of ext4 has. *)
Definition extent_blocks (v : ext2fs_extent * option Z) : list Z :=
  let e := v.1 in
  if has (e_flags e) EXT2_EXTENT_FLAGS_LEAF && negb (has (e_flags e) EXT2_EXTENT_FLAGS_SECOND_VISIT)
     && bool_decide (is_Some v.2)
  then seqZ (e_pblk e) (e_len e) else [].

Definition extent_wf (v : ext2fs_extent * option Z) : Prop :=
  0 ≤ e_pblk v.1 < 2 ^ 48 ∧ 0 ≤ e_lblk v.1 < 2 ^ 32 ∧ 0 ≤ e_len v.1 < 2 ^ 32 ∧
  (∀ l, v.2 = Some l → 0 ≤ l).

Lemma extent_text_blocks v :
  extent_wf v →
  match extent_text (Z.lor DUMP_LEAF_EXTENTS DUMP_NODE_EXTENTS) v with
  | None => extent_blocks v = []
  | Some t => token_blocks t (extent_blocks v)
  end.
Proof.
  destruct v as [e info]. intros (Hp & Hl & Hn & Hi). simpl in *.
  unfold extent_text, extent_blocks. simpl.
  change (has (Z.lor DUMP_LEAF_EXTENTS DUMP_NODE_EXTENTS) DUMP_LEAF_EXTENTS) with true.
  change (has (Z.lor DUMP_LEAF_EXTENTS DUMP_NODE_EXTENTS) DUMP_NODE_EXTENTS) with true.
  destruct (has (e_flags e) EXT2_EXTENT_FLAGS_SECOND_VISIT) eqn:E2; [by rewrite andb_false_r|].
  destruct (has (e_flags e) EXT2_EXTENT_FLAGS_LEAF) eqn:E1; simpl.
  2:{ destruct info as [lv|]; [|done]. specialize (Hi lv eq_refl).
      apply tok_etb; [|lia]. unfold dec. rewrite (proj2 (Z.ltb_ge _ _)) by lia.
      apply udec_label; [done|by repeat constructor]. }
  destruct info as [lv|]; [|done]. rewrite bool_decide_true by done.
  assert (Hu : free_of [44; 58; 10; 0]
                 (if has (e_flags e) EXT2_EXTENT_FLAGS_UNINIT then bs "[u]" else [])).
  { destruct (has (e_flags e) EXT2_EXTENT_FLAGS_UNINIT); apply (bool_decide_eq_true_1 _); vm_compute; reflexivity. }
  assert (Hd : ∀ n, 0 ≤ n → free_of [44; 58; 10; 0] (udec n))
    by (intros n ?; apply udec_label; [done|by repeat constructor]).
  destruct (Z.eqb_spec (e_len e) 0) as [->|]; [done|].
  destruct (Z.eqb_spec (e_len e) 1) as [->|].
  - rewrite !lld_udec by lia. change (seqZ (e_pblk e) 1) with [e_pblk e].
    rewrite (app_assoc (udec (e_lblk e))).
    apply tok_one; [|apply udec_app_head; lia|lia].
    apply free_of_app; [by apply Hd; lia|done].
  - rewrite !u64_small by lia. rewrite !lld_udec by lia.
    replace (seqZ (e_pblk e) (e_len e))
      with (seqZ (e_pblk e) (e_pblk e + (e_len e - 1) + 1 - e_pblk e)) by (f_equal; lia).
    set (l2 := udec (e_lblk e + (e_len e - 1))).
    pose proof (tok_range (udec (e_lblk e) ++ bs "-" ++ l2 ++
      (if has (e_flags e) EXT2_EXTENT_FLAGS_UNINIT then bs "[u]" else []))
      (e_pblk e) (e_pblk e + (e_len e - 1))) as Htok.
    rewrite <- !app_assoc in Htok. apply Htok; [|apply udec_app_head; lia|lia..].
    repeat apply free_of_app; try apply Hd; try done; try lia.
    apply (bool_decide_eq_true_1 _). vm_compute. reflexivity.
Qed.

(** ** The whole outputs *)
Lemma extents_tokens visits :
  Forall extent_wf visits →
  ∃ bls, Forall2 token_blocks (omap (extent_text (Z.lor DUMP_LEAF_EXTENTS DUMP_NODE_EXTENTS)) visits)
           bls ∧ concat bls = concat (extent_blocks <$> visits).
Proof.
  induction 1 as [|v visits Hv _ (bls & Hbls & Heq)]; [by exists []|].
  rewrite fmap_cons. cbn [omap list_omap concat]. pose proof (extent_text_blocks v Hv) as Ht.
  destruct (extent_text _ v) as [t|].
  - exists (extent_blocks v :: bls). split; [by constructor|]. simpl. by rewrite Heq.
  - exists bls. by rewrite Ht.
Qed.

Lemma dump_extents_loop_printed visits flags :
  dump_extents_loop visits flags true =
  concat ((fun t => bs ", " ++ t) <$> omap (extent_text flags) visits) ++ [10].
Proof.
  induction visits as [|v visits IH]; [done|]. cbn [dump_extents_loop omap list_omap].
  destruct (extent_text flags v) as [t|]; [|done].
  rewrite IH, fmap_cons. cbn [concat]. by rewrite <- !app_assoc.
Qed.

Lemma dump_extents_loop_join visits flags :
  omap (extent_text flags) visits ≠ [] →
  dump_extents_loop visits flags false = comma_join (omap (extent_text flags) visits) ++ [10].
Proof.
  induction visits as [|v visits IH]; [done|]. cbn [dump_extents_loop omap list_omap].
  destruct (extent_text flags v) as [t|]; [|done]. intros _.
  rewrite dump_extents_loop_printed. simpl. by rewrite <- app_assoc.
Qed.

Lemma comma_join_snoc ts t :
  comma_join (ts ++ [t]) = if bool_decide (ts = []) then t else comma_join ts ++ bs ", " ++ t.
Proof.
  destruct ts as [|t0 ts]; simpl; [by rewrite app_nil_r|].
  rewrite fmap_app, concat_app, <- app_assoc. simpl. by rewrite app_nil_r.
Qed.

(** The blocks not printed yet. *)
Definition pending (lb : list_blocks_struct) : list Z :=
  if first_block lb =? 0 then [] else seqZ (first_block lb) (last_block lb + 1 - first_block lb).

(** [lb] has printed the tokens [ts], read as [bls]; with the pending range they
    are the blocks [seen]. *)
Definition lb_inv (lb : list_blocks_struct) (seen : list Z) : Prop :=
  ∃ ts bls, lb_out lb = comma_join ts ∧ lb_first lb = bool_decide (ts = []) ∧
    Forall2 token_blocks ts bls ∧ concat bls ++ pending lb = seen ∧
    (first_block lb ≠ 0 → 0 < first_block lb ≤ last_block lb ∧ last_block lb < 2 ^ 63 ∧
       0 ≤ first_bcnt lb < 2 ^ 63 ∧ 0 ≤ last_bcnt lb < 2 ^ 63).

Lemma finish_range_inv lb seen :
  lb_inv lb seen → lb_inv (finish_range lb) seen ∧ first_block (finish_range lb) = 0.
Proof.
  intros (ts & bls & Hout & Hfirst & Hts & Hseen & Hrange). unfold finish_range.
  destruct (Z.eqb_spec (first_block lb) 0) as [Hz|Hnz].
  { split; [|done]. by exists ts, bls. }
  specialize (Hrange Hnz) as (Hf & Hl & Hc1 & Hc2). split; [|done].
  unfold pending in Hseen. rewrite (proj2 (Z.eqb_neq _ _)) in Hseen by done.
  set (t := if first_block lb =? last_block lb
            then bs "(" ++ udec (first_bcnt lb) ++ bs "):" ++ udec (first_block lb)
            else bs "(" ++ (udec (first_bcnt lb) ++ bs "-" ++ udec (last_bcnt lb)) ++ bs "):" ++
                 udec (first_block lb) ++ bs "-" ++ udec (last_block lb)).
  assert (Hd : ∀ n, 0 ≤ n → free_of [44; 58; 10; 0] (udec n))
    by (intros n ?; apply udec_label; [done|by repeat constructor]).
  exists (ts ++ [t]), (bls ++ [seqZ (first_block lb) (last_block lb + 1 - first_block lb)]).
  cbn [lb_out lb_first lb_total first_block]. split_and!.
  - rewrite Hout, Hfirst, comma_join_snoc, !lld_udec by lia. unfold t.
    case_bool_decide as E; [rewrite E|]; destruct (first_block lb =? last_block lb);
      rewrite ?app_nil_r, <- ?app_assoc; done.
  - symmetry. apply bool_decide_eq_false. by destruct ts.
  - apply Forall2_app; [done|]. constructor; [|constructor]. unfold t.
    destruct (Z.eqb_spec (first_block lb) (last_block lb)) as [<-|].
    + replace (first_block lb + 1 - first_block lb) with 1 by lia.
      apply (tok_one _ (first_block lb)); [by apply Hd; lia| |lia].
      rewrite <- (app_nil_r (udec (first_bcnt lb))). apply udec_app_head. lia.
    + apply tok_range; [|apply udec_app_head; lia|lia..].
      repeat apply free_of_app; try (apply Hd; lia).
      apply (bool_decide_eq_true_1 _). vm_compute. reflexivity.
  - rewrite concat_app. unfold pending. simpl. by rewrite !app_nil_r.
  - done.
Qed.

(** A visit: a block, its logical number or -1, -2, -3 for a block of the map. *)
Definition visit_wf (v : Z * Z) : Prop := 0 < v.1 < 2 ^ 63 - 1 ∧ -3 ≤ v.2 < 2 ^ 63.

Lemma list_blocks_proc_inv lb seen v :
  visit_wf v → lb_inv lb seen → lb_inv (list_blocks_proc v.1 v.2 lb) (seen ++ [v.1]).
Proof.
  destruct v as [b cnt]. intros [Hb Hcnt] Hinv. simpl in *. unfold list_blocks_proc.
  set (lb1 := MkLb (lb_out lb) (lb_total lb + 1) _ _ _ _ _).
  assert (Hinv1 : lb_inv lb1 seen) by done. clearbody lb1. clear Hinv lb.
  pose proof (finish_range_inv _ _ Hinv1)
    as [(ts & bls & Hout & Hfirst & Hts & Hseen & _) Hz].
  unfold pending in Hseen. rewrite Hz in Hseen. simpl in Hseen. rewrite app_nil_r in Hseen.
  destruct (Z.leb_spec 0 cnt).
  - destruct (negb (first_block lb1 =? 0) && _ && _) eqn:E.
    + clear ts bls Hout Hfirst Hts Hseen Hz.
      apply andb_true_iff in E as [[E1 E2]%andb_true_iff E3].
      apply negb_true_iff, Z.eqb_neq in E1. apply Z.eqb_eq in E2, E3.
      destruct Hinv1 as (ts & bls & Hout & Hfirst & Hts & Hseen & Hrange).
      specialize (Hrange E1) as (Hf & Hl & Hc1 & Hc2). rewrite u64_small in E2 by lia.
      exists ts, bls. split_and!; [done..| |simpl; intros; lia].
      unfold pending in *; simpl. rewrite (proj2 (Z.eqb_neq _ _)) in * by done.
      rewrite <- Hseen, <- app_assoc. f_equal. rewrite <- E2.
      replace (last_block lb1 + 1 + 1 - first_block lb1)
        with (last_block lb1 + 1 - first_block lb1 + 1) by lia.
      rewrite seqZ_app by lia. f_equal.
      replace (first_block lb1 + (last_block lb1 + 1 - first_block lb1))
        with (last_block lb1 + 1) by lia. done.
    + exists ts, bls. cbn [lb_out lb_first lb_total first_block last_block
        first_bcnt last_bcnt]. split_and!; [done..| |intros; lia].
      unfold pending. simpl. rewrite (proj2 (Z.eqb_neq _ _)) by lia. rewrite Hseen.
      by replace (b + 1 - b) with 1 by lia.
  - set (lb2 := finish_range lb1) in *. rewrite (proj2 (Z.leb_le _ _)) by lia.
    exists (ts ++ [bs "(" ++ ind_label cnt ++ bs "):" ++ udec b]), (bls ++ [[b]]).
    cbn [lb_out lb_first lb_total first_block last_block first_bcnt last_bcnt].
    split_and!; [| | | |by rewrite Hz].
    + rewrite Hout, Hfirst, comma_join_snoc.
      case_bool_decide as E; [by rewrite E|]. by rewrite <- !app_assoc.
    + symmetry. apply bool_decide_eq_false. by destruct ts.
    + apply Forall2_app; [done|]. constructor; [|constructor].
      apply tok_one; [| |lia]; unfold ind_label;
        destruct (cnt =? -1); [|destruct (cnt =? -2)| |destruct (cnt =? -2)]; try done;
        apply (bool_decide_eq_true_1 _); vm_compute; reflexivity.
    + rewrite concat_app. unfold pending. simpl. rewrite Hz. simpl.
      by rewrite app_nil_r, Hseen.
Qed.

Lemma list_blocks_total v b lb : lb_total (list_blocks_proc v b lb) = lb_total lb + 1.
Proof.
  unfold list_blocks_proc, finish_range. repeat case_match; reflexivity.
Qed.

Lemma dump_blocks_lines visits :
  Forall visit_wf visits → visits ≠ [] →
  ∃ ts bls post, dump_blocks visits [] = unlines (bs "BLOCKS:" :: comma_join ts :: post) ∧
    Forall2 token_blocks ts bls ∧ ts ≠ [] ∧ concat bls = visits.*1 ∧
    post = [bs "TOTAL: " ++ dec (zlen visits); []].
Proof.
  intros Hv Hne.
  set (run := foldl (fun lb v => list_blocks_proc v.1 v.2 lb) (MkLb [] 0 0 0 0 0 true)).
  assert (Hrun : lb_inv (run visits) visits.*1 ∧ lb_total (run visits) = zlen visits).
  { clear Hne. unfold run. induction visits as [|v visits IH] using rev_ind.
    - split; [|done]. exists [], []. by split_and!; try constructor.
    - apply Forall_app in Hv as [Hv Hx]. apply Forall_inv in Hx as Hx'.
      destruct (IH Hv) as [IH1 IH2]. rewrite foldl_app, fmap_app, length_app. simpl.
      split; [by apply list_blocks_proc_inv|]. rewrite list_blocks_total, IH2. lia. }
  destruct Hrun as [Hinv Htot].
  destruct (finish_range_inv _ _ Hinv) as [(ts & bls & Hout & _ & Hts & Hseen & _) Hz].
  unfold pending in Hseen. rewrite Hz in Hseen. simpl in Hseen. rewrite app_nil_r in Hseen.
  exists ts, bls, [bs "TOTAL: " ++ dec (zlen visits); []]. split_and!; [|done| |done|done].
  - unfold dump_blocks. fold run.
    assert (Htot2 : lb_total (finish_range (run visits)) = zlen visits).
    { rewrite <- Htot. unfold finish_range. by destruct (first_block _ =? 0). }
    rewrite Hout, Htot2. rewrite (proj2 (Z.eqb_neq _ _)) by (destruct visits; simpl; [done|lia]).
    unfold unlines. rewrite !fmap_cons. simpl. by rewrite <- !app_assoc.
  - intros ->. inversion Hts; subst. destruct visits; [done|discriminate].
Qed.

(** ** The two printers and the parser *)
Section Roundtrips.
  Context `{Machine} {V : Type} `{VecOps V} `{!VecLaws V}.

(** C37. On a file mapped by extents, what debugfs prints is read back: whatever
    lines precede the list, if the list fits in the 2047 bytes of the reader's buffer
    and has an extent to show, the array is extended by the marker -1 and by exactly
    the blocks of the leaf extents, in the order of the tree, index nodes ignored,
    and the count is their number. *)
Theorem debugfs_extents_roundtrip (pre : list bytes)
    (visits : list (ext2fs_extent * option Z)) (pblocks : V) (l : list Z) :
  (∀ n, mem_ok n = true) → Forall plain_line pre → Forall extent_wf visits →
  let flags := Z.lor DUMP_LEAF_EXTENTS DUMP_NODE_EXTENTS in
  let blocks := concat (extent_blocks <$> visits) in
  blocks ≠ [] → zlen (dump_extents_loop visits flags false) < 2048 →
  vec_rep pblocks l → zlen l + 1 + zlen blocks < 2 ^ 28 →
  ∃ pblocks', debugfs_lines (fgets_all 2048 (unlines pre ++ dump_extents visits [] flags))
                pblocks 0 0 = Ret (pblocks', zlen blocks, 2) ∧
    vec_rep pblocks' (l ++ (2 ^ 64 - 1) :: blocks).
Proof.
  intros Hmem Hpre Hvisits flags blocks Hne Hlen Hr Hroom.
  destruct (extents_tokens visits Hvisits) as (bls & Hts & Heq).
  assert (Htne : omap (extent_text flags) visits ≠ []).
  { intros E. unfold flags in E. rewrite E in Hts. inversion Hts; subst. by destruct Hne. }
  rewrite dump_extents_loop_join in Hlen by done. rewrite length_app in Hlen. simpl in Hlen.
  unfold blocks in *. rewrite <- Heq in *.
  replace (unlines pre ++ dump_extents visits [] flags)
    with (unlines (pre ++ bs "EXTENTS:" :: comma_join (omap (extent_text flags) visits) :: [])).
  - apply debugfs_output_spec; [done|done|by right|done|done|lia|done|done|done].
  - rewrite unlines_app. f_equal. unfold dump_extents.
    rewrite dump_extents_loop_join by done. unfold unlines. rewrite !fmap_cons. simpl.
    by rewrite app_nil_r.
Qed.


(** A list that does not fit in the reader's buffer is cut: of a line of 2047
    bytes or more only the first 2047 are read, wherever that falls in a number, and
    nothing tells the caller, the result being that of the shorter list. *)
Theorem debugfs_long_list_truncated (pre : list bytes) (title list_line rest : bytes)
    (pblocks : V) :
  Forall plain_line pre → title = bs "BLOCKS:" ∨ title = bs "EXTENTS:" →
  free_of [10; 0] list_line → 2047 ≤ zlen list_line →
  debugfs_lines (fgets_all 2048 (unlines (pre ++ [title]) ++ list_line ++ rest)) pblocks 0 0 =
  debugfs_lines (fgets_all 2048 (unlines (pre ++ [title]) ++ take 2047 list_line)) pblocks 0 0.
Proof.
  intros Hpre Htitle Hl Hlen.
  assert (Hpw : Forall (line_wf 2048) (pre ++ [title])).
  { apply Forall_app. split; [eapply Forall_impl; [exact Hpre|]; by intros ? []|].
    constructor; [|constructor].
    destruct Htitle as [->| ->]; apply (bool_decide_eq_true_1 _); vm_compute; reflexivity. }
  assert (Hl10 : free_of [10] list_line) by (eapply free_of_weaken; [|exact Hl]; set_solver).
  assert (Hne : ∀ r, list_line ++ r ≠ []) by (intros r; destruct list_line; [simpl in Hlen; lia|done]).
  assert (Hhead : ∀ l r, free_of [10] l → l ++ r ≠ [] → (2047 ≤ length l)%nat →
            ∃ tl, fgets_all 2048 (l ++ r) = c_str (take 2047 l) :: tl).
  { intros l r Hf Hr Hn. rewrite fgets_all_unfold by lia. unfold fgets.
    pose proof (fgets_cut_long 2047 l r Hf Hn) as Hcut. change (Z.to_nat (2048 - 1)) with 2047%nat.
    destruct (l ++ r); [done|]. destruct (fgets_cut _ _) as [a b]. simpl in Hcut. subst a.
    by eexists. }
  rewrite !fgets_all_app by (done || lia). rewrite !fmap_app, <- !app_assoc.
  rewrite !debugfs_header_lines by done. rewrite fmap_cons. simpl app.
  destruct (Hhead list_line rest) as [tl ->]; [done|done|lia|].
  destruct (Hhead (take 2047 list_line) []) as [tl' Htl'].
  { by apply Forall_take. }
  { rewrite app_nil_r. destruct list_line; [simpl in Hlen; lia|done]. }
  { rewrite length_take. lia. }
  rewrite app_nil_r, take_take, Nat.min_id in Htl'. rewrite Htl', ?debugfs_header_lines by done.
  cbn [debugfs_lines]. rewrite chop_nl_line; cycle 1.
  { destruct Htitle as [->| ->]; apply (bool_decide_eq_true_1 _); vm_compute; reflexivity. }
  replace (strncmp_eq title (bs "BLOCKS:") 7 || strncmp_eq title (bs "EXTENTS:") 8) with true
    by (by destruct Htitle as [->| ->]).
  reflexivity.
Qed.

End Roundtrips.

(** ** Sample files *)
#[local] Existing Instances x86_64 Impl.Vector_ops Impl.Vector_laws.

(** An index block, a leaf of eight blocks, an unwritten leaf of one block. *)
Definition sample_visits : list (ext2fs_extent * option Z) :=
  [(MkExtent 3154771 0 0 0, Some 0); (MkExtent 3153968 0 8 1, Some 1);
   (MkExtent 3154056 8 1 3, Some 1); (MkExtent 3154771 0 0 4, Some 0)].

Lemma debugfs_extents_roundtrip_witness :
  ∃ pblocks',
    debugfs_lines (fgets_all 2048 (unlines [bs "Inode: 12"] ++ dump_extents sample_visits [] 3))
      vec_init 0 0 = Ret (pblocks', 9, 2) ∧
    vec_rep pblocks' ([] ++ (2 ^ 64 - 1) :: seqZ 3153968 8 ++ [3154056]).
Proof.
  apply (debugfs_extents_roundtrip [bs "Inode: 12"] sample_visits (vec_init : Impl.Vector) []).
  - done.
  - repeat constructor; apply (bool_decide_eq_true_1 _); vm_compute; reflexivity.
  - repeat (apply Forall_cons; split; [unfold extent_wf; simpl; split_and!; (lia || by intros ? [= <-])|]).
    constructor.
  - done.
  - vm_compute. reflexivity.
  - apply Impl.rep_init.
  - vm_compute. reflexivity.
Defined.


(** What the second sample prints. *)
Example sample_blocks_text :
  dump_blocks [(1000, 0); (1001, 1); (1003, 2); (900, -1); (1004, 12)] [] =
  unlines [bs "BLOCKS:"; bs "(0-1):1000-1001, (2):1003, (IND):900, (12):1004";
           bs "TOTAL: 5"; []].
Proof. vm_compute. reflexivity. Qed.

(** A fragmented directory: 160 extents of one block. *)
Definition long_visits : list (ext2fs_extent * option Z) :=
  (fun n => (MkExtent (3153968 + 2 * n) n 1 1, Some 1)) <$> seqZ 0 160.

Lemma debugfs_long_list_truncated_witness :
  let line := dump_extents_loop long_visits 3 false in
  debugfs_lines (fgets_all 2048 (unlines ([] ++ [bs "EXTENTS:"]) ++ removelast line ++ [10]))
    (vec_init : Impl.Vector) 0 0 =
  debugfs_lines (fgets_all 2048 (unlines ([] ++ [bs "EXTENTS:"]) ++ take 2047 (removelast line)))
    vec_init 0 0.
Proof.
  apply (debugfs_long_list_truncated [] (bs "EXTENTS:")
           (removelast (dump_extents_loop long_visits 3 false)) [10] vec_init).
  - constructor.
  - by right.
  - apply (bool_decide_eq_true_1 _). vm_compute. reflexivity.
  - vm_compute. congruence.
Defined.

(** It is read as fewer blocks, with success. *)
Example long_visits_lost :
  match debugfs_lines (fgets_all 2048 (dump_extents long_visits [] 3)) (vec_init : Impl.Vector) 0 0 with
  | Ret (_, n, matched) => (n <? 160) && (matched =? 2)
  | _ => false
  end = true.
Proof. vm_compute. reflexivity. Qed.
