(* ===== verification/Lsblks.v ===== *)
(** * The blocks of a file through libext2fs: e2fsprogs/stat/lsblks.c

    The reader the program is built with (USE_e2fsprogs): lsblks opens the file system
    and calls a function on every block of a file, whether the file is mapped by extents
    or by blocks of numbers; ext_get_inode_datablocks (blk.c) collects them. *)
From S2P Require Export BlockIter Debugfs.
#[local] Open Scope Z_scope.

Section Lsblks.
  Context `{Machine} {W Hd P : Type} `{Ext2Fs W Hd}.
  Context (func : Z → P → prog W (Z * P)).

(** [struct lsblk_context] is the function and its private data; [list_blocks_proc] is
    what the block iterator calls. *)
Definition list_blocks_proc : block_func W P :=
  fun blocknr blockcnt _ _ priv_data =>
    if negb (blocknr =? 0) && (0 <=? blockcnt) then
      let! '(_, priv_data) := func blocknr priv_data in ret (0, blocknr, priv_data)
    else ret (0, blocknr, priv_data).

Definition dump_blocks (fuel : nat) (inode : Z) (priv_data : P) : prog W (Z * P) :=
  ext2fs_block_iterate3 BLOCK_FLAG_READ_ONLY list_blocks_proc fuel inode priv_data.

(** [for (i=0; i<extent.e_len; i++) func(extent.e_pblk + i)] *)
Fixpoint extent_loop (k : nat) (pblk : Z) (priv_data : P) : prog W P :=
  match k with
  | O => ret priv_data
  | S k => let! '(_, priv_data) := func pblk priv_data in
           extent_loop k (u64 (pblk + 1)) priv_data
  end.

Definition show_extent (extent : ext2fs_extent) (priv_data : P) : prog W P :=
  if negb (has (e_flags extent) EXT2_EXTENT_FLAGS_LEAF) then ret priv_data
  else if e_len extent =? 0 then ret priv_data
  else if e_len extent =? 1 then
    let! '(_, priv_data) := func (e_pblk extent) priv_data in ret priv_data
  else extent_loop (Z.to_nat (e_len extent)) (e_pblk extent) priv_data.

(** [fuel] bounds the visits of the tree. *)
Fixpoint dump_extents_loop (fuel : nat) (handle : Hd) (op flags : Z) (priv_data : P) : prog W P :=
  match fuel with
  | O => spin
  | S fuel =>
      let! '(errcode, extent, handle) := sys (sys_extent_get handle op) in
      if negb (errcode =? 0) then ret priv_data else
      let op := EXT2_EXTENT_NEXT in
      if has (e_flags extent) EXT2_EXTENT_FLAGS_SECOND_VISIT then
        dump_extents_loop fuel handle op flags priv_data
      else if (if has (e_flags extent) EXT2_EXTENT_FLAGS_LEAF
               then negb (has flags DUMP_LEAF_EXTENTS) else negb (has flags DUMP_NODE_EXTENTS))
      then dump_extents_loop fuel handle op flags priv_data
      else
      let! '(errcode, _) := sys (sys_extent_get_info handle) in
      if negb (errcode =? 0) then dump_extents_loop fuel handle op flags priv_data else
      let! priv_data := show_extent extent priv_data in
      dump_extents_loop fuel handle op flags priv_data
  end.

Definition dump_extents (fuel : nat) (ino flags : Z) (priv_data : P) : prog W (Z * P) :=
  let! '(errcode, handle) := sys (sys_extent_open ino) in
  if negb (errcode =? 0) then ret (errcode, priv_data) else
  let! priv_data := dump_extents_loop fuel handle EXT2_EXTENT_ROOT flags priv_data in
  ret (0, priv_data).

(** [retval] is an int. *)
Definition lsblks (fuel : nat) (dev : bytes) (inode_num : Z) (priv_data : P) : prog W (Z * P) :=
  let! retval := sys (sys_ext2fs_open dev) in
  if negb (i32 retval =? 0) then ret (i32 retval, priv_data) else
  let! '(retval, inode) := sys (sys_read_inode inode_num) in
  if negb (i32 retval =? 0) then ret (i32 retval, priv_data) else
  let! priv_data :=
    (if has (i_flags inode) EXT4_EXTENTS_FL then
       let! '(_, priv_data) :=
         dump_extents fuel inode_num (Z.lor DUMP_LEAF_EXTENTS DUMP_NODE_EXTENTS) priv_data in
       ret priv_data
     else if has (i_flags inode) EXT4_INLINE_DATA_FL then ret priv_data
     else let! '(_, priv_data) := dump_blocks fuel inode_num priv_data in ret priv_data) in
  do! sys sys_ext2fs_close in
  ret (0, priv_data).

End Lsblks.

(** ** blk.c *)
Section Datablocks.
  Context `{Machine} {W Hd V : Type} `{Ext2Fs W Hd} `{VecOps V}.

(** [struct lsblk_priv]: the array and the count.  The result of lsb_cb is not set, and
    nobody reads it. *)
Definition lsblk_priv : Type := (V * Z)%type.

Definition lsb_cb (blknum : Z) (lb : lsblk_priv) : prog W (Z * lsblk_priv) :=
  let '(pblocks, pcount) := lb in
  let! pblocks := lift (if pcount =? 0 then vec_push pblocks (-1) else Ret pblocks) in
  let! pblocks := lift (vec_push pblocks blknum) in
  ret (0, (pblocks, size_t (pcount + 1))).

(** The inode number goes from an [ino_t] to an [ext2_ino_t]. *)
Definition ext_get_inode_datablocks_lib (fuel : nat) (dev : bytes) (ino : Z) (pblocks : V) :
    prog W (Z * (V * Z)) :=
  let! '(_, lb) := lsblks lsb_cb fuel dev (u32 ino) (pblocks, 0) in
  ret (0, lb).

End Datablocks.

(** ** What is collected *)

(** The marker -1 stands before the first block. *)
Definition marked (blocks : list Z) : list Z :=
  match blocks with [] => [] | _ => u64 (-1) :: blocks end.

(** The cursor opened by [op] from [h] shows these extents, with the result of
    ext2fs_extent_get_info on each, and then ends. *)
Fixpoint cursor_shows {W Hd} `{Ext2Fs W Hd} (w : W) (h : Hd) (op : Z)
    (visits : list (ext2fs_extent * option Z)) : Prop :=
  match visits with
  | [] => ∃ e x h', sys_extent_get h op w = ((e, x, h'), w) ∧ e ≠ 0
  | (x, info) :: visits =>
      ∃ h' e v, sys_extent_get h op w = ((0, x, h'), w) ∧
        sys_extent_get_info h' w = ((e, v), w) ∧ (e = 0 ↔ is_Some info) ∧
        cursor_shows w h' EXT2_EXTENT_NEXT visits
  end.

Section Facts.
  Context `{Machine} {W Hd V : Type} `{Ext2Fs W Hd} `{VecOps V} `{!VecLaws V}.
  Context (Hmem : ∀ n, mem_ok n = true) (l : list Z) (s : state W).

Definition collected (lb : lsblk_priv) (blocks : list Z) : Prop :=
  vec_rep lb.1 (l ++ marked blocks) ∧ lb.2 = zlen blocks.

Lemma lsb_cb_spec b lb blocks :
  collected lb blocks → 0 ≤ b < 2 ^ 64 → zlen l + 1 + zlen blocks < 2 ^ 28 →
  ∃ lb', lsb_cb b lb s = Ret ((0, lb'), s) ∧ collected lb' (blocks ++ [b]).
Proof.
  destruct lb as [v c]. intros [Hv Hc] Hb Hroom. simpl in Hv, Hc. subst c.
  assert (Hpre : ∃ v1, (if zlen blocks =? 0 then vec_push v (-1) else Ret v) = Ret v1 ∧
                   vec_rep v1 (l ++ u64 (-1) :: blocks)).
  { destruct blocks as [|b0 blocks]; [|by exists v]. simpl in *. rewrite app_nil_r in Hv.
    apply vec_rep_push; [done..|lia]. }
  destruct Hpre as (v1 & E1 & Hv1).
  destruct (vec_rep_push v1 _ b Hmem Hv1) as (v2 & E2 & Hv2).
  { rewrite length_app. simpl. lia. }
  rewrite (u64_small b), <- app_assoc in Hv2 by done.
  exists (v2, zlen blocks + 1). unfold lsb_cb, lift. unfold bind at 1. rewrite E1. cbn [obind].
  unfold bind. rewrite E2. cbn [obind]. rewrite size_t_small by lia. split; [done|].
  split; cbn [fst snd].
  - by destruct blocks.
  - rewrite length_app. simpl. lia.
Qed.

Lemma collected_nil v : vec_rep v l → collected (v, 0) [].
Proof. intros Hv. split; [by rewrite app_nil_r|done]. Qed.

(** *** Blocks of numbers *)
Lemma list_blocks_proc_spec b count ref off lb seen :
  0 < b < 2 ^ 32 → collected lb (data_visits seen).*1 → zlen seen < 2 ^ 28 - 1 - zlen l →
  ∃ lb', list_blocks_proc (W := W) lsb_cb b count ref off lb s = Ret ((0, b, lb'), s) ∧
    collected lb' (data_visits (seen ++ [(b, count)])).*1.
Proof.
  intros Hb Hlb Hroom. unfold list_blocks_proc, data_visits in *.
  rewrite (proj2 (Z.eqb_neq b 0)), filter_app by lia. cbn [negb andb].
  pose proof (length_filter (fun v : Z * Z => 0 ≤ v.2) seen) as Hlen.
  destruct (Z.leb_spec 0 count).
  - rewrite (filter_cons_True _ (b, count)), fmap_app by done.
    destruct (lsb_cb_spec b lb _ Hlb) as (lb' & Hrun & Hlb'); [lia| |].
    { rewrite length_fmap. lia. }
    exists lb'. by rewrite (bind_eq _ _ _ _ _ Hrun).
  - rewrite (filter_cons_False _ (b, count)), filter_nil, app_nil_r by (simpl; lia). by exists lb.
Qed.

Lemma indexed_blocks off blocks : (indexed off blocks).*1 = filter (fun b => b ≠ 0) blocks.
Proof.
  revert off. induction blocks as [|b blocks IH]; intros off; [done|].
  rewrite indexed_cons, fmap_app, IH, indexed_one. destruct (Z.eqb_spec b 0) as [->|].
  - by rewrite filter_cons_False by (intros []; done).
  - by rewrite filter_cons_True.
Qed.

(** *** Extents *)
Lemma extent_loop_spec k pblk lb blocks :
  collected lb blocks → 0 ≤ pblk → pblk + Z.of_nat k < 2 ^ 64 →
  zlen l + zlen blocks + Z.of_nat k < 2 ^ 28 →
  ∃ lb', extent_loop (W := W) lsb_cb k pblk lb s = Ret (lb', s) ∧
    collected lb' (blocks ++ seqZ pblk (Z.of_nat k)).
Proof.
  revert pblk lb blocks. induction k as [|k IH]; intros pblk lb blocks Hlb Hp Hend Hroom.
  { exists lb. by rewrite app_nil_r. }
  destruct (lsb_cb_spec pblk lb blocks Hlb) as (lb1 & Hrun & Hlb1); [lia..|].
  cbn [extent_loop]. rewrite (bind_eq _ _ _ _ _ Hrun), u64_small by lia.
  destruct (IH (pblk + 1) lb1 (blocks ++ [pblk]) Hlb1) as (lb' & Hrun' & Hlb');
    [lia..|rewrite length_app; simpl; lia|].
  exists lb'. split; [done|]. rewrite <- app_assoc in Hlb'.
  rewrite seqZ_cons by lia. by replace (Z.pred (Z.of_nat (S k))) with (Z.of_nat k) by lia.
Qed.

Lemma show_extent_spec x info lb blocks :
  extent_wf (x, info) → is_Some info →
  has (e_flags x) EXT2_EXTENT_FLAGS_SECOND_VISIT = false → collected lb blocks →
  zlen l + 1 + zlen blocks + zlen (extent_blocks (x, info)) < 2 ^ 28 →
  ∃ lb', show_extent (W := W) lsb_cb x lb s = Ret (lb', s) ∧
    collected lb' (blocks ++ extent_blocks (x, info)).
Proof.
  intros (Hp & _ & Hn & _) Hinfo H2 Hlb. simpl in Hp, Hn.
  unfold extent_blocks, show_extent. cbn [fst snd]. rewrite H2, (bool_decide_true _ Hinfo).
  destruct (has (e_flags x) EXT2_EXTENT_FLAGS_LEAF); cbn [andb negb].
  2:{ exists lb. by rewrite app_nil_r. }
  rewrite length_seqZ. intros Hroom. destruct (Z.eqb_spec (e_len x) 0) as [->|].
  { exists lb. by rewrite app_nil_r. }
  destruct (extent_loop_spec (Z.to_nat (e_len x)) (e_pblk x) lb blocks Hlb)
    as (lb' & Hrun & Hlb'); [lia..|]. rewrite Z2Nat.id in Hlb' by lia. exists lb'.
  split; [|done]. destruct (Z.eqb_spec (e_len x) 1) as [E|]; [|done].
  rewrite E in Hrun. exact Hrun.
Qed.

Lemma dump_extents_loop_spec visits fuel h op lb blocks :
  (length visits < fuel)%nat → cursor_shows (st_os s) h op visits → Forall extent_wf visits →
  collected lb blocks →
  zlen l + 1 + zlen blocks + zlen (concat (extent_blocks <$> visits)) < 2 ^ 28 →
  ∃ lb', dump_extents_loop lsb_cb fuel h op (Z.lor DUMP_LEAF_EXTENTS DUMP_NODE_EXTENTS) lb s
         = Ret (lb', s) ∧ collected lb' (blocks ++ concat (extent_blocks <$> visits)).
Proof.
  intros Hfuel Hcur Hwf. revert fuel h op lb blocks Hfuel Hcur.
  induction Hwf as [|[x info] visits Hx _ IH]; intros [|fuel] h op lb blocks Hfuel Hcur Hlb Hroom;
    try (simpl in Hfuel; lia); cbn [dump_extents_loop].
  { destruct Hcur as (e & x & h' & E & He). rewrite (bind_sys _ _ _ _ E). exists lb.
    rewrite (proj2 (Z.eqb_neq e 0)) by done. by rewrite app_nil_r. }
  destruct Hcur as (h' & e & v & E1 & E2 & Hinfo & Hcur). simpl in Hfuel.
  rewrite (bind_sys _ _ _ _ E1). cbn [Z.eqb negb]. rewrite fmap_cons, concat_cons in *.
  rewrite length_app in Hroom.
  assert (Hskip : extent_blocks (x, info) = [] → ∃ lb',
            dump_extents_loop lsb_cb fuel h' EXT2_EXTENT_NEXT
              (Z.lor DUMP_LEAF_EXTENTS DUMP_NODE_EXTENTS) lb s = Ret (lb', s) ∧
            collected lb' (blocks ++ extent_blocks (x, info) ++ concat (extent_blocks <$> visits))).
  { intros ->. apply IH; [lia|done..|lia]. }
  destruct (has (e_flags x) EXT2_EXTENT_FLAGS_SECOND_VISIT) eqn:H2.
  { apply Hskip. unfold extent_blocks. cbn [fst]. by rewrite H2, andb_false_r. }
  change (has (Z.lor DUMP_LEAF_EXTENTS DUMP_NODE_EXTENTS) DUMP_LEAF_EXTENTS) with true.
  change (has (Z.lor DUMP_LEAF_EXTENTS DUMP_NODE_EXTENTS) DUMP_NODE_EXTENTS) with true.
  cbn [negb]. replace (if has (e_flags x) EXT2_EXTENT_FLAGS_LEAF then false else false) with false
    by (by case_match).
  rewrite (bind_sys _ _ _ _ E2). destruct (Z.eqb_spec e 0) as [->|He]; cbn [negb].
  - destruct (show_extent_spec x info lb blocks Hx) as (lb1 & Hrun & Hlb1);
      [by apply Hinfo|done|done|lia|]. rewrite (bind_eq _ _ _ _ _ Hrun), app_assoc.
    apply IH; [lia|done..|rewrite length_app; lia].
  - apply Hskip. unfold extent_blocks. cbn [fst snd]. rewrite bool_decide_false by tauto.
    by rewrite andb_false_r.
Qed.

(** C34. On a file mapped by blocks of numbers the reader collects exactly the blocks of
    the file: with a file system that can be read, the array is extended by the marker -1
    and by the blocks in the order of the file, holes and the blocks of the map left
    out, and the count is their number.  (The reader of debugfs's text counts the blocks
    of the map as well.) *)
Theorem lsblks_blocks_exact disk fuel dev ino inode direct ind dind tind v :
  fs_magic_ok = true → fs_hurd = false → 0 ≤ limit → 0 ≤ ino < 2 ^ 32 →
  (∀ b, fs_first_data_block ≤ b < fs_blocks_count →
     sys_read_ind b (st_os s) = ((0, disk b), st_os s)) →
  sys_ext2fs_open dev (st_os s) = (0, st_os s) → sys_ext2fs_close (st_os s) = (tt, st_os s) →
  sys_read_inode ino (st_os s) = ((0, inode), st_os s) →
  has (i_flags inode) EXT4_INLINE_DATA_FL = false → has (i_flags inode) EXT4_EXTENTS_FL = false →
  inode_map disk (i_block inode) direct ind dind tind →
  vec_rep v l → zlen l + 1 + zlen (inode_visits disk direct ind dind tind) < 2 ^ 28 →
  let blocks := filter (fun b => b ≠ 0) (inode_blocks disk direct ind dind tind) in
  ∃ v', ext_get_inode_datablocks_lib fuel dev ino v s = Ret ((0, (v', zlen blocks)), s) ∧
    vec_rep v' (l ++ marked blocks).
Proof.
  intros Hmagic Hhurd Hlim Hino Hread Hopen Hclose Hinode Hinl Hext Hmap Hv Hroom blocks.
  destruct (block_iterate3_reads disk (list_blocks_proc lsb_cb)
              (fun lb vs => collected lb (data_visits vs).*1) (2 ^ 28 - 1 - zlen l) s Hread
              ltac:(intros; by apply list_blocks_proc_spec) Hlim fuel ino inode direct ind dind
              tind (v, 0)) as ([v' c] & Hrun & Hv' & Hc); try done; [by apply collected_nil|lia|].
  rewrite (inode_visits_data disk Hlim _ _ _ _ _ Hmap), indexed_blocks in Hv', Hc.
  cbn [fst snd] in Hv', Hc. exists v'. split; [|done].
  unfold ext_get_inode_datablocks_lib, lsblks. rewrite u32_small by done.
  rewrite bind_assoc, (bind_sys _ _ _ _ Hopen). cbn [negb]. change (i32 0) with 0. cbn [Z.eqb negb].
  rewrite bind_assoc, (bind_sys _ _ _ _ Hinode). change (i32 0) with 0. cbn [Z.eqb negb].
  rewrite Hext, Hinl, bind_assoc, bind_assoc. unfold dump_blocks.
  rewrite (bind_eq _ _ _ _ _ Hrun), bind_ret_l, bind_assoc, (bind_sys _ _ _ _ Hclose), Hc.
  done.
Qed.

Lemma lsblks_extents_run fuel dev ino inode h visits v :
  0 ≤ ino < 2 ^ 32 →
  sys_ext2fs_open dev (st_os s) = (0, st_os s) → sys_ext2fs_close (st_os s) = (tt, st_os s) →
  sys_read_inode ino (st_os s) = ((0, inode), st_os s) →
  has (i_flags inode) EXT4_EXTENTS_FL = true →
  sys_extent_open ino (st_os s) = ((0, h), st_os s) →
  cursor_shows (st_os s) h EXT2_EXTENT_ROOT visits → Forall extent_wf visits →
  (length visits < fuel)%nat → vec_rep v l →
  let blocks := concat (extent_blocks <$> visits) in
  zlen l + 1 + zlen blocks < 2 ^ 28 →
  ∃ v', ext_get_inode_datablocks_lib fuel dev ino v s = Ret ((0, (v', zlen blocks)), s) ∧
    vec_rep v' (l ++ marked blocks).
Proof.
  intros Hino Hopen Hclose Hinode Hext Hcopen Hcur Hwf Hfuel Hv blocks Hroom.
  destruct (dump_extents_loop_spec visits fuel h EXT2_EXTENT_ROOT (v, 0) [] Hfuel Hcur Hwf)
    as ([v' c] & Hrun & Hv' & Hc); [by apply collected_nil|simpl; fold blocks; lia|].
  cbn [fst snd] in Hv', Hc. exists v'. split; [|done].
  unfold ext_get_inode_datablocks_lib, lsblks. rewrite u32_small by done.
  rewrite bind_assoc, (bind_sys _ _ _ _ Hopen). change (i32 0) with 0. cbn [Z.eqb negb].
  rewrite bind_assoc, (bind_sys _ _ _ _ Hinode). change (i32 0) with 0. cbn [Z.eqb negb].
  rewrite Hext, bind_assoc, bind_assoc. unfold dump_extents.
  rewrite bind_assoc, (bind_sys _ _ _ _ Hcopen). cbn [Z.eqb negb].
  rewrite bind_assoc, (bind_eq _ _ _ _ _ Hrun), bind_ret_l, bind_ret_l, bind_assoc.
  rewrite (bind_sys _ _ _ _ Hclose). subst c. done.
Qed.


End Facts.

(** ** Two files *)
#[local] Existing Instances x86_64 Impl.Vector_ops Impl.Vector_laws.

Lemma lsblks_blocks_exact_witness :
  let blocks := filter (fun b => b ≠ 0)
    (inode_blocks (sample_map (st_os sparse_fs)) (take 12 (i_block sparse_inode)) 40 41 43) in
  blocks = [21; 22; 23; 24; 25; 26; 27] ∧
  ∃ v', @ext_get_inode_datablocks_lib _ _ _ Impl.Vector _ _ 0 (bs "/dev/sda1") 12 vec_init sparse_fs
        = Ret ((0, (v', zlen blocks)), sparse_fs) ∧ vec_rep v' ([] ++ marked blocks).
Proof.
  split; [vm_compute; reflexivity|].
  apply (@lsblks_blocks_exact x86_64 _ _ Impl.Vector _ _ _ (fun _ => eq_refl) [] sparse_fs
           (sample_map (st_os sparse_fs)) 0 (bs "/dev/sda1") 12 sparse_inode
           (take 12 (i_block sparse_inode)) 40 41 43).
  - done.
  - done.
  - apply (bool_decide_eq_true_1 _). vm_compute. reflexivity.
  - done.
  - done.
  - done.
  - done.
  - done.
  - done.
  - done.
  - apply (IMap _ (take 12 (i_block sparse_inode)));
      apply (bool_decide_eq_true_1 _); vm_compute; reflexivity.
  - apply Impl.rep_init.
  - apply (bool_decide_eq_true_1 _). vm_compute. reflexivity.
Defined.

(** An index node, two leaves, and the node again on the way up. *)
Definition tree_extents : list ext2fs_extent :=
  [MkExtent 500 0 9 0; MkExtent 100 0 3 EXT2_EXTENT_FLAGS_LEAF;
   MkExtent 110 3 1 EXT2_EXTENT_FLAGS_LEAF; MkExtent 500 0 9 EXT2_EXTENT_FLAGS_SECOND_VISIT].
Definition extent_inode : ext2_inode := MkInode 33188 EXT4_EXTENTS_FL 0 0 (replicate 15 0) 0.
Definition extent_fs : state sample_fs :=
  MkState (MkHeap ∅ 4096) (MkFs 0 [(13, extent_inode)] [] tree_extents) [].

