(* ===== verification/ExtentTree.v ===== *)
(** * Trees of extents: the reading half of e2fsprogs/lib/ext2fs/extent.c

    A cursor over the tree of extents of an inode: ext2fs_extent_open2,
    ext2fs_extent_get with every movement, ext2fs_extent_get_info and the search of
    ext2fs_extent_goto2.  The nodes are blocks of bytes in the format of the disk. *)
From S2P Require Export Lsblks.
#[local] Open Scope Z_scope.

(** ** What is below: blocks and inodes

    [tf_csum_ok] is the test of the checksum of a node. *)
Class TreeFs (W : Type) : Type := {
  tf_magic_ok : bool;
  tf_blocksize : Z;
  tf_blocksize_bits : Z;
  tf_inodes_count : Z;
  (** the file system is an image of its metadata, opened without it *)
  tf_image : bool;
  tf_ignore_csum_errors : bool;
  tf_csum_ok : Z → bytes → bool;
  sys_read_blk64 : Z → W → (Z * bytes) * W;
  sys_tf_read_inode : Z → W → (Z * ext2_inode) * W;
}.

(** ** Movements and error codes *)
Definition EXT2_EXTENT_MOVE_MASK : Z := 15.
Definition EXT2_EXTENT_LAST_LEAF : Z := 2.
Definition EXT2_EXTENT_FIRST_SIB : Z := 3.
Definition EXT2_EXTENT_LAST_SIB : Z := 4.
Definition EXT2_EXTENT_NEXT_SIB : Z := 5.
Definition EXT2_EXTENT_PREV_SIB : Z := 6.
Definition EXT2_EXTENT_NEXT_LEAF : Z := 7.
Definition EXT2_EXTENT_PREV_LEAF : Z := 8.
Definition EXT2_EXTENT_PREV : Z := 10.
Definition EXT2_EXTENT_UP : Z := 11.
Definition EXT2_EXTENT_DOWN : Z := 12.
Definition EXT2_EXTENT_DOWN_AND_LAST : Z := 13.

Definition EXT2_ET_EXTENT_HEADER_BAD : Z := 2133571447.
Definition EXT2_ET_INODE_NOT_EXTENT : Z := 2133571451.
Definition EXT2_ET_EXTENT_NO_PREV : Z := 2133571453.
Definition EXT2_ET_EXTENT_NO_UP : Z := 2133571454.
Definition EXT2_ET_EXTENT_NO_DOWN : Z := 2133571455.
Definition EXT2_ET_NO_CURRENT_NODE : Z := 2133571456.
Definition EXT2_ET_OP_NOT_SUPPORTED : Z := 2133571457.
Definition EXT2_ET_EXTENT_NOT_FOUND : Z := 2133571460.
Definition EXT2_ET_EXTENT_CSUM_INVALID : Z := 2133571476.
Definition EXT2_ET_EXTENT_CYCLE : Z := 2133571509.

Definition EXT3_EXT_MAGIC : Z := 62218.
Definition EXT_INIT_MAX_LEN : Z := 32768.

(** ** State *)

(** One level: [buf] is [None] until it is allocated, [curr] the offset in it of the
    current entry, [None] for NULL. *)
Record extent_path : Type := MkPath {
  buf : option bytes;
  entries : Z;
  max_entries : Z;
  left : Z;
  visit_num : Z;
  end_blk : Z;
  blk : Z;
  curr : option Z;
}.

Record ext2_extent_handle : Type := MkHandle {
  eh_ino : Z;
  eh_inode : ext2_inode;
  level : Z;
  max_depth : Z;
  path : list extent_path;
}.

Definition no_path : extent_path := MkPath None 0 0 0 0 0 0 None.

(** [left], [curr] and [visit_num] of a level. *)
Definition move_path (l : Z) (c : option Z) (v : Z) (p : extent_path) : extent_path :=
  MkPath (buf p) (entries p) (max_entries p) l v (end_blk p) (blk p) c.
Definition set_visit (v : Z) (p : extent_path) : extent_path := move_path (left p) (curr p) v p.

Definition set_level (l : Z) (h : ext2_extent_handle) : ext2_extent_handle :=
  MkHandle (eh_ino h) (eh_inode h) l (max_depth h) (path h).
(** [handle->path + l] *)
Definition get_path (h : ext2_extent_handle) (l : Z) : outcome extent_path :=
  of_option (path h !! Z.to_nat l).
Definition set_path (l : Z) (p : extent_path) (h : ext2_extent_handle) : ext2_extent_handle :=
  MkHandle (eh_ino h) (eh_inode h) (level h) (max_depth h) (<[Z.to_nat l := p]> (path h)).

(** ** The format of a node *)
Definition le16 (off : Z) (b : bytes) : outcome Z := of_option (le <$> slice off 2 b).
Definition le32 (off : Z) (b : bytes) : outcome Z := of_option (le <$> slice off 4 b).
Definition eh_magic (b : bytes) : outcome Z := le16 0 b.
Definition eh_entries (b : bytes) : outcome Z := le16 2 b.
Definition eh_max (b : bytes) : outcome Z := le16 4 b.
Definition eh_depth (b : bytes) : outcome Z := le16 6 b.

(** [EXT_FIRST_INDEX] and [EXT_LAST_INDEX] (or _EXTENT): both kinds of entry, like the
    header, take 12 bytes. *)
Definition first_entry : Z := 12.
Definition last_entry (b : bytes) : outcome Z :=
  let? n := eh_entries b in Ret (first_entry + (n - 1) * 12).

(** [ei_leaf] with its high half. *)
Definition index_block (ix : Z) (b : bytes) : outcome Z :=
  let? lo := le32 (ix + 4) b in
  let? hi := le16 (ix + 8) b in
  Ret (lo + Z.shiftl hi 32).
(** [ee_start] with its high half. *)
Definition extent_start (ix : Z) (b : bytes) : outcome Z :=
  let? hi := le16 (ix + 6) b in
  let? lo := le32 (ix + 8) b in
  Ret (lo + Z.shiftl hi 32).

Definition ext2fs_extent_header_verify (b : bytes) (size : Z) : outcome Z :=
  let? magic := eh_magic b in
  if negb (magic =? EXT3_EXT_MAGIC) then Ret EXT2_ET_EXTENT_HEADER_BAD else
  let? n := eh_entries b in
  let? m := eh_max b in
  if m <? n then Ret EXT2_ET_EXTENT_HEADER_BAD else
  let max := (size - 12) / 12 in
  if (max <? m) || (m <? max - 2) then Ret EXT2_ET_EXTENT_HEADER_BAD else Ret 0.

Section Tree.
  Context `{Machine} {W : Type} `{TreeFs W}.

(** ** Opening *)

(** The bytes of [i_block], words in host order. *)
Definition i_block_bytes (inode : ext2_inode) : bytes :=
  concat ((if big_endian then be_split 4 else le_split 4) <$> i_block inode).

(** The header of an empty tree, written over the first 12 bytes. *)
Definition empty_header (b : bytes) : bytes :=
  le_split 2 EXT3_EXT_MAGIC ++ le_split 2 0 ++ le_split 2 ((60 - 12) / 12) ++ le_split 2 0 ++ drop 8 b.

(** [EXT2_I_SIZE] *)
Definition EXT2_I_SIZE (inode : ext2_inode) : Z :=
  Z.lor (i_size inode) (Z.shiftl (i_size_high inode) 32).

Definition sizeof_handle : Z := if long64 then 184 else 164.
Definition sizeof_path : Z := if long64 then 56 else 44.

(** After the inode has been found; the allocation of the levels is not tested. *)
Definition open_inode (ino : Z) (inode : ext2_inode) : outcome (Z * ext2_extent_handle) :=
  let b := i_block_bytes inode in
  let empty := bool_decide (Forall (fun w => w = 0) (i_block inode)) in
  let b := if empty then empty_header b else b in
  if negb (empty || has (i_flags inode) EXT4_EXTENTS_FL)
  then Ret (EXT2_ET_INODE_NOT_EXTENT, MkHandle ino inode 0 0 []) else
  let? e := ext2fs_extent_header_verify b 60 in
  if negb (e =? 0) then Ret (e, MkHandle ino inode 0 0 []) else
  let? depth := eh_depth b in
  if negb (mem_ok ((depth + 1) * sizeof_path)) then Undef else
  let? n := eh_entries b in
  let? m := eh_max b in
  let root := MkPath (Some b) n m n 1
                (Z.shiftr (u64 (u64 (EXT2_I_SIZE inode + tf_blocksize) - 1)) tf_blocksize_bits) 0 None in
  Ret (0, MkHandle ino inode 0 depth (root :: replicate (Z.to_nat depth) no_path)).

(** [inode] is NULL for ext2fs_extent_open. *)
Definition ext2fs_extent_open2 (ino : Z) (inode : option ext2_inode) :
    prog W (Z * ext2_extent_handle) :=
  let none := MkHandle ino (MkInode 0 0 0 0 [] 0) 0 0 [] in
  if negb tf_magic_ok then ret (EXT2_ET_MAGIC_EXT2FS_FILSYS, none) else
  if bool_decide (inode = None) && ((ino =? 0) || (tf_inodes_count <? ino))
  then ret (EXT2_ET_BAD_INODE_NUM, none) else
  if negb (mem_ok sizeof_handle) then ret (EXT2_ET_NO_MEMORY, none) else
  match inode with
  | Some inode => lift (open_inode ino inode)
  | None =>
      let! '(e, inode) := sys (sys_tf_read_inode ino) in
      if negb (e =? 0) then ret (e, none) else lift (open_inode ino inode)
  end.

(** ** Moving *)

(** Which movement [orig_op] stands for where the cursor is, or the error that ends it,
    and the new [visit_num]. *)
Definition choose_op (orig_op : Z) (h : ext2_extent_handle) (p : extent_path) : (Z + Z) * Z :=
  let v := visit_num p in
  let up_or e := if 0 <? level h then inr EXT2_EXTENT_UP else inl e in
  if (orig_op =? EXT2_EXTENT_NEXT) || (orig_op =? EXT2_EXTENT_NEXT_LEAF) then
    if (level h <? max_depth h) && (v =? 0) then (inr EXT2_EXTENT_DOWN, v + 1)
    else if 0 <? left p then (inr EXT2_EXTENT_NEXT_SIB, v)
    else (up_or EXT2_ET_EXTENT_NO_NEXT, v)
  else if (orig_op =? EXT2_EXTENT_PREV) || (orig_op =? EXT2_EXTENT_PREV_LEAF) then
    if (level h <? max_depth h) && (0 <? v) then (inr EXT2_EXTENT_DOWN_AND_LAST, v)
    else if left p <? entries p - 1 then (inr EXT2_EXTENT_PREV_SIB, v)
    else (up_or EXT2_ET_EXTENT_NO_PREV, v)
  else if orig_op =? EXT2_EXTENT_LAST_LEAF then
    if (level h <? max_depth h) && (left p =? 0) then (inr EXT2_EXTENT_DOWN, v)
    else (inr EXT2_EXTENT_LAST_SIB, v)
  else (inr orig_op, v).

(** What a movement leaves: the error, the current entry and the handle. *)
Definition moved : Type := (Z * option Z * ext2_extent_handle)%type.

Definition next_sib (h : ext2_extent_handle) (p : extent_path) : moved :=
  if left p <=? 0 then (EXT2_ET_EXTENT_NO_NEXT, None, set_path (level h) p h) else
  let ix := match curr p with Some ix => ix + 12 | None => first_entry end in
  (0, Some ix, set_path (level h) (move_path (left p - 1) (Some ix) 0 p) h).

Definition first_sib (h : ext2_extent_handle) (p : extent_path) : moved :=
  next_sib h (move_path (entries p) None (visit_num p) p).

Definition prev_sib (h : ext2_extent_handle) (p : extent_path) : moved :=
  match curr p with
  | None => (EXT2_ET_EXTENT_NO_PREV, None, h)
  | Some ix =>
      if entries p <=? left p + 1 then (EXT2_ET_EXTENT_NO_PREV, None, h) else
      let v := if level h <? max_depth h then 1 else visit_num p in
      (0, Some (ix - 12), set_path (level h) (move_path (left p + 1) (Some (ix - 12)) v p) h)
  end.

Definition last_sib (h : ext2_extent_handle) (p : extent_path) : outcome moved :=
  let? b := of_option (buf p) in
  let? ix := last_entry b in
  Ret (0, Some ix, set_path (level h) (move_path 0 (Some ix) 0 p) h).

Definition up (orig_op : Z) (h : ext2_extent_handle) : outcome moved :=
  if level h <=? 0 then Ret (EXT2_ET_EXTENT_NO_UP, None, h) else
  let h := set_level (level h - 1) h in
  let? p := get_path h (level h) in
  let p' := if (orig_op =? EXT2_EXTENT_PREV) || (orig_op =? EXT2_EXTENT_PREV_LEAF)
            then set_visit 0 p else p in
  Ret (0, curr p, set_path (level h) p' h).

(** [for (l = handle->level, tp = path; l > 0; l--, tp--) if (blk == tp->blk) ...] *)
Fixpoint on_path (l : nat) (b : Z) (ps : list extent_path) : bool :=
  match l with
  | O => false
  | S l' => match ps !! l with Some p => b =? blk p | None => false end || on_path l' b ps
  end.

(** The new level: the block is read and its header verified. *)
Definition load_node (h : ext2_extent_handle) (b : Z) (newpath : extent_path) :
    prog W (Z * bool * ext2_extent_handle) :=
  let l := level h + 1 in
  let! '(e, data) :=
    (if tf_image then ret (0, replicate (Z.to_nat tf_blocksize) 0) else sys (sys_read_blk64 b)) in
  let newpath := MkPath (Some data) (entries newpath) (max_entries newpath) (left newpath)
                   (visit_num newpath) (end_blk newpath) b (curr newpath) in
  if negb (e =? 0) then ret (e, false, set_path l newpath h) else
  let! e := lift (ext2fs_extent_header_verify data tf_blocksize) in
  if negb (e =? 0) then ret (e, false, set_path l newpath h) else
  let failed_csum := negb tf_ignore_csum_errors && negb (tf_csum_ok (eh_ino h) data) in
  let! n := lift (eh_entries data) in
  let! m := lift (eh_max data) in
  let newpath := MkPath (Some data) n m n (visit_num newpath) (end_blk newpath) b (curr newpath) in
  ret (if n <=? 0 then EXT2_ET_EXTENT_NO_DOWN else 0, failed_csum,
       set_level l (set_path l newpath h)).

(** The first or last entry of the new level. *)
Definition enter_node (op : Z) (h : ext2_extent_handle) (p : extent_path) (pbuf : bytes) (ix : Z) :
    outcome moved :=
  let? newpath := get_path h (level h) in
  let? b := of_option (buf newpath) in
  let? end_ := if 0 <? left p then le32 (ix + 12) pbuf else Ret (end_blk p) in
  let newpath := MkPath (buf newpath) (entries newpath) (max_entries newpath) (left newpath)
                   (visit_num newpath) end_ (blk newpath) (curr newpath) in
  if op =? EXT2_EXTENT_DOWN then
    Ret (0, Some first_entry,
         set_path (level h) (move_path (entries newpath - 1) (Some first_entry) 0 newpath) h)
  else
  let? ix := last_entry b in
  let v := if level h <? max_depth h then 1 else visit_num newpath in
  Ret (0, Some ix, set_path (level h) (move_path 0 (Some ix) v newpath) h).

Definition down (op : Z) (h : ext2_extent_handle) (p : extent_path) : prog W (moved * bool) :=
  match curr p with
  | None => ret (EXT2_ET_EXTENT_NO_DOWN, None, h, false)
  | Some ix =>
      if max_depth h <=? level h then ret (EXT2_ET_EXTENT_NO_DOWN, None, h, false) else
      let! newpath := lift (get_path h (level h + 1)) in
      if bool_decide (buf newpath = None) && negb (mem_ok tf_blocksize)
      then ret (EXT2_ET_NO_MEMORY, None, h, false) else
      let! pbuf := lift (of_option (buf p)) in
      let! b := lift (index_block ix pbuf) in
      if on_path (Z.to_nat (level h)) b (path h) then ret (EXT2_ET_EXTENT_CYCLE, None, h, false) else
      let! '(e, failed_csum, h) := load_node h b newpath in
      if negb (e =? 0) then ret (e, None, h, failed_csum) else
      let! r := lift (enter_node op h p pbuf ix) in
      ret (r, failed_csum)
  end.

(** The switch of ext2fs_extent_get. *)
Definition move (orig_op op : Z) (h : ext2_extent_handle) (p : extent_path) :
    prog W (moved * bool) :=
  let pure m := let! r := lift m in ret (r, false) in
  if op =? EXT2_EXTENT_CURRENT then ret (0, curr p, h, false)
  else if op =? EXT2_EXTENT_ROOT then
    let h := set_level 0 h in
    let! p := lift (get_path h 0) in ret (first_sib h p, false)
  else if op =? EXT2_EXTENT_FIRST_SIB then ret (first_sib h p, false)
  else if op =? EXT2_EXTENT_NEXT_SIB then ret (next_sib h p, false)
  else if op =? EXT2_EXTENT_PREV_SIB then ret (prev_sib h p, false)
  else if op =? EXT2_EXTENT_LAST_SIB then pure (last_sib h p)
  else if op =? EXT2_EXTENT_UP then pure (up orig_op h)
  else if (op =? EXT2_EXTENT_DOWN) || (op =? EXT2_EXTENT_DOWN_AND_LAST) then down op h p
  else ret (EXT2_ET_OP_NOT_SUPPORTED, None, h, false).

(** The extent that the current entry is. *)
Definition read_extent (h : ext2_extent_handle) (p : extent_path) (ix : Z) : outcome ext2fs_extent :=
  let? b := of_option (buf p) in
  let second := if visit_num p =? 0 then 0 else EXT2_EXTENT_FLAGS_SECOND_VISIT in
  if level h =? max_depth h then
    let? pblk := extent_start ix b in
    let? lblk := le32 ix b in
    let? len := le16 (ix + 4) b in
    let uninit := EXT_INIT_MAX_LEN <? len in
    Ret (MkExtent pblk lblk (if uninit then len - EXT_INIT_MAX_LEN else len)
           (Z.lor (Z.lor EXT2_EXTENT_FLAGS_LEAF (if uninit then EXT2_EXTENT_FLAGS_UNINIT else 0))
                  second))
  else
    let? pblk := index_block ix b in
    let? lblk := le32 ix b in
    let? end_ := if 0 <? left p then le32 (ix + 12) b else Ret (end_blk p) in
    Ret (MkExtent pblk lblk (u32 (end_ - lblk)) second).

Definition no_extent : ext2fs_extent := MkExtent 0 0 0 0.

(** [fuel] bounds the retries of the movements to a leaf; on an error that comes before
    the extent is read, none is returned. *)
Fixpoint get_loop (fuel : nat) (orig_op : Z) (failed_csum : bool) (h : ext2_extent_handle) :
    prog W (Z * ext2fs_extent * ext2_extent_handle) :=
  match fuel with
  | O => spin
  | S fuel =>
      let! p := lift (get_path h (level h)) in
      let '(c, v) := choose_op orig_op h p in
      let p := set_visit v p in
      let h := set_path (level h) p h in
      match c with
      | inl e => ret (e, no_extent, h)
      | inr op =>
          let! '(e, ix, h, failed) := move orig_op op h p in
          let failed_csum := failed_csum || failed in
          if negb (e =? 0) then ret (e, no_extent, h) else
          match ix with
          | None => ret (EXT2_ET_NO_CURRENT_NODE, no_extent, h)
          | Some ix =>
              let! p := lift (get_path h (level h)) in
              let! extent := lift (read_extent h p ix) in
              let leaf := level h =? max_depth h in
              if ((orig_op =? EXT2_EXTENT_NEXT_LEAF) || (orig_op =? EXT2_EXTENT_PREV_LEAF))
                 && negb leaf
              then get_loop fuel orig_op failed_csum h
              else if (orig_op =? EXT2_EXTENT_LAST_LEAF) && (negb leaf || negb (left p =? 0))
              then get_loop fuel orig_op failed_csum h
              else ret (if failed_csum then EXT2_ET_EXTENT_CSUM_INVALID else 0, extent, h)
          end
      end
  end.

Definition ext2fs_extent_get (fuel : nat) (h : ext2_extent_handle) (flags : Z) :
    prog W (Z * ext2fs_extent * ext2_extent_handle) :=
  get_loop fuel (Z.land flags EXT2_EXTENT_MOVE_MASK) false h.

(** ** Where the cursor is *)
Record ext2_extent_info : Type := MkInfo {
  curr_entry : Z;
  curr_level : Z;
  num_entries : Z;
  info_max_entries : Z;
  info_max_depth : Z;
  bytes_avail : Z;
}.

Definition ext2fs_extent_get_info (h : ext2_extent_handle) : outcome (Z * ext2_extent_info) :=
  let? p := get_path h (level h) in
  Ret (0, MkInfo (match curr p with Some ix => ix / 12 | None => 0 end) (level h) (entries p)
            (max_entries p) (max_depth h) ((max_entries p - entries p) * 12)).

(** ** Finding a block

    The loop of ext2fs_extent_goto2, with the extent at hand; [fuel] bounds its turns. *)
Fixpoint goto_loop (fuel : nat) (leaf_level b : Z) (extent : ext2fs_extent)
    (h : ext2_extent_handle) : prog W (Z * ext2_extent_handle) :=
  match fuel with
  | O => spin
  | S fuel =>
      let get := ext2fs_extent_get 1 in
      let go_down h :=
        let! '(e, x, h) := get h EXT2_EXTENT_DOWN in
        if negb (e =? 0) then ret (e, h) else goto_loop fuel leaf_level b x h in
      if max_depth h - level h =? leaf_level then
        if (e_lblk extent <=? b) && (b <? u64 (e_lblk extent + e_len extent)) then ret (0, h)
        else if b <? e_lblk extent then
          let! '(_, _, h) := get h EXT2_EXTENT_PREV_SIB in ret (EXT2_ET_EXTENT_NOT_FOUND, h)
        else
        let! '(e, x, h) := get h EXT2_EXTENT_NEXT_SIB in
        if e =? EXT2_ET_EXTENT_NO_NEXT then ret (EXT2_ET_EXTENT_NOT_FOUND, h)
        else if negb (e =? 0) then ret (e, h)
        else goto_loop fuel leaf_level b x h
      else
      let! '(e, x, h) := get h EXT2_EXTENT_NEXT_SIB in
      if e =? EXT2_ET_EXTENT_NO_NEXT then go_down h
      else if negb (e =? 0) then ret (e, h)
      else if b =? e_lblk x then go_down h
      else if e_lblk x <? b then goto_loop fuel leaf_level b x h
      else
      let! '(e, _, h) := get h EXT2_EXTENT_PREV_SIB in
      if negb (e =? 0) then ret (e, h) else go_down h
  end.

Definition ext2fs_extent_goto2 (fuel : nat) (h : ext2_extent_handle) (leaf_level b : Z) :
    prog W (Z * ext2_extent_handle) :=
  let! '(e, x, h) := ext2fs_extent_get 1 h EXT2_EXTENT_ROOT in
  if negb (e =? 0) then
    ret (if e =? EXT2_ET_EXTENT_NO_NEXT then EXT2_ET_EXTENT_NOT_FOUND else e, h)
  else if max_depth h <? leaf_level then ret (EXT2_ET_OP_NOT_SUPPORTED, h)
  else goto_loop fuel leaf_level b x h.

Definition ext2fs_extent_goto (fuel : nat) (h : ext2_extent_handle) (b : Z) :
    prog W (Z * ext2_extent_handle) :=
  ext2fs_extent_goto2 fuel h 0 b.

End Tree.

(** ** Bounds

    What holds of a handle whatever the blocks of the disk contain: the levels down to
    the current one hold a node whose header was verified and a current entry inside
    of it, the deeper ones a cursor that some node left behind. *)
Section Safety.
  Context `{Machine} {W : Type} `{TreeFs W}.
  Context (Hbs : 12 ≤ tf_blocksize).
  Context (Hread : ∀ b w data w', sys_read_blk64 b w = ((0, data), w') →
             zlen data = tf_blocksize ∧ Forall is_byte data).

Definition level_size (l : Z) : Z := if l =? 0 then 60 else tf_blocksize.

Definition stale_ok (p : extent_path) : Prop :=
  ∀ c, curr p = Some c → 0 ≤ c ∧ c + 12 ≤ tf_blocksize.

Definition cursor_ok (size : Z) (p : extent_path) : Prop :=
  match curr p with
  | None => left p = entries p
  | Some c => 0 ≤ c ∧ c + 12 ≤ size ∧
      (0 < entries p → left p < entries p ∧ c = first_entry + 12 * (entries p - 1 - left p))
  end.
Definition node_ok (size : Z) (p : extent_path) : Prop :=
  ∃ b, buf p = Some b ∧ zlen b = size ∧ eh_entries b = Ret (entries p) ∧
    0 ≤ entries p < 65536 ∧ first_entry + 12 * entries p ≤ size ∧
    0 ≤ left p ≤ entries p ∧ cursor_ok size p.

Definition handle_inv (h : ext2_extent_handle) : Prop :=
  zlen (path h) = max_depth h + 1 ∧ 0 ≤ level h ≤ max_depth h ∧
  ∀ l p, 0 ≤ l → path h !! Z.to_nat l = Some p →
    if l <=? level h then node_ok (level_size l) p else stale_ok p.

Lemma le_slice_total n off b :
  0 ≤ off → 0 ≤ n → off + n ≤ zlen b →
  ∃ v, of_option (le <$> slice off n b) = Ret v ∧ (Forall is_byte b → 0 ≤ v < 256 ^ n).
Proof.
  intros Ho Hn Hb. destruct (slice_is_Some off n b) as [x Hx]; [done..|].
  exists (le x). rewrite Hx. split; [done|]. intros Hbytes.
  pose proof (slice_length _ _ _ _ Hx) as Hl. assert (Hx' : Forall is_byte x).
  { apply slice_Some in Hx as (_&_&_&->). by apply Forall_take, Forall_drop. }
  pose proof (le_bound x Hx') as Hle. by rewrite Hl, Z2Nat.id in Hle.
Qed.

Lemma le16_total off b :
  0 ≤ off → off + 2 ≤ zlen b → ∃ v, le16 off b = Ret v ∧ (Forall is_byte b → 0 ≤ v < 65536).
Proof. intros. by apply le_slice_total. Qed.
Lemma le32_total off b : 0 ≤ off → off + 4 ≤ zlen b → ∃ v, le32 off b = Ret v.
Proof. intros. destruct (le_slice_total 4 off b) as (v & ? & _); [lia..|]. by exists v. Qed.

(** A verified header leaves room for its entries. *)
Lemma verify_total b size :
  zlen b = size → 12 ≤ size → Forall is_byte b →
  ∃ e n m, ext2fs_extent_header_verify b size = Ret e ∧ eh_entries b = Ret n ∧ eh_max b = Ret m ∧
    0 ≤ n < 65536 ∧ (e = 0 → first_entry + 12 * n ≤ size).
Proof.
  intros Hl Hs Hb. unfold ext2fs_extent_header_verify, eh_magic, eh_entries, eh_max.
  destruct (le16_total 0 b) as (mg & -> & _); [lia..|].
  destruct (le16_total 2 b) as (n & -> & Hn); [lia..|].
  destruct (le16_total 4 b) as (m & -> & _); [lia..|]. cbn [obind].
  specialize (Hn Hb). unfold first_entry. exists
    (if negb (mg =? EXT3_EXT_MAGIC) then EXT2_ET_EXTENT_HEADER_BAD else
     if m <? n then EXT2_ET_EXTENT_HEADER_BAD else
     if ((size - 12) / 12 <? m) || (m <? (size - 12) / 12 - 2)
     then EXT2_ET_EXTENT_HEADER_BAD else 0), n, m.
  split_and!; [by repeat case_match|done|done|lia|lia|]. intros He.
  pose proof (Z.mul_div_le (size - 12) 12).
  destruct (negb (mg =? EXT3_EXT_MAGIC)); [done|].
  destruct (Z.ltb_spec m n); [done|]. destruct (Z.ltb_spec ((size - 12) / 12) m); [done|]. lia.
Qed.

Lemma inv_get h : handle_inv h →
  ∃ p, get_path h (level h) = Ret p ∧ node_ok (level_size (level h)) p.
Proof.
  intros (Hlen & Hlev & Hps). unfold get_path.
  destruct (lookup_lt_is_Some_2 (path h) (Z.to_nat (level h))) as [p Hp]; [lia|].
  rewrite Hp. exists p. split; [done|]. specialize (Hps (level h) p ltac:(lia) Hp).
  by rewrite Z.leb_refl in Hps.
Qed.

Lemma inv_set h p : handle_inv h → node_ok (level_size (level h)) p →
  handle_inv (set_path (level h) p h).
Proof.
  intros (Hlen & Hlev & Hps) Hp. split_and!; simpl; [by rewrite length_insert|lia|lia|].
  intros l q Hl. destruct (decide (l = level h)) as [->|Hne].
  - rewrite list_lookup_insert_eq by lia. intros [= <-]. by rewrite Z.leb_refl.
  - rewrite list_lookup_insert_ne by lia. apply Hps. lia.
Qed.

Lemma get_set h p : handle_inv h → get_path (set_path (level h) p h) (level h) = Ret p.
Proof.
  intros (Hlen & Hlev & _). unfold get_path. simpl. by rewrite list_lookup_insert_eq by lia.
Qed.

Lemma inv_up h : handle_inv h → 0 < level h → handle_inv (set_level (level h - 1) h).
Proof.
  intros (Hlen & Hlev & Hps) Hpos. split_and!; simpl; [done|lia|lia|]. intros l p Hl Hp.
  specialize (Hps l p Hl Hp). destruct (Z.leb_spec l (level h - 1)).
  - by rewrite (proj2 (Z.leb_le _ _)) in Hps by lia.
  - destruct (Z.leb_spec l (level h)); [|done].
    destruct Hps as (b & _ & _ & _ & _ & _ & _ & Hc). intros c Ec. unfold cursor_ok in Hc.
    rewrite Ec in Hc. unfold level_size in Hc. rewrite (proj2 (Z.eqb_neq l 0)) in Hc by lia. lia.
Qed.

Lemma inv_root h : handle_inv h → handle_inv (set_level 0 h).
Proof.
  intros Hinv. remember (Z.to_nat (level h)) as n eqn:En. revert h Hinv En.
  induction n as [|n IH]; intros h Hinv En.
  - destruct Hinv as (? & ? & ?). assert (level h = 0) by lia.
    replace (set_level 0 h) with h; [by split_and!; auto; lia|]. destruct h; simpl in *. by subst.
  - assert (0 < level h) by lia. apply (IH (set_level (level h - 1) h)); [by apply inv_up|simpl; lia].
Qed.

Lemma inv_deeper h p l b :
  handle_inv h → level h < max_depth h → l = level h + 1 → (b = true → node_ok tf_blocksize p) →
  (b = false → stale_ok p) →
  handle_inv (set_level (if b then l else level h) (set_path l p h)).
Proof.
  intros (Hlen & Hlev & Hps) Hlt -> Hnode Hstale.
  split_and!; simpl; [by rewrite length_insert|destruct b; lia|destruct b; lia|].
  intros l q Hl. destruct (decide (l = level h + 1)) as [->|Hne].
  - rewrite list_lookup_insert_eq by lia. intros [= <-]. destruct b.
    + rewrite Z.leb_refl. unfold level_size. rewrite (proj2 (Z.eqb_neq _ 0)) by lia. auto.
    + rewrite (proj2 (Z.leb_gt _ _)) by lia. auto.
  - rewrite list_lookup_insert_ne by lia. intros Hq. specialize (Hps l q Hl Hq).
    destruct b; destruct (Z.leb_spec l (level h)); [rewrite (proj2 (Z.leb_le _ _)) by lia; done| |done..].
    by rewrite (proj2 (Z.leb_gt _ _)) by lia.
Qed.

(** What every movement ensures. *)
Definition moved_ok (r : moved) : Prop :=
  let '(e, ix, h) := r in
  handle_inv h ∧ (e = 0 → ∃ p, get_path h (level h) = Ret p ∧ ix = curr p).

Lemma moved_set h p e ix :
  handle_inv h → node_ok (level_size (level h)) p → ix = curr p →
  moved_ok (e, ix, set_path (level h) p h).
Proof.
  intros Hinv Hp ->. split; [by apply inv_set|]. intros _. exists p. simpl.
  split; [by apply get_set|done].
Qed.

Lemma next_sib_ok h p : handle_inv h → node_ok (level_size (level h)) p → moved_ok (next_sib h p).
Proof.
  intros Hinv Hp. unfold next_sib. destruct (Z.leb_spec (left p) 0).
  { split; [by apply inv_set|done]. }
  apply moved_set; [done| |done]. destruct Hp as (b & Eb & Hl & Hn & He & Hfit & Hleft & Hc).
  exists b. unfold cursor_ok, first_entry in *. simpl. split_and!; try done; try lia;
    destruct (curr p); lia.
Qed.

Lemma first_sib_ok h p : handle_inv h → node_ok (level_size (level h)) p → moved_ok (first_sib h p).
Proof.
  intros Hinv (b & Eb & Hl & Hn & He & Hfit & Hleft & Hc). apply next_sib_ok; [done|].
  exists b. unfold cursor_ok. simpl. split_and!; (done || lia).
Qed.

Lemma prev_sib_ok h p : handle_inv h → node_ok (level_size (level h)) p → moved_ok (prev_sib h p).
Proof.
  intros Hinv Hp. unfold prev_sib. destruct (curr p) as [c|] eqn:Ec; [|done].
  destruct (Z.leb_spec (entries p) (left p + 1)); [done|].
  apply moved_set; [done| |done]. destruct Hp as (b & Eb & Hl & Hn & He & Hfit & Hleft & Hc).
  exists b. unfold cursor_ok, first_entry in *. rewrite Ec in Hc. simpl.
  split_and!; try done; lia.
Qed.

Lemma last_sib_ok h p : handle_inv h → node_ok (level_size (level h)) p →
  ∃ r, last_sib h p = Ret r ∧ moved_ok r.
Proof.
  intros Hinv (b & Eb & Hl & Hn & He & Hfit & Hleft & Hc). unfold last_sib, last_entry.
  rewrite Eb. cbn [of_option obind]. rewrite Hn. cbn [obind]. eexists. split; [reflexivity|].
  apply moved_set; [done| |done]. exists b. unfold cursor_ok, first_entry in *. simpl.
  split_and!; try done; lia.
Qed.

Lemma node_ok_visit size v p : node_ok size p → node_ok size (set_visit v p).
Proof. intros (b & Hb). by exists b. Qed.

Lemma up_ok orig h : handle_inv h → ∃ r, up orig h = Ret r ∧ moved_ok r.
Proof.
  intros Hinv. unfold up. destruct (Z.leb_spec (level h) 0); [by eexists|].
  pose proof (inv_up h Hinv ltac:(lia)) as Hinv'. destruct (inv_get _ Hinv') as (p & Hp & Hok).
  cbv zeta. rewrite Hp. cbn [obind]. eexists. split; [reflexivity|].
  apply moved_set; [done| |by case_match].
  destruct ((orig =? EXT2_EXTENT_PREV) || (orig =? EXT2_EXTENT_PREV_LEAF)); [|done].
  by apply node_ok_visit.
Qed.

(** A node that was just read. *)
Definition loaded (p : extent_path) : Prop :=
  ∃ b, buf p = Some b ∧ zlen b = tf_blocksize ∧ eh_entries b = Ret (entries p) ∧
    0 < entries p < 65536 ∧ first_entry + 12 * entries p ≤ tf_blocksize ∧ left p = entries p.

Lemma load_node_ok h b newpath s :
  handle_inv h → level h < max_depth h → stale_ok newpath →
  total (load_node h b newpath) (fun r _ =>
    let '(e, _, h') := r in
    if e =? 0 then ∃ p, h' = set_level (level h + 1) (set_path (level h + 1) p h) ∧ loaded p
    else handle_inv h') s.
Proof.
  intros Hinv Hlt Hstale. unfold load_node. apply total_bind.
  set (Q := fun (r : Z * bytes) (_ : state W) =>
              r.1 = 0 → zlen r.2 = tf_blocksize ∧ Forall is_byte r.2).
  apply (total_mono _ Q); cycle 1.
  { destruct tf_image.
    - apply total_ret. intros _. cbn [snd]. rewrite length_replicate. split; [lia|].
      apply Forall_replicate. by unfold is_byte.
    - apply total_sys. intros [e data] w' E He. cbn [fst snd] in *. subst e. by eapply Hread. }
  intros [e data] s1 HQ. cbn [fst snd] in HQ. unfold Q in HQ. cbn [fst snd] in HQ.
  assert (Hst : ∀ p, curr p = curr newpath → stale_ok p) by (intros p E c; rewrite E; apply Hstale).
  assert (Hbad : ∀ p, curr p = curr newpath → handle_inv (set_path (level h + 1) p h)).
  { intros p E. pose proof (inv_deeper h p (level h + 1) false Hinv Hlt eq_refl) as Hd.
    apply Hd; [done|auto]. }
  destruct (Z.eqb_spec e 0) as [->|He]; cbn [negb].
  2:{ apply total_ret. rewrite (proj2 (Z.eqb_neq e 0)) by done. by apply Hbad. }
  destruct HQ as [Hl Hbytes]; [done|].
  destruct (verify_total data tf_blocksize) as (e & n & m & E & En & Em & Hn & Hfit); [done..|].
  apply total_bind. eapply total_lift; [exact E|]. destruct (Z.eqb_spec e 0) as [->|He]; cbn [negb].
  2:{ apply total_ret. rewrite (proj2 (Z.eqb_neq e 0)) by done. by apply Hbad. }
  apply total_bind. eapply total_lift; [exact En|]. apply total_bind.
  eapply total_lift; [exact Em|]. apply total_ret.
  set (p := MkPath (Some data) n m n _ _ _ _).
  destruct (Z.leb_spec n 0).
  - rewrite (proj2 (Z.eqb_neq _ 0)) by done.
    apply (inv_deeper h p (level h + 1) true Hinv Hlt eq_refl); [|done]. intros _.
    assert (n = 0) as -> by lia. exists data. unfold cursor_ok. simpl.
    unfold first_entry in *. split_and!; try (done || lia). destruct (curr newpath) eqn:Ec; [|done].
    pose proof (Hstale _ Ec). lia.
  - rewrite Z.eqb_refl. exists p. split; [done|]. exists data. simpl. split_and!; (done || lia || auto).
Qed.

Lemma index_block_total ix b : 0 ≤ ix → ix + 12 ≤ zlen b → ∃ v, index_block ix b = Ret v.
Proof.
  intros. unfold index_block. destruct (le32_total (ix + 4) b) as (v & ->); [lia..|].
  destruct (le16_total (ix + 8) b) as (u & -> & _); [lia..|]. by eexists.
Qed.
Lemma extent_start_total ix b : 0 ≤ ix → ix + 12 ≤ zlen b → ∃ v, extent_start ix b = Ret v.
Proof.
  intros. unfold extent_start. destruct (le16_total (ix + 6) b) as (v & -> & _); [lia..|].
  destruct (le32_total (ix + 8) b) as (u & ->); [lia..|]. by eexists.
Qed.

(** The entry after the current one, read when there is one. *)
Lemma next_block_total size p b c :
  node_ok size p → buf p = Some b → curr p = Some c →
  ∃ v, (if 0 <? left p then le32 (c + 12) b else Ret (end_blk p)) = Ret v.
Proof.
  intros (b' & Eb & Hl & Hn & He & Hfit & Hleft & Hc) Eb' Ec. simplify_eq.
  unfold cursor_ok, first_entry in *. rewrite Ec in Hc.
  destruct (Z.ltb_spec 0 (left p)); [apply le32_total; lia|by eexists].
Qed.

Lemma moved_deeper h q :
  handle_inv h → level h < max_depth h → node_ok tf_blocksize q →
  moved_ok (0, curr q, set_level (level h + 1) (set_path (level h + 1) q h)).
Proof.
  intros Hinv Hlt Hq. split; [by apply (inv_deeper h q (level h + 1) true)|]. intros _. exists q.
  destruct Hinv as (Hlen & Hlev & _). unfold get_path. simpl.
  by rewrite list_lookup_insert_eq by lia.
Qed.

Lemma enter_node_ok op h p pbuf c newp :
  handle_inv h → level h < max_depth h → node_ok (level_size (level h)) p →
  buf p = Some pbuf → curr p = Some c → loaded newp →
  ∃ q, enter_node op (set_level (level h + 1) (set_path (level h + 1) newp h)) p pbuf c
       = Ret (0, curr q, set_level (level h + 1) (set_path (level h + 1) q h)) ∧
    node_ok tf_blocksize q.
Proof.
  intros Hinv Hlt Hp Epb Ec (b & Eb & Hl & Hn & He & Hfit & Hleft). unfold enter_node.
  destruct Hinv as (Hlen & Hlev & _). unfold get_path. cbn [level set_level path set_path].
  rewrite list_lookup_insert_eq by lia. cbn [of_option obind]. rewrite Eb. cbn [of_option obind].
  destruct (next_block_total _ _ _ _ Hp Epb Ec) as (v & ->). cbn [obind].
  assert (Hset : ∀ q, set_path (level h + 1) q (set_level (level h + 1) (set_path (level h + 1) newp h))
                      = set_level (level h + 1) (set_path (level h + 1) q h)).
  { intros q. unfold set_path, set_level. simpl. by rewrite list_insert_insert_eq. }
  set (e := MkPath _ _ _ _ _ v _ _).
  unfold last_entry. rewrite Hn. cbn [obind]. rewrite !Hset.
  assert (Hq : ∀ l c v e, 0 ≤ l < entries newp → c = first_entry + 12 * (entries newp - 1 - l) →
            node_ok tf_blocksize (move_path l (Some c) v
              (MkPath (Some b) (entries newp) (max_entries newp) (left newp) (visit_num newp) e
                 (blk newp) (curr newp)))).
  { intros l c' v' e' Hl' ->. exists b. unfold cursor_ok, first_entry in *. simpl.
    split_and!; (done || lia). }
  destruct (op =? EXT2_EXTENT_DOWN); 
    [exists (move_path (entries newp - 1) (Some first_entry) 0 e)|eexists (move_path 0 (Some _) _ e)];
    (split; [reflexivity|]); apply Hq; unfold first_entry; lia.
Qed.

(** A movement down that succeeds leaves the level above alone. *)
Lemma down_ok op h p s :
  handle_inv h → get_path h (level h) = Ret p → node_ok (level_size (level h)) p →
  total (down op h p) (fun '(m, _) _ => moved_ok m ∧
    (m.1.1 = 0 → ∃ q, m.2 = set_level (level h + 1) (set_path (level h + 1) q h) ∧
                   level h < max_depth h)) s.
Proof.
  intros Hinv Hget Hp. unfold down. destruct (curr p) as [c|] eqn:Ec; [|by apply total_ret].
  destruct (Z.leb_spec (max_depth h) (level h)); [by apply total_ret|].
  destruct Hinv as (Hlen & Hlev & Hps).
  destruct (lookup_lt_is_Some_2 (path h) (Z.to_nat (level h + 1))) as [np Hnp]; [lia|].
  assert (Hst : stale_ok np).
  { specialize (Hps (level h + 1) np ltac:(lia) Hnp). by rewrite (proj2 (Z.leb_gt _ _)) in Hps by lia. }
  assert (Hinv : handle_inv h) by done.
  apply total_bind. eapply total_lift; [unfold get_path; by rewrite Hnp|].
  case_match; [by apply total_ret|]. destruct (Hp) as (pbuf & Epb & Hl & Hn & He & Hfit & Hleft & Hc).
  apply total_bind. eapply total_lift; [by rewrite Epb|].
  unfold cursor_ok in Hc. rewrite Ec in Hc.
  destruct (index_block_total c pbuf) as (b & Hb); [lia..|].
  apply total_bind. eapply total_lift; [exact Hb|]. case_match; [by apply total_ret|].
  apply total_bind. eapply total_mono; [|by apply load_node_ok].
  intros [[e f] h'] s1 Hload. destruct (Z.eqb_spec e 0) as [->|He0]; cbn [negb].
  - destruct Hload as (newp & -> & Hnew).
    destruct (enter_node_ok op h p pbuf c newp) as (q & E & Hq); [done..|].
    apply total_bind. eapply total_lift; [exact E|]. apply total_ret.
    split; [by apply moved_deeper|]. intros _. by exists q.
  - apply total_ret. by split.
Qed.

Lemma move_ok orig op h p s :
  handle_inv h → get_path h (level h) = Ret p → node_ok (level_size (level h)) p →
  total (move orig op h p) (fun '(m, _) _ => moved_ok m) s.
Proof.
  intros Hinv Hget Hp. unfold move.
  destruct (op =? EXT2_EXTENT_CURRENT).
  { apply total_ret. split; [done|]. intros _. by exists p. }
  destruct (op =? EXT2_EXTENT_ROOT).
  { pose proof (inv_root h Hinv) as Hroot. destruct (inv_get _ Hroot) as (p0 & Hp0 & Hok).
    apply total_bind. eapply total_lift; [exact Hp0|]. apply total_ret. by apply first_sib_ok. }
  destruct (op =? EXT2_EXTENT_FIRST_SIB); [by apply total_ret, first_sib_ok|].
  destruct (op =? EXT2_EXTENT_NEXT_SIB); [by apply total_ret, next_sib_ok|].
  destruct (op =? EXT2_EXTENT_PREV_SIB); [by apply total_ret, prev_sib_ok|].
  destruct (op =? EXT2_EXTENT_LAST_SIB).
  { destruct (last_sib_ok h p Hinv Hp) as (r & E & Hr). apply total_bind.
    by eapply total_lift; [exact E|]. }
  destruct (op =? EXT2_EXTENT_UP).
  { destruct (up_ok orig h Hinv) as (r & E & Hr). apply total_bind.
    by eapply total_lift; [exact E|]. }
  case_match; [|by apply total_ret].
  eapply total_mono; [|by apply down_ok]. by intros [m f] s' [? _].
Qed.

Lemma read_extent_total h p c :
  node_ok (level_size (level h)) p → curr p = Some c → ∃ x, read_extent h p c = Ret x.
Proof.
  intros Hp Ec. unfold read_extent. destruct (Hp) as (b & Eb & Hl & Hn & He & Hfit & Hleft & Hc).
  unfold cursor_ok in Hc. rewrite Ec in Hc. rewrite Eb. cbn [of_option obind].
  destruct (index_block_total c b) as (v1 & E1); [lia..|].
  destruct (extent_start_total c b) as (v2 & E2); [lia..|].
  destruct (le32_total c b) as (v3 & E3); [lia..|].
  destruct (le16_total (c + 4) b) as (v4 & E4 & _); [lia..|].
  destruct (next_block_total _ _ _ _ Hp Eb Ec) as (v5 & E5).
  rewrite E1, E2, E3, E4. cbn [obind]. rewrite E5. cbn [obind].
  by destruct (level h =? max_depth h); eexists.
Qed.

(** *** A call of ext2fs_extent_get *)
Definition leaf_op (op : Z) : bool :=
  (op =? EXT2_EXTENT_NEXT_LEAF) || (op =? EXT2_EXTENT_PREV_LEAF) || (op =? EXT2_EXTENT_LAST_LEAF).

Lemma get_loop_safe fuel op failed h s :
  handle_inv h →
  match get_loop fuel op failed h s with
  | Ret ((_, _, h'), _) => handle_inv h'
  | Spin => leaf_op op = true ∨ fuel = 0%nat
  | _ => False
  end.
Proof.
  revert failed h s. induction fuel as [|fuel IH]; intros failed h s Hinv; [by right|].
  assert (Htot : ∀ (m : prog W (Z * ext2fs_extent * ext2_extent_handle)),
    total m (fun r _ => handle_inv r.2) s →
    match m s with
    | Ret ((_, _, h'), _) => handle_inv h'
    | Spin => leaf_op op = true ∨ S fuel = 0%nat
    | _ => False end) by (intros m; unfold total; by destruct (m s) as [[[[]]]| | |]).
  cbn [get_loop]. destruct (inv_get h Hinv) as (p & Hp & Hok).
  unfold bind at 1, lift at 1. rewrite Hp. cbn [obind].
  destruct (choose_op op h p) as [c v].
  pose proof (node_ok_visit _ v _ Hok) as Hok'. pose proof (inv_set h _ Hinv Hok') as Hinv'.
  destruct c as [e|c]; [by apply Htot, total_ret|].
  pose proof (move_ok op c _ _ s Hinv' (get_set h _ Hinv) Hok') as Hmove.
  apply total_run in Hmove as ([[[e ix] h1] f] & s1 & Hrun & Hinv1 & Hcur).
  rewrite (bind_eq _ _ _ _ _ Hrun). destruct (Z.eqb_spec e 0) as [->|]; [|done]. cbn [negb].
  destruct ix as [ix|]; [|done]. destruct (Hcur eq_refl) as (p1 & Hp1 & Hix).
  unfold bind at 1, lift at 1. rewrite Hp1. cbn [obind].
  destruct (inv_get h1 Hinv1) as (p1' & Hp1' & Hok1). rewrite Hp1 in Hp1'. simplify_eq Hp1'.
  intros <-. destruct (read_extent_total h1 p1 ix Hok1 (eq_sym Hix)) as (x & Hx).
  unfold bind at 1, lift at 1. rewrite Hx. cbn [obind].
  assert (Hrec : leaf_op op = true → match get_loop fuel op (failed || f) h1 s1 with
    | Ret ((_, _, h'), _) => handle_inv h' | Spin => leaf_op op = true ∨ S fuel = 0%nat
    | _ => False end).
  { intros Hl. specialize (IH (failed || f) h1 s1 Hinv1).
    destruct (get_loop _ _ _ _ _) as [[[[]]]| | |]; auto. }
  destruct (((op =? EXT2_EXTENT_NEXT_LEAF) || (op =? EXT2_EXTENT_PREV_LEAF)) && _) eqn:E1;
    [|destruct ((op =? EXT2_EXTENT_LAST_LEAF) && _) eqn:E2; [|exact Hinv1]];
    apply Hrec; unfold leaf_op.
  - apply andb_true_iff in E1 as [E1 _]. by rewrite E1.
  - apply andb_true_iff in E2 as [E2 _]. rewrite E2. by rewrite !orb_true_r.
Qed.


(** *** Opening *)
Lemma i_block_bytes_spec inode :
  length (i_block inode) = 15%nat →
  zlen (i_block_bytes inode) = 60 ∧ Forall is_byte (i_block_bytes inode).
Proof.
  intros Hl. unfold i_block_bytes. set (f := if big_endian then be_split 4 else le_split 4).
  assert (Hf : ∀ w, length (f w) = 4%nat ∧ Forall is_byte (f w)).
  { intros w. unfold f. destruct big_endian; auto using be_split_length, be_split_bytes,
      le_split_length, le_split_bytes. }
  split.
  - replace 60 with (4 * zlen (i_block inode)) by (rewrite Hl; done). clear Hl.
    induction (i_block inode) as [|w ws IH]; [done|]. rewrite fmap_cons, concat_cons, length_app.
    destruct (Hf w) as [-> _]. simpl length. lia.
  - apply Forall_concat, Forall_fmap, Forall_true. intros w. apply Hf.
Qed.

Lemma open_inode_safe ino inode :
  (∀ n, mem_ok n = true) → length (i_block inode) = 15%nat →
  ∃ e h, open_inode ino inode = Ret (e, h) ∧ (e = 0 → handle_inv h).
Proof.
  intros Hmem Hl. destruct (i_block_bytes_spec inode Hl) as [Hlen Hbytes]. unfold open_inode.
  set (b := if bool_decide _ then empty_header (i_block_bytes inode) else i_block_bytes inode).
  assert (Hb : zlen b = 60 ∧ Forall is_byte b).
  { unfold b. case_bool_decide; [|done]. unfold empty_header.
    rewrite !length_app, length_drop, !le_split_length. split; [lia|].
    repeat (apply Forall_app; split); try apply le_split_bytes. by apply Forall_drop. }
  clearbody b. destruct Hb as [Hb Hby].
  case_match; [by eexists _, _|].
  destruct (verify_total b 60 Hb ltac:(lia) Hby) as (e & n & m & -> & En & Em & Hn & Hfit).
  cbn [obind]. destruct (Z.eqb_spec e 0) as [->|He]; cbn [negb]; [|by eexists _, _].
  unfold eh_depth. destruct (le16_total 6 b) as (d & -> & Hd); [lia..|]. cbn [obind].
  rewrite Hmem, En, Em. cbn [negb obind]. eexists _, _. split; [reflexivity|]. intros _.
  specialize (Hd Hby). specialize (Hfit eq_refl). split_and!; simpl; [rewrite length_replicate; lia|lia|lia|].
  intros l p Hl0. destruct (Z.to_nat l) as [|k] eqn:Ek; simpl.
  - intros [= <-]. assert (l = 0) as -> by lia. exists b. unfold cursor_ok; simpl.
    unfold first_entry, level_size in *. simpl. split_and!; (done || lia).
  - intros [-> _]%lookup_replicate. rewrite (proj2 (Z.leb_gt _ _)) by lia. done.
Qed.

(** *** The walk ends

    A handle as a number in base [rank_base], a digit per level: what is left to visit
    there.  EXT2_EXTENT_NEXT makes it smaller. *)
Definition rank_base : Z := 2 ^ 18.
Definition digit (l : Z) (i : nat) (p : extent_path) : Z :=
  if Z.of_nat i <=? l then 2 * left p + (if visit_num p =? 0 then 1 else 0) + 1 else 0.
Definition digits (h : ext2_extent_handle) : list Z := imap (digit (level h)) (path h).
Definition rank_of (ds : list Z) : Z := foldl (fun a d => a * rank_base + d) 0 ds.
Definition rank (h : ext2_extent_handle) : Z := rank_of (digits h).

Lemma rank_shift ds a :
  foldl (fun a d => a * rank_base + d) a ds = a * rank_base ^ zlen ds + rank_of ds.
Proof.
  unfold rank_of. revert a. induction ds as [|d ds IH]; intros a; cbn [foldl]; [simpl; lia|].
  rewrite (IH (a * rank_base + d)), (IH (0 * rank_base + d)). simpl length.
  replace (Z.of_nat (S (length ds))) with (Z.succ (zlen ds)) by lia.
  rewrite Z.pow_succ_r by lia. lia.
Qed.

Lemma rank_bound ds :
  Forall (fun d => 0 ≤ d < rank_base) ds → 0 ≤ rank_of ds < rank_base ^ zlen ds.
Proof.
  induction 1 as [|d ds Hd _ IH]; [done|]. unfold rank_of. cbn [foldl]. rewrite rank_shift.
  simpl length. replace (Z.of_nat (S (length ds))) with (Z.succ (zlen ds)) by lia.
  rewrite Z.pow_succ_r by lia. nia.
Qed.

Lemma rank_lex pre d d' t t' :
  length t = length t' → Forall (fun d => 0 ≤ d < rank_base) t' →
  Forall (fun d => 0 ≤ d < rank_base) t → d' < d →
  rank_of (pre ++ d' :: t') < rank_of (pre ++ d :: t).
Proof.
  intros Hl Ht' Ht Hd. pose proof (rank_bound t Ht) as B. pose proof (rank_bound t' Ht') as B'.
  unfold rank_of at 1 2. rewrite !foldl_app. cbn [foldl]. rewrite !(rank_shift t), !(rank_shift t').
  rewrite Hl in *. nia.
Qed.

Lemma digits_bound h : handle_inv h → Forall (fun d => 0 ≤ d < rank_base) (digits h).
Proof.
  intros (Hlen & Hlev & Hps). apply Forall_lookup. intros i d. unfold digits.
  rewrite list_lookup_imap. intros (p & Hp & ->)%fmap_Some. unfold digit, rank_base.
  destruct (Z.leb_spec (Z.of_nat i) (level h)) as [Hi|]; [|lia].
  specialize (Hps (Z.of_nat i) p ltac:(lia)). rewrite Nat2Z.id in Hps. specialize (Hps Hp).
  rewrite (proj2 (Z.leb_le _ _)) in Hps by done. destruct Hps as (b & _ & _ & _ & He & _ & Hl & _).
  destruct (visit_num p =? 0); lia.
Qed.

Lemma rank_decreases h h' p p' :
  handle_inv h → handle_inv h' → max_depth h' = max_depth h → level h - 1 ≤ level h' →
  (∀ i, (i < Z.to_nat (level h))%nat → path h' !! i = path h !! i) →
  path h !! Z.to_nat (level h) = Some p → path h' !! Z.to_nat (level h) = Some p' →
  digit (level h') (Z.to_nat (level h)) p' < digit (level h) (Z.to_nat (level h)) p →
  0 ≤ rank h' < rank h.
Proof.
  intros Hinv Hinv' Hmax Hlev Hpre Hp Hp' Hd. split; [by apply rank_bound, digits_bound|].
  pose proof (digits_bound h Hinv) as B. pose proof (digits_bound h' Hinv') as B'.
  destruct Hinv as (Hlen & Hl & _). destruct Hinv' as (Hlen' & Hl' & _).
  set (k := Z.to_nat (level h)) in *. unfold rank.
  assert (Hk : digits h !! k = Some (digit (level h) k p))
    by (unfold digits; by rewrite list_lookup_imap, Hp).
  assert (Hk' : digits h' !! k = Some (digit (level h') k p'))
    by (unfold digits; by rewrite list_lookup_imap, Hp').
  assert (Htake : take k (digits h') = take k (digits h)).
  { apply list_eq. intros i. destruct (decide (i < k)%nat).
    - rewrite !lookup_take_lt by done. unfold digits. rewrite !list_lookup_imap, Hpre by done.
      destruct (path h !! i); simpl; [|done]. f_equal. unfold digit, k in *.
      by rewrite !(proj2 (Z.leb_le _ _)) by lia.
    - by rewrite !lookup_take_ge by lia. }
  rewrite <- (take_drop_middle _ _ _ Hk), <- (take_drop_middle _ _ _ Hk'), Htake.
  apply rank_lex; [|by apply Forall_drop..|done].
  rewrite !length_drop. unfold digits. rewrite !length_imap. lia.
Qed.

(** Where a successful EXT2_EXTENT_NEXT goes. *)
Lemma next_move_decreases h p c v s m f s1 :
  handle_inv h → get_path h (level h) = Ret p → node_ok (level_size (level h)) p →
  choose_op EXT2_EXTENT_NEXT h p = (inr c, v) →
  move EXT2_EXTENT_NEXT c (set_path (level h) (set_visit v p) h) (set_visit v p) s = Ret ((m, f), s1) →
  m.1.1 = 0 → handle_inv m.2 → max_depth m.2 = max_depth h ∧ 0 ≤ rank m.2 < rank h.
Proof.
  intros Hinv Hget Hp Hchoose Hrun He Hinv'.
  assert (Hlook : path h !! Z.to_nat (level h) = Some p)
    by (unfold get_path in Hget; by destruct (_ !! _); simplify_eq/=).
  pose proof (node_ok_visit _ v _ Hp) as Hpv. pose proof (inv_set h _ Hinv Hpv) as Hinv1.
  pose proof (get_set h (set_visit v p) Hinv) as Hget1.
  set (h1 := set_path (level h) (set_visit v p) h) in *.
  assert (Hlook1 : ∀ q, <[Z.to_nat (level h):=q]> (path h1) !! Z.to_nat (level h) = Some q).
  { intros q. destruct Hinv as (Hlen & Hlev & _). simpl.
    rewrite list_insert_insert_eq, list_lookup_insert_eq by lia. done. }
  assert (Hpre : ∀ i q, (i < Z.to_nat (level h))%nat →
            <[Z.to_nat (level h):=q]> (path h1) !! i = path h !! i).
  { intros i q Hi. simpl. by rewrite list_insert_insert_eq, list_lookup_insert_ne by lia. }
  destruct Hinv as (Hlen & Hlev & Hps). assert (Hinv : handle_inv h) by done.
  unfold choose_op in Hchoose. cbn [Z.eqb orb EXT2_EXTENT_NEXT EXT2_EXTENT_NEXT_LEAF] in Hchoose.
  destruct ((level h <? max_depth h) && (visit_num p =? 0)) eqn:E1;
    [|destruct (Z.ltb_spec 0 (left p)); [|destruct (Z.ltb_spec 0 (level h)); [|done]]];
    injection Hchoose as <- <-.
  - apply andb_true_iff in E1 as [Hlt%Z.ltb_lt Hv%Z.eqb_eq].
    change (move _ _ h1 _) with (down EXT2_EXTENT_DOWN h1 (set_visit (visit_num p + 1) p)) in Hrun.
    pose proof (down_ok EXT2_EXTENT_DOWN h1 _ s Hinv1 Hget1 Hpv) as Hd. unfold total in Hd.
    rewrite Hrun in Hd. destruct Hd as [_ Hd]. destruct (Hd He) as (q & Eh & _).
    rewrite Eh in *. split; [done|]. apply (rank_decreases h _ p (set_visit (visit_num p + 1) p));
      try done; simpl; try lia.
    + intros i Hi. rewrite list_lookup_insert_ne, list_lookup_insert_ne by lia. done.
    + rewrite list_lookup_insert_ne, list_lookup_insert_eq by lia. done.
    + unfold digit. simpl. rewrite !(proj2 (Z.leb_le _ _)) by lia. rewrite Hv. simpl. lia.
  - change (move _ _ h1 _) with (ret (W := W) (next_sib h1 (set_visit (visit_num p) p), false)) in Hrun.
    injection Hrun as <- <- <-. unfold next_sib in *. simpl left in *.
    destruct (Z.leb_spec (left p) 0); [lia|]. simpl in He, Hinv' |- *.
    split; [done|]. eapply (rank_decreases h _ p); [done..|simpl; lia| |exact Hlook|apply Hlook1|].
    + intros i Hi. by apply Hpre.
    + unfold digit. cbn [level left visit_num move_path set_path set_visit]. unfold h1. cbn [level set_path].
      rewrite !(proj2 (Z.leb_le _ _)) by lia. change (0 =? 0) with true.
      destruct (visit_num p =? 0); lia.
  - change (move _ _ h1 _) with (bind (W := W) (lift (up EXT2_EXTENT_NEXT h1)) (fun r => ret (r, false)))
      in Hrun. unfold up in Hrun. cbn [level h1 set_path] in Hrun.
    rewrite (proj2 (Z.leb_gt _ _)) in Hrun by lia. unfold bind, lift, get_path in Hrun.
    cbn [level set_level path] in Hrun.
    destruct (path h1 !! Z.to_nat (level h - 1)) as [q|] eqn:Eq; [|done]. simpl in Hrun.
    injection Hrun as <- <- <-. simpl in He, Hinv' |- *. split; [done|].
    eapply (rank_decreases h _ p (set_visit (visit_num p) p)); [done..|simpl; lia| |exact Hlook| |].
    + intros i Hi. simpl. destruct (decide (i = Z.to_nat (level h - 1))) as [->|].
      * rewrite list_lookup_insert_eq by (rewrite length_insert; lia). rewrite <- Eq. simpl.
        by rewrite list_lookup_insert_ne by lia.
      * rewrite !list_lookup_insert_ne by lia. done.
    + simpl. rewrite list_lookup_insert_ne, list_lookup_insert_eq by lia. done.
    + unfold digit. simpl. rewrite (proj2 (Z.leb_gt _ _)), (proj2 (Z.leb_le _ _)) by lia.
      destruct Hp as (b & _ & _ & _ & _ & _ & Hl & _). destruct (visit_num p =? 0); lia.
Qed.

Lemma next_decreases h s :
  handle_inv h →
  total (ext2fs_extent_get 1 h EXT2_EXTENT_NEXT) (fun '(e, _, h') _ =>
    handle_inv h' ∧ (e = 0 → max_depth h' = max_depth h ∧ 0 ≤ rank h' < rank h)) s.
Proof.
  intros Hinv. pose proof (get_loop_safe 1 EXT2_EXTENT_NEXT false h s Hinv) as Hsafe.
  unfold ext2fs_extent_get. change (Z.land EXT2_EXTENT_NEXT EXT2_EXTENT_MOVE_MASK) with EXT2_EXTENT_NEXT.
  unfold total. destruct (get_loop 1 EXT2_EXTENT_NEXT false h s) as [[[[e x] h'] s']| | |] eqn:E;
    [|done..|by destruct Hsafe]. split; [done|]. intros ->.
  destruct (inv_get h Hinv) as (p & Hget & Hp). cbn [get_loop] in E.
  unfold bind at 1, lift at 1 in E. rewrite Hget in E. cbn [obind] in E.
  destruct (choose_op EXT2_EXTENT_NEXT h p) as [[e|c] v] eqn:Ec.
  { unfold choose_op in Ec. cbn [Z.eqb orb EXT2_EXTENT_NEXT EXT2_EXTENT_NEXT_LEAF] in Ec.
    destruct ((level h <? max_depth h) && (visit_num p =? 0)); [done|].
    destruct (0 <? left p); [done|]. destruct (0 <? level h); [done|].
    injection Ec as <- <-. by injection E. }
  apply bind_inv in E as ([[[e ix] h1] f] & s1 & Hrun & E).
  destruct (Z.eqb_spec e 0) as [->|]; cbn [negb] in E; [|by unfold ret in E; simplify_eq].
  destruct ix as [ix|]; [|by unfold ret in E; simplify_eq].
  apply bind_inv in E as (p1 & s2 & _ & E). apply bind_inv in E as (x1 & s3 & _ & E).
  cbn [Z.eqb orb andb EXT2_EXTENT_NEXT EXT2_EXTENT_NEXT_LEAF EXT2_EXTENT_PREV_LEAF
    EXT2_EXTENT_LAST_LEAF] in E. unfold ret in E. simplify_eq E. intros _ _ -> _.
  apply (next_move_decreases h p c v s (0, Some ix, h') f s1 Hinv Hget Hp Ec Hrun eq_refl Hsafe).
Qed.

End Safety.

(** ** The format of a tree

    A tree of depth 0 is a list of extents, one of depth [S d] a list of index entries,
    each with the subtree that its block holds. *)
Record leaf_rec : Type := MkLeafRec { lf_lblk : Z; lf_len : Z; lf_pblk : Z }.
Record idx_rec : Type := MkIdxRec { ix_lblk : Z; ix_blk : Z; ix_unused : Z }.

Fixpoint tree (d : nat) : Type :=
  match d with O => list leaf_rec | S d => list (idx_rec * tree d) end.

Definition leaf_bytes (r : leaf_rec) : bytes :=
  le_split 4 (lf_lblk r) ++ le_split 2 (lf_len r) ++ le_split 2 (lf_pblk r / 2 ^ 32) ++
  le_split 4 (lf_pblk r mod 2 ^ 32).
Definition idx_bytes (r : idx_rec) : bytes :=
  le_split 4 (ix_lblk r) ++ le_split 4 (ix_blk r mod 2 ^ 32) ++ le_split 2 (ix_blk r / 2 ^ 32) ++
  le_split 2 (ix_unused r).

Definition leaf_wf (r : leaf_rec) : Prop :=
  0 ≤ lf_lblk r < 2 ^ 32 ∧ 0 ≤ lf_len r < 2 ^ 16 ∧ 0 ≤ lf_pblk r < 2 ^ 48.
Definition idx_wf (r : idx_rec) : Prop :=
  0 ≤ ix_lblk r < 2 ^ 32 ∧ 0 ≤ ix_blk r < 2 ^ 48.

Definition node_entries {d} : tree d → list bytes :=
  match d with
  | O => fun t => leaf_bytes <$> t
  | S d => fun t => (fun c : idx_rec * tree d => idx_bytes c.1) <$> t
  end.

(** A node of [size] bytes: header, entries and whatever follows. *)
Definition node_rep (size depth : Z) (es : list bytes) (b : bytes) : Prop :=
  ∃ m gen pad,
    b = le_split 2 EXT3_EXT_MAGIC ++ le_split 2 (zlen es) ++ le_split 2 m ++ le_split 2 depth ++
        le_split 4 gen ++ concat es ++ pad ∧
    zlen b = size ∧ zlen es ≤ m ∧ (size - 12) / 12 - 2 ≤ m ≤ (size - 12) / 12 ∧ m < 65536 ∧
    0 ≤ depth < 65536 ∧ Forall (fun e => length e = 12%nat) es.

(** The subtrees are in their blocks, none of them above itself, and none is empty. *)
Fixpoint on_disk (disk : Z → bytes) (size : Z) (above : list Z) (d : nat) : tree d → Prop :=
  match d with
  | O => Forall leaf_wf
  | S d => Forall (fun c : idx_rec * tree d =>
      idx_wf c.1 ∧ ix_blk c.1 ∉ above ∧ node_entries c.2 ≠ [] ∧
      node_rep size (Z.of_nat d) (node_entries c.2) (disk (ix_blk c.1)) ∧
      on_disk disk size (ix_blk c.1 :: above) d c.2)
  end.

(** What a cursor shows: an extent for each leaf, and each index entry before and after
    its subtree, with the number of logical blocks up to the next entry. *)
Definition leaf_extent (r : leaf_rec) : ext2fs_extent :=
  let uninit := EXT_INIT_MAX_LEN <? lf_len r in
  MkExtent (lf_pblk r) (lf_lblk r) (if uninit then lf_len r - EXT_INIT_MAX_LEN else lf_len r)
    (Z.lor (Z.lor EXT2_EXTENT_FLAGS_LEAF (if uninit then EXT2_EXTENT_FLAGS_UNINIT else 0)) 0).
Definition idx_extent (r : idx_rec) (end_ : Z) (second : bool) : ext2fs_extent :=
  MkExtent (ix_blk r) (ix_lblk r) (u32 (end_ - ix_lblk r))
    (if second then EXT2_EXTENT_FLAGS_SECOND_VISIT else 0).

Definition next_lblk {A} (t : list (idx_rec * A)) (end_ : Z) : Z :=
  match t with (r, _) :: _ => ix_lblk r | [] => end_ end.
Fixpoint index_visits {A} (visits : Z → A → list ext2fs_extent) (end_ : Z)
    (t : list (idx_rec * A)) : list ext2fs_extent :=
  match t with
  | [] => []
  | (r, sub) :: t =>
      let e := next_lblk t end_ in
      idx_extent r e false :: visits e sub ++ idx_extent r e true :: index_visits visits end_ t
  end.
Fixpoint tree_visits (d : nat) (end_ : Z) : tree d → list ext2fs_extent :=
  match d with
  | O => fun t => leaf_extent <$> t
  | S d => index_visits (tree_visits d) end_
  end.

(** *** Reading the format *)
Section Format.

Lemma le_split_slice n w rest : 0 ≤ w < 256 ^ Z.of_nat n →
  le <$> slice 0 (Z.of_nat n) (le_split n w ++ rest) = Some w.
Proof.
  intros Hw. pose proof (slice_app_mid [] (le_split n w) rest 0 (Z.of_nat n) eq_refl) as Hs.
  rewrite le_split_length in Hs. simpl app in Hs. rewrite Hs by done. simpl.
  by rewrite le_le_split.
Qed.

Lemma slice_skip pre k n x : 0 ≤ k → slice (zlen pre + k) n (pre ++ x) = slice k n x.
Proof. intros. by apply slice_app_sub. Qed.

Lemma node_header size depth es b :
  node_rep size depth es b → 12 ≤ size →
  ext2fs_extent_header_verify b size = Ret 0 ∧ eh_entries b = Ret (zlen es) ∧
  eh_depth b = Ret depth ∧ (∃ m, eh_max b = Ret m).
Proof.
  intros (m & gen & pad & Eb & Hl & Hm & Hmax & Hm16 & Hd & _) Hs.
  assert (H0 : eh_magic b = Ret EXT3_EXT_MAGIC).
  { unfold eh_magic, le16. rewrite Eb. by rewrite (le_split_slice 2). }
  assert (H2 : eh_entries b = Ret (zlen es)).
  { unfold eh_entries, le16. rewrite Eb. rewrite (slice_skip (le_split 2 _) 0 2) by done.
    by rewrite (le_split_slice 2) by lia. }
  assert (H4 : eh_max b = Ret m).
  { unfold eh_max, le16. rewrite Eb. rewrite (slice_skip (le_split 2 _) 2 2) by done.
    rewrite (slice_skip (le_split 2 _) 0 2) by done. by rewrite (le_split_slice 2) by lia. }
  assert (H6 : eh_depth b = Ret depth).
  { unfold eh_depth, le16. rewrite Eb. rewrite (slice_skip (le_split 2 _) 4 2) by done.
    rewrite (slice_skip (le_split 2 _) 2 2) by done. rewrite (slice_skip (le_split 2 _) 0 2) by done.
    by rewrite (le_split_slice 2) by lia. }
  split_and!; [|done|done|by exists m]. unfold ext2fs_extent_header_verify.
  rewrite H0, H2, H4. cbn [obind]. rewrite Z.eqb_refl. cbn [negb].
  rewrite (proj2 (Z.ltb_ge _ _)), (proj2 (Z.ltb_ge _ _)), (proj2 (Z.ltb_ge _ _)) by lia. done.
Qed.

Lemma concat_slice es (i : nat) e k n pad :
  Forall (fun e => length e = 12%nat) es → es !! i = Some e → 0 ≤ k → 0 ≤ n → k + n ≤ 12 →
  slice (12 * Z.of_nat i + k) n (concat es ++ pad) = slice k n e.
Proof.
  intros Hes. revert i. induction Hes as [|e0 es He0 Hes IH]; intros i Hi Hk Hn Hkn; [done|].
  simpl concat. rewrite <- app_assoc. destruct i as [|i]; simpl in Hi.
  - injection Hi as ->. rewrite Z.mul_0_r. apply slice_take. lia.
  - replace (12 * Z.of_nat (S i) + k) with (zlen e0 + (12 * Z.of_nat i + k)) by lia.
    rewrite slice_skip by lia. by apply IH.
Qed.

(** The fields of an entry are where they are in its bytes. *)
Lemma node_slice size depth es b (i : nat) e k n :
  node_rep size depth es b → es !! i = Some e → 0 ≤ k → 0 ≤ n → k + n ≤ 12 →
  slice (first_entry + 12 * Z.of_nat i + k) n b = slice k n e.
Proof.
  intros (m & gen & pad & -> & _ & _ & _ & _ & _ & Hes) Hi Hk Hn Hkn.
  set (hdr := le_split 2 EXT3_EXT_MAGIC ++ le_split 2 (zlen es) ++ le_split 2 m ++
              le_split 2 depth ++ le_split 4 gen).
  replace (_ ++ _) with (hdr ++ concat es ++ pad) by (unfold hdr; by rewrite <- !app_assoc).
  replace (first_entry + 12 * Z.of_nat i + k) with (zlen hdr + (12 * Z.of_nat i + k)).
  - rewrite slice_skip by lia. by apply concat_slice.
  - unfold hdr, first_entry. rewrite !length_app, !le_split_length. lia.
Qed.

(** The offset of an entry. *)
Definition ent (i : nat) : Z := first_entry + 12 * Z.of_nat i.

Lemma split48 v : 0 ≤ v < 2 ^ 48 →
  v mod 2 ^ 32 + Z.shiftl (v / 2 ^ 32) 32 = v ∧ 0 ≤ v mod 2 ^ 32 < 2 ^ 32 ∧ 0 ≤ v / 2 ^ 32 < 2 ^ 16.
Proof.
  intros Hv. rewrite Z.shiftl_mul_pow2 by lia. pose proof (Z.div_mod v (2 ^ 32)).
  pose proof (Z.mod_pos_bound v (2 ^ 32)). split_and!; lia.
Qed.

Lemma leaf_read size depth (t : list leaf_rec) b (i : nat) r :
  node_rep size depth (leaf_bytes <$> t) b → t !! i = Some r → leaf_wf r →
  extent_start (ent i) b = Ret (lf_pblk r) ∧ le32 (ent i) b = Ret (lf_lblk r) ∧
  le16 (ent i + 4) b = Ret (lf_len r).
Proof.
  intros Hb Hi (Hl & Hn & Hp). destruct (split48 _ Hp) as (Hs & Hlo & Hhi).
  assert (He : (leaf_bytes <$> t) !! i = Some (leaf_bytes r)) by (by rewrite list_lookup_fmap, Hi).
  pose proof (fun k n => node_slice size depth _ b i _ k n Hb He) as Hk. fold (ent i) in Hk.
  pose proof (Hk 0 4 ltac:(lia) ltac:(lia) ltac:(lia)) as Hk0. rewrite Z.add_0_r in Hk0.
  unfold extent_start, le32, le16. rewrite Hk0, !Hk by lia. unfold leaf_bytes. rewrite (le_split_slice 4) by lia.
  rewrite !(slice_skip (le_split 4 (lf_lblk r)) 0), !(slice_skip (le_split 4 (lf_lblk r)) 2),
    !(slice_skip (le_split 4 (lf_lblk r)) 4) by lia.
  rewrite (le_split_slice 2) by lia.
  rewrite !(slice_skip (le_split 2 (lf_len r)) 0), !(slice_skip (le_split 2 (lf_len r)) 2) by lia.
  rewrite (le_split_slice 2) by lia. rewrite (slice_skip (le_split 2 _) 0), <- (app_nil_r (le_split 4 _)) by lia.
  rewrite (le_split_slice 4) by lia. cbn [of_option obind]. by rewrite Hs.
Qed.

Lemma idx_read {A} size depth (t : list (idx_rec * A)) b (i : nat) c :
  node_rep size depth ((fun c => idx_bytes c.1) <$> t) b → t !! i = Some c → idx_wf c.1 →
  index_block (ent i) b = Ret (ix_blk c.1) ∧ le32 (ent i) b = Ret (ix_lblk c.1).
Proof.
  intros Hb Hi (Hl & Hp). destruct (split48 _ Hp) as (Hs & Hlo & Hhi).
  assert (He : ((fun c : idx_rec * A => idx_bytes c.1) <$> t) !! i = Some (idx_bytes c.1)).
  { by rewrite list_lookup_fmap, Hi. }
  pose proof (fun k n => node_slice size depth _ b i _ k n Hb He) as Hk. fold (ent i) in Hk.
  pose proof (Hk 0 4 ltac:(lia) ltac:(lia) ltac:(lia)) as Hk0. rewrite Z.add_0_r in Hk0.
  unfold index_block, le32, le16. rewrite Hk0, !Hk by lia. unfold idx_bytes. rewrite (le_split_slice 4) by lia.
  rewrite !(slice_skip (le_split 4 (ix_lblk c.1)) 0), !(slice_skip (le_split 4 (ix_lblk c.1)) 4) by lia.
  rewrite (le_split_slice 4) by lia. rewrite (slice_skip (le_split 4 _) 0) by lia.
  rewrite (le_split_slice 2) by lia. cbn [of_option obind]. by rewrite Hs.
Qed.

End Format.

(** ** The cursor shows the tree *)
Section Walk.
  Context `{Machine} {W : Type} `{TreeFs W}.
  Context (disk : Z → bytes) (s : state W) (ino : Z) (inode : ext2_inode) (depth : Z).
  Context (Hbs : 12 ≤ tf_blocksize) (Hmem : ∀ n, mem_ok n = true).
  Context (Himage : tf_image = false) (Hcsum : tf_ignore_csum_errors = true).
  Context (Hread : ∀ b, sys_read_blk64 b (st_os s) = ((0, disk b), st_os s)).

(** A handle with the levels [ps] above the current one, [p], and [st] below. *)
Definition cursor (ps : list extent_path) (p : extent_path) (st : list extent_path) :
    ext2_extent_handle :=
  MkHandle ino inode (zlen ps) depth (ps ++ p :: st).

(** A level at the entry [i] of a node of [n]. *)
Definition at_entry (b : bytes) (n m : Z) (i : nat) (v end_ bk : Z) : extent_path :=
  MkPath (Some b) n m (n - 1 - Z.of_nat i) v end_ bk (Some (ent i)).

(** From [h] successive EXT2_EXTENT_NEXT show [xs] and lead to [h']. *)
Fixpoint walks (h : ext2_extent_handle) (xs : list ext2fs_extent) (h' : ext2_extent_handle) : Prop :=
  match xs with
  | [] => h = h'
  | x :: xs => ∃ h1, ext2fs_extent_get 1 h EXT2_EXTENT_NEXT s = Ret ((0, x, h1), s) ∧ walks h1 xs h'
  end.

Lemma walks_app h xs h1 ys h2 : walks h xs h1 → walks h1 ys h2 → walks h (xs ++ ys) h2.
Proof.
  revert h. induction xs as [|x xs IH]; intros h; simpl; [by intros ->|].
  intros (h' & Hget & Hw) Hys. exists h'. split; [done|]. by apply IH.
Qed.

Lemma walks_snoc h xs x h1 ys h2 : walks h (xs ++ [x]) h1 → walks h1 ys h2 → walks h (xs ++ x :: ys) h2.
Proof. intros H1 H2. rewrite cons_middle, app_assoc. by eapply walks_app. Qed.

Lemma cursor_get ps p st : get_path (cursor ps p st) (zlen ps) = Ret p.
Proof. unfold get_path. simpl. by rewrite Nat2Z.id, list_lookup_middle. Qed.
Lemma cursor_set ps p st q : set_path (zlen ps) q (cursor ps p st) = cursor ps q st.
Proof.
  unfold set_path, cursor. simpl. rewrite Nat2Z.id. f_equal.
  rewrite <- (Nat.add_0_r (length ps)). by rewrite insert_app_r.
Qed.
Lemma cursor_up ps pp p st : set_level (zlen ps) (cursor (ps ++ [pp]) p st) = cursor ps pp (p :: st).
Proof. unfold set_level, cursor. simpl. by rewrite <- app_assoc. Qed.
Lemma cursor_down ps p np st q :
  set_level (zlen ps + 1) (set_path (zlen ps + 1) q (cursor ps p (np :: st))) = cursor (ps ++ [p]) q st.
Proof.
  unfold set_level, set_path, cursor. simpl. rewrite length_app. simpl.
  replace (Z.to_nat (zlen ps + 1)) with (length ps + 1)%nat by lia.
  rewrite insert_app_r. f_equal; [lia|]. simpl. by rewrite <- app_assoc.
Qed.

Lemma get_next_eq h p c v h' p' ix x :
  get_path h (level h) = Ret p → choose_op EXT2_EXTENT_NEXT h p = (inr c, v) →
  move EXT2_EXTENT_NEXT c (set_path (level h) (set_visit v p) h) (set_visit v p) s
    = Ret ((0, Some ix, h', false), s) →
  get_path h' (level h') = Ret p' → read_extent h' p' ix = Ret x →
  ext2fs_extent_get 1 h EXT2_EXTENT_NEXT s = Ret ((0, x, h'), s).
Proof.
  intros Hget Hc Hmove Hget' Hx. unfold ext2fs_extent_get. cbn [get_loop].
  change (Z.land EXT2_EXTENT_NEXT EXT2_EXTENT_MOVE_MASK) with EXT2_EXTENT_NEXT.
  unfold bind at 1, lift at 1. rewrite Hget. cbn [obind]. rewrite Hc, (bind_eq _ _ _ _ _ Hmove).
  cbn [Z.eqb negb]. unfold bind at 1, lift at 1. rewrite Hget'. cbn [obind].
  unfold bind at 1, lift at 1. rewrite Hx. done.
Qed.

Lemma read_index {A} (t : list (idx_rec * A)) dd b m (i : nat) v end_ bk ps st c :
  zlen ps ≠ depth → node_rep (level_size (zlen ps)) dd ((fun c => idx_bytes c.1) <$> t) b →
  Forall (fun c => idx_wf c.1) t → t !! i = Some c →
  read_extent (cursor ps (at_entry b (zlen t) m i v end_ bk) st)
    (at_entry b (zlen t) m i v end_ bk) (ent i)
    = Ret (idx_extent c.1 (next_lblk (drop (S i) t) end_) (negb (v =? 0))).
Proof.
  intros Hd Hb Hwf Hc. unfold read_extent, at_entry. cbn [buf of_option obind level max_depth cursor].
  rewrite (proj2 (Z.eqb_neq _ _)) by done. pose proof (Forall_lookup_1 _ _ _ _ Hwf Hc) as Hcwf.
  destruct (idx_read _ _ _ _ _ _ Hb Hc Hcwf) as (-> & ->). cbn [obind left visit_num end_blk].
  pose proof (lookup_lt_Some _ _ _ Hc) as Hlt. unfold idx_extent, next_lblk.
  destruct (drop (S i) t) as [|[r' sub'] t'] eqn:Et.
  - assert (length t ≤ S i)%nat.
    { apply (f_equal length) in Et. rewrite length_drop in Et. simpl in Et. lia. }
    rewrite (proj2 (Z.ltb_ge _ _)) by lia. cbn [obind]. by destruct (v =? 0).
  - assert (Hnext : t !! S i = Some (r', sub')).
    { rewrite <- (Nat.add_0_r (S i)), <- lookup_drop, Et. done. }
    pose proof (lookup_lt_Some _ _ _ Hnext) as Hlt'. rewrite (proj2 (Z.ltb_lt _ _)) by lia.
    pose proof (Forall_lookup_1 _ _ _ _ Hwf Hnext) as Hnwf.
    destruct (idx_read _ _ _ _ _ _ Hb Hnext Hnwf) as (_ & Hl).
    replace (ent i + 12) with (ent (S i)) by (unfold ent; lia). rewrite Hl. cbn [obind fst].
    by destruct (v =? 0).
Qed.

Lemma read_leaf (t : list leaf_rec) dd b m (i : nat) end_ bk ps st r :
  zlen ps = depth → node_rep (level_size (zlen ps)) dd (leaf_bytes <$> t) b →
  Forall leaf_wf t → t !! i = Some r →
  read_extent (cursor ps (at_entry b (zlen t) m i 0 end_ bk) st)
    (at_entry b (zlen t) m i 0 end_ bk) (ent i) = Ret (leaf_extent r).
Proof.
  intros Hd Hb Hwf Hr. unfold read_extent, at_entry. cbn [buf of_option obind level max_depth cursor].
  rewrite (proj2 (Z.eqb_eq _ _)) by done. pose proof (Forall_lookup_1 _ _ _ _ Hwf Hr) as Hrwf.
  by destruct (leaf_read _ _ _ _ _ _ Hb Hr Hrwf) as (-> & -> & ->).
Qed.

Lemma no_down l d v : l = d ∨ v ≠ 0 → (l <? d) && (v =? 0) = false.
Proof.
  intros [->|Hv]; [by rewrite Z.ltb_irrefl|]. rewrite (proj2 (Z.eqb_neq v 0)) by done.
  apply andb_false_r.
Qed.

Lemma next_sib_eq ps p st c :
  0 < left p → curr p = Some c →
  next_sib (cursor ps p st) p =
    (0, Some (c + 12), cursor ps (move_path (left p - 1) (Some (c + 12)) 0 p) st).
Proof.
  intros Hl Hc. unfold next_sib. rewrite (proj2 (Z.leb_gt _ _)), Hc by lia. cbn [level cursor].
  by rewrite cursor_set.
Qed.

Lemma step_sib b n m (i : nat) v end_ bk ps st x :
  zlen ps = depth ∨ v ≠ 0 → Z.of_nat (S i) < n →
  read_extent (cursor ps (at_entry b n m (S i) 0 end_ bk) st)
    (at_entry b n m (S i) 0 end_ bk) (ent (S i)) = Ret x →
  ext2fs_extent_get 1 (cursor ps (at_entry b n m i v end_ bk) st) EXT2_EXTENT_NEXT s
    = Ret ((0, x, cursor ps (at_entry b n m (S i) 0 end_ bk) st), s).
Proof.
  intros Hv Hi Hx. eapply get_next_eq; [apply cursor_get| | |apply cursor_get|exact Hx].
  - unfold choose_op. cbn [Z.eqb orb EXT2_EXTENT_NEXT level max_depth cursor at_entry visit_num left].
    rewrite no_down by done. rewrite (proj2 (Z.ltb_lt _ _)) by lia. reflexivity.
  - change (move EXT2_EXTENT_NEXT EXT2_EXTENT_NEXT_SIB ?h ?p) with (ret (W := W) (next_sib h p, false)).
    cbn [level cursor]. rewrite cursor_set, (next_sib_eq _ _ _ (ent i)) by (simpl; (done || lia)).
    replace (ent i + 12) with (ent (S i)) by (unfold ent; lia). unfold ret, at_entry.
    unfold move_path. simpl. by replace (n - 1 - Z.of_nat i - 1) with (n - 1 - Z.of_nat (S i)) by lia.
Qed.

Lemma step_up ps pp p st c x :
  zlen ps + 1 = depth ∨ visit_num p ≠ 0 → left p = 0 → curr pp = Some c →
  read_extent (cursor ps pp (p :: st)) pp c = Ret x →
  ext2fs_extent_get 1 (cursor (ps ++ [pp]) p st) EXT2_EXTENT_NEXT s
    = Ret ((0, x, cursor ps pp (p :: st)), s).
Proof.
  intros Hv Hl Hc Hx. assert (Hlen : zlen (ps ++ [pp]) = zlen ps + 1)
    by (rewrite length_app; simpl; lia).
  assert (Hup : set_level (zlen ps) (cursor (ps ++ [pp]) p st) = cursor ps pp (p :: st))
    by apply cursor_up.
  eapply get_next_eq; [apply cursor_get| | |apply cursor_get|exact Hx].
  - unfold choose_op. cbn [Z.eqb orb EXT2_EXTENT_NEXT level max_depth cursor]. rewrite Hlen, Hl.
    rewrite no_down by done. change (0 <? 0) with false. rewrite (proj2 (Z.ltb_lt _ _)) by lia. reflexivity.
  - change (move EXT2_EXTENT_NEXT EXT2_EXTENT_UP ?h ?p)
      with (bind (W := W) (lift (up EXT2_EXTENT_NEXT h)) (fun r => ret (r, false))).
    replace (set_visit (visit_num p) p) with p by (by destruct p).
    cbn [level cursor]. rewrite cursor_set. unfold up. cbn [level cursor]. rewrite Hlen.
    rewrite (proj2 (Z.leb_gt _ _)) by lia. replace (zlen ps + 1 - 1) with (zlen ps) by lia.
    rewrite Hup. cbn [level cursor]. unfold bind, lift. rewrite cursor_get. cbn [obind].
    change (_ || _) with false. cbv iota. by rewrite cursor_set, Hc.
Qed.

Lemma on_path_fresh l b ps :
  (∀ i p, (0 < i ≤ l)%nat → ps !! i = Some p → b ≠ blk p) → on_path l b ps = false.
Proof.
  induction l as [|l IH]; intros Hf; [done|]. cbn [on_path].
  rewrite IH by (intros i p Hi; apply Hf; lia). rewrite orb_false_r.
  destruct (ps !! S l) as [p|] eqn:Ep; [|done]. apply Z.eqb_neq, (Hf (S l)); [lia|done].
Qed.

(** EXT2_EXTENT_DOWN enters the node of the current entry. *)
Lemma down_eq b n m (i : nat) v end_ bk ps np st blk' e dd es :
  zlen ps < depth → index_block (ent i) b = Ret blk' →
  (if 0 <? n - 1 - Z.of_nat i then le32 (ent i + 12) b else Ret end_) = Ret e →
  (∀ j p, (0 < j ≤ length ps)%nat → (ps ++ [at_entry b n m i v end_ bk]) !! j = Some p → blk' ≠ blk p) →
  node_rep tf_blocksize dd es (disk blk') → es ≠ [] →
  let p := at_entry b n m i v end_ bk in
  ∃ m', down EXT2_EXTENT_DOWN (cursor ps p (np :: st)) p s
    = Ret ((0, Some (ent 0), cursor (ps ++ [p]) (at_entry (disk blk') (zlen es) m' 0 0 e blk') st, false), s).
Proof.
  intros Hlt Hblk He Hfresh Hrep Hes p.
  destruct (node_header _ _ _ _ Hrep Hbs) as (Hver & Hent & _ & m' & Hmax). exists m'.
  unfold down. change (curr p) with (Some (ent i)). cbv iota.
  cbn [level max_depth cursor]. rewrite (proj2 (Z.leb_gt _ _)) by lia.
  assert (Hnp : get_path (cursor ps p (np :: st)) (zlen ps + 1) = Ret np).
  { unfold get_path. simpl. replace (Z.to_nat (zlen ps + 1)) with (length ps + 1)%nat by lia.
    by rewrite lookup_app_r, (Nat.add_comm (length ps)), Nat.add_sub by lia. }
  unfold bind at 1, lift at 1. rewrite Hnp. cbn [obind]. rewrite Hmem, andb_false_r.
  unfold bind at 1, lift at 1. cbn [buf p at_entry of_option obind].
  unfold bind at 1, lift at 1. rewrite Hblk. cbn [obind path].
  rewrite Nat2Z.id, on_path_fresh; cycle 1.
  { intros j q Hj Hq. apply (Hfresh j q Hj). cbn [path cursor] in Hq. destruct (decide (j = length ps)) as [->|].
    - rewrite list_lookup_middle in Hq by done. by rewrite list_lookup_middle.
    - rewrite lookup_app_l in Hq by lia. by rewrite lookup_app_l by lia. }
  unfold load_node. cbn [level cursor]. rewrite Himage.
  rewrite bind_assoc, (bind_sys _ _ _ _ (Hread blk')). cbn [Z.eqb negb].
  rewrite bind_assoc. unfold bind at 1, lift at 1. rewrite Hver. cbn [obind Z.eqb negb].
  rewrite bind_assoc. unfold bind at 1, lift at 1. rewrite Hent. cbn [obind].
  rewrite bind_assoc. unfold bind at 1, lift at 1. rewrite Hmax. cbn [obind].
  rewrite Hcsum. cbn [negb andb]. rewrite (proj2 (Z.leb_gt _ 0)) by (destruct es; simpl; [done|lia]).
  rewrite bind_ret_l. cbn [Z.eqb negb]. rewrite cursor_down.
  unfold enter_node. replace (level (cursor (ps ++ [p]) _ st)) with (zlen (ps ++ [p])) by done.
  rewrite cursor_get. cbn [obind buf of_option left p at_entry]. change (end_blk p) with end_. rewrite He. cbn [obind].
  change (EXT2_EXTENT_DOWN =? EXT2_EXTENT_DOWN) with true. cbv iota.
  unfold bind, lift. cbn [obind]. unfold ret. rewrite cursor_set.
  unfold move_path, at_entry. cbn [buf entries max_entries end_blk blk].
  by rewrite Z.sub_0_r.
Qed.

Lemma step_down b n m (i : nat) end_ bk ps np st blk' e dd es x :
  zlen ps < depth → index_block (ent i) b = Ret blk' →
  (if 0 <? n - 1 - Z.of_nat i then le32 (ent i + 12) b else Ret end_) = Ret e →
  (∀ j p, (0 < j ≤ length ps)%nat → (ps ++ [at_entry b n m i 1 end_ bk]) !! j = Some p → blk' ≠ blk p) →
  node_rep tf_blocksize dd es (disk blk') → es ≠ [] →
  (∀ m', read_extent
           (cursor (ps ++ [at_entry b n m i 1 end_ bk]) (at_entry (disk blk') (zlen es) m' 0 0 e blk') st)
           (at_entry (disk blk') (zlen es) m' 0 0 e blk') (ent 0) = Ret x) →
  ∃ m', ext2fs_extent_get 1 (cursor ps (at_entry b n m i 0 end_ bk) (np :: st)) EXT2_EXTENT_NEXT s
    = Ret ((0, x, cursor (ps ++ [at_entry b n m i 1 end_ bk])
                    (at_entry (disk blk') (zlen es) m' 0 0 e blk') st), s).
Proof.
  intros Hlt Hblk He Hfresh Hrep Hes Hx.
  destruct (down_eq b n m i 1 end_ bk ps np st blk' e dd es) as (m' & Hdown); [done..|]. exists m'.
  eapply get_next_eq; [apply cursor_get| | |apply cursor_get|apply Hx].
  - unfold choose_op. cbn [Z.eqb orb EXT2_EXTENT_NEXT level max_depth cursor at_entry visit_num left].
    rewrite (proj2 (Z.ltb_lt _ _)) by lia. reflexivity.
  - change (move EXT2_EXTENT_NEXT EXT2_EXTENT_DOWN ?h ?q) with (down EXT2_EXTENT_DOWN h q).
    change (set_visit (0 + 1) (at_entry b n m i 0 end_ bk)) with (at_entry b n m i 1 end_ bk).
    cbn [level cursor]. rewrite cursor_set. exact Hdown.
Qed.

(** *** Leaves *)
Lemma leaf_walk (t : list leaf_rec) dd b m end_ bk ps st :
  zlen ps = depth → node_rep (level_size (zlen ps)) dd (leaf_bytes <$> t) b → Forall leaf_wf t →
  ∀ k (i : nat), length t = (S i + k)%nat →
  walks (cursor ps (at_entry b (zlen t) m i 0 end_ bk) st) (leaf_extent <$> drop (S i) t)
        (cursor ps (at_entry b (zlen t) m (length t - 1) 0 end_ bk) st).
Proof.
  intros Hd Hb Hwf. induction k as [|k IH]; intros i Hi.
  - rewrite drop_ge by lia. simpl. by replace (length t - 1)%nat with i by lia.
  - destruct (lookup_lt_is_Some_2 t (S i)) as [r Hr]; [lia|].
    rewrite (drop_S _ _ _ Hr), fmap_cons. eexists. split; [|apply IH; lia].
    apply step_sib; [by left|lia|]. by eapply read_leaf.
Qed.

(** What is known of the blocks above a node: theirs are in [above]. *)
Definition above_ok (ps : list extent_path) (above : list Z) : Prop :=
  ∀ j p, (0 < j < length ps)%nat → ps !! j = Some p → blk p ∈ above.

(** A walk over a subtree, from its first entry. *)
Definition subtree_walk (d : nat) : Prop := ∀ (t : tree d) dd b m ps end_ bk st above,
  zlen ps + Z.of_nat d = depth → length st = d →
  node_rep (level_size (zlen ps)) dd (node_entries t) b → on_disk disk tf_blocksize above d t →
  node_entries t ≠ [] → above_ok ps above → (ps ≠ [] → bk ∈ above) →
  ∃ x xs i v st', tree_visits d end_ t = x :: xs ∧ length st' = d ∧
    (zlen ps = depth ∨ v ≠ 0) ∧ Z.of_nat i = zlen (node_entries t) - 1 ∧
    (∀ m, read_extent (cursor ps (at_entry b (zlen (node_entries t)) m 0 0 end_ bk) st)
            (at_entry b (zlen (node_entries t)) m 0 0 end_ bk) (ent 0) = Ret x) ∧
    walks (cursor ps (at_entry b (zlen (node_entries t)) m 0 0 end_ bk) st) xs
          (cursor ps (at_entry b (zlen (node_entries t)) m i v end_ bk) st').

Lemma leaf_subtree : subtree_walk 0.
Proof.
  intros t dd b m ps end_ bk st above Hd Hst Hb Hwf Hne _ _. simpl in *.
  rewrite length_fmap. destruct t as [|r t]; [done|].
  exists (leaf_extent r), (leaf_extent <$> t), (length t), 0, st.
  split_and!; [done|done|left; lia|simpl; lia| |].
  - intros m'. eapply (read_leaf (r :: t)); [lia|done..].
  - pose proof (leaf_walk (r :: t) dd b m end_ bk ps st ltac:(lia) Hb Hwf (length t) 0 eq_refl) as Hw.
    simpl in Hw |- *. by rewrite Nat.sub_0_r in Hw.
Qed.

(** *** Index nodes *)
Section Index.
  Context (d : nat) (IH : subtree_walk d) (t : list (idx_rec * tree d)).
  Context (dd : Z) (b : bytes) (m end_ bk : Z) (ps : list extent_path) (above : list Z).
  Context (Hd : zlen ps + Z.of_nat (S d) = depth).
  Context (Hb : node_rep (level_size (zlen ps)) dd ((fun c => idx_bytes c.1) <$> t) b).
  Context (Hwf : on_disk disk tf_blocksize above (S d) t).
  Context (Habove : above_ok ps above) (Hbk : ps ≠ [] → bk ∈ above).
  Notation path_at := (at_entry b (zlen t) m).

Lemma index_wf : Forall (fun c : idx_rec * tree d => idx_wf c.1) t.
Proof. eapply Forall_impl; [exact Hwf|]. by intros c (? & _). Qed.

(** Where the subtree of an entry ends. *)
Lemma entry_end (i : nat) c :
  t !! i = Some c →
  (if 0 <? zlen t - 1 - Z.of_nat i then le32 (ent i + 12) b else Ret end_)
    = Ret (next_lblk (drop (S i) t) end_).
Proof.
  intros Hc. pose proof (lookup_lt_Some _ _ _ Hc) as Hlt.
  unfold next_lblk. destruct (drop (S i) t) as [|[r' sub'] t'] eqn:Et.
  - apply (f_equal length) in Et. rewrite length_drop in Et. simpl in Et.
    by rewrite (proj2 (Z.ltb_ge _ _)) by lia.
  - assert (Hnext : t !! S i = Some (r', sub')).
    { rewrite <- (Nat.add_0_r (S i)), <- lookup_drop, Et. done. }
    pose proof (lookup_lt_Some _ _ _ Hnext). rewrite (proj2 (Z.ltb_lt _ _)) by lia.
    pose proof (Forall_lookup_1 _ _ _ _ index_wf Hnext) as Hnwf.
    destruct (idx_read _ _ _ _ _ _ Hb Hnext Hnwf) as (_ & Hl).
    by replace (ent i + 12) with (ent (S i)) by (unfold ent; lia).
Qed.

(** The blocks of the levels above an entry, its own included, are in [above]. *)
Lemma above_entry (i : nat) v j p :
  (0 < j ≤ length ps)%nat → (ps ++ [path_at i v end_ bk]) !! j = Some p → blk p ∈ above.
Proof.
  intros Hj Hp. destruct (decide (j = length ps)) as [->|].
  - rewrite list_lookup_middle in Hp by done. injection Hp as <-. apply Hbk.
    intros Hps. rewrite Hps in Hj. simpl in Hj. lia.
  - rewrite lookup_app_l in Hp by lia. apply (Habove j); [lia|done].
Qed.

Lemma entry_fresh (i : nat) v c j p :
  t !! i = Some c → (0 < j ≤ length ps)%nat → (ps ++ [path_at i v end_ bk]) !! j = Some p →
  ix_blk c.1 ≠ blk p.
Proof.
  intros Hc Hj Hp Heq. pose proof (Forall_lookup_1 _ _ _ _ Hwf Hc) as (_ & Hnew & _).
  apply Hnew. rewrite Heq. by eapply above_entry.
Qed.

Lemma above_deeper (i : nat) v bk' : above_ok (ps ++ [path_at i v end_ bk]) (bk' :: above).
Proof.
  intros j p Hj Hp. rewrite length_app in Hj. simpl in Hj. apply elem_of_cons. right.
  eapply above_entry; [|exact Hp]. lia.
Qed.

(** From an entry to the same one on the way up. *)
Lemma entry_walk (i : nat) c st :
  t !! i = Some c → length st = S d →
  ∃ st', length st' = S d ∧
    walks (cursor ps (path_at i 0 end_ bk) st)
      (tree_visits d (next_lblk (drop (S i) t) end_) c.2 ++
       [idx_extent c.1 (next_lblk (drop (S i) t) end_) true])
      (cursor ps (path_at i 1 end_ bk) st').
Proof.
  intros Hc Hst. destruct st as [|np st]; [done|]. simpl in Hst.
  pose proof (Forall_lookup_1 _ _ _ _ Hwf Hc) as (Hcwf & Hnew & Hne & Hrep & Hsub).
  set (e := next_lblk (drop (S i) t) end_) in *. set (p1 := path_at i 1 end_ bk) in *.
  destruct (idx_read _ _ _ _ _ _ Hb Hc Hcwf) as (Hblk & _).
  pose proof (entry_end i c Hc) as He. pose proof (fun j p => entry_fresh i 1 c j p Hc) as Hfresh.
  assert (Hlen : zlen (ps ++ [p1]) = zlen ps + 1) by (rewrite length_app; simpl; lia).
  assert (Hdata : node_rep (level_size (zlen (ps ++ [p1]))) (Z.of_nat d) (node_entries c.2)
                    (disk (ix_blk c.1))).
  { unfold level_size. rewrite (proj2 (Z.eqb_neq _ 0)) by lia. done. }
  pose proof (above_deeper i 1 (ix_blk c.1)) as Habove'.
  pose proof (fun m' => IH c.2 (Z.of_nat d) (disk (ix_blk c.1)) m' (ps ++ [p1]) e (ix_blk c.1) st
    (ix_blk c.1 :: above) ltac:(lia) ltac:(lia) Hdata Hsub Hne Habove' ltac:(by left)) as Hchild.
  destruct (Hchild 0) as (x & xs & _ & _ & _ & Hvis & _ & _ & _ & Hx & _).
  destruct (step_down b (zlen t) m i end_ bk ps np st (ix_blk c.1) e (Z.of_nat d)
              (node_entries c.2) x ltac:(lia) Hblk He Hfresh Hrep Hne Hx) as (m' & Hstep).
  destruct (Hchild m') as (x' & xs' & k & v & st' & Hvis' & Hst' & Hv & Hk & _ & Hw).
  rewrite Hvis in Hvis'. injection Hvis' as <- <-.
  eexists (_ :: st'). split; [by rewrite length_cons, Hst'|]. rewrite Hvis.
  eexists. split; [exact Hstep|]. eapply walks_app; [exact Hw|].
  eexists. split; [|reflexivity]. eapply (step_up ps p1 _ st' (ent i)).
  - rewrite <- Hlen. exact Hv.
  - simpl. lia.
  - done.
  - apply (read_index t dd b m i 1 end_ bk ps _ c); [lia|exact Hb|apply index_wf|done].
Qed.

Lemma index_walk k : ∀ (i : nat) c st, length t = (S i + k)%nat → t !! i = Some c →
  length st = S d →
  ∃ st', length st' = S d ∧
    walks (cursor ps (path_at i 0 end_ bk) st)
      (tree_visits d (next_lblk (drop (S i) t) end_) c.2 ++
       idx_extent c.1 (next_lblk (drop (S i) t) end_) true ::
       index_visits (tree_visits d) end_ (drop (S i) t))
      (cursor ps (path_at (length t - 1) 1 end_ bk) st').
Proof.
  induction k as [|k IHk]; intros i c st Hi Hc Hst.
  - destruct (entry_walk i c st Hc Hst) as (st' & Hst' & Hw). exists st'. split; [done|].
    rewrite (drop_ge t) in Hw |- * by lia. by replace (length t - 1)%nat with i by lia.
  - destruct (entry_walk i c st Hc Hst) as (st1 & Hst1 & Hw).
    destruct (lookup_lt_is_Some_2 t (S i)) as [c' Hc']; [lia|].
    destruct (IHk (S i) c' st1 ltac:(lia) Hc' Hst1) as (st' & Hst' & Hw').
    exists st'. split; [done|]. eapply walks_snoc; [exact Hw|].
    rewrite (drop_S _ _ _ Hc'). destruct c' as [r' sub']. cbn [index_visits].
    eexists. split; [|exact Hw']. apply step_sib; [by right|lia|].
    apply (read_index t dd b m (S i) 0 end_ bk ps st1 (r', sub')); [lia|exact Hb|apply index_wf|done].
Qed.

End Index.

Lemma subtree_walks d : subtree_walk d.
Proof.
  induction d as [|d IH]; [apply leaf_subtree|].
  intros t dd b m ps end_ bk st above Hd Hst Hb Hwf Hne Habove Hbk.
  destruct t as [|[r sub] t]; [done|]. set (t' := (r, sub) :: t : list (idx_rec * tree d)).
  assert (Hn : zlen (node_entries (d := S d) t') = zlen t') by (simpl; by rewrite length_fmap).
  destruct (index_walk d IH t' dd b m end_ bk ps above Hd Hb Hwf Habove Hbk (length t) 0 (r, sub) st
              eq_refl eq_refl Hst) as (st' & Hst' & Hw).
  exists (idx_extent r (next_lblk t end_) false),
    (tree_visits d (next_lblk t end_) sub ++ idx_extent r (next_lblk t end_) true ::
     index_visits (tree_visits d) end_ t), (length t), 1, st'.
  fold t'. rewrite Hn. split_and!; [done|done|by right|simpl; lia| |].
  - intros m'. apply (read_index t' dd b m' 0 0 end_ bk ps st (r, sub));
      [lia|exact Hb|by eapply index_wf|done].
  - simpl in Hw |- *. by rewrite Nat.sub_0_r in Hw.
Qed.

(** *** From the root *)
Definition root_path (b : bytes) (n m end_ : Z) : extent_path := MkPath (Some b) n m n 1 end_ 0 None.

Lemma get_root b n m end_ st x :
  0 < n →
  read_extent (cursor [] (at_entry b n m 0 0 end_ 0) st) (at_entry b n m 0 0 end_ 0) (ent 0) = Ret x →
  ext2fs_extent_get 1 (cursor [] (root_path b n m end_) st) EXT2_EXTENT_ROOT s
    = Ret ((0, x, cursor [] (at_entry b n m 0 0 end_ 0) st), s).
Proof.
  intros Hn Hx. unfold ext2fs_extent_get. cbn [get_loop].
  change (Z.land EXT2_EXTENT_ROOT EXT2_EXTENT_MOVE_MASK) with EXT2_EXTENT_ROOT.
  assert (Hmove : move EXT2_EXTENT_ROOT EXT2_EXTENT_ROOT (cursor [] (root_path b n m end_) st)
                    (root_path b n m end_) s
                  = Ret ((0, Some (ent 0), cursor [] (at_entry b n m 0 0 end_ 0) st, false), s)).
  { change (move EXT2_EXTENT_ROOT EXT2_EXTENT_ROOT (cursor [] (root_path b n m end_) st) _ s)
      with (ret (W := W) (first_sib (cursor [] (root_path b n m end_) st) (root_path b n m end_), false) s).
    unfold first_sib, next_sib. cbn [left move_path entries root_path]. rewrite (proj2 (Z.leb_gt _ _)) by lia.
    unfold ret, at_entry. change (n - 1 - Z.of_nat 0) with (n - 1 - 0). rewrite Z.sub_0_r. done. }
  change (level (cursor [] (root_path b n m end_) st)) with (zlen (@nil extent_path)).
  unfold bind at 1, lift at 1. rewrite cursor_get. cbn [obind].
  change (choose_op EXT2_EXTENT_ROOT _ _) with (inr EXT2_EXTENT_ROOT : Z + Z, 1). cbv iota beta zeta.
  change (set_visit 1 (root_path b n m end_)) with (root_path b n m end_).
  rewrite cursor_set, (bind_eq _ _ _ _ _ Hmove). cbn [Z.eqb negb].
  change (level (cursor [] (at_entry b n m 0 0 end_ 0) st)) with (zlen (@nil extent_path)).
  unfold bind at 1, lift at 1. rewrite cursor_get. cbn [obind].
  unfold bind at 1, lift at 1. rewrite Hx. done.
Qed.

Lemma get_end b n m (i : nat) v end_ bk st :
  Z.of_nat i = n - 1 → depth = 0 ∨ v ≠ 0 →
  ∃ h', ext2fs_extent_get 1 (cursor [] (at_entry b n m i v end_ bk) st) EXT2_EXTENT_NEXT s
        = Ret ((EXT2_ET_EXTENT_NO_NEXT, no_extent, h'), s).
Proof.
  intros Hi Hv. eexists. unfold ext2fs_extent_get. cbn [get_loop].
  change (Z.land EXT2_EXTENT_NEXT EXT2_EXTENT_MOVE_MASK) with EXT2_EXTENT_NEXT.
  change (level (cursor [] (at_entry b n m i v end_ bk) st)) with (zlen (@nil extent_path)).
  unfold bind at 1, lift at 1. rewrite cursor_get. cbn [obind].
  unfold choose_op. cbn [Z.eqb orb EXT2_EXTENT_NEXT level max_depth cursor at_entry visit_num left].
  rewrite no_down by (simpl; destruct Hv; [left; lia|by right]).
  rewrite (proj2 (Z.ltb_ge _ _)) by lia. reflexivity.
Qed.

(** All the calls on a tree: EXT2_EXTENT_ROOT, then EXT2_EXTENT_NEXT to the end. *)
Lemma tree_walk d (t : tree d) b m end_ :
  Z.of_nat d = depth → node_rep 60 (Z.of_nat d) (node_entries t) b →
  on_disk disk tf_blocksize [] d t → node_entries t ≠ [] →
  ∃ x xs h1 h2 h3, tree_visits d end_ t = x :: xs ∧
    ext2fs_extent_get 1 (cursor [] (root_path b (zlen (node_entries t)) m end_) (replicate d no_path))
      EXT2_EXTENT_ROOT s = Ret ((0, x, h1), s) ∧
    walks h1 xs h2 ∧
    ext2fs_extent_get 1 h2 EXT2_EXTENT_NEXT s = Ret ((EXT2_ET_EXTENT_NO_NEXT, no_extent, h3), s).
Proof.
  intros Hd Hb Hwf Hne.
  destruct (subtree_walks d t (Z.of_nat d) b m [] end_ 0 (replicate d no_path) [])
    as (x & xs & i & v & st' & Hvis & _ & Hv & Hi & Hx & Hw);
    [simpl; lia|by rewrite length_replicate|done..|intros j p Hj; simpl in Hj; lia|done|].
  destruct (get_end b (zlen (node_entries t)) m i v end_ 0 st' Hi) as (h3 & Hend).
  { destruct Hv; [left|by right]. simpl in *. lia. }
  eexists x, xs, _, _, h3. split_and!; [done| |exact Hw|exact Hend].
  apply get_root; [|apply Hx]. destruct (node_entries t); [done|simpl; lia].
Qed.

End Walk.

(** ** The cursor as the interface of the readers

    [base] gives the rest of the interface; the calls of the readers, EXT2_EXTENT_ROOT
    and EXT2_EXTENT_NEXT, take one step.  The last case of [run_os] is the undefined
    behaviour that extent_get_bounds excludes. *)
Section Interface.
  Context `{Machine} {W : Type} `{TreeFs W} (base : Ext2Fs W unit).

Definition run_os {A} (m : prog W A) (dflt : A) (w : W) : A * W :=
  match m (MkState (MkHeap ∅ 0) w []) with Ret (a, s) => (a, st_os s) | _ => (dflt, w) end.

Definition tree_ext2fs : Ext2Fs W ext2_extent_handle := {|
  fs_magic_ok := fs_magic_ok;
  fs_blocksize := fs_blocksize;
  fs_blocks_count := fs_blocks_count;
  fs_first_data_block := fs_first_data_block;
  fs_hurd := fs_hurd;
  sys_ext2fs_open := sys_ext2fs_open;
  sys_ext2fs_close := sys_ext2fs_close;
  sys_read_inode := sys_read_inode;
  sys_write_inode := sys_write_inode;
  sys_read_ind := sys_read_ind;
  sys_write_ind := sys_write_ind;
  sys_extent_open ino :=
    run_os (ext2fs_extent_open2 ino None)
      (EXT2_ET_OP_NOT_SUPPORTED, MkHandle ino (MkInode 0 0 0 0 [] 0) 0 0 []);
  sys_extent_get h op :=
    run_os (ext2fs_extent_get 1 h op) (EXT2_ET_OP_NOT_SUPPORTED, no_extent, h);
  sys_extent_get_info h w :=
    match ext2fs_extent_get_info h with
    | Ret (e, info) => ((e, curr_level info), w)
    | _ => ((EXT2_ET_OP_NOT_SUPPORTED, 0), w)
    end;
  sys_extent_replace h x w := let '((e, _), w) := sys_extent_replace tt x w in ((e, h), w);
  sys_extent_set_bmap h a b c w := let '((e, _), w) := sys_extent_set_bmap tt a b c w in ((e, h), w);
|}.

(** *** The walk of lsblks ends on every disk *)
Section Ends.
  Context {P : Type} (func : Z → P → prog W (Z * P)) (flags : Z).
  Context (Hbs : 12 ≤ tf_blocksize).
  Context (Hread : ∀ b w data w', sys_read_blk64 b w = ((0, data), w') →
             zlen data = tf_blocksize ∧ Forall is_byte data).
  Context (Hfunc : ∀ b p s, total (func b p) (fun _ _ => True) s).

Lemma extent_loop_total k pblk p s : total (extent_loop func k pblk p) (fun _ _ => True) s.
Proof.
  revert pblk p s. induction k as [|k IH]; intros pblk p s; [done|]. cbn [extent_loop].
  apply total_bind. eapply total_mono; [|apply Hfunc]. intros [r p'] s' _. apply IH.
Qed.

Lemma show_extent_total x p s : total (show_extent func x p) (fun _ _ => True) s.
Proof.
  unfold show_extent. repeat case_match; try done; [|apply extent_loop_total].
  apply total_bind. eapply total_mono; [|apply Hfunc]. by intros [r p'] s' _.
Qed.

(** One turn: the loop goes on, if it does, from the handle that [get] returned. *)
Lemma dump_turn_total fuel h op p s (Q : ext2_extent_handle → Prop) :
  match run_os (ext2fs_extent_get 1 h op) (EXT2_ET_OP_NOT_SUPPORTED, no_extent, h) (st_os s) with
  | ((e, _, h'), _) => handle_inv h' ∧ (e = 0 → Q h') end →
  (∀ h' p s, handle_inv h' → Q h' → total (dump_extents_loop (H0 := tree_ext2fs) func fuel h'
                           EXT2_EXTENT_NEXT flags p) (fun _ _ => True) s) →
  total (dump_extents_loop (H0 := tree_ext2fs) func (S fuel) h op flags p) (fun _ _ => True) s.
Proof.
  intros Hget Hnext. cbn [dump_extents_loop]. apply total_bind, total_sys.
  intros [[e x] h'] w' E.
  change (sys_extent_get h op (st_os s)) with
    (run_os (ext2fs_extent_get 1 h op) (EXT2_ET_OP_NOT_SUPPORTED, no_extent, h) (st_os s)) in E.
  rewrite E in Hget. destruct Hget as [Hinv HQ].
  destruct (Z.eqb_spec e 0) as [->|]; cbn [negb]; [|by apply total_ret]. specialize (HQ eq_refl).
  destruct (has (e_flags x) EXT2_EXTENT_FLAGS_SECOND_VISIT); [by apply Hnext|].
  destruct (if has (e_flags x) EXT2_EXTENT_FLAGS_LEAF then _ else _); [by apply Hnext|].
  apply total_bind, total_sys. intros [e2 v] w2 _.
  destruct (negb (e2 =? 0)); [by apply Hnext|]. apply total_bind.
  eapply total_mono; [|apply show_extent_total]. intros p' s' _. by apply Hnext.
Qed.

Lemma run_os_total {A} (m : prog W A) dflt (Q : A → Prop) w :
  (∀ s, total m (fun a _ => Q a) s) → Q (fst (run_os m dflt w)).
Proof.
  intros Hm. unfold run_os. specialize (Hm (MkState (MkHeap ∅ 0) w [])). unfold total in Hm.
  by destruct (m _) as [[a s']| | |].
Qed.

Lemma dump_next_total fuel h p s :
  handle_inv h → 0 ≤ rank h < Z.of_nat fuel →
  total (dump_extents_loop (H0 := tree_ext2fs) func fuel h EXT2_EXTENT_NEXT flags p)
    (fun _ _ => True) s.
Proof.
  revert h p s. induction fuel as [|fuel IH]; intros h p s Hinv Hrank; [lia|].
  apply (dump_turn_total fuel h _ p s (fun h' => 0 ≤ rank h' < rank h)).
  - pose proof (run_os_total (ext2fs_extent_get 1 h EXT2_EXTENT_NEXT)
      (EXT2_ET_OP_NOT_SUPPORTED, no_extent, h)
      (fun r => let '(e, _, h') := r in handle_inv h' ∧ (e = 0 → 0 ≤ rank h' < rank h)) (st_os s)) as Hr.
    destruct (run_os _ _ _) as [[[e x] h'] w']. simpl in Hr. apply Hr. intros s'.
    eapply total_mono; [|by apply next_decreases]. intros [[e' x'] h1] _ [? Hd]. split; [done|].
    intros E. by apply Hd.
  - intros h' p' s' Hinv' Hr. apply IH; [done|lia].
Qed.

Context (Hinode : ∀ ino w i w', sys_tf_read_inode ino w = ((0, i), w') → length (i_block i) = 15%nat).
Context (Hmem : ∀ n, mem_ok n = true).

Lemma open2_total ino s :
  total (ext2fs_extent_open2 ino None) (fun r _ => let '(e, h) := r in e = 0 → handle_inv h) s.
Proof.
  unfold ext2fs_extent_open2. destruct (negb tf_magic_ok); [by apply total_ret|].
  case_match; [by apply total_ret|]. rewrite Hmem. cbn [negb].
  apply total_bind, total_sys. intros [e i] w' E.
  destruct (Z.eqb_spec e 0) as [->|]; cbn [negb]; [|by apply total_ret].
  destruct (open_inode_safe ino i Hmem (Hinode _ _ _ _ E)) as (e & h & Ho & Hinv).
  eapply total_lift; [exact Ho|done].
Qed.

(** C16. The walk of a tree ends on every disk: whatever the inode and the blocks
    contain, cycles and damaged headers included, and whatever they contain the next
    time they are read, dump_extents returns once it has fuel enough. *)
Theorem dump_extents_ends ino p s :
  ∃ n, ∀ fuel, (n ≤ fuel)%nat → ∃ r s',
    Lsblks.dump_extents (H0 := tree_ext2fs) func fuel ino flags p s = Ret (r, s').
Proof.
  unfold Lsblks.dump_extents. set (dflt := (EXT2_ET_OP_NOT_SUPPORTED, MkHandle ino (MkInode 0 0 0 0 [] 0) 0 0 [])).
  pose proof (run_os_total (ext2fs_extent_open2 ino None) dflt
    (fun r => let '(e, h) := r in e = 0 → handle_inv h) (st_os s) (open2_total ino)) as Hopen.
  destruct (run_os (ext2fs_extent_open2 ino None) dflt (st_os s)) as [[e h] w] eqn:E. simpl in Hopen.
  assert (Hsys : ∀ A (k : Z * ext2_extent_handle → prog W A),
            bind (sys (sys_extent_open (Ext2Fs := tree_ext2fs) ino)) k s
            = k (e, h) (MkState (st_heap s) w (st_log s))).
  { intros A k. unfold bind, sys. change (sys_extent_open ino (st_os s))
      with (run_os (ext2fs_extent_open2 ino None) dflt (st_os s)). by rewrite E. }
  destruct (Z.eqb_spec e 0) as [->|He].
  2:{ exists 0%nat. intros fuel _. rewrite Hsys, (proj2 (Z.eqb_neq e 0)) by done. by eexists _, _. }
  specialize (Hopen eq_refl). set (s1 := MkState (st_heap s) w (st_log s)) in *.
  pose proof (run_os_total (ext2fs_extent_get 1 h EXT2_EXTENT_ROOT)
    (EXT2_ET_OP_NOT_SUPPORTED, no_extent, h) (fun r => handle_inv r.2) (st_os s1)) as Hroot.
  destruct (run_os (ext2fs_extent_get 1 h EXT2_EXTENT_ROOT) _ (st_os s1)) as [[[e x] h1] w1] eqn:E1.
  assert (Hinv1 : handle_inv h1).
  { apply Hroot. intros s'. pose proof (get_loop_safe Hbs Hread 1 EXT2_EXTENT_ROOT false h s' Hopen) as Hg.
    unfold total, ext2fs_extent_get. change (Z.land _ _) with EXT2_EXTENT_ROOT.
    destruct (get_loop _ _ _ _ _) as [[[[]]]| | |]; try done. by destruct Hg. }
  exists (S (S (Z.to_nat (rank h1)))). intros [|fuel] Hfuel; [lia|]. rewrite Hsys. cbn [Z.eqb negb].
  assert (Htot : total (Lsblks.dump_extents_loop (H0 := tree_ext2fs) func (S fuel) h EXT2_EXTENT_ROOT flags p)
                   (fun _ _ => True) s1).
  { apply (dump_turn_total fuel h _ p s1 (fun h' => h' = h1)).
    - rewrite E1. by split.
    - intros h' p' s' _ ->. apply dump_next_total; [done|]. split; [by apply rank_bound, digits_bound|lia]. }
  apply total_run in Htot as (p' & s' & Hrun & _). rewrite (bind_eq _ _ _ _ _ Hrun). by eexists _, _.
Qed.

End Ends.

(** *** What the readers collect from a tree *)

(** The blocks of a file: those of the leaves, in order. *)
Definition leaf_blocks (r : leaf_rec) : list Z := seqZ (lf_pblk r) (e_len (leaf_extent r)).
Fixpoint tree_blocks (d : nat) : tree d → list Z :=
  match d with
  | O => fun t => concat (leaf_blocks <$> t)
  | S d => fun t => concat ((fun c : idx_rec * tree d => tree_blocks d c.2) <$> t)
  end.

Definition shown (xs : list ext2fs_extent) : list (ext2fs_extent * option Z) :=
  (fun x => (x, Some 0)) <$> xs.

Lemma idx_not_leaf r end_ b : has (e_flags (idx_extent r end_ b)) EXT2_EXTENT_FLAGS_LEAF = false.
Proof. by destruct b. Qed.

Lemma leaf_extent_blocks r : leaf_wf r → extent_blocks (leaf_extent r, Some 0) = leaf_blocks r.
Proof.
  intros _. unfold extent_blocks, leaf_blocks, leaf_extent. cbn [fst snd e_flags].
  by destruct (EXT_INIT_MAX_LEN <? lf_len r).
Qed.

Lemma leaf_extent_wf r : leaf_wf r → extent_wf (leaf_extent r, Some 0).
Proof.
  intros (Hl & Hn & Hp). unfold extent_wf, leaf_extent, EXT_INIT_MAX_LEN. cbn [fst snd e_pblk e_lblk e_len].
  split_and!; try lia; [destruct (Z.ltb_spec 32768 (lf_len r)); lia..|]. by intros l [= <-].
Qed.

Lemma idx_extent_wf r end_ b : idx_wf r → extent_wf (idx_extent r end_ b, Some 0).
Proof.
  intros (Hl & Hp). unfold extent_wf, idx_extent. cbn [fst snd e_pblk e_lblk e_len].
  pose proof (u32_bound (end_ - ix_lblk r)). split_and!; try lia. by intros l [= <-].
Qed.

Definition blocks_of (xs : list ext2fs_extent) : list Z := concat (extent_blocks <$> shown xs).

Lemma blocks_of_app xs ys : blocks_of (xs ++ ys) = blocks_of xs ++ blocks_of ys.
Proof. unfold blocks_of, shown. by rewrite !fmap_app, concat_app. Qed.
Lemma blocks_of_idx r end_ b xs : blocks_of (idx_extent r end_ b :: xs) = blocks_of xs.
Proof.
  unfold blocks_of, shown. rewrite !fmap_cons. cbn [concat]. unfold extent_blocks at 1. cbn [fst snd].
  by rewrite idx_not_leaf.
Qed.

Lemma tree_visits_blocks disk size d : ∀ above end_ (t : tree d), on_disk disk size above d t →
  blocks_of (tree_visits d end_ t) = tree_blocks d t.
Proof.
  induction d as [|d IH]; intros above end_ t Hwf.
  - cbn [tree_visits tree_blocks]. cbn [tree] in t. cbn [on_disk] in Hwf.
    induction Hwf as [|r t Hr _ IHt]; [done|]. unfold blocks_of, shown in *. rewrite !fmap_cons.
    cbn [concat]. by rewrite leaf_extent_blocks, IHt.
  - cbn [tree_visits tree_blocks]. cbn [tree] in t. cbn [on_disk] in Hwf.
    induction Hwf as [|[r sub] t (Hr & _ & _ & _ & Hsub) _ IHt]; [done|]. cbn [index_visits].
    rewrite blocks_of_idx, blocks_of_app, blocks_of_idx, IHt, fmap_cons. cbn [concat snd].
    f_equal. by eapply IH.
Qed.

Lemma tree_visits_wf disk size d : ∀ above end_ (t : tree d), on_disk disk size above d t →
  Forall extent_wf (shown (tree_visits d end_ t)).
Proof.
  intros above end_ t Hwf. apply Forall_fmap. revert above end_ t Hwf.
  induction d as [|d IH]; intros above end_ t Hwf.
  - apply Forall_fmap. eapply Forall_impl; [exact Hwf|]. apply leaf_extent_wf.
  - cbn [tree_visits]. cbn [tree] in t. cbn [on_disk] in Hwf.
    induction Hwf as [|[r sub] t (Hr & _ & _ & _ & Hsub) _ IHt]; [done|]. cbn [index_visits].
    constructor; [by apply idx_extent_wf|]. apply Forall_app. split; [by eapply IH|].
    constructor; [by apply idx_extent_wf|done].
Qed.

Lemma get_ret_path h op s x h' s' :
  ext2fs_extent_get 1 h op s = Ret ((0, x, h'), s') → ∃ p, get_path h' (level h') = Ret p.
Proof.
  unfold ext2fs_extent_get. set (o := Z.land op EXT2_EXTENT_MOVE_MASK). cbn [get_loop]. intros E.
  apply bind_inv in E as (p & s1 & _ & E). destruct (choose_op o h p) as [[e|c] v] eqn:Ec.
  - unfold ret in E. injection E as -> _ _ _. unfold choose_op in Ec.
    repeat case_match; simplify_eq.
  - apply bind_inv in E as ([[[e ix] h1] f] & s2 & _ & E).
    destruct (Z.eqb_spec e 0) as [->|]; cbn [negb] in E; [|by injection E].
    destruct ix as [ix|]; [|by injection E].
    apply bind_inv in E as (p1 & s3 & Hp1 & E). unfold lift in Hp1.
    destruct (get_path h1 (level h1)) as [q| | |] eqn:Eq; try done. exists q.
    apply bind_inv in E as (x1 & s4 & _ & E).
    destruct (_ && _); [done|]. destruct (_ && _); [done|]. unfold ret in E. by injection E as _ _ <- _.
Qed.

Lemma open_root ino inode d (t : tree d) :
  (∀ n, mem_ok n = true) → length (i_block inode) = 15%nat →
  has (i_flags inode) EXT4_EXTENTS_FL = true →
  node_rep 60 (Z.of_nat d) (node_entries t) (i_block_bytes inode) →
  ∃ m end_, open_inode ino inode =
    Ret (0, cursor ino inode (Z.of_nat d) []
              (root_path (i_block_bytes inode) (zlen (node_entries t)) m end_) (replicate d no_path)).
Proof.
  intros Hmem Hlen Hflag Hrep.
  destruct (node_header _ _ _ _ Hrep ltac:(done)) as (Hver & Hent & Hdep & m & Hmax).
  unfold open_inode. rewrite bool_decide_false.
  2:{ intros Hz. assert (Hw : i_block inode = replicate 15 0).
      { symmetry. apply replicate_as_Forall. split; [done|].
        eapply Forall_impl; [exact Hz|]. by intros w ->. }
      unfold i_block_bytes in Hver. rewrite Hw in Hver. by destruct big_endian. }
  rewrite Hflag. cbn [orb negb]. rewrite Hver. cbn [obind Z.eqb negb]. rewrite Hdep. cbn [obind].
  rewrite Hmem, Hent, Hmax. cbn [negb obind]. eexists m, _. unfold cursor, root_path.
  rewrite Nat2Z.id. reflexivity.
Qed.

Lemma walks_shows s w h xs h2 h3 e :
  s = MkState (MkHeap ∅ 0) w [] → e ≠ 0 → walks s h xs h2 →
  ext2fs_extent_get 1 h2 EXT2_EXTENT_NEXT s = Ret ((e, no_extent, h3), s) →
  cursor_shows (H := tree_ext2fs) w h EXT2_EXTENT_NEXT (shown xs).
Proof.
  intros -> He Hw Hend. revert h Hw. induction xs as [|x xs IH]; intros h Hw.
  - simpl in Hw. subst h2. exists e, no_extent, h3. split; [|done].
    unfold sys_extent_get, tree_ext2fs, run_os. by rewrite Hend.
  - destruct Hw as (h1 & Hget & Hw). destruct (get_ret_path _ _ _ _ _ _ Hget) as [p Hp].
    exists h1, 0, (level h1). split_and!; [| |by split|by apply IH].
    + unfold sys_extent_get, tree_ext2fs, run_os. by rewrite Hget.
    + unfold sys_extent_get_info, tree_ext2fs, ext2fs_extent_get_info. by rewrite Hp.
Qed.

(** The listing of a tree on the disk. *)
Lemma lsblks_tree_run {V} `{VecOps V} `{!VecLaws V} disk d (t : tree d) fuel dev ino inode v l
    (s : state W) :
  (∀ n, mem_ok n = true) → 12 ≤ tf_blocksize → tf_image = false → tf_ignore_csum_errors = true →
  tf_magic_ok = true → 0 < ino < 2 ^ 32 → ino ≤ tf_inodes_count →
  (∀ b, sys_read_blk64 b (st_os s) = ((0, disk b), st_os s)) →
  sys_ext2fs_open (Ext2Fs := base) dev (st_os s) = (0, st_os s) →
  sys_ext2fs_close (Ext2Fs := base) (st_os s) = (tt, st_os s) →
  sys_read_inode (Ext2Fs := base) ino (st_os s) = ((0, inode), st_os s) →
  sys_tf_read_inode ino (st_os s) = ((0, inode), st_os s) →
  length (i_block inode) = 15%nat → has (i_flags inode) EXT4_EXTENTS_FL = true →
  node_rep 60 (Z.of_nat d) (node_entries t) (i_block_bytes inode) → node_entries t ≠ [] →
  on_disk disk tf_blocksize [] d t → (∀ end_, (length (tree_visits d end_ t) < fuel)%nat) →
  vec_rep v l → zlen l + 1 + zlen (tree_blocks d t) < 2 ^ 28 →
  ∃ v', ext_get_inode_datablocks_lib (H0 := tree_ext2fs) fuel dev ino v s
        = Ret ((0, (v', zlen (tree_blocks d t))), s) ∧ vec_rep v' (l ++ marked (tree_blocks d t)).
Proof.
  intros Hmem Hbs Himage Hcsum Hmagic Hino Hcount Hread Hopen Hclose Hinode Hinode' Hlen Hflag
    Hrep Hne Hwf Hfuel Hv Hroom.
  destruct (open_root ino inode d t Hmem Hlen Hflag Hrep) as (m & end_ & Hroot).
  set (s0 := MkState (MkHeap ∅ 0) (st_os s) [] : state W).
  destruct (tree_walk disk s0 ino inode (Z.of_nat d) Hbs Hmem Himage Hcsum Hread d t
              (i_block_bytes inode) m end_ eq_refl Hrep Hwf Hne)
    as (x & xs & h1 & h2 & h3 & Hvis & Hget & Hw & Hend).
  set (h := cursor _ _ _ _ _ _) in Hroot, Hget.
  assert (Hblocks : concat (extent_blocks <$> shown (tree_visits d end_ t)) = tree_blocks d t)
    by (eapply (tree_visits_blocks disk); exact Hwf).
  destruct (lsblks_extents_run (H0 := tree_ext2fs) Hmem l s fuel dev ino inode h
              (shown (tree_visits d end_ t)) v) as (v' & Hrun & Hv'); try done; try lia.
  - unfold sys_extent_open, tree_ext2fs, run_os, ext2fs_extent_open2. rewrite Hmagic, Hmem.
    cbn [negb]. rewrite bool_decide_true, (proj2 (Z.eqb_neq ino 0)), (proj2 (Z.ltb_ge _ _)) by (done || lia).
    cbn [andb orb]. unfold bind, sys. cbn [st_os]. rewrite Hinode'. cbn [obind Z.eqb negb].
    unfold lift. by rewrite Hroot.
  - rewrite Hvis. destruct (get_ret_path _ _ _ _ _ _ Hget) as [p Hp].
    exists h1, 0, (level h1). split_and!; [| |by split|].
    + unfold sys_extent_get, tree_ext2fs, run_os. fold s0. by rewrite Hget.
    + unfold sys_extent_get_info, tree_ext2fs, ext2fs_extent_get_info. by rewrite Hp.
    + by apply (walks_shows s0 (st_os s) h1 xs h2 h3 EXT2_ET_EXTENT_NO_NEXT).
  - eapply (tree_visits_wf disk); exact Hwf.
  - unfold shown. rewrite length_fmap. apply Hfuel.
  - by rewrite Hblocks.
  - rewrite Hblocks in Hrun, Hv'. by exists v'.
Qed.

(** C4. From the bytes on the disk to the blocks of a file: when the inode and the
    blocks hold a tree of extents in the format of ext4, of any depth, whose blocks do not
    lead back to themselves, the reader of the build collects the marker and exactly the
    blocks of the leaves, in the order of the tree. *)
Theorem lsblks_tree_exact {V} `{VecOps V} `{!VecLaws V} disk d (t : tree d) fuel dev ino inode v l
    (s : state W) :
  (∀ n, mem_ok n = true) → 12 ≤ tf_blocksize → tf_image = false → tf_ignore_csum_errors = true →
  tf_magic_ok = true → 0 < ino < 2 ^ 32 → ino ≤ tf_inodes_count →
  (∀ b, sys_read_blk64 b (st_os s) = ((0, disk b), st_os s)) →
  sys_ext2fs_open (Ext2Fs := base) dev (st_os s) = (0, st_os s) →
  sys_ext2fs_close (Ext2Fs := base) (st_os s) = (tt, st_os s) →
  sys_read_inode (Ext2Fs := base) ino (st_os s) = ((0, inode), st_os s) →
  sys_tf_read_inode ino (st_os s) = ((0, inode), st_os s) →
  length (i_block inode) = 15%nat → has (i_flags inode) EXT4_EXTENTS_FL = true →
  node_rep 60 (Z.of_nat d) (node_entries t) (i_block_bytes inode) → node_entries t ≠ [] →
  on_disk disk tf_blocksize [] d t → (∀ end_, (length (tree_visits d end_ t) < fuel)%nat) →
  vec_rep v l → zlen l + 1 + zlen (tree_blocks d t) < 2 ^ 28 →
  ∃ v', ext_get_inode_datablocks_lib (H0 := tree_ext2fs) fuel dev ino v s
        = Ret ((0, (v', zlen (tree_blocks d t))), s) ∧ vec_rep v' (l ++ marked (tree_blocks d t)).
Proof. intros. by eapply lsblks_tree_run. Qed.

End Interface.

(** ** A tree of two leaves

    Blocks of 64 bytes; every block that holds no node is zeros. *)
Definition node_bytes (size depth : Z) (es : list bytes) : bytes :=
  let b := le_split 2 EXT3_EXT_MAGIC ++ le_split 2 (zlen es) ++ le_split 2 ((size - 12) / 12) ++
           le_split 2 depth ++ le_split 4 0 ++ concat es in
  b ++ replicate (Z.to_nat size - length b) 0.

Lemma node_bytes_rep size depth es :
  12 ≤ size < 65536 → 0 ≤ depth < 65536 → zlen es ≤ (size - 12) / 12 →
  Forall (fun e => length e = 12%nat) es → node_rep size depth es (node_bytes size depth es).
Proof.
  intros Hs Hd Hn Hes.
  assert (Hc : zlen (concat es) = 12 * zlen es).
  { clear Hn. induction Hes as [|e es He _ IH]; [done|]. simpl concat. rewrite length_app, He.
    simpl length. lia. }
  pose proof (Z.mul_div_le (size - 12) 12).
  assert ((size - 12) / 12 < 65536) by (apply Z.div_lt_upper_bound; lia).
  exists ((size - 12) / 12), 0, (replicate (Z.to_nat size - (12 + length (concat es))) 0).
  split_and!; try done; try lia.
  unfold node_bytes. cbv zeta. rewrite !length_app, length_replicate, !le_split_length. lia.
Qed.

#[local] Existing Instances x86_64 Impl.Vector_ops Impl.Vector_laws.

Definition two_leaves : tree 1 :=
  [(MkIdxRec 0 500 0, [MkLeafRec 0 3 100; MkLeafRec 3 1 110]);
   (MkIdxRec 4 501 0, [MkLeafRec 4 32770 200])].

Definition two_leaves_disk (b : Z) : bytes :=
  if b =? 500 then node_bytes 64 0 (leaf_bytes <$> [MkLeafRec 0 3 100; MkLeafRec 3 1 110])
  else if b =? 501 then node_bytes 64 0 (leaf_bytes <$> [MkLeafRec 4 32770 200])
  else replicate 64 0.

(** The words of the root, in the inode. *)
Definition two_leaves_root : list Z :=
  let b := node_bytes 60 1 (node_entries two_leaves) in
  (fun i => le (take 4 (drop (4 * i) b))) <$> seq 0 15.
Definition tree_inode : ext2_inode := MkInode 33188 EXT4_EXTENTS_FL 6144 0 two_leaves_root 0.
Definition tree_fs : state sample_fs :=
  MkState (MkHeap ∅ 4096) (MkFs 0 [(14, tree_inode)] [] []) [].

#[local] Instance sample_treefs : TreeFs sample_fs := {
  tf_magic_ok := true;
  tf_blocksize := 64;
  tf_blocksize_bits := 6;
  tf_inodes_count := 100;
  tf_image := false;
  tf_ignore_csum_errors := true;
  tf_csum_ok _ _ := false;
  sys_read_blk64 b w := ((0, two_leaves_disk b), w);
  sys_tf_read_inode ino w :=
    (match zassoc ino (sf_inodes w) with
     | Some i => if bool_decide (length (i_block i) = 15%nat) then (0, i)
                 else (EXT2_ET_BAD_INODE_NUM, i)
     | None => (EXT2_ET_BAD_INODE_NUM, MkInode 0 0 0 0 [] 0)
     end, w);
}.

Definition sample_base : Ext2Fs sample_fs unit := {|
  fs_magic_ok := true;
  fs_blocksize := 64;
  fs_blocks_count := 1000;
  fs_first_data_block := 0;
  fs_hurd := false;
  sys_ext2fs_open _ w := (sf_open w, w);
  sys_ext2fs_close w := (tt, w);
  sys_read_inode := sys_read_inode;
  sys_write_inode := sys_write_inode;
  sys_read_ind := sys_read_ind;
  sys_write_ind := sys_write_ind;
  sys_extent_open _ w := ((0, tt), w);
  sys_extent_get h _ w := ((EXT2_ET_EXTENT_NO_NEXT, no_extent, h), w);
  sys_extent_get_info _ w := ((0, 0), w);
  sys_extent_replace h _ w := ((0, h), w);
  sys_extent_set_bmap h _ _ _ w := ((0, h), w);
|}.

Lemma lsblks_tree_exact_witness :
  let blocks := tree_blocks 1 two_leaves in
  blocks = [100; 101; 102; 110; 200; 201] ∧
  ∃ v', @ext_get_inode_datablocks_lib x86_64 _ _ Impl.Vector (tree_ext2fs sample_base) _ 8
          (bs "/dev/sda1") 14 vec_init tree_fs = Ret ((0, (v', zlen blocks)), tree_fs) ∧
    vec_rep v' ([] ++ marked blocks).
Proof.
  split; [vm_compute; reflexivity|].
  apply (lsblks_tree_exact (V := Impl.Vector) sample_base two_leaves_disk 1 two_leaves 8
           (bs "/dev/sda1") 14 tree_inode Impl.vector_init []).
  - done.
  - done.
  - done.
  - done.
  - done.
  - done.
  - done.
  - done.
  - done.
  - done.
  - done.
  - done.
  - done.
  - vm_compute. reflexivity.
  - replace (i_block_bytes tree_inode) with (node_bytes 60 1 (node_entries two_leaves))
      by (vm_compute; reflexivity).
    apply node_bytes_rep; [lia|lia|vm_compute; congruence|by repeat constructor].
  - done.
  - repeat constructor; try (simpl; lia); try set_solver;
      (apply node_bytes_rep; [simpl; lia|simpl; lia|vm_compute; congruence|by repeat constructor]).
  - intros end_. simpl. lia.
  - apply Impl.rep_init.
  - vm_compute. reflexivity.
Defined.

Definition tree_handle : ext2_extent_handle :=
  match open_inode 14 tree_inode with
  | Ret (_, h) => h
  | _ => MkHandle 0 tree_inode 0 0 []
  end.

Lemma tree_handle_inv : handle_inv tree_handle.
Proof.
  destruct (open_inode_safe 14 tree_inode) as (e & h & Ho & Hinv); [done..|].
  unfold tree_handle. rewrite Ho. apply Hinv. by vm_compute in Ho; injection Ho as <- _.
Qed.

Lemma node_is_bytes size depth es :
  Forall (Forall is_byte) es → Forall is_byte (node_bytes size depth es).
Proof.
  intros Hes. unfold node_bytes. repeat (apply Forall_app; split); try apply le_split_bytes.
  - by apply Forall_concat.
  - apply Forall_replicate. by unfold is_byte.
Qed.

Lemma two_leaves_read b (w : sample_fs) data w' :
  sys_read_blk64 b w = ((0, data), w') → zlen data = tf_blocksize ∧ Forall is_byte data.
Proof.
  intros [= <- _]. unfold two_leaves_disk.
  destruct (b =? 500); [|destruct (b =? 501)]; (split; [vm_compute; reflexivity|]).
  - by apply node_is_bytes, (bool_decide_eq_true_1 _); vm_compute.
  - by apply node_is_bytes, (bool_decide_eq_true_1 _); vm_compute.
  - by apply Forall_replicate.
Qed.


(** A disk on which every block is an index node that leads to the block 500. *)
Definition cyclic_node (size : Z) : bytes := node_bytes size 9 [idx_bytes (MkIdxRec 0 500 0)].
Definition cyclic_inode : ext2_inode :=
  MkInode 33188 EXT4_EXTENTS_FL 0 0
    ((fun i => le (take 4 (drop (4 * i) (cyclic_node 60)))) <$> seq 0 15) 0.

Definition cyclic_treefs : TreeFs sample_fs := {|
  tf_magic_ok := true;
  tf_blocksize := 64;
  tf_blocksize_bits := 6;
  tf_inodes_count := 100;
  tf_image := false;
  tf_ignore_csum_errors := true;
  tf_csum_ok _ _ := false;
  sys_read_blk64 _ w := ((0, cyclic_node 64), w);
  sys_tf_read_inode _ w := ((0, cyclic_inode), w);
|}.

Definition collect (b : Z) (p : list Z) : prog sample_fs (Z * list Z) := ret (0, p ++ [b]).

Lemma dump_extents_ends_witness :
  ∃ n, ∀ fuel, (n ≤ fuel)%nat → ∃ r s',
    Lsblks.dump_extents (H0 := @tree_ext2fs x86_64 _ cyclic_treefs sample_base) collect fuel 14
      (Z.lor DUMP_LEAF_EXTENTS DUMP_NODE_EXTENTS) [] tree_fs = Ret (r, s').
Proof.
  apply (@dump_extents_ends x86_64 sample_fs cyclic_treefs sample_base (list Z) collect).
  - done.
  - intros b w data w' [= <- _]. split; [vm_compute; reflexivity|].
    by apply node_is_bytes, (bool_decide_eq_true_1 _); vm_compute.
  - done.
  - by intros ino w i w' [= <- _].
  - done.
Defined.

(** The cursor finds the cycle. *)
Example cyclic_walk :
  match @ext2fs_extent_open2 x86_64 _ cyclic_treefs 14 None tree_fs with
  | Ret ((0, h), s) =>
      match @ext2fs_extent_get x86_64 _ cyclic_treefs 1 h EXT2_EXTENT_ROOT s with
      | Ret ((_, _, h), s) =>
          match @ext2fs_extent_get x86_64 _ cyclic_treefs 1 h EXT2_EXTENT_NEXT s with
          | Ret ((e1, _, h), s) =>
              match @ext2fs_extent_get x86_64 _ cyclic_treefs 1 h EXT2_EXTENT_NEXT s with
              | Ret ((e2, _, _), _) => (e1, e2)
              | _ => (1, 1)
              end
          | _ => (1, 1)
          end
      | _ => (1, 1)
      end
  | _ => (1, 1)
  end = (0, EXT2_ET_EXTENT_CYCLE).
Proof. vm_compute. reflexivity. Qed.
