(* ===== verification/DeviceFs.v ===== *)
(** * From the bytes of a device to the blocks of a file

    The interfaces of Ext2Fs and ExtentTree over the lower layers that are modelled:
    the file system as ext2fs_open2 gives it, blocks read through its channel, inodes
    read by ext2fs_read_inode.  Every read of an inode starts from the cache the file
    system was opened with. *)
From S2P Require Export InodeIo ExtentTree.
#[local] Open Scope Z_scope.

(** [struct ext2_inode], field by field. *)
Definition inode_of_bytes (b : bytes) : ext2_inode :=
  MkInode (in_mode b) (in_flags b) (in_size b) (in_size_high b)
    ((fun i => in_block (Z.of_nat i) b) <$> seq 0 EXT2_N_BLOCKS) (in_translator b).

(** The words of a block. *)
Fixpoint words_of (n : nat) (b : bytes) : list Z :=
  match n with O => [] | S n => le (take 4 b) :: words_of n (drop 4 b) end.

(** [open_flags] of lsblks. *)
Definition lsblks_flags : Z :=
  Z.lor (Z.lor EXT2_FLAG_SOFTSUPP_FEATURES EXT2_FLAG_64BITS) (Z.lor EXT2_FLAG_THREADS EXT2_FLAG_IGNORE_CSUM_ERRORS).

Definition EXT2_OS_HURD : Z := 1.

Section Device.
  Context `{Machine} {W : Type} `{IoManager W} (fs : ext2_filsys).
  (** the test of the checksum of a node *)
  Context (csum_ok : Z → bytes → bool).

Definition opened_read_inode (ino : Z) (w : W) : (Z * ext2_inode) * W :=
  let '((e, b, _), w) := run_os (ext2fs_read_inode fs ino) (EXT2_ET_OP_NOT_SUPPORTED, [], fs) w in
  ((e, inode_of_bytes b), w).

Definition device_tree : TreeFs W := {|
  tf_magic_ok := true;
  tf_blocksize := f_blocksize fs;
  tf_blocksize_bits := EXT2_BLOCK_SIZE_BITS (f_super fs);
  tf_inodes_count := s_inodes_count (f_super fs);
  tf_image := false;
  tf_ignore_csum_errors := has (f_flags fs) EXT2_FLAG_IGNORE_CSUM_ERRORS;
  tf_csum_ok := csum_ok;
  sys_read_blk64 b w := io_read_blk64 (f_blocksize fs) b 1 w;
  sys_tf_read_inode := opened_read_inode;
|}.

(** The readers do not write; closing a file system that is not dirty closes the channel. *)
Definition device_base : Ext2Fs W unit := {|
  fs_magic_ok := true;
  fs_blocksize := f_blocksize fs;
  fs_blocks_count := ext2fs_blocks_count (f_super fs);
  fs_first_data_block := s_first_data_block (f_super fs);
  fs_hurd := s_creator_os (f_super fs) =? EXT2_OS_HURD;
  sys_ext2fs_open dev w :=
    let '((e, _), w) := run_os (ext2fs_open dev lsblks_flags 0 0) (EXT2_ET_OP_NOT_SUPPORTED, None) w in (e, w);
  sys_ext2fs_close w := mgr_close w;
  sys_read_inode := opened_read_inode;
  sys_write_inode _ _ w := (EXT2_ET_RO_FILSYS, w);
  sys_read_ind b w :=
    let '((e, d), w) := run_os (ext2fs_read_ind_block fs b) (EXT2_ET_OP_NOT_SUPPORTED, []) w in
    ((e, words_of (Z.to_nat (f_blocksize fs / 4)) d), w);
  sys_write_ind b l w :=
    run_os (ext2fs_write_ind_block fs b (concat (le_split 4 <$> l))) EXT2_ET_OP_NOT_SUPPORTED w;
  sys_extent_open _ w := ((EXT2_ET_OP_NOT_SUPPORTED, tt), w);
  sys_extent_get h _ w := ((EXT2_ET_OP_NOT_SUPPORTED, no_extent, h), w);
  sys_extent_get_info _ w := ((EXT2_ET_OP_NOT_SUPPORTED, 0), w);
  sys_extent_replace h _ w := ((EXT2_ET_OP_NOT_SUPPORTED, h), w);
  sys_extent_set_bmap h _ _ _ w := ((EXT2_ET_OP_NOT_SUPPORTED, h), w);
|}.

(** The interface of the listings: the cursor of extent.c over this device. *)
Definition device_ext2fs : Ext2Fs W ext2_extent_handle := @tree_ext2fs _ W device_tree device_base.
End Device.

(** ** Fields of inodes that differ in their checksum *)
Lemma csum_set_fld fs ino x n off : inode_wf fs x → (off + n <= 124)%nat →
  fld n off (ext2fs_inode_csum_set fs ino x) = fld n off x.
Proof.
  intros Hw Ho. pose proof (csum_has_hi_room fs x Hw) as Hroom. destruct Hw as (_ & _ & H128 & _).
  unfold ext2fs_inode_csum_set. destruct (negb _); [done|]. unfold i_checksum_lo, i_checksum_hi.
  destruct (csum_has_hi fs x); [specialize (Hroom eq_refl)|]; rewrite !fld_set_other by fld_len; done.
Qed.
Lemma same_inode_fld fs ino a b n off : same_inode fs ino a b → (off + n <= 124)%nat → fld n off a = fld n off b.
Proof. intros (Ha & Hb & E) Ho. rewrite <- (csum_set_fld fs ino a), E, csum_set_fld by done. done. Qed.
Lemma fld_take n off k b : (off + n <= k)%nat → fld n off (take k b) = fld n off b.
Proof.
  intros Ho. unfold fld. rewrite !take_drop_commute, take_take. do 3 f_equal. lia.
Qed.
Lemma inode_of_bytes_ext a b : (∀ n off, (off + n <= 124)%nat → fld n off a = fld n off b) →
  inode_of_bytes a = inode_of_bytes b.
Proof.
  intros E. unfold inode_of_bytes, in_mode, in_flags, in_size, in_size_high, in_translator.
  rewrite (E 2 0x00)%nat, (E 4 0x20)%nat, (E 4 0x04)%nat, (E 4 0x6c)%nat, (E 4 0x24)%nat by (by apply Nat.leb_le).
  f_equal. apply list_fmap_ext. intros i j [-> Hi]%lookup_seq.
  unfold in_block, EXT2_N_BLOCKS in *. apply E. lia.
Qed.

(** The words of [i_block] and their bytes. *)
Lemma words_bytes n (b : bytes) : Forall is_byte b → (4 * n <= length b)%nat →
  concat (le_split 4 <$> ((fun i => le (take 4 (drop (4 * i) b))) <$> seq 0 n)) = take (4 * n) b.
Proof.
  intros Hb. revert b Hb. induction n as [|n IH]; intros b Hb Hl; [done|].
  cbn [seq fmap list_fmap concat]. rewrite <- fmap_S_seq, <- !list_fmap_compose.
  assert (E : le_split 4 (le (take 4 (drop (4 * 0) b))) = take 4 b).
  { change (drop (4 * 0) b) with b. rewrite <- (le_split_le (take 4 b)) at 2 by (by apply Forall_take).
    rewrite length_take. f_equal. lia. }
  rewrite E. specialize (IH (drop 4 b) (Forall_drop _ _ _ Hb)). rewrite length_drop in IH.
  rewrite <- list_fmap_compose in IH.
  assert (E2 : (le_split 4 ∘ (λ i : nat, le (take 4 (drop (4 * i) b))) ∘ S) <$> seq 0 n =
               (le_split 4 ∘ (λ i : nat, le (take 4 (drop (4 * i) (drop 4 b))))) <$> seq 0 n).
  { apply list_fmap_ext. intros i j _. unfold compose. cbv beta. rewrite drop_drop. by replace (4 * S j)%nat with (4 + 4 * j)%nat by lia. }
  rewrite E2, IH by lia. replace (4 * S n)%nat with (4 + 4 * n)%nat by lia. by rewrite take_take_drop.
Qed.

Section Compose.
  Context `{Machine} {W : Type} `{IoManager W} {bs : Z} `{!IoDisk bs W}.
  Context (fs : ext2_filsys) (gd : bytes) (csum_ok : Z → bytes → bool).
  Context (Hr : inodes_ready bs fs gd).
  Abbreviation isz := (EXT2_INODE_SIZE (f_super fs)).

Lemma root_bytes (w : W) ino : big_endian = false → inode_ok fs ino →
  i_block_bytes (inode_of_bytes (disk_inode fs gd w ino)) = take 60 (drop 0x28 (disk_inode fs gd w ino)).
Proof.
  intros Hbe Hi. destruct (disk_inode_wf gd fs Hr w ino Hi) as (Hb & _ & H128 & _).
  unfold i_block_bytes. rewrite Hbe. unfold inode_of_bytes. cbn [i_block].
  change 60%nat with (4 * 15)%nat. rewrite <- (words_bytes 15 (drop 0x28 _)).
  - f_equal. f_equal. apply list_fmap_ext. intros i j _. unfold in_block, fld.
    rewrite drop_drop, Nat2Z.id. done.
  - by apply Forall_drop.
  - rewrite length_drop. lia.
Qed.

(** An inode whose block can be read, and whose checksum is right or is not looked at. *)
Lemma opened_read (w : W) ino : (∀ n, mem_ok n = true) → icache_inv fs gd w → inode_ok fs ino →
  has (f_flags fs) EXT2_FLAG_IGNORE_CSUM_ERRORS = true ∨ ext2fs_inode_csum_verify fs ino (disk_inode fs gd w ino) = true →
  (∃ d w', io_read_blk64 bs (inode_blk bs fs gd ino) 1 w = ((0, d), w')) →
  ∃ w', opened_read_inode fs ino w = ((0, inode_of_bytes (disk_inode fs gd w ino)), w') ∧ disk w' = disk w ∧
    (w' = w ∨ ∃ r, io_read_blk64 bs (inode_blk bs fs gd ino) 1 w = (r, w')).
Proof.
  intros Hmem Hinv Hi Hcs (d & wr & Hio). unfold opened_read_inode, run_os, ext2fs_read_inode.
  destruct (read_inode2_run gd fs Hr (Hmem _) (Hmem _) ino sizeof_ext2_inode 0 (MkState (MkHeap ∅ 0) w []) Hinv Hi)
    as (e & x & fs' & w' & -> & Hd & _ & Hwhere & Hok & Hbad).
  simpl in Hd, Hwhere, Hbad. assert (Hsame : disk_inode fs gd w' ino = disk_inode fs gd w ino) by (unfold disk_inode; by rewrite Hd).
  exists w'. split; [|done]. destruct (decide (e = 0)) as [->|He]; cycle 1.
  { destruct (Hbad He) as [(_ & Hg & Hf)|[(_ & Hm)|(d' & E)]]; [|by rewrite !Hmem in Hm|].
    - rewrite Hsame in Hg. destruct Hcs; congruence.
    - rewrite Hio in E. by injection E as <- _ _. }
  destruct (Hok eq_refl) as (old & -> & Hold & _). rewrite Hsame in Hold. simpl. f_equal. f_equal.
  apply inode_of_bytes_ext. intros n off Ho. destruct (bs_bound _ _ _ Hr). unfold sizeof_ext2_inode.
  rewrite fld_take by lia. by apply (same_inode_fld fs ino).
Qed.
(** An inode of a device that does not change. *)
Lemma opened_read_run (w : W) ino : (∀ n, mem_ok n = true) → icache_inv fs gd w → inode_ok fs ino →
  has (f_flags fs) EXT2_FLAG_IGNORE_CSUM_ERRORS = true →
  io_read_blk64 bs (inode_blk bs fs gd ino) 1 w = ((0, disk w (inode_blk bs fs gd ino)), w) →
  opened_read_inode fs ino w = ((0, inode_of_bytes (disk_inode fs gd w ino)), w).
Proof.
  intros Hmem Hinv Hi Hcs Hio. destruct (opened_read w ino Hmem Hinv Hi) as (w' & -> & _ & Hw); [by left|by eexists _, _|].
  destruct Hw as [->|(r & E)]; [done|]. rewrite Hio in E. by injection E as _ <-.
Qed.

(** C3. From the bytes of a device to the blocks of a file: lsblks opens the file system that
    is on a device, finds the inode in its table and follows the tree of extents that the
    inode and the blocks hold; the reader of the build collects the marker and exactly the
    blocks of the leaves, in the order of the tree. *)
Theorem lsblks_from_device {V} `{VecOps V} `{!VecLaws V} d (t : tree d) fuel dev ino v l (s : state W) :
  (∀ n, mem_ok n = true) → big_endian = false →
  run_os (ext2fs_open dev lsblks_flags 0 0) (EXT2_ET_OP_NOT_SUPPORTED, None) (st_os s) = ((0, Some fs), st_os s) →
  has (f_flags fs) EXT2_FLAG_IGNORE_CSUM_ERRORS = true → icache_inv fs gd (st_os s) →
  (∀ b, io_read_blk64 bs b 1 (st_os s) = ((0, disk (st_os s) b), st_os s)) → mgr_close (st_os s) = (tt, st_os s) →
  inode_ok fs ino →
  let inode := disk_inode fs gd (st_os s) ino in
  has (in_flags inode) EXT4_EXTENTS_FL = true →
  node_rep 60 (Z.of_nat d) (node_entries t) (take 60 (drop 0x28 inode)) → node_entries t ≠ [] →
  on_disk (disk (st_os s)) bs [] d t → (∀ end_, (length (tree_visits d end_ t) < fuel)%nat) →
  vec_rep v l → zlen l + 1 + zlen (tree_blocks d t) < 2 ^ 28 →
  ∃ v', ext_get_inode_datablocks_lib (H0 := device_ext2fs fs csum_ok) fuel dev ino v s
        = Ret ((0, (v', zlen (tree_blocks d t))), s) ∧ vec_rep v' (l ++ marked (tree_blocks d t)).
Proof.
  intros Hmem Hbe Hopen Hcs Hinv Hread Hclose Hi inode Hext Hroot Hne Htree Hfuel Hv Hroom.
  pose proof Hi as [Hi1 Hi2]. destruct (bs_bound _ _ _ Hr).
  pose proof (fld4_bound 0x00 _ (ir_super _ _ _ Hr) : 0 ≤ s_inodes_count (f_super fs) < 2 ^ 32).
  destruct (ir_blocksize _ _ _ Hr) as (Ebs & _).
  pose proof (opened_read_run (st_os s) ino Hmem Hinv Hi Hcs (Hread _)) as Hino.
  unfold device_ext2fs.
  apply (lsblks_tree_run (H0 := device_tree fs csum_ok) (device_base fs) (disk (st_os s)) d t fuel dev ino
    (inode_of_bytes inode)); try done; try lia.
  - simpl. lia.
  - intros b. simpl. rewrite Ebs. apply Hread.
  - simpl. by rewrite Hopen.
  - unfold inode. rewrite root_bytes by done. exact Hroot.
  - simpl. by rewrite Ebs.
Qed.
End Compose.

(** ** Witness

    A device of eight blocks of 1024 bytes; the inode 3, in block 5, is a file of six blocks
    mapped by a tree of depth 1 whose leaves are the blocks 6 and 7. *)
Definition device_tree_leaves : tree 1 :=
  [(MkIdxRec 0 6 0, [MkLeafRec 0 3 100; MkLeafRec 3 1 110]);
   (MkIdxRec 4 7 0, [MkLeafRec 4 32770 200])].
Definition extent_inode : bytes :=
  let b := set_fld 2 0x00 0x81a4 (replicate 128 0) in
  let b := set_fld 4 0x20 EXT4_EXTENTS_FL b in
  splice 0x28 (node_bytes 60 1 (node_entries device_tree_leaves)) b.
Definition extent_device : bytes :=
  replicate 1024 0 ++ inode_super 0 ++ inode_gd ++ replicate 2048 0 ++
  concat [replicate 256 0; extent_inode; replicate 640 0] ++
  node_bytes 1024 0 (leaf_bytes <$> [MkLeafRec 0 3 100; MkLeafRec 3 1 110]) ++
  node_bytes 1024 0 (leaf_bytes <$> [MkLeafRec 4 32770 200]).
(** What ext2fs_open makes of it. *)
Definition extent_fs : ext2_filsys :=
  MkFilsys (Z.lor lsblks_flags EXT2_FLAG_MASTER_SB_ONLY) (inode_super 0) 1024 1 1 (Some inode_gd) 1 0
    (Some (inode_super 0)) None 0 0 0 None.

Lemma extent_fs_ready : inodes_ready 1024 extent_fs inode_gd.
Proof.
  assert (Hc : ∀ g, 0 ≤ g < f_group_desc_count extent_fs → g = 0) by (simpl; lia).
  split; [|vm_compute; by repeat constructor|done|done|unfold word; simpl; lia|vm_compute; done| |vm_compute; done..| |].
  - split; [done|vm_compute; done..].
  - split; [vm_compute; done|]. exists 7. split; [lia|vm_compute; done].
  - intros g ->%Hc. vm_compute. done.
  - intros g g' ->%Hc ->%Hc Hlt. lia.
Qed.

Lemma extent_device_open :
  run_os (ext2fs_open (H := x86_64) (bs "/dev/sda1") lsblks_flags 0 0) (EXT2_ET_OP_NOT_SUPPORTED, None) extent_device =
  ((0, Some extent_fs), extent_device).
Proof. vm_compute. reflexivity. Qed.

Definition extent_disk (b : Z) : bytes := bytes_at (b * 1024) 1024 extent_device.
Lemma extent_on_disk : on_disk extent_disk 1024 [] 1 device_tree_leaves.
Proof.
  repeat constructor; try (simpl; lia); try set_solver;
    match goal with |- node_rep _ _ ?es (extent_disk ?b) =>
      replace (extent_disk b) with (node_bytes 1024 0 es) by (vm_compute; reflexivity) end;
    (apply node_bytes_rep; [simpl; lia|simpl; lia|vm_compute; congruence|by repeat constructor]).
Qed.

#[local] Existing Instances x86_64 Impl.Vector_ops Impl.Vector_laws.
Lemma lsblks_from_device_witness :
  let blocks := tree_blocks 1 device_tree_leaves in
  blocks = [100; 101; 102; 110; 200; 201] ∧
  ∃ v', @ext_get_inode_datablocks_lib x86_64 _ _ Impl.Vector
          (device_ext2fs (H := x86_64) extent_fs (fun _ _ => false)) _ 8 (bs "/dev/sda1") 3 vec_init (dev_state extent_device) =
        Ret ((0, (v', zlen blocks)), dev_state extent_device) ∧
    vec_rep v' ([] ++ marked blocks).
Proof.
  split; [vm_compute; reflexivity|].
  apply (lsblks_from_device (H := x86_64) (bs := 1024) extent_fs inode_gd (fun _ _ => false) extent_fs_ready
    (V := Impl.Vector) 1 device_tree_leaves 8 (bs "/dev/sda1") 3 Impl.vector_init [] (dev_state extent_device)).
  - done.
  - done.
  - exact extent_device_open.
  - reflexivity.
  - exact I.
  - intros b. reflexivity.
  - reflexivity.
  - split; vm_compute; discriminate.
  - vm_compute. reflexivity.
  - replace (take 60 (drop 0x28 (disk_inode (bs := 1024) extent_fs inode_gd (st_os (dev_state extent_device)) 3)))
      with (node_bytes 60 1 (node_entries device_tree_leaves)) by (vm_compute; reflexivity).
    apply node_bytes_rep; [lia|lia|vm_compute; congruence|by repeat constructor].
  - discriminate.
  - change (on_disk (extent_disk) 1024 [] 1 device_tree_leaves). exact extent_on_disk.
  - intros end_. simpl. lia.
  - apply Impl.rep_init.
  - vm_compute. reflexivity.
Defined.
