(* ===== verification/ExtentGoto.v ===== *)
(** * Finding a block in a tree of extents: ext2fs_extent_goto of extent.c

    The search goes to the leaf that holds a logical block, from any handle of the inode:
    what it finds is what the list of the leaves says. *)
From S2P Require Export ExtentTree.
#[local] Open Scope Z_scope.

(** ** Trees in the order of the logical blocks *)
Definition leaf_len (r : leaf_rec) : Z := e_len (leaf_extent r).
Definition covers (blk : Z) (r : leaf_rec) : Prop := lf_lblk r ≤ blk < lf_lblk r + leaf_len r.

Fixpoint tree_leaves (d : nat) : tree d → list leaf_rec :=
  match d with
  | O => fun t => t
  | S d => fun t => concat ((fun c : idx_rec * tree d => tree_leaves d c.2) <$> t)
  end.

(** The extents of a subtree are disjoint and lie between the key of its entry and the
    next key, in ascending order. *)
Fixpoint leaves_ordered (lo hi : Z) (t : list leaf_rec) : Prop :=
  match t with
  | [] => lo ≤ hi
  | r :: t => lo ≤ lf_lblk r ∧ leaves_ordered (lf_lblk r + leaf_len r) hi t
  end.
Fixpoint index_ordered {A} (ord : Z → Z → A → Prop) (hi : Z) (t : list (idx_rec * A)) : Prop :=
  match t with
  | [] => True
  | c :: t => ix_lblk c.1 < next_lblk t hi ∧ ord (ix_lblk c.1) (next_lblk t hi) c.2 ∧
              index_ordered ord hi t
  end.
Fixpoint ordered (d : nat) (lo hi : Z) : tree d → Prop :=
  match d with
  | O => leaves_ordered lo hi
  | S d => fun t => lo ≤ next_lblk t hi ∧ index_ordered (ordered d) hi t
  end.

(** The turns of the search: at most the entries of one node on each level. *)
Fixpoint goto_turns (d : nat) : tree d → nat :=
  match d with
  | O => fun t => length t
  | S d => fun t => (length t + foldr (fun c n => Nat.max (goto_turns d (snd c)) n) 0 t)%nat
  end.

Lemma leaf_len_bound r : leaf_wf r → 0 ≤ leaf_len r < 2 ^ 16.
Proof.
  intros (_ & Hl & _). unfold leaf_len, leaf_extent, EXT_INIT_MAX_LEN. simpl.
  destruct (Z.ltb_spec 32768 (lf_len r)); lia.
Qed.

Definition within (lo hi : Z) (r : leaf_rec) : Prop := lo ≤ lf_lblk r ∧ lf_lblk r + leaf_len r ≤ hi.

Lemma within_weaken lo hi lo' hi' l :
  lo' ≤ lo → hi ≤ hi' → Forall (within lo hi) l → Forall (within lo' hi') l.
Proof. intros ? ? Hl. eapply Forall_impl; [exact Hl|]. intros r [? ?]. split; lia. Qed.

Lemma leaves_within t : ∀ lo hi, Forall leaf_wf t → leaves_ordered lo hi t →
  lo ≤ hi ∧ Forall (within lo hi) t.
Proof.
  induction t as [|r t IH]; intros lo hi Hwf Hord; [done|].
  apply Forall_cons in Hwf as [Hr Hwf]. destruct Hord as [Hlo Hord].
  pose proof (leaf_len_bound r Hr). destruct (IH _ _ Hwf Hord) as [Hle Hall].
  split; [lia|]. constructor; [split; lia|]. eapply within_weaken; [| |exact Hall]; lia.
Qed.

Lemma tree_within disk size d : ∀ above lo hi (t : tree d), on_disk disk size above d t →
  ordered d lo hi t → lo ≤ hi ∧ Forall (within lo hi) (tree_leaves d t).
Proof.
  induction d as [|d IH]; intros above lo hi t Hwf Hord.
  { by apply leaves_within. }
  destruct Hord as [Hlo Hord]. revert lo Hlo. induction t as [|c t IHt]; intros lo Hlo.
  { by simpl in *. }
  apply Forall_cons in Hwf as [(_ & _ & _ & _ & Hsub) Hwf]. destruct Hord as (Hlt & Hc & Hord).
  destruct (IH _ _ _ _ Hsub Hc) as [_ Hall].
  destruct (IHt Hwf Hord _ (Z.le_refl _)) as [Hle Hrest].
  assert (Hlo' : lo ≤ ix_lblk c.1) by (by destruct c).
  assert (Hnext : lo ≤ next_lblk t hi).
  { eapply Z.le_trans; [exact Hlo'|]. apply Z.lt_le_incl, Hlt. }
  split; [by eapply Z.le_trans|]. cbn [tree_leaves]. rewrite fmap_cons. cbn [concat].
  apply Forall_app. split; (eapply within_weaken; [| |done]); (done || apply Z.le_refl).
Qed.

Lemma next_lblk_app {A} (pre post : list (idx_rec * A)) c hi :
  next_lblk (pre ++ c :: post) hi = next_lblk pre (ix_lblk c.1).
Proof. destruct pre as [|[r x] pre]; [by destruct c|done]. Qed.

Lemma index_ordered_app {A} ord hi (pre post : list (idx_rec * A)) c :
  index_ordered ord hi (pre ++ c :: post) →
  index_ordered ord (ix_lblk c.1) pre ∧ index_ordered ord hi (c :: post).
Proof.
  induction pre as [|c' pre IH]; intros Hord; [done|]. simpl app in Hord.
  destruct Hord as (Hlt & Hc & Hord). rewrite next_lblk_app in Hlt, Hc.
  destruct (IH Hord) as [Hpre Hpost]. done.
Qed.

(** A block is under the last entry whose key is not above it, or the first one. *)
Lemma covering_entry disk size above d (t : list (idx_rec * tree d)) hi (k : nat) c blk r :
  on_disk disk size above (S d) t → index_ordered (ordered d) hi t → t !! k = Some c →
  k = 0%nat ∨ ix_lblk c.1 ≤ blk → (∀ c', t !! S k = Some c' → blk < ix_lblk c'.1) →
  r ∈ tree_leaves (S d) t → covers blk r → r ∈ tree_leaves d c.2.
Proof.
  intros Hwf Hord Hc Hlow Hhigh Hr [Hr1 Hr2].
  pose proof (take_drop_middle t k c Hc) as Ht. set (pre := take k t) in *. set (post := drop (S k) t) in *.
  rewrite <- Ht in Hwf, Hord, Hr. apply index_ordered_app in Hord as [Hpre [_ [_ Hpost]]].
  apply Forall_app in Hwf as [Hwf1 [_ Hwf2]%Forall_cons].
  cbn [tree_leaves] in Hr. rewrite fmap_app, fmap_cons, concat_app in Hr. cbn [concat] in Hr.
  apply elem_of_app in Hr as [Hr|[Hr|Hr]%elem_of_app]; [|done|].
  - destruct Hlow as [->|Hlow]; [by apply elem_of_nil in Hr|].
    destruct (tree_within disk size (S d) above (next_lblk pre (ix_lblk c.1)) (ix_lblk c.1) pre)
      as [_ Hall]; [done|by split|]. rewrite Forall_forall in Hall. destruct (Hall r Hr). lia.
  - destruct post as [|c' post'] eqn:Ep; [by apply elem_of_nil in Hr|].
    assert (Hc' : t !! S k = Some c').
    { rewrite <- (Nat.add_0_r (S k)), <- lookup_drop. fold post. by rewrite Ep. }
    destruct (tree_within disk size (S d) above (ix_lblk c'.1) hi (c' :: post'))
      as [_ Hall]; [done|split; [by destruct c'|done]|]. rewrite Forall_forall in Hall.
    destruct (Hall r Hr). specialize (Hhigh c' Hc'). lia.
Qed.

(** ** The movements of the search *)
Section Search.
  Context `{Machine} {W : Type} `{TreeFs W}.
  Context (disk : Z → bytes) (s : state W) (ino : Z) (inode : ext2_inode) (depth : Z).
  Context (Hbs : 12 ≤ tf_blocksize) (Hmem : ∀ n, mem_ok n = true).
  Context (Himage : tf_image = false) (Hcsum : tf_ignore_csum_errors = true).
  Context (Hread : ∀ b, sys_read_blk64 b (st_os s) = ((0, disk b), st_os s)).
  Notation cursor := (cursor ino inode depth).

(** The movements that are what they say: one step, no retry. *)
Definition plain (op : Z) : Prop :=
  op = EXT2_EXTENT_CURRENT ∨ op = EXT2_EXTENT_NEXT_SIB ∨ op = EXT2_EXTENT_PREV_SIB ∨
  op = EXT2_EXTENT_DOWN ∨ op = EXT2_EXTENT_ROOT.

Lemma get_plain op h p h' p' ix x :
  plain op → get_path h (level h) = Ret p →
  move op op (set_path (level h) p h) p s = Ret ((0, Some ix, h', false), s) →
  get_path h' (level h') = Ret p' → read_extent h' p' ix = Ret x →
  ext2fs_extent_get 1 h op s = Ret ((0, x, h'), s).
Proof.
  intros Hop Hget Hmove Hget' Hx. unfold ext2fs_extent_get. cbn [get_loop].
  unfold bind at 1, lift at 1. rewrite Hget. cbn [obind].
  assert (Hp : set_visit (visit_num p) p = p) by (by destruct p).
  destruct Hop as [->|[->|[->|[->| ->]]]];
    match goal with |- context [choose_op ?o _ _] =>
      change (Z.land o EXT2_EXTENT_MOVE_MASK) with o; change (choose_op o h p) with (inr o : Z + Z, visit_num p)
    end; cbv iota beta zeta; rewrite Hp, (bind_eq _ _ _ _ _ Hmove);
    cbn [Z.eqb negb]; unfold bind at 1, lift at 1; rewrite Hget'; cbn [obind];
    unfold bind at 1, lift at 1; by rewrite Hx.
Qed.

Lemma get_plain_error op h p e ix h' f :
  plain op → get_path h (level h) = Ret p →
  move op op (set_path (level h) p h) p s = Ret ((e, ix, h', f), s) → e ≠ 0 →
  ext2fs_extent_get 1 h op s = Ret ((e, no_extent, h'), s).
Proof.
  intros Hop Hget Hmove He. unfold ext2fs_extent_get. cbn [get_loop].
  unfold bind at 1, lift at 1. rewrite Hget. cbn [obind].
  assert (Hp : set_visit (visit_num p) p = p) by (by destruct p).
  destruct Hop as [->|[->|[->|[->| ->]]]];
    match goal with |- context [choose_op ?o _ _] =>
      change (Z.land o EXT2_EXTENT_MOVE_MASK) with o; change (choose_op o h p) with (inr o : Z + Z, visit_num p)
    end; cbv iota beta zeta; rewrite Hp, (bind_eq _ _ _ _ _ Hmove);
    by rewrite (proj2 (Z.eqb_neq e 0)).
Qed.

Lemma get_current b n m (i : nat) v end_ bk ps st x :
  let h := cursor ps (at_entry b n m i v end_ bk) st in
  read_extent h (at_entry b n m i v end_ bk) (ent i) = Ret x →
  ext2fs_extent_get 1 h EXT2_EXTENT_CURRENT s = Ret ((0, x, h), s).
Proof.
  intros h Hx. eapply get_plain; [by left|apply cursor_get| |apply cursor_get|exact Hx].
  change (level h) with (zlen ps). unfold h. by rewrite cursor_set.
Qed.

Lemma get_next_sib b n m (i : nat) v end_ bk ps st x :
  Z.of_nat (S i) < n →
  read_extent (cursor ps (at_entry b n m (S i) 0 end_ bk) st)
    (at_entry b n m (S i) 0 end_ bk) (ent (S i)) = Ret x →
  ext2fs_extent_get 1 (cursor ps (at_entry b n m i v end_ bk) st) EXT2_EXTENT_NEXT_SIB s
    = Ret ((0, x, cursor ps (at_entry b n m (S i) 0 end_ bk) st), s).
Proof.
  intros Hi Hx. eapply get_plain; [right; by left|apply cursor_get| |apply cursor_get|exact Hx].
  change (move EXT2_EXTENT_NEXT_SIB EXT2_EXTENT_NEXT_SIB ?h ?p) with (ret (W := W) (next_sib h p, false)).
  cbn [level ExtentTree.cursor]. rewrite cursor_set, (next_sib_eq _ _ _ _ _ _ (ent i)) by (simpl; (done || lia)).
  replace (ent i + 12) with (ent (S i)) by (unfold ent; lia). unfold ret, at_entry, move_path. simpl.
  by replace (n - 1 - Z.of_nat i - 1) with (n - 1 - Z.of_nat (S i)) by lia.
Qed.

Lemma get_next_sib_last b n m (i : nat) v end_ bk ps st :
  n = Z.of_nat (S i) →
  ext2fs_extent_get 1 (cursor ps (at_entry b n m i v end_ bk) st) EXT2_EXTENT_NEXT_SIB s
    = Ret ((EXT2_ET_EXTENT_NO_NEXT, no_extent, cursor ps (at_entry b n m i v end_ bk) st), s).
Proof.
  intros ->. eapply get_plain_error; [right; by left|apply cursor_get| |done].
  change (move EXT2_EXTENT_NEXT_SIB EXT2_EXTENT_NEXT_SIB ?h ?p) with (ret (W := W) (next_sib h p, false)).
  cbn [level ExtentTree.cursor]. rewrite cursor_set. unfold next_sib.
  rewrite (proj2 (Z.leb_le _ _)) by (simpl; lia). cbn [level ExtentTree.cursor]. by rewrite cursor_set.
Qed.

(** The [visit_num] of the entry that EXT2_EXTENT_PREV_SIB leads to. *)
Definition prev_visit (ps : list extent_path) (v : Z) : Z := if zlen ps <? depth then 1 else v.

Lemma get_prev_sib b n m (i : nat) v end_ bk ps st x :
  let p := at_entry b n m i (prev_visit ps v) end_ bk in
  Z.of_nat (S i) < n →
  read_extent (cursor ps p st) p (ent i) = Ret x →
  ext2fs_extent_get 1 (cursor ps (at_entry b n m (S i) v end_ bk) st) EXT2_EXTENT_PREV_SIB s
    = Ret ((0, x, cursor ps p st), s).
Proof.
  intros p Hi Hx. eapply get_plain; [right; right; by left|apply cursor_get| |apply cursor_get|exact Hx].
  change (move EXT2_EXTENT_PREV_SIB EXT2_EXTENT_PREV_SIB ?h ?q) with (ret (W := W) (prev_sib h q, false)).
  cbn [level ExtentTree.cursor]. rewrite cursor_set. unfold prev_sib. cbn [curr at_entry entries left].
  rewrite (proj2 (Z.leb_gt _ _)) by lia. cbn [level ExtentTree.cursor]. rewrite cursor_set.
  replace (ent (S i) - 12) with (ent i) by (unfold ent; lia).
  unfold ret, p, at_entry, move_path, prev_visit. simpl.
  by replace (n - 1 - Z.of_nat (S i) + 1) with (n - 1 - Z.of_nat i) by lia.
Qed.

Lemma get_prev_sib_first b n m v end_ bk ps st :
  ext2fs_extent_get 1 (cursor ps (at_entry b n m 0 v end_ bk) st) EXT2_EXTENT_PREV_SIB s
    = Ret ((EXT2_ET_EXTENT_NO_PREV, no_extent, cursor ps (at_entry b n m 0 v end_ bk) st), s).
Proof.
  eapply get_plain_error; [right; right; by left|apply cursor_get| |done].
  change (move EXT2_EXTENT_PREV_SIB EXT2_EXTENT_PREV_SIB ?h ?q) with (ret (W := W) (prev_sib h q, false)).
  cbn [level ExtentTree.cursor]. rewrite cursor_set. unfold prev_sib. cbn [curr at_entry entries left].
  by rewrite (proj2 (Z.leb_le _ _)) by lia.
Qed.

(** *** The search in one node

    The handle of the search: the levels [ps] as they were, the node of the search at
    one of its entries, and whatever is below. *)
Definition under (ps : list extent_path) (b : bytes) (n m end_ bk : Z) (len : nat)
    (h : ext2_extent_handle) : Prop :=
  ∃ l (i : nat) v rest, h = MkHandle ino inode l depth (ps ++ at_entry b n m i v end_ bk :: rest) ∧
    length rest = len ∧ 0 ≤ l ≤ zlen ps + Z.of_nat len.

Lemma under_cursor b n m (i : nat) v end_ bk ps st :
  under ps b n m end_ bk (length st) (cursor ps (at_entry b n m i v end_ bk) st).
Proof. exists (zlen ps), i, v, st. split_and!; (done || lia). Qed.

Context (blk : Z).

(** What the search says of the leaves: the cursor is at the one that covers the block,
    or there is none. *)
Definition goto_result (leaves : list leaf_rec) (e : Z) (h : ext2_extent_handle) : Prop :=
  (e = 0 ∧ ∃ r, r ∈ leaves ∧ covers blk r ∧
     ext2fs_extent_get 1 h EXT2_EXTENT_CURRENT s = Ret ((0, leaf_extent r, h), s)) ∨
  (e = EXT2_ET_EXTENT_NOT_FOUND ∧ ∀ r, r ∈ leaves → ¬ covers blk r).

Lemma leaf_u64 r : leaf_wf r → u64 (lf_lblk r + leaf_len r) = lf_lblk r + leaf_len r.
Proof. intros Hr. pose proof (leaf_len_bound r Hr). destruct Hr as [? _]. rewrite u64_small; lia. Qed.

(** Of the first leaves of a node none covers a block that is after them. *)
Lemma leaves_before t (i : nat) r hi :
  Forall leaf_wf t → leaves_ordered (lf_lblk r + leaf_len r) hi (drop (S i) t) → t !! i = Some r →
  blk < lf_lblk r + leaf_len r → Forall (λ r, ¬ covers blk r) (take i t) → ¬ covers blk r →
  ∀ r', r' ∈ t → ¬ covers blk r'.
Proof.
  intros Hwf Hord Hr Hlt Hbefore Hno r' Hin.
  destruct (leaves_within _ _ _ (Forall_drop _ _ _ Hwf) Hord) as [_ Hafter].
  rewrite <- (take_drop_middle t i r Hr) in Hin. rewrite Forall_forall in Hbefore, Hafter.
  apply elem_of_app in Hin as [Hin|[->|Hin]%elem_of_cons]; [by apply Hbefore|done|].
  intros [Hc _]. destruct (Hafter r' Hin). lia.
Qed.

Section Leaf.
  Context (t : list leaf_rec) (dd : Z) (b : bytes) (m end_ bk : Z) (ps : list extent_path)
    (st : list extent_path) (hi : Z).
  Context (Hd : zlen ps = depth).
  Context (Hb : node_rep (level_size (zlen ps)) dd (leaf_bytes <$> t) b) (Hwf : Forall leaf_wf t).
  Notation here i := (cursor ps (at_entry b (zlen t) m i 0 end_ bk) st).

Lemma leaf_at (i : nat) r : t !! i = Some r →
  read_extent (here i) (at_entry b (zlen t) m i 0 end_ bk) (ent i) = Ret (leaf_extent r).
Proof. intros Hr. by eapply read_leaf. Qed.

Lemma leaf_prev (i : nat) : (i < length t)%nat →
  ∃ e x h, ext2fs_extent_get 1 (here i) EXT2_EXTENT_PREV_SIB s = Ret ((e, x, h), s) ∧
    under ps b (zlen t) m end_ bk (length st) h.
Proof.
  intros Hi. destruct i as [|i].
  { eexists _, _, _. split; [apply get_prev_sib_first|apply under_cursor]. }
  destruct (lookup_lt_is_Some_2 t i) as [r Hr]; [lia|].
  pose proof (get_prev_sib b (zlen t) m i 0 end_ bk ps st (leaf_extent r)) as Hget.
  assert (Hv : prev_visit ps 0 = 0) by (unfold prev_visit; by rewrite Hd, Z.ltb_irrefl).
  rewrite Hv in Hget. eexists _, _, _. split; [apply Hget; [lia|by apply leaf_at]|apply under_cursor].
Qed.

Lemma leaf_goto k : ∀ fuel (i : nat) r, length t = (S i + k)%nat → t !! i = Some r → (k < fuel)%nat →
  leaves_ordered (lf_lblk r + leaf_len r) hi (drop (S i) t) →
  Forall (λ r, ¬ covers blk r) (take i t) →
  ∃ e h, goto_loop fuel 0 blk (leaf_extent r) (here i) s = Ret ((e, h), s) ∧
    goto_result t e h ∧ under ps b (zlen t) m end_ bk (length st) h.
Proof.
  induction k as [|k IH]; intros fuel i r Hlen Hr Hfuel Hord Hbefore;
    (destruct fuel as [|fuel]; [lia|]); cbn [goto_loop];
    pose proof (Forall_lookup_1 _ _ _ _ Hwf Hr) as Hrwf;
    change (max_depth (here i) - level (here i)) with (depth - zlen ps);
    rewrite Hd, Z.sub_diag; change (0 =? 0) with true; cbv iota;
    change (e_lblk (leaf_extent r)) with (lf_lblk r); fold (leaf_len r); rewrite (leaf_u64 r Hrwf).
  all: destruct (Z.leb_spec (lf_lblk r) blk) as [Hlo|Hlo]; cbn [andb].
  all: try (destruct (Z.ltb_spec blk (lf_lblk r + leaf_len r)) as [Hhi|Hhi]; [
    eexists _, _; split; [done|split; [|apply under_cursor]]; left; split; [done|]; exists r;
    split; [by eapply list_elem_of_lookup_2|split; [by split|]]; apply get_current, leaf_at, Hr|]).
  all: try (rewrite (proj2 (Z.ltb_lt blk _)) by done;
    destruct (leaf_prev i) as (e & x & h & Hget & Hunder); [lia|];
    rewrite (bind_eq _ _ _ _ _ Hget); eexists _, _; split; [done|split; [|exact Hunder]];
    right; split; [done|]; pose proof (leaf_len_bound r Hrwf);
    eapply (leaves_before t i r); try done; [lia|intros [? _]; lia]).
  all: rewrite (proj2 (Z.ltb_ge blk _)) by done.
  all: assert (Hbefore' : Forall (λ r, ¬ covers blk r) (take (S i) t))
         by (rewrite (take_S_r _ _ _ Hr); apply Forall_app; split; [done|constructor; [intros [_ ?]; lia|done]]).
  - rewrite (bind_eq _ _ _ _ _ (get_next_sib_last b (zlen t) m i 0 end_ bk ps st ltac:(lia))).
    change (EXT2_ET_EXTENT_NO_NEXT =? EXT2_ET_EXTENT_NO_NEXT) with true. cbv iota.
    eexists _, _. split; [done|split; [|apply under_cursor]]. right. split; [done|].
    rewrite take_ge in Hbefore' by lia. by rewrite Forall_forall in Hbefore'.
  - destruct (lookup_lt_is_Some_2 t (S i)) as [r' Hr']; [lia|].
    rewrite (bind_eq _ _ _ _ _ (get_next_sib b (zlen t) m i 0 end_ bk ps st (leaf_extent r') ltac:(lia)
                                  (leaf_at _ _ Hr'))).
    change (0 =? EXT2_ET_EXTENT_NO_NEXT) with false. change (negb (0 =? 0)) with false. cbv iota.
    rewrite (drop_S _ _ _ Hr') in Hord. destruct Hord as [_ Hord].
    by apply (IH fuel (S i) r'); [lia|done|lia|done..].
Qed.

End Leaf.

(** A node is entered and searched from its first entry. *)
Definition go_down (fuel : nat) (h : ext2_extent_handle) : prog W (Z * ext2_extent_handle) :=
  let! '(e, x, h) := ext2fs_extent_get 1 h EXT2_EXTENT_DOWN in
  if negb (e =? 0) then ret (e, h) else goto_loop fuel 0 blk x h.

Definition subtree_goto (d : nat) : Prop := ∀ (t : tree d) dd b m ps end_ bk st above lo hi fuel x,
  zlen ps + Z.of_nat d = depth → length st = d →
  node_rep (level_size (zlen ps)) dd (node_entries t) b → on_disk disk tf_blocksize above d t →
  node_entries t ≠ [] → above_ok ps above → (ps ≠ [] → bk ∈ above) → ordered d lo hi t →
  (goto_turns d t ≤ fuel)%nat →
  let p := at_entry b (zlen (node_entries t)) m 0 0 end_ bk in
  read_extent (cursor ps p st) p (ent 0) = Ret x →
  ∃ e h, goto_loop fuel 0 blk x (cursor ps p st) s = Ret ((e, h), s) ∧
    goto_result (tree_leaves d t) e h ∧ under ps b (zlen (node_entries t)) m end_ bk d h.

Lemma leaf_subtree_goto : subtree_goto 0.
Proof.
  intros t dd b m ps end_ bk st above lo hi fuel x Hd Hst Hb Hwf Hne _ _ Hord Hfuel p Hx.
  simpl in Hb, Hwf, Hne, Hord, Hfuel. unfold p in *. clear p.
  assert (Hn : zlen (node_entries (d := 0) t) = zlen t) by (simpl; by rewrite length_fmap).
  rewrite Hn in *. destruct t as [|r t]; [done|].
  rewrite (leaf_at (r :: t) dd b m end_ bk ps st) with (r := r) in Hx; [|lia|done..].
  injection Hx as <-. destruct Hord as [_ Hord]. destruct st; [|done].
  eapply (leaf_goto (r :: t) dd); [lia|done|done|reflexivity|done|exact Hfuel|exact Hord|constructor].
Qed.

Section Index.
  Context (d : nat) (IH : subtree_goto d) (t : list (idx_rec * tree d)).
  Context (dd : Z) (b : bytes) (m end_ bk : Z) (ps : list extent_path) (above : list Z) (hi : Z).
  Context (Hd : zlen ps + Z.of_nat (S d) = depth).
  Context (Hb : node_rep (level_size (zlen ps)) dd ((fun c => idx_bytes c.1) <$> t) b).
  Context (Hwf : on_disk disk tf_blocksize above (S d) t).
  Context (Habove : above_ok ps above) (Hbk : ps ≠ [] → bk ∈ above).
  Context (Hord : index_ordered (ordered d) hi t).
  Notation path_at := (at_entry b (zlen t) m).
  Notation below := (foldr (fun c n => Nat.max (goto_turns d (snd c)) n) 0%nat t).

Lemma below_bound (i : nat) c : t !! i = Some c → (goto_turns d c.2 ≤ below)%nat.
Proof.
  clear. revert i. induction t as [|c' t' IHt]; intros [|i] Hc; try done; simpl in *.
  - injection Hc as ->. lia.
  - specialize (IHt i Hc). lia.
Qed.

(** The child of an entry, searched. *)
Lemma entry_goto (i : nat) c v fuel st :
  t !! i = Some c → length st = S d → (below ≤ fuel)%nat →
  ∃ e h, go_down fuel (cursor ps (path_at i v end_ bk) st) s = Ret ((e, h), s) ∧
    goto_result (tree_leaves d c.2) e h ∧ under ps b (zlen t) m end_ bk (S d) h.
Proof.
  intros Hc Hst Hfuel. destruct st as [|np st]; [done|]. injection Hst as Hst.
  pose proof (Forall_lookup_1 _ _ _ _ Hwf Hc) as (Hcwf & _ & Hne & Hrep & Hsub).
  destruct (idx_read _ _ _ _ _ _ Hb Hc Hcwf) as (Hblk & _).
  pose proof (entry_end disk depth d t dd b end_ ps above Hd Hb Hwf i c Hc) as He.
  set (e := next_lblk (drop (S i) t) end_) in *. set (p := path_at i v end_ bk).
  pose proof (fun j q => entry_fresh disk depth d t b m end_ bk ps above Hd Hwf Habove Hbk i v c j q Hc) as Hfresh.
  pose proof (above_deeper depth d t b m end_ bk ps above Hd Habove Hbk i v (ix_blk c.1)) as Habove'.
  assert (Hlen : zlen (ps ++ [p]) = zlen ps + 1) by (rewrite length_app; simpl; lia).
  destruct (down_eq disk s ino inode depth Hbs Hmem Himage Hcsum Hread b (zlen t) m i v end_ bk ps np st
              (ix_blk c.1) e (Z.of_nat d) (node_entries c.2)) as (m' & Hdown); [lia|done..|].
  fold p in Hdown. cbv zeta in Hdown. set (q := at_entry (disk (ix_blk c.1)) _ _ _ _ _ _) in Hdown.
  assert (Hdata : node_rep (level_size (zlen (ps ++ [p]))) (Z.of_nat d) (node_entries c.2) (disk (ix_blk c.1))).
  { unfold level_size. rewrite (proj2 (Z.eqb_neq _ 0)) by lia. done. }
  destruct (subtree_walks disk s ino inode depth Hbs Hmem Himage Hcsum Hread d c.2 (Z.of_nat d)
              (disk (ix_blk c.1)) m' (ps ++ [p]) e (ix_blk c.1) st (ix_blk c.1 :: above))
    as (x & _ & _ & _ & _ & _ & _ & _ & _ & Hx & _); [lia|done|done|done|done|done|by left|].
  pose proof (take_drop_middle t i c Hc) as Ht. rewrite <- Ht in Hord.
  apply index_ordered_app in Hord as [_ (_ & Hco & _)].
  destruct (IH c.2 (Z.of_nat d) (disk (ix_blk c.1)) m' (ps ++ [p]) e (ix_blk c.1) st
              (ix_blk c.1 :: above) _ _ fuel x ltac:(lia) Hst Hdata Hsub Hne Habove' ltac:(by left) Hco
              ltac:(etrans; [by eapply below_bound|done]) (Hx m')) as (r & h & Hrun & Hres & Hunder).
  exists r, h. split_and!; [|done|].
  - assert (Hget : ext2fs_extent_get 1 (cursor ps p (np :: st)) EXT2_EXTENT_DOWN s
                   = Ret ((0, x, cursor (ps ++ [p]) q st), s)); [|by unfold go_down; rewrite (bind_eq _ _ _ _ _ Hget)].
    eapply get_plain; [right; right; right; by left|apply cursor_get| |apply cursor_get|apply Hx].
    change (move EXT2_EXTENT_DOWN EXT2_EXTENT_DOWN ?h ?q) with (down EXT2_EXTENT_DOWN h q).
    change (level (cursor ps p (np :: st))) with (zlen ps). by rewrite cursor_set.
  - destruct Hunder as (l & k & v' & rest & -> & Hrest & Hl).
    exists l, i, v, (at_entry (disk (ix_blk c.1)) (zlen (node_entries c.2)) m' k v' e (ix_blk c.1) :: rest).
    rewrite <- app_assoc. split_and!; [done|by rewrite length_cons, Hrest|lia..].
Qed.

(** The entry the search goes down from. *)
Lemma index_goto k st : ∀ fuel (i : nat) c v x, length t = (S i + k)%nat → t !! i = Some c →
  i = 0%nat ∨ ix_lblk c.1 ≤ blk → (S k + below ≤ fuel)%nat →
  ∃ (j : nat) cj v' fuel', (below ≤ fuel')%nat ∧ t !! j = Some cj ∧
    (j = 0%nat ∨ ix_lblk cj.1 ≤ blk) ∧ (∀ c', t !! S j = Some c' → blk < ix_lblk c'.1) ∧
    goto_loop fuel 0 blk x (cursor ps (path_at i v end_ bk) st) s =
    go_down fuel' (cursor ps (path_at j v' end_ bk) st) s.
Proof.
  assert (Hiwf : Forall (fun c : idx_rec * tree d => idx_wf c.1) t) by (by eapply index_wf).
  induction k as [|k IHk]; intros fuel i c v x Hlen Hc Hlow Hfuel;
    (destruct fuel as [|fuel]; [lia|]); cbn [goto_loop];
    change (max_depth (cursor ps (path_at i v end_ bk) st) - level (cursor ps (path_at i v end_ bk) st))
      with (depth - zlen ps); rewrite (proj2 (Z.eqb_neq (depth - zlen ps) 0)) by lia.
  - exists i, c, v, fuel. split_and!; [lia|done|done| |].
    { intros c' Hc'%lookup_lt_Some. lia. }
    by rewrite (bind_eq _ _ _ _ _ (get_next_sib_last b (zlen t) m i v end_ bk ps st ltac:(lia))).
  - destruct (lookup_lt_is_Some_2 t (S i)) as [c' Hc']; [lia|].
    pose proof (read_index ino inode depth t dd b m (S i) 0 end_ bk ps st c' ltac:(lia) Hb Hiwf Hc') as Hx.
    rewrite (bind_eq _ _ _ _ _ (get_next_sib b (zlen t) m i v end_ bk ps st _ ltac:(lia) Hx)).
    change (0 =? EXT2_ET_EXTENT_NO_NEXT) with false. change (negb (0 =? 0)) with false. cbv iota.
    change (e_lblk (idx_extent c'.1 _ _)) with (ix_lblk c'.1).
    assert (Hnext : ∀ c2, t !! S (S i) = Some c2 → ix_lblk c'.1 < ix_lblk c2.1).
    { intros [r2 sub2] Hc2. pose proof (take_drop_middle t (S i) c' Hc') as Ht. rewrite <- Ht in Hord.
      apply index_ordered_app in Hord as [_ (Hlt & _)]. by rewrite (drop_S _ _ _ Hc2) in Hlt. }
    destruct (Z.eqb_spec blk (ix_lblk c'.1)) as [E|E]; [|destruct (Z.ltb_spec (ix_lblk c'.1) blk)].
    + exists (S i), c', 0, fuel. split_and!; [lia|done|right; lia| |done].
      intros c2 Hc2. specialize (Hnext c2 Hc2). lia.
    + destruct (IHk fuel (S i) c' 0 (idx_extent c'.1 (next_lblk (drop (S (S i)) t) end_) (negb (0 =? 0))))
        as (j & cj & v' & fuel' & Hf & Hj & Hlo & Hhi & Hrun); [lia|done|right; lia|lia|].
      exists j, cj, v', fuel'. split_and!; done.
    + exists i, c, (prev_visit ps 0), fuel. split_and!; [lia|done|done| |].
      { intros c2 Hc2. rewrite Hc' in Hc2. injection Hc2 as <-. lia. }
      pose proof (read_index ino inode depth t dd b m i (prev_visit ps 0) end_ bk ps st c ltac:(lia) Hb Hiwf Hc) as Hp.
      by rewrite (bind_eq _ _ _ _ _ (get_prev_sib b (zlen t) m i 0 end_ bk ps st _ ltac:(lia) Hp)).
Qed.

End Index.

Lemma subtree_gotos d : subtree_goto d.
Proof.
  induction d as [|d IH]; [apply leaf_subtree_goto|].
  intros t dd b m ps end_ bk st above lo hi fuel x Hd Hst Hb Hwf Hne Habove Hbk [_ Hord] Hfuel p _.
  assert (Hn : zlen (node_entries (d := S d) t) = zlen t) by (simpl; by rewrite length_fmap).
  unfold p. rewrite Hn. destruct t as [|c t]; [done|].
  destruct (index_goto d (c :: t) dd b m end_ bk ps above hi Hd Hb Hwf Hord (length t) st fuel 0 c 0 x
              eq_refl eq_refl (or_introl eq_refl)) as (j & cj & v & fuel' & Hf & Hj & Hlo & Hhi & Hrun).
  { exact Hfuel. }
  destruct (entry_goto d IH (c :: t) dd b m end_ bk ps above hi Hd Hb Hwf Habove Hbk Hord j cj v fuel' st
              Hj Hst Hf) as (e & h & Hdown & Hres & Hunder).
  exists e, h. split_and!; [exact (eq_trans Hrun Hdown)| |exact Hunder].
  assert (Hcover : ∀ r, r ∈ tree_leaves (S d) (c :: t) → covers blk r → r ∈ tree_leaves d cj.2).
  { intros r. by eapply (covering_entry disk). }
  assert (Hsub : ∀ r, r ∈ tree_leaves d cj.2 → r ∈ tree_leaves (S d) (c :: t)).
  { intros r Hr%list_elem_of_In. cbn [tree_leaves]. apply list_elem_of_In, in_concat.
    exists (tree_leaves d cj.2). split; [|done]. apply list_elem_of_In, list_elem_of_fmap.
    exists cj. split; [done|by eapply list_elem_of_lookup_2]. }
  destruct Hres as [(-> & r & Hr & Hc & Hget)|[-> Hno]]; [left|right]; (split; [done|]).
  - exists r. auto.
  - intros r Hr Hc. by apply (Hno r); [apply Hcover|].
Qed.

(** *** From any handle of the inode *)

(** A handle of the inode, at whatever level and entry earlier calls have left it. *)
Definition handle_of (d : nat) (b : bytes) (n m end_ : Z) (h : ext2_extent_handle) : Prop :=
  ∃ l p st, h = MkHandle ino inode l depth (p :: st) ∧ length st = d ∧ 0 ≤ l ≤ Z.of_nat d ∧
    buf p = Some b ∧ entries p = n ∧ max_entries p = m ∧ end_blk p = end_ ∧ ExtentTree.blk p = 0.

(** EXT2_EXTENT_ROOT takes the first entry of the root, wherever the handle was. *)
Lemma root_step d b n m end_ h :
  handle_of d b n m end_ h →
  ∃ q p st, get_path h (level h) = Ret q ∧ length st = d ∧
    buf p = Some b ∧ entries p = n ∧ max_entries p = m ∧ end_blk p = end_ ∧ ExtentTree.blk p = 0 ∧
    move EXT2_EXTENT_ROOT EXT2_EXTENT_ROOT (set_path (level h) q h) q s
      = Ret (first_sib (cursor [] p st) p, false, s).
Proof.
  intros (l & p & st & -> & Hst & Hl & Hb & Hn & Hm & He & Hk).
  destruct (lookup_lt_is_Some_2 (p :: st) (Z.to_nat l)) as [q Hq]; [simpl; lia|].
  exists q, p, st. unfold get_path. cbn [path level]. rewrite Hq. split_and!; try done.
  assert (Hset : set_path l q (MkHandle ino inode l depth (p :: st)) = MkHandle ino inode l depth (p :: st))
    by (unfold set_path; cbn [eh_ino eh_inode level max_depth path]; by rewrite (list_insert_id _ _ _ Hq)).
  rewrite Hset. reflexivity.
Qed.

Lemma get_root_any d b n m end_ h x :
  handle_of d b n m end_ h → 0 < n →
  (∀ st, read_extent (cursor [] (at_entry b n m 0 0 end_ 0) st) (at_entry b n m 0 0 end_ 0) (ent 0) = Ret x) →
  ∃ st, length st = d ∧
    ext2fs_extent_get 1 h EXT2_EXTENT_ROOT s = Ret ((0, x, cursor [] (at_entry b n m 0 0 end_ 0) st), s).
Proof.
  intros Hh Hn Hx. destruct (root_step d b n m end_ h Hh)
    as (q & p & st & Hget & Hst & Hb & He & Hm & Hend & Hk & Hmove).
  exists st. split; [done|]. eapply get_plain; [do 4 right; done|exact Hget| |apply cursor_get|apply Hx].
  rewrite Hmove. destruct p as [pb pn pm pl pv pe pk pc]; simpl in Hb, He, Hm, Hend, Hk; subst.
  unfold first_sib, next_sib. cbn [left move_path curr]. rewrite (proj2 (Z.leb_gt _ _)) by done.
  unfold at_entry. change (n - 1 - Z.of_nat 0) with (n - 1 - 0). by rewrite Z.sub_0_r.
Qed.

Lemma get_root_empty d b m end_ h :
  handle_of d b 0 m end_ h →
  ∃ h', ext2fs_extent_get 1 h EXT2_EXTENT_ROOT s = Ret ((EXT2_ET_EXTENT_NO_NEXT, no_extent, h'), s) ∧
    handle_of d b 0 m end_ h'.
Proof.
  intros Hh. destruct (root_step d b 0 m end_ h Hh)
    as (q & p & st & Hget & Hst & Hb & He & Hm & Hend & Hk & Hmove).
  eexists. split.
  - eapply get_plain_error; [do 4 right; done|exact Hget| |done].
    rewrite Hmove. unfold first_sib, next_sib. cbn [left move_path]. by rewrite He.
  - exists 0, (move_path 0 None (visit_num p) p), st.
    split_and!; (done || lia || (rewrite ?He; unfold set_path; reflexivity)).
Qed.

Lemma under_handle d b n m end_ h : under [] b n m end_ 0 d h → handle_of d b n m end_ h.
Proof.
  intros (l & i & v & rest & -> & Hrest & Hl). eexists l, _, rest. simpl in Hl.
  split_and!; (reflexivity || done || lia).
Qed.

End Search.

(** C18. The search of a logical block is right on every tree in the format of ext4 whose
    extents are disjoint and in order: from any handle of the inode ext2fs_extent_goto
    returns, after at most as many turns as the nodes on the way have entries, with 0 and
    the cursor at the extent that covers the block, or with EXT2_ET_EXTENT_NOT_FOUND and
    no extent of the file covers it; the handle can be used again. *)
Theorem extent_goto_finds `{Machine} {W} `{TreeFs W} disk d (t : tree d) ino inode b m end_ lo hi
    fuel blk h (s : state W) :
  (∀ n, mem_ok n = true) → 12 ≤ tf_blocksize → tf_image = false → tf_ignore_csum_errors = true →
  (∀ b, sys_read_blk64 b (st_os s) = ((0, disk b), st_os s)) →
  node_rep 60 (Z.of_nat d) (node_entries t) b → on_disk disk tf_blocksize [] d t →
  ordered d lo hi t → (goto_turns d t ≤ fuel)%nat →
  handle_of ino inode (Z.of_nat d) d b (zlen (node_entries t)) m end_ h →
  ∃ e h', ext2fs_extent_goto fuel h blk s = Ret ((e, h'), s) ∧
    handle_of ino inode (Z.of_nat d) d b (zlen (node_entries t)) m end_ h' ∧
    goto_result s blk (tree_leaves d t) e h'.
Proof.
  intros Hmem Hbs Himage Hcsum Hread Hb Hwf Hord Hfuel Hh. unfold ext2fs_extent_goto, ext2fs_extent_goto2.
  destruct (decide (node_entries t = [])) as [Hempty|Hne].
  - rewrite Hempty in *. destruct (get_root_empty s ino inode (Z.of_nat d) d b m end_ h Hh) as (h' & Hget & Hh').
    exists EXT2_ET_EXTENT_NOT_FOUND, h'. rewrite (bind_eq _ _ _ _ _ Hget). split_and!; [done|done|].
    right. split; [done|]. destruct d; simpl in *; apply fmap_nil_inv in Hempty as ->; intros r Hr;
      by apply elem_of_nil in Hr.
  - destruct (subtree_walks disk s ino inode (Z.of_nat d) Hbs Hmem Himage Hcsum Hread d t (Z.of_nat d) b m [] end_ 0
                (replicate d no_path) [])
      as (x & _ & _ & _ & _ & _ & _ & _ & _ & Hx & _);
      [simpl; lia|by rewrite length_replicate|done..|intros j p Hj; simpl in Hj; lia|done|].
    destruct (get_root_any s ino inode (Z.of_nat d) d b _ m end_ h x Hh) as (st & Hst & Hget);
      [destruct (node_entries t); [done|simpl; lia]|intros st; exact (Hx m)|].
    destruct (subtree_gotos disk s ino inode (Z.of_nat d) Hbs Hmem Himage Hcsum Hread blk d t (Z.of_nat d) b m []
                end_ 0 st [] lo hi fuel x) as (e & h' & Hrun & Hres & Hunder);
      [simpl; lia|done..|intros j p Hj; simpl in Hj; lia|done|done|done|exact (Hx m)|].
    exists e, h'. rewrite (bind_eq _ _ _ _ _ Hget). cbn [Z.eqb negb].
    change (max_depth _ <? 0) with (Z.of_nat d <? 0). rewrite (proj2 (Z.ltb_ge _ _)) by lia.
    split_and!; [exact Hrun|by apply under_handle|exact Hres].
Qed.

(** ** Searches in the tree of two leaves *)
#[local] Existing Instances x86_64 sample_treefs.

Example goto_block_5 :
  match ext2fs_extent_goto 4 tree_handle 5 tree_fs with
  | Ret ((0, h), s) =>
      match ext2fs_extent_get 1 h EXT2_EXTENT_CURRENT s with
      | Ret ((0, x, _), _) => Some x
      | _ => None
      end
  | _ => None
  end = Some (leaf_extent (MkLeafRec 4 32770 200)).
Proof. vm_compute. reflexivity. Qed.

Lemma extent_goto_finds_witness :
  ∃ e h', ext2fs_extent_goto 4 tree_handle 6 tree_fs = Ret ((e, h'), tree_fs) ∧
    handle_of 14 tree_inode 1 1 (node_bytes 60 1 (node_entries two_leaves)) 2 4 96 h' ∧
    goto_result tree_fs 6 (tree_leaves 1 two_leaves) e h'.
Proof.
  apply (extent_goto_finds two_leaves_disk 1 two_leaves 14 tree_inode
           (node_bytes 60 1 (node_entries two_leaves)) 4 96 0 6 4 6 tree_handle tree_fs).
  - done.
  - done.
  - done.
  - done.
  - done.
  - apply node_bytes_rep; [lia|lia|vm_compute; congruence|by repeat constructor].
  - repeat constructor; try (simpl; lia); try set_solver;
      (apply node_bytes_rep; [simpl; lia|simpl; lia|vm_compute; congruence|by repeat constructor]).
  - vm_compute. repeat split; congruence.
  - simpl. lia.
  - exists 0, (MkPath (Some (node_bytes 60 1 (node_entries two_leaves))) 2 4 2 1 96 0 None), [no_path].
    split_and!; (lia || vm_compute; reflexivity).
Defined.
