(* ===== verification/Volumes.v ===== *)
(** * Where a volume starts on its device: the LVM and partition readers of blk.c

    What the readers of pvs, of pvdisplay and of the attributes of a partition
    (in Extents.v) answer on well-formed input. *)
From S2P Require Export Extents.
#[local] Open Scope Z_scope.

(** [line_token line t]: the token [t] is the line without the spaces at its ends. *)
Definition line_token (line t : bytes) : Prop :=
  line_wf 512 line ∧ ∃ k m, line = replicate k 32 ++ t ++ replicate m 32 ∧
    is_cstr t ∧ head t ≠ Some 32 ∧ last t ≠ Some 32 ∧ t ≠ [].

Lemma line_token_trim line t : line_token line t → trimch (chop_nl (line ++ [10])) 32 = t.
Proof.
  intros [Hl (k & m & -> & Hs & Hh & Ht & Hne)]. rewrite chop_nl_line by (by eapply line_wf_free).
  apply trimch_decomposed; [lia| | |].
  - repeat apply Forall_app_2; [by apply Forall_replicate|done|by apply Forall_replicate].
  - destruct t; [done|]. simpl in Hh. congruence.
  - destruct (last t) eqn:E; [congruence|done].
Qed.

(** ** pvs: the offset of the first extent *)
Lemma pvs_lines_spec line1 line2 n rest pe :
  line_token line1 (bs "1st PE") → 0 ≤ n < 2 ^ 63 →
  line_token line2 (udec n ++ bs "S") →
  pvs_lines ((line1 ++ [10]) :: (line2 ++ [10]) :: rest) 0 0 pe = (2, n).
Proof.
  intros H1 Hn H2. cbn [pvs_lines].
  rewrite (line_token_trim _ _ H1), (line_token_trim _ _ H2).
  change (0 + 1 =? 1) with true. change (strcmp_eq (bs "1st PE") (bs "1st PE")) with true.
  cbn [andb negb]. change (0 + 1 =? 2) with false. change (0 + 1 + 1 =? 1) with false.
  cbn [andb]. change (0 + 1 + 1 =? 2) with true. cbv beta iota.
  rewrite strtoll_udec by (done || lia). by rewrite u64_small by lia.
Qed.

(** ** pvdisplay: the segments of a physical volume

    A segment is a line with its extents, a line that names the logical volume or
    says that the segment is free, and lines of no interest. *)
Record pv_seg : Type := MkSeg {
  seg_from : Z;
  seg_to : Z;
  seg_lv : option bytes;
  seg_rest : list bytes;
}.

Definition plain_token (t : bytes) : Prop :=
  strncmp_eq t (bs "PE Size ") 8 = false ∧ strncmp_eq t (bs "Physical extent ") 16 = false.

Definition free_token (t : bytes) : Prop :=
  plain_token t ∧ strncmp_eq t (bs "Logical volume" ++ [9]) 15 = false.

Definition seg_tokens (g : pv_seg) : list bytes :=
  (bs "Physical extent " ++ udec (seg_from g) ++ bs " to " ++ udec (seg_to g) ++ bs ":") ::
  match seg_lv g with
  | Some lv => bs "Logical volume" ++ [9] ++ lv
  | None => bs "FREE"
  end :: seg_rest g.

Definition seg_wf (g : pv_seg) : Prop :=
  0 ≤ seg_from g < 2 ^ 63 ∧ 0 ≤ seg_to g < 2 ^ 63 ∧ Forall plain_token (seg_rest g) ∧
  match seg_lv g with
  | Some lv => is_cstr lv ∧ head lv ≠ Some 32 ∧ last lv ≠ Some 32 ∧ lv ≠ []
  | None => True
  end.

Lemma trimch_trimmed t :
  is_cstr t ∧ head t ≠ Some 32 ∧ last t ≠ Some 32 ∧ t ≠ [] → trimch t 32 = t.
Proof. intros. apply (trimch_spaces 0); tauto. Qed.

Section Lvm.
  Context `{Machine} {W : Type} `{OS W} `{!StaticOS W}.

(** What realpath answers. *)
Definition resolves (w : W) (lv : bytes) : option bytes := fst (sys_realpath lv w).

Definition seg_is (w : W) (volume : bytes) (g : pv_seg) : Prop :=
  ∃ lv, seg_lv g = Some lv ∧ resolves w lv = Some volume.
#[export] Instance seg_is_dec w volume g : Decision (seg_is w volume g).
Proof.
  destruct (seg_lv g) as [lv|] eqn:E; [|right; intros (? & ? & ?); congruence].
  destruct (decide (resolves w lv = Some volume)); [left; by exists lv|].
  right. intros (? & ? & ?). congruence.
Defined.

(** The lines of the whole report, as tokens. *)
Definition bump (n : Z) (st : lvm_state) : lvm_state :=
  MkLvm (lv_matched st) (lv_nLine st + n) (lv_nLine_PE st) (lv_szFrom st) (lv_szTo st)
        (lv_pe_size st).

Lemma pv_skip line t lines volume st (s : state W) :
  line_token line t → plain_token t →
  lv_nLine st ≠ lv_nLine_PE st ∨ strncmp_eq t (bs "Logical volume" ++ [9]) 15 = false →
  pvdisplay_lines ((line ++ [10]) :: lines) volume st s =
  pvdisplay_lines lines volume (bump 1 st) s.
Proof.
  intros Hl [Hpe Hphys] Hlv. cbn [pvdisplay_lines].
  rewrite (line_token_trim _ _ Hl), Hpe, Hphys, bind_ret_l.
  replace (_ && _) with false; [done|]. symmetry. apply andb_false_iff.
  destruct Hlv as [Hne|Heq]; [left|by right]. apply Z.eqb_neq. lia.
Qed.

Lemma pv_skips lines ts rest volume st (s : state W) :
  Forall2 line_token lines ts → Forall plain_token ts →
  lv_nLine_PE st < lv_nLine st ∨
    Forall (fun t => strncmp_eq t (bs "Logical volume" ++ [9]) 15 = false) ts →
  pvdisplay_lines (((fun l => l ++ [10]) <$> lines) ++ rest) volume st s =
  pvdisplay_lines rest volume (bump (zlen ts) st) s.
Proof.
  intros Hts Hplain. revert st.
  induction Hts as [|line t lines ts Hl _ IH]; intros st Hlv.
  { unfold bump. simpl. rewrite Z.add_0_r. by destruct st. }
  apply Forall_cons in Hplain as [Ht Hplain]. rewrite fmap_cons. simpl app.
  rewrite (pv_skip _ t) 
    by first [done|destruct Hlv as [?|Hlv]; [left; lia|right; by apply Forall_inv in Hlv]].
  rewrite IH; [|done|].
  - unfold bump. cbn [lv_matched lv_nLine lv_nLine_PE lv_szFrom lv_szTo lv_pe_size length].
    do 2 f_equal. lia.
  - destruct Hlv as [?|Hlv]; [left; simpl; lia|right; by apply Forall_inv_tail in Hlv].
Qed.

(** The unit printed after the size of an extent, with a fraction or not. *)
Definition size_suffix (sfx : bytes) : Prop :=
  is_cstr sfx ∧ match sfx with [] => False | c :: _ => isdigit c = false end ∧
  last sfx ≠ Some 32.

Lemma pv_size line k n sfx lines volume st (s : state W) :
  line_token line (bs "PE Size " ++ replicate k 32 ++ udec n ++ sfx) → 0 ≤ n < 2 ^ 63 →
  size_suffix sfx →
  lv_nLine_PE st < lv_nLine st →
  pvdisplay_lines ((line ++ [10]) :: lines) volume st s =
  pvdisplay_lines lines volume
    (MkLvm (lv_matched st + 1) (lv_nLine st + 1) (lv_nLine_PE st) (lv_szFrom st) (lv_szTo st) n) s.
Proof.
  intros Hl Hn (Hs1 & Hs2 & Hs3) Hlt. cbn [pvdisplay_lines]. rewrite (line_token_trim _ _ Hl).
  change (strncmp_eq (bs "PE Size " ++ ?r) (bs "PE Size ") 8) with true. cbv beta iota zeta.
  change (strncmp_eq (bs "PE Size " ++ ?r) (bs "Physical extent ") 16) with false.
  cbv beta iota zeta. rewrite bind_ret_l. cbv beta iota.
  change (drop 8 (bs "PE Size " ++ ?r)) with r.
  rewrite trimch_spaces; cycle 1.
  { apply Forall_app. split; [by apply udec_cstr; lia|done]. }
  { destruct (udec_head n ltac:(lia)) as (c & d & -> & Hc%isdigit_spec). simpl. intros [= ->]. lia. }
  { rewrite last_app. destruct (last sfx) eqn:E; [done|]. by apply last_None in E as ->. }
  { destruct (udec_head n ltac:(lia)) as (c & d & -> & _). done. }
  rewrite strtoll_udec by first [done|lia|by destruct sfx]. rewrite u64_small by lia.
  replace (_ && _) with false; [done|]. symmetry. apply andb_false_iff. left.
  apply Z.eqb_neq. lia.
Qed.

Lemma pv_extent line a b lines volume st (s : state W) :
  line_token line (bs "Physical extent " ++ udec a ++ bs " to " ++ udec b ++ bs ":") →
  0 ≤ a < 2 ^ 63 → 0 ≤ b < 2 ^ 63 →
  pvdisplay_lines ((line ++ [10]) :: lines) volume st s =
  pvdisplay_lines lines volume
    (MkLvm (lv_matched st) (lv_nLine st + 1) (lv_nLine st + 1) (udec a) (udec b)
           (lv_pe_size st)) s.
Proof.
  intros Hl Ha Hb. cbn [pvdisplay_lines]. rewrite (line_token_trim _ _ Hl).
  change (strncmp_eq (bs "Physical extent " ++ ?r) (bs "PE Size ") 8) with false.
  change (strncmp_eq (bs "Physical extent " ++ ?r) (bs "Physical extent ") 16) with true.
  cbv beta iota zeta. change (drop 16 (bs "Physical extent " ++ ?r)) with r.
  assert (Htrim : trimch (udec a ++ bs " to " ++ udec b ++ bs ":") 32 =
                  udec a ++ bs " to " ++ udec b ++ bs ":").
  { apply (trimch_spaces 0).
    - repeat apply Forall_app_2; try (apply udec_cstr; lia);
        apply (bool_decide_eq_true_1 _); vm_compute; reflexivity.
    - destruct (udec_head a ltac:(lia)) as (c & d & -> & Hc%isdigit_spec). simpl.
      intros [= ->]. lia.
    - rewrite !app_assoc. change (bs ":") with [58]. by rewrite last_snoc.
    - by destruct (udec a). }
  rewrite !Htrim. rewrite sscanf2_two; [|done|done|done|done|].
  2:{ destruct (udec_head b ltac:(lia)) as (c & d & -> & Hc).
      apply isdigit_spec in Hc.
      assert (c ∈ [48; 49; 50; 51; 52; 53; 54; 55; 56; 57]) as Hin by (rewrite !elem_of_cons; lia).
      repeat (apply elem_of_cons in Hin as [->|Hin]; [reflexivity|]). by apply elem_of_nil in Hin. }
  unfold lift, bind. cbn [obind]. unfold ret. cbn [obind].
  rewrite (proj2 (Z.eqb_neq _ _)) by lia. done.
Qed.

(** A segment that is not the volume is passed over, with the state it leaves. *)
Lemma pv_segment_skip g lines rest volume st (s : state W) :
  Forall2 line_token lines (seg_tokens g) → seg_wf g →
  (∀ lv path, resolves (st_os s) lv = Some path → zlen path < 256) →
  ¬ seg_is (st_os s) volume g →
  ∃ st', pvdisplay_lines (((fun l => l ++ [10]) <$> lines) ++ rest) volume st s =
         pvdisplay_lines rest volume st' s ∧
    lv_matched st' = lv_matched st ∧ lv_pe_size st' = lv_pe_size st ∧
    lv_nLine_PE st' < lv_nLine st'.
Proof.
  intros Hlines (Ha & Hb & Hrest & Hlv) Hlen Hno. unfold seg_tokens in Hlines.
  apply Forall2_cons_inv_r in Hlines as (line1 & lines1 & H1 & Hlines1 & ->).
  apply Forall2_cons_inv_r in Hlines1 as (line2 & lines2 & H2 & Hlines2 & ->).
  rewrite !fmap_cons. simpl app. rewrite (pv_extent _ _ _ _ _ _ _ H1 Ha Hb).
  set (st1 := MkLvm _ _ _ _ _ _).
  assert (Hsecond : ∀ lines, pvdisplay_lines ((line2 ++ [10]) :: lines) volume st1 s =
                             pvdisplay_lines lines volume (bump 1 st1) s).
  { intros lines. destruct (seg_lv g) as [lv|] eqn:Elv.
    - cbn [pvdisplay_lines]. rewrite (line_token_trim _ _ H2).
      change (strncmp_eq (bs "Logical volume" ++ ?r) (bs "PE Size ") 8) with false.
      change (strncmp_eq (bs "Logical volume" ++ ?r) (bs "Physical extent ") 16) with false.
      cbv beta iota zeta.
      rewrite bind_ret_l.
      change (strncmp_eq (bs "Logical volume" ++ [9] ++ ?r) (bs "Logical volume" ++ [9]) 15)
        with true.
      change (drop 15 (bs "Logical volume" ++ [9] ++ ?r)) with r.
      unfold st1. cbn [lv_nLine lv_nLine_PE lv_matched lv_szFrom lv_szTo lv_pe_size].
      rewrite Z.eqb_refl. cbn [andb].
      rewrite (trimch_trimmed lv) by tauto.
      unfold realpath, sys, bind at 1. specialize (Hlen lv). unfold seg_is, resolves in *.
      destruct (sys_realpath lv (st_os s)) as [r w'] eqn:Er.
      pose proof (static_realpath lv (st_os s)) as Hw. rewrite Er in Hw. simpl in Hw. subst w'.
      assert (Hs : MkState (st_heap s) (st_os s) (st_log s) = s) by (by destruct s).
      rewrite Hs. cbn [obind]. destruct r as [path|]; [|done]. simpl in Hlen.
      specialize (Hlen path eq_refl). unfold sprintf. rewrite (proj2 (Z.ltb_lt _ _)) by lia.
      unfold bind at 1, lift. cbn [obind]. unfold strcmp_eq.
      rewrite bool_decide_false; [done|]. intros ->. apply Hno. exists lv. by rewrite Er.
    - apply (pv_skip _ _ _ _ _ _ H2); [done|by right]. }
  rewrite Hsecond. rewrite (pv_skips _ _ _ _ _ _ Hlines2 Hrest) by (left; simpl; lia).
  eexists. split; [done|]. simpl. split_and!; [done..|lia].
Qed.

(** The segment of the volume ends the loop. *)
Lemma pv_segment_found g lines rest volume st (s : state W) :
  Forall2 line_token lines (seg_tokens g) → seg_wf g → zlen volume < 256 →
  seg_is (st_os s) volume g →
  ∃ st', pvdisplay_lines (((fun l => l ++ [10]) <$> lines) ++ rest) volume st s =
         Ret ((st', Some (seg_from g, seg_to g)), s) ∧
    lv_matched st' = lv_matched st + 1 ∧ lv_pe_size st' = lv_pe_size st.
Proof.
  intros Hlines (Ha & Hb & Hrest & Hlv) Hlen (lv & Elv & Hres). unfold seg_tokens in Hlines.
  apply Forall2_cons_inv_r in Hlines as (line1 & lines1 & H1 & Hlines1 & ->).
  apply Forall2_cons_inv_r in Hlines1 as (line2 & lines2 & H2 & Hlines2 & ->).
  rewrite Elv in *.
  rewrite !fmap_cons. simpl app. rewrite (pv_extent _ _ _ _ _ _ _ H1 Ha Hb).
  cbn [pvdisplay_lines]. rewrite (line_token_trim _ _ H2).
  change (strncmp_eq (bs "Logical volume" ++ ?r) (bs "PE Size ") 8) with false.
  change (strncmp_eq (bs "Logical volume" ++ ?r) (bs "Physical extent ") 16) with false.
  cbv beta iota zeta. rewrite bind_ret_l.
  change (strncmp_eq (bs "Logical volume" ++ [9] ++ ?r) (bs "Logical volume" ++ [9]) 15)
    with true.
  change (drop 15 (bs "Logical volume" ++ [9] ++ ?r)) with r.
  cbn [lv_nLine lv_nLine_PE lv_matched lv_szFrom lv_szTo lv_pe_size].
  rewrite Z.eqb_refl. cbn [andb]. rewrite (trimch_trimmed lv) by tauto.
  unfold realpath, sys, bind at 1. unfold resolves in Hres.
  destruct (sys_realpath lv (st_os s)) as [r w'] eqn:Er.
  pose proof (static_realpath lv (st_os s)) as Hw. rewrite Er in Hw. simpl in Hw, Hres. subst.
  assert (Hs : MkState (st_heap s) (st_os s) (st_log s) = s) by (by destruct s).
  rewrite Hs. cbn [obind]. unfold sprintf. rewrite (proj2 (Z.ltb_lt _ _)) by lia.
  unfold bind at 1, lift. cbn [obind]. unfold strcmp_eq.
  rewrite bool_decide_true by done. unfold ret. eexists. split.
  - rewrite !strtoll_udec_nil, !u64_small by lia. done.
  - done.
Qed.

(** The report up to the volume. *)
Lemma pv_segments segs g after lines volume st (s : state W) :
  Forall2 line_token lines (concat (seg_tokens <$> segs ++ g :: after)) →
  Forall seg_wf segs → seg_wf g →
  Forall (fun g => ¬ seg_is (st_os s) volume g) segs → seg_is (st_os s) volume g →
  (∀ lv path, resolves (st_os s) lv = Some path → zlen path < 256) →
  ∃ st', pvdisplay_lines ((fun l => l ++ [10]) <$> lines) volume st s =
         Ret ((st', Some (seg_from g, seg_to g)), s) ∧
    lv_matched st' = lv_matched st + 1 ∧ lv_pe_size st' = lv_pe_size st.
Proof.
  intros Hlines Hsegs Hg Hno Hyes Hlen. revert lines st Hlines.
  induction Hsegs as [|g0 segs Hg0 _ IH]; intros lines st Hlines;
    rewrite ?fmap_cons in Hlines; cbn [app concat fmap list_fmap] in Hlines;
    apply Forall2_app_inv_r in Hlines as (l1 & l2 & H1 & H2 & ->); rewrite fmap_app.
  - destruct Hyes as (lv & Elv & Hres). specialize (Hlen _ _ Hres) as Hvol.
    apply pv_segment_found; [done|done|done|by exists lv].
  - apply Forall_cons in Hno as [Hn0 Hno].
    destruct (pv_segment_skip g0 l1 ((fun l => l ++ [10]) <$> l2) volume st s)
      as (st1 & -> & Hm & Hp & _); [done..|].
    destruct (IH Hno l2 st1 H2) as (st' & -> & Hm' & Hp').
    exists st'. split_and!; [done|lia|congruence].
Qed.

(** A report of pvdisplay about [volume]: lines of no interest, the size [n] of an
    extent, and segments of which [g] is the first that holds the volume. *)
Inductive pv_report (w : W) (volume : bytes) (lines : list bytes) (n : Z) (g : pv_seg) : Prop :=
  | pv_report_intro hdr mid k sfx segs after :
      Forall2 line_token lines
        (hdr ++ (bs "PE Size " ++ replicate k 32 ++ udec n ++ sfx) :: mid ++
         concat (seg_tokens <$> segs ++ g :: after)) →
      Forall free_token hdr → Forall free_token mid → 0 ≤ n < 2 ^ 63 → size_suffix sfx →
      Forall seg_wf segs → seg_wf g →
      Forall (fun g => ¬ seg_is w volume g) segs → seg_is w volume g →
      (∀ lv path, resolves w lv = Some path → zlen path < 256) →
      pv_report w volume lines n g.

Lemma pv_report_run (dev volume cmd_app : bytes) (pe : Z * Z * Z) (lines : list bytes) (n : Z)
    (g : pv_seg) (status : Z) (s s1 : state W) (w' : W) :
  find_command (bs "pvdisplay") 255 s = Ret (Some cmd_app, s1) →
  zlen (cmd_app ++ bs " -m --units s " ++ dev) < 512 →
  sys_popen (cmd_app ++ bs " -m --units s " ++ dev) (st_os s1) = (Some (unlines lines, status), w') →
  pv_report w' volume lines n g →
  lvm_parse_volume_range dev volume pe s =
    Ret ((0, (seg_from g, seg_to g, n)), MkState (st_heap s1) w' (st_log s1)).
Proof.
  intros Hcmd Hfit Hpopen [hdr mid k sfx segs after Hlines Hhdr Hmid Hn Hsfx Hsegs Hg Hno Hyes Hlen].
  destruct pe as [[pe1 pe2] pe3]. unfold lvm_parse_volume_range.
  rewrite (bind_eq _ _ _ _ _ Hcmd). unfold sprintf. rewrite (proj2 (Z.ltb_lt _ _)) by done.
  unfold bind at 1, lift. cbn [obind]. unfold popen, sys, bind at 1. rewrite Hpopen. cbn [obind].
  assert (Hplain : ∀ l, Forall free_token l → Forall plain_token l ∧
            Forall (fun t => strncmp_eq t (bs "Logical volume" ++ [9]) 15 = false) l).
  { intros l Hl. split; (eapply Forall_impl; [exact Hl|]); by intros ? [? ?]. }
  rewrite fgets_all_lines; cycle 1.
  { clear -Hlines. induction Hlines as [|line t lines ts [Hl _] _ IH]; by constructor. }
  apply Forall2_app_inv_r in Hlines as (l1 & l2 & H1 & H2 & ->).
  apply Forall2_cons_inv_r in H2 as (line & l3 & Hsize & H3 & ->).
  apply Forall2_app_inv_r in H3 as (l4 & l5 & H4 & H5 & ->).
  set (s2 := MkState _ _ _). set (st0 := MkLvm 0 0 (-1) [] [] pe3).
  rewrite fmap_app, fmap_cons, fmap_app.
  destruct (Hplain _ Hhdr) as [Hh1 Hh2]. destruct (Hplain _ Hmid) as [Hm1 Hm2].
  unfold bind at 1. rewrite (pv_skips l1 hdr _ volume st0 s2) by (done || by right).
  rewrite (pv_size _ k n sfx) by first [done|simpl; lia].
  rewrite (pv_skips l4 mid _ volume _ s2) by (done || by right).
  destruct (pv_segments segs g after l5 volume
             (bump (zlen mid) (MkLvm (0 + 1) (0 + zlen hdr + 1) (-1) [] [] n)) s2)
    as (st' & Hrun & Hm & Hp); [done..|].
  simpl in Hm, Hp. unfold st0, bump. cbn [lv_matched lv_nLine lv_nLine_PE lv_szFrom lv_szTo lv_pe_size].
  unfold bump in Hrun. cbn [lv_matched lv_nLine lv_nLine_PE lv_szFrom lv_szTo lv_pe_size] in Hrun.
  rewrite Hrun. cbn [obind]. rewrite Hm, Hp. reflexivity.
Qed.

(** On a well-formed report of pvdisplay, lvm_parse_volume_range returns 0 with
    the extents of the first segment whose logical volume resolves to the one asked
    for and with the size of an extent, whatever the segments before it, free ones
    included, and whatever follows. *)
Theorem lvm_parse_volume_range_finds (dev volume cmd_app : bytes) (pe : Z * Z * Z)
    (lines : list bytes) (n : Z) (g : pv_seg) (status : Z) (s s1 : state W) (w' : W) :
  find_command (bs "pvdisplay") 255 s = Ret (Some cmd_app, s1) →
  zlen (cmd_app ++ bs " -m --units s " ++ dev) < 512 →
  sys_popen (cmd_app ++ bs " -m --units s " ++ dev) (st_os s1) = (Some (unlines lines, status), w') →
  pv_report w' volume lines n g →
  lvm_parse_volume_range dev volume pe s =
    Ret ((0, (seg_from g, seg_to g, n)), MkState (st_heap s1) w' (st_log s1)).
Proof. by apply pv_report_run. Qed.

(** A report of pvs: the header and one number of sectors. *)
Inductive pvs_report (lines : list bytes) (n : Z) : Prop :=
  | pvs_report_intro line1 line2 rest :
      lines = line1 :: line2 :: rest →
      line_token line1 (bs "1st PE") → line_token line2 (udec n ++ bs "S") →
      Forall (line_wf 512) rest → 0 ≤ n < 2 ^ 63 → pvs_report lines n.

Lemma pvs_report_run (dev cmd_app : bytes) (pe n : Z) (lines : list bytes) (status : Z)
    (s s1 : state W) (w' : W) :
  find_command (bs "pvs") 255 s = Ret (Some cmd_app, s1) →
  zlen (cmd_app ++ bs " -o pe_start --units s " ++ dev) < 512 →
  sys_popen (cmd_app ++ bs " -o pe_start --units s " ++ dev) (st_os s1)
    = (Some (unlines lines, status), w') →
  pvs_report lines n →
  lvm_parse_pvs_pestart dev pe s = Ret ((0, n), MkState (st_heap s1) w' (st_log s1)).
Proof.
  intros Hcmd Hfit Hpopen [line1 line2 rest -> H1 H2 Hrest Hn]. unfold lvm_parse_pvs_pestart.
  rewrite (bind_eq _ _ _ _ _ Hcmd). unfold sprintf. rewrite (proj2 (Z.ltb_lt _ _)) by done.
  unfold bind at 1, lift. cbn [obind]. unfold popen, sys, bind at 1. rewrite Hpopen. cbn [obind].
  rewrite fgets_all_lines, !fmap_cons by (repeat constructor; [apply H1..|apply H2|apply H2|done]).
  by rewrite (pvs_lines_spec line1 line2 n).
Qed.

(** ** Partitions *)
Lemma read_1st_number path v (s : state W) :
  fst (sys_read_text path (st_os s)) = Some (udec v ++ [10]) → 0 ≤ v < 2 ^ 63 →
  read_1st path 128 s = Ret ((0, udec v ++ [10]), s).
Proof.
  intros Ht Hv. unfold read_1st, fopen_r, sys, bind at 1.
  destruct (sys_read_text path (st_os s)) as [t w'] eqn:E. simpl in Ht. subst t.
  pose proof (static_read path (st_os s)) as Hw. rewrite E in Hw. simpl in Hw. subst w'.
  assert (Hs : MkState (st_heap s) (st_os s) (st_log s) = s) by (by destruct s).
  rewrite Hs. cbn [obind]. pose proof (udec_length v Hv).
  assert (Hd : ∀ cs, Forall (fun c => isdigit c = false) cs → free_of cs (udec v))
    by (intros cs; apply udec_free_of; lia).
  assert (Hg : fgets 128 (udec v ++ [10]) = Some (udec v ++ [10], [])).
  { unfold fgets. rewrite (fgets_cut_line _ (udec v) []) by (try lia; apply Hd; by repeat constructor).
    by destruct (udec v). }
  rewrite Hg, c_str_free; [done|].
  apply free_of_app; [apply Hd; by repeat constructor|constructor; [set_solver|constructor]].
Qed.

Lemma read_1st_missing path (s : state W) :
  fst (sys_read_text path (st_os s)) = None → read_1st path 128 s = Ret ((2, []), s).
Proof.
  intros Ht. unfold read_1st, fopen_r, sys, bind at 1.
  destruct (sys_read_text path (st_os s)) as [t w'] eqn:E. simpl in Ht. subst t.
  pose proof (static_read path (st_os s)) as Hw. rewrite E in Hw. simpl in Hw. subst w'.
  by destruct s.
Qed.

(** ext_parse_volume_range reads the first sector and the size of a partition
    from sysfs: with both attributes it returns 0 and the sectors from the first to
    the last one of the partition; without the first attribute it returns 1 and the
    range it was given; without the second, 1 and a start already overwritten. *)
Theorem ext_parse_volume_range_spec (dev volume : bytes) (r0 r1 a n : Z) (s : state W) :
  let attr f := bs "/sys/block/" ++ drop 5 dev ++ bs "/" ++ drop 5 volume ++ f in
  let read f := fst (sys_read_text (attr f) (st_os s)) in
  zlen dev < 128 → zlen volume < 128 → 0 ≤ a → 1 ≤ n → a + n < 2 ^ 63 →
  (read (bs "/start") = Some (udec a ++ [10]) → read (bs "/size") = Some (udec n ++ [10]) →
   ext_parse_volume_range dev volume (r0, r1) s = Ret ((0, (a, a + n - 1)), s)) ∧
  (read (bs "/start") = None →
   ext_parse_volume_range dev volume (r0, r1) s = Ret ((1, (r0, r1)), s)) ∧
  (read (bs "/start") = Some (udec a ++ [10]) → read (bs "/size") = None →
   ext_parse_volume_range dev volume (r0, r1) s = Ret ((1, (a, r1)), s)).
Proof.
  intros attr read Hdev Hvol Ha Hn Han.
  assert (Hfit : ∀ f, zlen f < 16 → sprintf 1024 (attr f) = Ret (attr f)).
  { intros f Hf. unfold sprintf. rewrite (proj2 (Z.ltb_lt _ _)); [done|].
    unfold attr. rewrite !length_app, !length_drop. change (length (bs "/sys/block/")) with 11%nat.
    change (length (bs "/")) with 1%nat. lia. }
  assert (Hnum : ∀ v, bool_decide (udec v ++ [10] = []) = false)
    by (intros v; apply bool_decide_eq_false; by destruct (udec v)).
  assert (Hstart : ∀ v, 0 ≤ v < 2 ^ 63 → strtoll (udec v ++ [10]) = v)
    by (intros v ?; by apply strtoll_udec).
  unfold ext_parse_volume_range, read, attr in *.
  split_and!; intros H1; try intros H2; unfold bind at 1, lift; rewrite Hfit by (vm_compute; reflexivity); cbn [obind].
  - rewrite (bind_eq _ _ _ _ _ (read_1st_number _ a s H1 ltac:(lia))), Hnum.
    unfold bind at 1. rewrite Hfit by (vm_compute; reflexivity). cbn [obind].
    rewrite (bind_eq _ _ _ _ _ (read_1st_number _ n s H2 ltac:(lia))), Hnum.
    rewrite !Hstart by lia. rewrite (u64_small a), (u64_small n) by lia.
    rewrite u64_small by lia. reflexivity.
  - rewrite (bind_eq _ _ _ _ _ (read_1st_missing _ s H1)). done.
  - rewrite (bind_eq _ _ _ _ _ (read_1st_number _ a s H1 ltac:(lia))), Hnum.
    unfold bind at 1. rewrite Hfit by (vm_compute; reflexivity). cbn [obind].
    rewrite (bind_eq _ _ _ _ _ (read_1st_missing _ s H2)).
    rewrite Hstart, u64_small by lia. done.
Qed.

End Lvm.

(** ** A sample volume group and a partition *)
#[local] Existing Instances x86_64.

Definition lvm_lines : list bytes :=
  [bs "  --- Physical volume ---"; bs "  PE Size                4096.00 Se";
   bs "  --- Physical Segments ---"; bs "  Physical extent 0 to 99:";
   bs "    Logical volume" ++ [9] ++ bs "/dev/vg/swap"; bs "  Physical extent 100 to 199:";
   bs "    FREE"; bs "  Physical extent 200 to 2559:";
   bs "    Logical volume" ++ [9] ++ bs "/dev/vg/root"; bs "    Logical extents 0 to 2359"].

Definition volume_os : sample :=
  MkSample [(bs "PATH", bs "/bin")] [] []
    [(bs "/sbin/pvdisplay", []); (bs "/sbin/pvs", []); (bs "/sys/block/sda/sda2/start", udec 2048 ++ [10]);
     (bs "/sys/block/sda/sda2/size", udec 409600 ++ [10])]
    [(bs "/dev/vg/swap", bs "/dev/dm-1"); (bs "/dev/vg/root", bs "/dev/dm-0")]
    [(bs "/sbin/pvdisplay -m --units s /dev/sda3", (unlines lvm_lines, 0));
     (bs "/sbin/pvs -o pe_start --units s /dev/sda3", (unlines [bs "  1st PE "; bs "   2048S"], 0))] [] [].
Definition volume_state : state sample := MkState (MkHeap ∅ 4096) volume_os [].

Ltac by_token k m := split; [apply (bool_decide_eq_true_1 _); vm_compute; reflexivity|
  exists k, m; split_and!; (done || (apply (bool_decide_eq_true_1 _); vm_compute; reflexivity))].

Ltac by_seg := unfold seg_wf; cbn [seg_from seg_to seg_lv seg_rest]; split_and!;
  first [lia|done|solve [repeat constructor]
        |apply (bool_decide_eq_true_1 _); vm_compute; reflexivity].

Lemma lvm_lines_report :
  pv_report volume_os (bs "/dev/dm-0") lvm_lines 4096
    (MkSeg 200 2559 (Some (bs "/dev/vg/root")) [bs "Logical extents 0 to 2359"]).
Proof.
  apply (pv_report_intro _ _ _ _ _ [bs "--- Physical volume ---"] [bs "--- Physical Segments ---"]
    15 (bs ".00 Se") [MkSeg 0 99 (Some (bs "/dev/vg/swap")) []; MkSeg 100 199 None []] []).
  - repeat (apply Forall2_cons_2; [first [by_token 2%nat 0%nat|by_token 4%nat 0%nat]|]). apply Forall2_nil_2.
  - repeat constructor.
  - repeat constructor.
  - lia.
  - split_and!; [apply (bool_decide_eq_true_1 _); vm_compute; reflexivity|done|done].
  - repeat (apply Forall_cons; split; [by_seg|]). constructor.
  - by_seg.
  - apply (bool_decide_eq_true_1 _). vm_compute. reflexivity.
  - exists (bs "/dev/vg/root"). split; reflexivity.
  - intros lv path. unfold resolves. simpl. repeat case_bool_decide; intros [= <-]; done.
Qed.

Lemma lvm_parse_volume_range_finds_witness :
  lvm_parse_volume_range (bs "/dev/sda3") (bs "/dev/dm-0") (0, 0, 0) volume_state =
  Ret ((0, (200, 2559, 4096)), volume_state).
Proof.
  apply (lvm_parse_volume_range_finds (bs "/dev/sda3") (bs "/dev/dm-0") (bs "/sbin/pvdisplay")
    (0, 0, 0) lvm_lines 4096 (MkSeg 200 2559 (Some (bs "/dev/vg/root")) [bs "Logical extents 0 to 2359"])
    0 volume_state volume_state volume_os).
  - vm_compute. reflexivity.
  - vm_compute. reflexivity.
  - vm_compute. reflexivity.
  - exact lvm_lines_report.
Defined.

Lemma ext_parse_volume_range_spec_witness :
  ext_parse_volume_range (bs "/dev/sda") (bs "/dev/sda2") (0, 0) volume_state =
  Ret ((0, (2048, 411647)), volume_state).
Proof.
  apply (ext_parse_volume_range_spec (bs "/dev/sda") (bs "/dev/sda2") 0 0 2048 409600 volume_state);
    (lia || vm_compute; reflexivity).
Defined.
