(* ===== verification/BlkDev.v ===== *)
(** * The block device under a path: blk.h and the first half of blk.c

    How the program finds, through sysfs and /proc, the device that holds a file,
    its file system, its type and the device it is part of.  A [char] array is the
    list of its bytes; a string is read out of it up to its NUL. *)
From S2P Require Export Extents.
#[local] Open Scope Z_scope.

(** ** Character arrays *)

(** The string in an array; an array without a NUL is read past its end. *)
Definition arr_str (a : bytes) : outcome bytes :=
  if bool_decide (0 ∈ a) then Ret (c_str a) else Undef.

(** [memset(a, 0, n)], [strncpy(a, s, n)], and the store of a string in [a]. *)
Definition arr_zero (n : nat) : bytes := replicate n 0.
Definition strncpy (n : nat) (s : bytes) : bytes := take n (s ++ replicate n 0).
Definition arr_store (s : bytes) (a : bytes) : bytes := s ++ [0] ++ drop (S (length s)) a.

(** [toLowerCase] in place. *)
Definition arr_lower (a : bytes) : outcome bytes :=
  let? s := arr_str a in Ret (toLowerCase s ++ drop (length s) a).

(** ** blk.h *)
Record DeviceInfo : Type := MkDevice {
  di_name : bytes;
  di_dev : bytes;
  di_md : bytes;
  di_maj_min : bytes;
  di_type : bytes;
  di_fstype : bytes;
}.

Definition zero_device : DeviceInfo :=
  MkDevice (arr_zero 128) (arr_zero 128) (arr_zero 128) (arr_zero 32) (arr_zero 32) (arr_zero 32).

(** [while ((c = strchr(name, from))) c[0] = to]: one byte per turn. *)
Fixpoint replace_loop (fuel : nat) (from to : Z) (name : bytes) : outcome bytes :=
  match strchr name from with
  | None => Ret name
  | Some r =>
      match fuel with
      | O => Spin
      | S fuel => replace_loop fuel from to (<[(length name - length r)%nat := to]> name)
      end
  end.

Definition sysfs_devname_sys_to_dev (name : bytes) : outcome bytes :=
  replace_loop (length name) 33 47 name.
Definition sysfs_devname_dev_to_sys (name : bytes) : outcome bytes :=
  replace_loop (length name) 47 33 name.

Section Defs.
  Context `{Machine} {W : Type} `{OS W}.

(** ** sysfs *)
Definition access_file (dir name : bytes) : prog W bool :=
  access (snprintf 255 (dir ++ bs "/" ++ name)) F_OK.

Definition ingore_dev_dir (d_name : bytes) : bool :=
  strcmp_eq d_name (bs "subsystem") || strcmp_eq d_name (bs "holders")
  || strcmp_eq d_name (bs "slaves") || strcmp_eq d_name (bs "integrity")
  || strcmp_eq d_name (bs "mq") || strcmp_eq d_name (bs "power")
  || strcmp_eq d_name (bs "queue") || strcmp_eq d_name (bs "trace").

Definition is_dot_name (nm : bytes) : bool := strcmp_eq nm (bs ".") || strcmp_eq nm (bs "..").

(** [path_join(basePath, d_name, path, sizeof(path))] *)
Definition dev_path (basePath d_name : bytes) : bytes := path_join basePath d_name 256.

(** The file "dev" of a directory: whether its first line is [majmin]. *)
Definition dev_file_matches (majmin text : bytes) : bool :=
  match fgets 128 text with
  | None => false
  | Some (content, _) =>
      match strtok [13; 10] (c_str content) with
      | Some (tok, _) => strcmp_eq tok majmin
      | None => false
      end
  end.

(** The loop over the entries of [basePath]; [rec path followlink] is the recursive
    call. *)
Fixpoint search_entries (rec : bytes → bool → prog W (option bytes)) (majmin basePath : bytes)
    (followlink : bool) (entries : list os_dirent) : prog W (option bytes) :=
  match entries with
  | [] => ret None
  | entry :: entries =>
      let continue := search_entries rec majmin basePath followlink entries in
      if is_dot_name (d_name entry) then continue else
      let path := dev_path basePath (d_name entry) in
      let! statbuf := lstat path in
      match statbuf with
      | None => continue
      | Some st =>
          if S_ISDIR (st_mode st) then
            if ingore_dev_dir (d_name entry) then continue else
            let! r := rec path followlink in
            match r with Some p => ret (Some p) | None => continue end
          else if S_ISLNK (st_mode st) && followlink then
            if ingore_dev_dir (d_name entry) then continue else
            let! r := rec path false in
            match r with Some p => ret (Some p) | None => continue end
          else if S_ISREG (st_mode st) && strcmp_eq (d_name entry) (bs "dev") then
            let! file := fopen_r path in
            match file with
            | Some text =>
                if dev_file_matches majmin text
                then ret (Some (snprintf 256 basePath)) else continue
            | None => continue
            end
          else continue
      end
  end.

(** [Some] of what is left in [foundpath] when it returns 1. *)
Fixpoint searchDevDirs (fuel : nat) (majmin basePath : bytes) (followlink : bool) :
    prog W (option bytes) :=
  match fuel with
  | O => spin
  | S fuel =>
      let! dir := opendir basePath in
      match dir with
      | None => ret None
      | Some entries =>
          search_entries (searchDevDirs fuel majmin) majmin basePath followlink entries
      end
  end.

(** How deep the search may go: /sys/block has fewer levels. *)
Definition search_fuel : nat := 256.

Definition find_devmm_block_path (majmin : bytes) (bufsiz : Z) : prog W (option bytes) :=
  let search :=
    let! r := searchDevDirs search_fuel majmin (bs "/sys/block") true in
    ret (snprintf (bufsiz - 1) <$> r) in
  let! ok := access (bs "/sys/dev/block") F_OK in
  if ok then
    let devmm := snprintf 255 (bs "/sys/dev/block/" ++ majmin) in
    let! ok := access devmm F_OK in
    if ok then
      let! r := realpath devmm in
      match r with
      | None => ret None
      | Some devpath =>
          let! devpath := lift (sprintf 256 devpath) in
          match strstr devpath (bs "/block/") with
          | Some _ => ret (Some (snprintf (bufsiz - 1) devpath))
          | None => search
          end
      end
    else search
  else search.

(** ["%d:%d"] of a device number. *)
Definition majmin_text (devno : Z) : bytes :=
  dec (i32 (major devno)) ++ bs ":" ++ dec (i32 (minor devno)).

Definition find_dev_block_path (devno bufsiz : Z) : prog W (option bytes) :=
  find_devmm_block_path (snprintf 31 (majmin_text devno)) bufsiz.

Definition sysfs_blkdev_get_path (devno bufsiz : Z) : prog W (option bytes) :=
  let! devpath := find_dev_block_path devno 256 in
  match devpath with
  | None => ret None
  | Some devpath =>
      match strrchr devpath 47 with
      | None => ret None
      | Some name =>
          let buf := snprintf (bufsiz - 1) (bs "/dev/" ++ drop 1 name) in
          let! buf := lift (sysfs_devname_sys_to_dev buf) in
          ret (Some buf)
      end
  end.

(** The result and [*devno], [None] when it is not set. *)
Definition sysfs_blkdev_from_path (path : bytes) : prog W (Z * option Z) :=
  let! st := do_stat path in
  match st with
  | Some st =>
      if S_ISBLK (st_mode st) then
        ret (0, Some (if strncmp_eq path (bs "/dev/") 5 then st_rdev st else st_dev st))
      else ret (1, None)
  | None => ret (-1, None)
  end.

Definition devno_from_path (path : bytes) : prog W (Z * option Z) :=
  let! st := do_stat path in
  match st with
  | Some st => ret (0, Some (st_dev st))
  | None => ret (-1, None)
  end.

Definition majmin_to_dev_t (maj_min : bytes) : Z * option Z :=
  let imaj := i32 (strtoul maj_min) in
  match strtoul_end maj_min with
  | c :: endptr =>
      if c =? 58 then (0, Some (makedev imaj (i32 (strtoul endptr)))) else (1, None)
  | [] => (1, None)
  end.

(** ** File systems *)

(** The loop over the lines of mountinfo; the array is [fstype]. *)
Fixpoint mountinfo_lines (lines : list bytes) (majmin fstype : bytes) (fstsize : nat) :
    outcome (Z * bytes) :=
  match lines with
  | [] => Ret (-1, fstype)
  | sline :: lines =>
      match strtok (bs "-") sline with
      | None => Undef
      | Some (token, rest) =>
          match strstr token majmin with
          | None => mountinfo_lines lines majmin fstype fstsize
          | Some _ =>
              match strtok (bs " ") rest with
              | None => mountinfo_lines lines majmin fstype fstsize
              | Some (token_fstype, _) =>
                  let? fstype := arr_lower (strncpy fstsize token_fstype) in
                  Ret (0, fstype)
              end
          end
      end
  end.

Definition get_blkdev_fstype_from_mountinfo (devno : Z) (fstype : bytes) (fstsize : nat) :
    prog W (Z * bytes) :=
  let fstype := arr_store (snprintf (Z.of_nat fstsize) (bs "unknown")) fstype in
  let majmin := bs " " ++ majmin_text devno ++ bs " " in
  let! f := fopen_r (bs "/proc/self/mountinfo") in
  match f with
  | None => ret (-1, fstype)
  | Some text => lift (mountinfo_lines (fgets_all 512 text) majmin fstype fstsize)
  end.

Fixpoint mounts_lines (lines : list bytes) (devno : Z) (fstype : bytes) (fstsize : nat) :
    prog W (Z * bytes) :=
  match lines with
  | [] => ret (-1, fstype)
  | line :: lines =>
      match strtok (bs " ") line with
      | Some (devPath, r) =>
          if negb (bool_decide (head devPath = Some 47))
          then mounts_lines lines devno fstype fstsize else
          match strtok (bs " ") r with
          | None => mounts_lines lines devno fstype fstsize
          | Some (mountPath, r) =>
              match strtok (bs " ") r with
              | None => mounts_lines lines devno fstype fstsize
              | Some (fst_tok, _) =>
                  let! '(_, mdevno) := devno_from_path mountPath in
                  match mdevno with
                  | None => mounts_lines lines devno fstype fstsize
                  | Some mdevno =>
                      if devno =? mdevno then
                        let! fstype := lift (arr_lower (strncpy fstsize fst_tok)) in
                        ret (0, fstype)
                      else mounts_lines lines devno fstype fstsize
                  end
              end
          end
      | None => mounts_lines lines devno fstype fstsize
      end
  end.

Definition get_blkdev_fstype_from_mounts (devno : Z) (fstype : bytes) (fstsize : nat) :
    prog W (Z * bytes) :=
  let! file := fopen_r (bs "/proc/self/mounts") in
  match file with
  | None => ret (-1, fstype)
  | Some text => mounts_lines (fgets_all 512 text) devno fstype fstsize
  end.

Definition get_blkdev_fstype (devno : Z) (fstype : bytes) (fstsize : nat) : prog W (Z * bytes) :=
  let! ok := access_file (bs "/proc/self") (bs "mountinfo") in
  if ok then get_blkdev_fstype_from_mountinfo devno fstype fstsize else
  let! ok := access_file (bs "/proc/self") (bs "mounts") in
  if ok then get_blkdev_fstype_from_mounts devno fstype fstsize else
  ret (-1, fstype).

Definition get_path_fstype (path fstype : bytes) (fstsize : nat) : prog W (Z * bytes) :=
  let! fs := do_stat path in
  match fs with
  | None => ret (-1, fstype)
  | Some fs =>
      if S_ISBLK (st_mode fs) && strncmp_eq path (bs "/dev/") 5
      then get_blkdev_fstype (st_rdev fs) fstype fstsize
      else get_blkdev_fstype (st_dev fs) fstype fstsize
  end.

(** ** Types and parents *)

(** The result and the name left in [buf]; the loop over the entries. *)
Fixpoint starts_loop (entries : list os_dirent) (path starts : bytes) (bufsize : nat) :
    prog W (Z * bytes) :=
  match entries with
  | [] => ret (4, [])
  | entry :: entries =>
      if is_dot_name (d_name entry) then starts_loop entries path starts bufsize else
      if strncmp_eq (d_name entry) starts (zlen starts) then
        let! statbuf := do_stat (path_join path (d_name entry) 512) in
        match statbuf with
        | Some st =>
            if S_ISDIR (st_mode st) then ret (0, strncpy bufsize (d_name entry))
            else starts_loop entries path starts bufsize
        | None => starts_loop entries path starts bufsize
        end
      else starts_loop entries path starts bufsize
  end.

Definition find_dir_startswith (dirpath subdirname starts : bytes) (bufsize : nat) :
    prog W (Z * bytes) :=
  let path := path_join dirpath subdirname 512 in
  let! dir := opendir path in
  match dir with
  | None => ret (2, [])
  | Some entries => starts_loop entries path starts bufsize
  end.

(** The text stored in [type], in lower case. *)
Definition set_type (text : bytes) (type : bytes) : prog W (Z * bytes) :=
  let! type := lift (arr_lower (arr_store (snprintf (zlen type) text) type)) in
  ret (0, type).

Definition get_blkdev_type (devno : Z) (type : bytes) : prog W (Z * bytes) :=
  let type := arr_store (snprintf (zlen type) (bs "unknown")) type in
  let! blockpath := find_devmm_block_path (snprintf 31 (majmin_text devno)) 255 in
  match blockpath with
  | None => ret (1, type)
  | Some blockpath =>
      let! part := access (snprintf 255 (blockpath ++ bs "/partition")) F_OK in
      if part then set_type (bs "part") type else
      let path := snprintf 255 (blockpath ++ bs "/dm/uuid") in
      let! dm := access path F_OK in
      if dm then
        let! fp := fopen_r path in
        match fp with
        | None => ret (1, type)
        | Some text =>
            let uuid := match fgets 255 text with Some (l, _) => c_str l | None => [] end in
            match strchr uuid 45 with
            | None => ret (1, type)
            | Some dash =>
                let uuid := take (length uuid - length dash) uuid in
                if 8 <? zlen uuid then ret (1, type) else set_type uuid type
            end
        end
      else
      let! start := access_file blockpath (bs "start") in
      let! size := (if start then access_file blockpath (bs "size") else ret false) in
      let! range := (if size then access_file blockpath (bs "range") else ret true) in
      let! removable := (if negb range then access_file blockpath (bs "removable") else ret true) in
      if negb removable then set_type (bs "part") type else
      let! '(found, rdname) := find_dir_startswith blockpath (bs "md") (bs "rd") 15 in
      if found =? 0 then
        let path := snprintf 255 (blockpath ++ bs "/md/" ++ c_str (rdname ++ [0])
                                  ++ bs "/block/partition") in
        let! raid := access path F_OK in
        if raid then set_type (bs "raid") type else ret (1, type)
      else ret (1, type)
  end.

(** The entries of "slaves": how many, and the last one. *)
Definition count_slaves (entries : list os_dirent) : Z * bytes :=
  foldl (fun acc entry =>
    if is_dot_name (d_name entry) then acc
    else (acc.1 + 1, strncpy 128 (d_name entry))) (0, arr_zero 128) entries.

(** The result, [*parent] when it is set, and [mdname]. *)
Definition get_blkdev_parent (devno : Z) (mdname : bytes) : prog W (Z * option Z * bytes) :=
  let! blockpath := find_devmm_block_path (snprintf 31 (majmin_text devno)) 255 in
  match blockpath with
  | None => ret (1, None, mdname)
  | Some blockpath =>
      let path := snprintf 255 blockpath in
      let blockroot := strstr path (bs "/block/") in
      let pnode := match blockroot with
                   | Some r => strtok_all (bs "/") (drop 7 r)
                   | None => []
                   end in
      if 32 <? zlen pnode then ret (5, None, mdname) else
      if 1 <? zlen pnode then
        let! '(r, parent) := sysfs_blkdev_from_path
          (snprintf 255 (bs "/dev/" ++ nth (length pnode - 2) pnode [])) in
        if r =? 0 then ret (0, parent, mdname) else ret (1, None, mdname)
      else
        let path' := snprintf 255 (blockpath ++ bs "/slaves/") in
        let! dir := opendir path' in
        match dir with
        | None => ret (2, None, mdname)
        | Some entries =>
            let '(filecount, slave) := count_slaves entries in
            if filecount =? 0 then ret (2, None, mdname) else
            let md := match blockroot with
                      | Some r =>
                          strncmp_eq (drop (length path - length r + 7) path') (bs "md") 2
                      | None => false
                      end in
            let! slave := lift (if md || (filecount =? 1) then arr_str slave else Ret []) in
            if md then
              let! '(r, majmin) := read_1st (snprintf 255 (blockpath ++ bs "/slaves/" ++ slave
                                                           ++ bs "/../dev")) 32 in
              if negb (r =? 0) then ret (3, None, mdname) else
              match majmin_to_dev_t majmin with
              | (0, parent) =>
                  ret (0, parent, arr_store (snprintf (zlen mdname - 1) (bs "/dev/" ++ slave)) mdname)
              | _ => ret (3, None, mdname)
              end
            else if negb (filecount =? 1) then ret (4, None, mdname)
            else
              let! '(r, parent) := sysfs_blkdev_from_path (snprintf 255 (bs "/dev/" ++ slave)) in
              if r =? 0 then ret (0, parent, mdname) else ret (1, None, mdname)
        end
  end.

Definition get_one_blk_info (devno : Z) (device : DeviceInfo) : prog W (Z * DeviceInfo) :=
  let! devpath := sysfs_blkdev_get_path devno 256 in
  match devpath with
  | None => ret (1, device)
  | Some devpath =>
      match strrchr devpath 47 with
      | None => undef
      | Some slash =>
          let name := strncpy 128 (drop 1 slash) in
          let dev := strncpy 128 devpath in
          let maj_min := arr_store (snprintf 31 (majmin_text devno)) (di_maj_min device) in
          let! '(_, fstype) := get_blkdev_fstype devno (di_fstype device) 32 in
          let! '(_, type) := get_blkdev_type devno (di_type device) in
          ret (0, MkDevice name dev (di_md device) maj_min type fstype)
      end
  end.

(** The result and the two devices. *)
Definition myLsblk (devno : Z) (device parent : DeviceInfo) :
    prog W (Z * DeviceInfo * DeviceInfo) :=
  let! '(r, device) := get_one_blk_info devno device in
  if negb (r =? 0) then ret (r, device, parent) else
  let! '(r, devno_parent, md) := get_blkdev_parent devno (di_md parent) in
  let parent := MkDevice (di_name parent) (di_dev parent) md (di_maj_min parent)
                         (di_type parent) (di_fstype parent) in
  if negb (r =? 0) then ret (if r =? 2 then 0 else r, device, parent) else
  match devno_parent with
  | None => undef
  | Some devno_parent =>
      let! '(r, parent) := get_one_blk_info devno_parent parent in
      ret (r, device, parent)
  end.

End Defs.

(** ** The name of a device between /sys and /dev *)
Definition subst_byte (from to c : Z) : Z := if c =? from then to else c.

Lemma strchr_split s c :
  match strchr s c with
  | None => free_of [c] s
  | Some r => ∃ pre post, s = pre ++ c :: post ∧ r = c :: post ∧ free_of [c] pre
  end.
Proof.
  induction s as [|x s IH]; simpl; [constructor|].
  destruct (Z.eqb_spec x c) as [->|Hne].
  - exists [], s. split_and!; [done|done|constructor].
  - destruct (strchr s c) as [r|].
    + destruct IH as (pre & post & -> & -> & Hpre). exists (x :: pre), post.
      split_and!; [done|done|]. constructor; [set_solver|done].
    + constructor; [set_solver|done].
Qed.

Lemma subst_free from to s : free_of [from] s → subst_byte from to <$> s = s.
Proof.
  induction 1 as [|c s Hc _ IH]; [done|]. rewrite fmap_cons, IH. unfold subst_byte.
  by rewrite (proj2 (Z.eqb_neq _ _)) by set_solver.
Qed.

(** The loop ends after one turn per occurrence. *)
Lemma replace_loop_spec fuel from to name :
  from ≠ to → (length (filter (fun c => c = from) name) ≤ fuel)%nat →
  replace_loop fuel from to name = Ret (subst_byte from to <$> name).
Proof.
  intros Hne. revert name. induction fuel as [|fuel IH]; intros name Hf; cbn [replace_loop];
    pose proof (strchr_split name from) as Hs; destruct (strchr name from) as [r|];
    try (by rewrite subst_free);
    destruct Hs as (pre & post & -> & -> & Hpre);
    assert (Hfil : filter (fun c => c = from) (pre ++ from :: post) =
                   filter (fun c => c = from) pre ++ from :: filter (fun c => c = from) post)
      by (rewrite filter_app; f_equal; by apply filter_cons_True);
    rewrite Hfil, length_app in Hf; simpl in Hf; [lia|].
  replace (length (pre ++ from :: post) - length (from :: post))%nat with (length pre + 0)%nat
    by (rewrite length_app; simpl; lia).
  rewrite insert_app_r. simpl. rewrite IH.
  - f_equal. rewrite !fmap_app, !fmap_cons. unfold subst_byte at 2 5.
    by rewrite Z.eqb_refl, (proj2 (Z.eqb_neq to from)).
  - rewrite filter_app, length_app, filter_cons_False by congruence. lia.
Qed.

Lemma filter_length_bound {A} (P : A → Prop) `{∀ x, Decision (P x)} (l : list A) :
  (length (filter P l) ≤ length l)%nat.
Proof. apply length_filter. Qed.

(** ** Device numbers *)
Lemma land_high a : 0 ≤ a < 2 ^ 32 → Z.land a 4294963200 = a / 4096 * 4096.
Proof.
  intros Ha. change 4294963200 with (Z.shiftl (Z.ones 20) 12).
  change 4096 with (2 ^ 12). rewrite <- Z.shiftr_div_pow2, <- Z.shiftl_mul_pow2 by lia.
  apply Z.bits_inj'. intros i Hi. rewrite Z.land_spec, !Z.shiftl_spec by done.
  destruct (decide (i < 12)).
  - rewrite !(Z.testbit_neg_r _ (i - 12)) by lia. apply andb_false_r.
  - rewrite Z.shiftr_spec by lia. replace (i - 12 + 12) with i by lia.
    destruct (decide (i < 32)).
    + rewrite Z.ones_spec_low by lia. apply andb_true_r.
    + rewrite Z.ones_spec_high, andb_false_r by lia. symmetry.
      destruct (decide (a = 0)) as [->|]; [apply Z.bits_0|].
      apply Z.bits_above_log2; [lia|]. apply Z.log2_lt_pow2; [lia|].
      apply (Z.lt_le_trans _ (2 ^ 32)); [lia|]. apply Z.pow_le_mono_r; lia.
Qed.

Lemma land_high8 a : 0 ≤ a < 2 ^ 32 → Z.land a 4294967040 = a / 256 * 256.
Proof.
  intros Ha. change 4294967040 with (Z.shiftl (Z.ones 24) 8).
  change 256 with (2 ^ 8). rewrite <- Z.shiftr_div_pow2, <- Z.shiftl_mul_pow2 by lia.
  apply Z.bits_inj'. intros i Hi. rewrite Z.land_spec, !Z.shiftl_spec by done.
  destruct (decide (i < 8)).
  - rewrite !(Z.testbit_neg_r _ (i - 8)) by lia. apply andb_false_r.
  - rewrite Z.shiftr_spec by lia. replace (i - 8 + 8) with i by lia.
    destruct (decide (i < 32)).
    + rewrite Z.ones_spec_low by lia. apply andb_true_r.
    + rewrite Z.ones_spec_high, andb_false_r by lia. symmetry.
      destruct (decide (a = 0)) as [->|]; [apply Z.bits_0|].
      apply Z.bits_above_log2; [lia|]. apply Z.log2_lt_pow2; [lia|].
      apply (Z.lt_le_trans _ (2 ^ 32)); [lia|]. apply Z.pow_le_mono_r; lia.
Qed.

(** The device number as a sum of its four fields. *)
Lemma makedev_sum a b :
  0 ≤ a < 2 ^ 32 → 0 ≤ b < 2 ^ 32 →
  makedev a b = b mod 256 + (a mod 4096) * 2 ^ 8 + (b / 256) * 2 ^ 20 + (a / 4096) * 2 ^ 44.
Proof.
  intros Ha Hb. unfold makedev. rewrite land_high, land_high8 by done.
  change 4095 with (2 ^ 12 - 1). change 255 with (2 ^ 8 - 1). rewrite !land_ones_mod by lia.
  change (2 ^ 12) with 4096. change (2 ^ 8) with 256.
  rewrite !Z.shiftl_mul_pow2 by lia.
  pose proof (Z.mod_pos_bound a 4096). pose proof (Z.mod_pos_bound b 256).
  assert (a / 4096 < 2 ^ 20) by (apply Z.div_lt_upper_bound; lia).
  assert (b / 256 < 2 ^ 24) by (apply Z.div_lt_upper_bound; lia).
  assert (0 ≤ a / 4096) by (apply Z.div_pos; lia). assert (0 ≤ b / 256) by (apply Z.div_pos; lia).
  rewrite (Z.lor_comm (b / 256 * 256 * 2 ^ 12)).
  replace (b / 256 * 256 * 2 ^ 12) with (b / 256 * 2 ^ 20) by lia.
  replace (a / 4096 * 4096 * 2 ^ 32) with (a / 4096 * 2 ^ 44) by lia.
  rewrite (lor_add_disjoint (b mod 256) (b / 256) 20) by lia.
  rewrite Z.lor_comm.
  assert (Hlow : Z.lor (a mod 4096 * 2 ^ 8) (b mod 256 + b / 256 * 2 ^ 20) =
                 b mod 256 + (a mod 4096) * 2 ^ 8 + b / 256 * 2 ^ 20).
  { rewrite <- (lor_add_disjoint (b mod 256) (b / 256) 20) by lia.
    rewrite Z.lor_assoc, (Z.lor_comm (a mod 4096 * 2 ^ 8)).
    rewrite (lor_add_disjoint (b mod 256) (a mod 4096) 8) by lia.
    by rewrite (lor_add_disjoint _ (b / 256) 20) by lia. }
  rewrite Hlow. by rewrite (lor_add_disjoint _ (a / 4096) 44) by lia.
Qed.

Lemma major_makedev a b : 0 ≤ a < 2 ^ 32 → 0 ≤ b < 2 ^ 32 → major (makedev a b) = a.
Proof.
  intros Ha Hb. rewrite makedev_sum by done. unfold major.
  pose proof (Z.mod_pos_bound a 4096). pose proof (Z.mod_pos_bound b 256).
  assert (a / 4096 < 2 ^ 20) by (apply Z.div_lt_upper_bound; lia).
  assert (b / 256 < 2 ^ 24) by (apply Z.div_lt_upper_bound; lia).
  assert (0 ≤ a / 4096) by (apply Z.div_pos; lia). assert (0 ≤ b / 256) by (apply Z.div_pos; lia).
  set (d := b mod 256 + _ + _ + _). rewrite !Z.shiftr_div_pow2 by lia.
  assert (Hhi : d / 2 ^ 32 = a / 4096 * 4096 + b / 256 / 4096).
  { symmetry. apply (Z.div_unique _ _ _ (b mod 256 + a mod 4096 * 2 ^ 8 + (b / 256) mod 4096 * 2 ^ 20)).
    - left. pose proof (Z.mod_pos_bound (b / 256) 4096). lia.
    - pose proof (Z.div_mod (b / 256) 4096). unfold d. lia. }
  assert (b / 256 / 4096 < 4096) by (apply Z.div_lt_upper_bound; lia).
  assert (0 ≤ b / 256 / 4096) by (apply Z.div_pos; lia).
  rewrite Hhi, land_high by lia.
  replace ((a / 4096 * 4096 + b / 256 / 4096) / 4096) with (a / 4096)
    by (symmetry; symmetry; apply (Z.div_unique _ _ _ (b / 256 / 4096)); lia).
  change 4095 with (2 ^ 12 - 1). rewrite land_ones_mod by lia.
  replace ((d / 2 ^ 8) mod 2 ^ 12) with (a mod 4096); cycle 1.
  { replace (d / 2 ^ 8) with (a mod 4096 + (b / 256 + a / 4096 * 2 ^ 24) * 2 ^ 12)
      by (apply (Z.div_unique _ _ _ (b mod 256)); unfold d; lia).
    rewrite Z_mod_plus_full. by rewrite (Z.mod_small (a mod 4096)) by lia. }
  rewrite Z.lor_comm.
  pose proof (lor_add_disjoint (a mod 4096) (a / 4096) 12) as Hl. change (2 ^ 12) with 4096 in Hl.
  rewrite Hl by lia. pose proof (Z.div_mod a 4096). lia.
Qed.

Lemma minor_makedev a b : 0 ≤ a < 2 ^ 32 → 0 ≤ b < 2 ^ 32 → minor (makedev a b) = b.
Proof.
  intros Ha Hb. rewrite makedev_sum by done. unfold minor.
  pose proof (Z.mod_pos_bound a 4096). pose proof (Z.mod_pos_bound b 256).
  assert (a / 4096 < 2 ^ 20) by (apply Z.div_lt_upper_bound; lia).
  assert (b / 256 < 2 ^ 24) by (apply Z.div_lt_upper_bound; lia).
  assert (0 ≤ a / 4096) by (apply Z.div_pos; lia). assert (0 ≤ b / 256) by (apply Z.div_pos; lia).
  set (d := b mod 256 + _ + _ + _). rewrite !Z.shiftr_div_pow2 by lia.
  assert (Hsh : d / 2 ^ 12 = a mod 4096 / 16 + b / 256 * 256 + a / 4096 * 2 ^ 32).
  { symmetry. apply (Z.div_unique _ _ _ (b mod 256 + (a mod 4096) mod 16 * 256)).
    - left. pose proof (Z.mod_pos_bound (a mod 4096) 16). lia.
    - pose proof (Z.div_mod (a mod 4096) 16). unfold d. lia. }
  assert (Ha16 : 0 ≤ a mod 4096 / 16 < 256)
    by (split; [apply Z.div_pos|apply Z.div_lt_upper_bound]; lia).
  assert (Hlow : Z.land (d / 2 ^ 12) 4294967040 = b / 256 * 256).
  { change 4294967040 with (Z.land 4294967295 4294967040). rewrite Z.land_assoc.
    change 4294967295 with (2 ^ 32 - 1). rewrite land_ones_mod, Hsh, Z_mod_plus_full by lia.
    rewrite Z.mod_small by lia. rewrite land_high8 by lia.
    f_equal. symmetry. apply (Z.div_unique _ _ _ (a mod 4096 / 16)); lia. }
  rewrite Hlow. change 255 with (2 ^ 8 - 1). rewrite land_ones_mod by lia.
  replace (d mod 2 ^ 8) with (b mod 256).
  2:{ apply (Z.mod_unique _ _ (a mod 4096 + b / 256 * 2 ^ 12 + a / 4096 * 2 ^ 36)); unfold d; lia. }
  rewrite Z.lor_comm.
  pose proof (lor_add_disjoint (b mod 256) (b / 256) 8) as Hl. change (2 ^ 8) with 256 in Hl.
  rewrite Hl by lia. pose proof (Z.div_mod b 256). lia.
Qed.

(** A device number survives its text: the "major:minor" of a device, which the
    program compares with sysfs and parses back from it, is read as the same number,
    and the two fields of a device number are the ones it was made of. *)
Theorem majmin_roundtrip `{Machine} (a b : Z) (rest : bytes) :
  0 ≤ a < 2 ^ 31 → 0 ≤ b < 2 ^ 31 →
  match rest with [] => True | c :: _ => isdigit c = false end →
  major (makedev a b) = a ∧ minor (makedev a b) = b ∧
  majmin_to_dev_t (majmin_text (makedev a b) ++ rest) = (0, Some (makedev a b)).
Proof.
  intros Ha Hb Hrest. assert (Hma := major_makedev a b ltac:(lia) ltac:(lia)).
  assert (Hmi := minor_makedev a b ltac:(lia) ltac:(lia)). split_and!; [done..|].
  unfold majmin_text. rewrite Hma, Hmi, !i32_small by lia.
  unfold dec. rewrite !(proj2 (Z.ltb_ge _ _)) by lia. rewrite <- !app_assoc.
  assert (Hmod : 2 ^ 32 ≤ size_t_mod) by (unfold size_t_mod; destruct long64; lia).
  unfold majmin_to_dev_t, strtoul_end, strtoul, strtou.
  rewrite (strto10_udec a) by (done || lia). cbn [snd app bs]. 
  change (bs ":" ++ udec b ++ rest) with (58 :: udec b ++ rest). cbv beta iota.
  rewrite strto10_udec by (done || lia).
  rewrite !(proj2 (Z.ltb_ge _ _)) by lia. rewrite !i32_small by lia. done.
Qed.

Lemma majmin_roundtrip_witness :
  major (makedev 259 70000) = 259 ∧ minor (makedev 259 70000) = 70000 ∧
  @majmin_to_dev_t x86_64 (majmin_text (makedev 259 70000) ++ [10]) = (0, Some (makedev 259 70000)).
Proof. apply (@majmin_roundtrip x86_64 259 70000 [10]); (lia || done). Defined.

(** The conversions between the names of /sys and of /dev end and replace every
    byte; a name of /sys goes to /dev and comes back unchanged. *)
Theorem devname_roundtrip (name : bytes) :
  sysfs_devname_sys_to_dev name = Ret (subst_byte 33 47 <$> name) ∧
  sysfs_devname_dev_to_sys name = Ret (subst_byte 47 33 <$> name) ∧
  (free_of [47] name →
   obind (sysfs_devname_sys_to_dev name) sysfs_devname_dev_to_sys = Ret name).
Proof.
  unfold sysfs_devname_sys_to_dev, sysfs_devname_dev_to_sys.
  rewrite !replace_loop_spec by (done || apply length_filter). split_and!; [done..|].
  intros Hfree. cbn [obind]. rewrite replace_loop_spec by (done || apply length_filter).
  f_equal. rewrite <- list_fmap_compose. induction Hfree as [|c name Hc _ IH]; [done|].
  rewrite fmap_cons, IH. f_equal. unfold compose, subst_byte.
  destruct (Z.eqb_spec c 33) as [->|]; [done|].
  by rewrite (proj2 (Z.eqb_neq _ _)) by set_solver.
Qed.

Lemma devname_roundtrip_witness :
  obind (sysfs_devname_sys_to_dev (bs "cciss!c0d0")) sysfs_devname_dev_to_sys = Ret (bs "cciss!c0d0").
Proof.
  apply (devname_roundtrip (bs "cciss!c0d0")).
  apply (bool_decide_eq_true_1 _). vm_compute. reflexivity.
Defined.

(** ** The file system of a mount *)
Lemma strtok_first d t r :
  t ≠ [] → free_of [d] t → strtok [d] (t ++ d :: r) = Some (t, r).
Proof.
  intros Hne Ht. unfold strtok. destruct t as [|c t]; [done|].
  assert (Hin : ∀ c, c ∉ [d] → in_set [d] c = false)
    by (intros x Hx; unfold in_set; by rewrite bool_decide_false).
  pose proof (Forall_inv Ht) as Hc. simpl app.
  rewrite (drop_while_stop _ _ c (t ++ d :: r)) by (done || by apply Hin).
  change (c :: t ++ d :: r) with ((c :: t) ++ d :: r). rewrite span_all.
  - done.
  - eapply Forall_impl; [exact Ht|]. intros x Hx. simpl. by rewrite Hin.
  - unfold in_set. rewrite bool_decide_true; [done|set_solver].
Qed.

Lemma strtok_skip d k s : strtok [d] (replicate k d ++ s) = strtok [d] s.
Proof.
  unfold strtok. f_equal. induction k as [|k IH]; [done|]. simpl app.
  assert (Hd : in_set [d] d = true) by (unfold in_set; rewrite bool_decide_true; [done|set_solver]).
  unfold drop_while in *. simpl. rewrite Hd.
  destruct (span (in_set [d]) (replicate k d ++ s)). exact IH.
Qed.

Lemma arr_lower_string n t :
  free_of [0] t → (length t < n)%nat →
  ∃ a, arr_lower (strncpy n t) = Ret a ∧ length a = n ∧ c_str a = toLowerCase t.
Proof.
  intros Ht Hn. unfold strncpy.
  assert (Hpad : take n (t ++ replicate n 0) = t ++ 0 :: replicate (n - length t - 1) 0).
  { rewrite take_app_ge by lia. rewrite take_replicate, Nat.min_l by lia. f_equal.
    destruct (n - length t)%nat as [|m] eqn:E; [lia|]. simpl. by rewrite Nat.sub_0_r. }
  rewrite Hpad. unfold arr_lower, arr_str.
  rewrite bool_decide_true by (apply elem_of_app; right; left).
  assert (Hstr : ∀ u v, free_of [0] u → c_str (u ++ 0 :: v) = u).
  { intros u v Hu. induction Hu as [|c u Hc _ IH]; [done|]. simpl.
    rewrite (proj2 (Z.eqb_neq _ _)) by set_solver. by rewrite IH. }
  rewrite Hstr by done. cbn [obind]. eexists. split; [done|].
  rewrite drop_app_length. split.
  - unfold toLowerCase. rewrite length_app, length_map. simpl. rewrite length_replicate. lia.
  - apply Hstr. apply Forall_fmap. eapply Forall_impl; [exact Ht|]. intros c Hc. simpl.
    unfold tolower. destruct ((65 <=? c) && (c <=? 90)) eqn:E; set_solver by lia.
Qed.

(** A line that is not about the device. *)
Definition other_line (majmin line : bytes) : Prop :=
  line_wf 512 line ∧
  ∃ tok r, strtok (bs "-") (line ++ [10]) = Some (tok, r) ∧ strstr tok majmin = None.

Lemma mountinfo_others pre lines majmin fstype n :
  Forall (other_line majmin) pre →
  mountinfo_lines (((fun l => l ++ [10]) <$> pre) ++ lines) majmin fstype n =
  mountinfo_lines lines majmin fstype n.
Proof.
  induction 1 as [|line pre (_ & tok & r & Htok & Hno) _ IH]; [done|].
  rewrite fmap_cons. simpl app. cbn [mountinfo_lines]. by rewrite Htok, Hno.
Qed.

(** The file system of a device is the first word after the first dash of the
    first line of mountinfo whose text before that dash has " major:minor ": right
    when the dash is the separator of the optional fields, and the rest of the mount
    point when the mount point itself has a dash. *)
Theorem mountinfo_fstype `{Machine} {W} `{OS W} (devno : Z) (fstype before tok rest : bytes)
    (k : nat) (pre post : list bytes) (s : state W) (w' : W) :
  let majmin := bs " " ++ majmin_text devno ++ bs " " in
  let line := before ++ bs "-" ++ replicate k 32 ++ tok ++ bs " " ++ rest in
  sys_read_text (bs "/proc/self/mountinfo") (st_os s) =
    (Some (unlines (pre ++ line :: post)), w') →
  Forall (other_line majmin) pre → line_wf 512 line → Forall (line_wf 512) post →
  before ≠ [] → free_of [45] before → is_Some (strstr before majmin) →
  tok ≠ [] → free_of [32] tok → zlen tok < 32 →
  ∃ fstype', get_blkdev_fstype_from_mountinfo devno fstype 32 s =
               Ret ((0, fstype'), MkState (st_heap s) w' (st_log s)) ∧
    length fstype' = 32%nat ∧ c_str fstype' = toLowerCase tok.
Proof.
  intros majmin line Hread Hpre Hline Hpost Hb Hbd [r Hfound] Ht Htf Hlen.
  assert (Htok0 : free_of [0] tok).
  { destruct Hline as [Hl _]. unfold line, free_of in Hl. rewrite !Forall_app in Hl.
    destruct Hl as (_ & _ & _ & Hl & _). apply (free_of_weaken [10; 0]); [clear; set_solver|exact Hl]. }
  destruct (arr_lower_string 32 tok Htok0 ltac:(lia)) as (a & Ha & Hal & Has).
  exists a. split; [|done].
  unfold get_blkdev_fstype_from_mountinfo, fopen_r, sys, bind at 1. rewrite Hread. cbn [obind].
  rewrite fgets_all_lines; cycle 1.
  { apply Forall_app. split; [eapply Forall_impl; [exact Hpre|]; by intros ? []|].
    by apply Forall_cons. }
  rewrite fmap_app, fmap_cons, mountinfo_others by done.
  unfold lift. cbn [mountinfo_lines]. unfold line. rewrite <- !app_assoc.
  change (bs "-" ++ ?x) with (45 :: x). change (bs "-") with [45].
  rewrite strtok_first by done. fold majmin. rewrite Hfound.
  change (bs " ") with [32]. rewrite strtok_skip.
  change ([32] ++ ?x) with (32 :: x). rewrite strtok_first by done.
  by rewrite Ha.
Qed.

Definition mountinfo_os (text : bytes) : sample :=
  MkSample [] [] [] [(bs "/proc/self/mountinfo", text)] [] [] [] [].

Lemma mountinfo_fstype_witness :
  ∃ fstype',
    get_blkdev_fstype_from_mountinfo (makedev 8 1) (arr_zero 32) 32
      (MkState (MkHeap ∅ 4096)
         (mountinfo_os (unlines [bs "30 1 8:2 / / rw - xfs /dev/sda2 rw";
                                 bs "36 30 8:1 / /mnt rw,noatime - Ext4 /dev/sda1 rw"])) [])
      = Ret ((0, fstype'), MkState (MkHeap ∅ 4096)
         (mountinfo_os (unlines [bs "30 1 8:2 / / rw - xfs /dev/sda2 rw";
                                 bs "36 30 8:1 / /mnt rw,noatime - Ext4 /dev/sda1 rw"])) []) ∧
    length fstype' = 32%nat ∧ c_str fstype' = bs "ext4".
Proof.
  refine (@mountinfo_fstype x86_64 sample _ (makedev 8 1) (arr_zero 32)
    (bs "36 30 8:1 / /mnt rw,noatime ") (bs "Ext4") (bs "/dev/sda1 rw") 1
    [bs "30 1 8:2 / / rw - xfs /dev/sda2 rw"] [] (MkState (MkHeap ∅ 4096) _ []) _ _ _ _ _ _ _ _ _ _ _).
  - reflexivity.
  - constructor; [|constructor]. split; [apply (bool_decide_eq_true_1 _); vm_compute; reflexivity|].
    eexists _, _. split; vm_compute; reflexivity.
  - apply (bool_decide_eq_true_1 _). vm_compute. reflexivity.
  - constructor.
  - done.
  - apply (bool_decide_eq_true_1 _). vm_compute. reflexivity.
  - eexists. vm_compute. reflexivity.
  - done.
  - apply (bool_decide_eq_true_1 _). vm_compute. reflexivity.
  - done.
Defined.

(** A mount point with a dash: an ext4 file system is taken for "disk". *)
Example mountinfo_dash :
  match get_blkdev_fstype_from_mountinfo (makedev 8 1) (arr_zero 32) 32
    (MkState (MkHeap ∅ 4096)
       (mountinfo_os (unlines [bs "36 30 8:1 / /mnt/my-disk rw,noatime - ext4 /dev/sda1 rw"])) [])
  with Ret ((r, a), _) => bool_decide (r = 0 ∧ c_str a = bs "disk") | _ => false end = true.
Proof. vm_compute. reflexivity. Qed.

(** ** The search of sysfs *)
Section Search.
  Context {W : Type} `{OS W} `{!StaticOS W}.
  Context (w : W) (majmin : bytes).

Definition children (base : bytes) : list os_dirent :=
  match fst (sys_opendir base w) with Some ds => ds | None => [] end.

(** The entry [d] of [base] is searched through, as a directory or as a link. *)
Definition goes_dir (base : bytes) (d : os_dirent) : Prop :=
  is_dot_name (d_name d) = false ∧ ingore_dev_dir (d_name d) = false ∧
  ∃ st, fst (sys_lstat (dev_path base (d_name d)) w) = Some st ∧ S_ISDIR (st_mode st) = true.
Definition goes_link (base : bytes) (d : os_dirent) : Prop :=
  is_dot_name (d_name d) = false ∧ ingore_dev_dir (d_name d) = false ∧
  ∃ st, fst (sys_lstat (dev_path base (d_name d)) w) = Some st ∧
        S_ISDIR (st_mode st) = false ∧ S_ISLNK (st_mode st) = true.

(** The directories the search visits; links are followed once, from the top. *)
Inductive reach : bytes → bool → bytes → Prop :=
  | reach_here base fl : reach base fl base
  | reach_dir base fl d b :
      d ∈ children base → goes_dir base d →
      reach (dev_path base (d_name d)) fl b → reach base fl b
  | reach_link base d b :
      d ∈ children base → goes_link base d →
      reach (dev_path base (d_name d)) false b → reach base true b.

(** The tree under a directory has less than [n] levels. *)
Inductive shallow : nat → bytes → bool → Prop :=
  | shallow_S n base fl :
      (∀ d, d ∈ children base → goes_dir base d → shallow n (dev_path base (d_name d)) fl) →
      (∀ d, d ∈ children base → fl = true → goes_link base d →
            shallow n (dev_path base (d_name d)) false) →
      shallow (S n) base fl.

(** The entry [d] of [base] is the "dev" file of the device. *)
Definition dev_entry (base : bytes) (d : os_dirent) : Prop :=
  d_name d = bs "dev" ∧
  ∃ st text, fst (sys_lstat (dev_path base (d_name d)) w) = Some st ∧
    S_ISREG (st_mode st) = true ∧
    fst (sys_read_text (dev_path base (d_name d)) w) = Some text ∧
    dev_file_matches majmin text = true.
Definition has_dev (base : bytes) : Prop := ∃ d, d ∈ children base ∧ dev_entry base d.

(** What the answer of the search from [base] means. *)
Definition search_answer (base : bytes) (fl : bool) (r : option bytes) : Prop :=
  match r with
  | Some p => ∃ b, reach base fl b ∧ has_dev b ∧ p = snprintf 256 b
  | None => ∀ b, reach base fl b → ¬ has_dev b
  end.

Lemma static_call {A} (call : W → A * W) (s : state W) :
  st_os s = w → snd (call w) = w → sys call s = Ret (fst (call w), s).
Proof.
  intros Hs Hw. unfold sys. rewrite Hs. destruct (call w) as [a w'] eqn:E. simpl in *. subst w'.
  rewrite <- Hs. by destruct s.
Qed.

Lemma reg_not_dir_link m : S_ISREG m = true → S_ISDIR m = false ∧ S_ISLNK m = false.
Proof. unfold S_ISREG, S_ISDIR, S_ISLNK. lia. Qed.

(** The last case of the body: a regular file. *)
Lemma search_regular rec base fl entries d st r0 (s : state W) :
  st_os s = w → d ∈ children base →
  fst (sys_lstat (dev_path base (d_name d)) w) = Some st →
  search_entries rec majmin base fl entries s = Ret (r0, s) →
  let continue := search_entries rec majmin base fl entries in
  ∃ r, (if S_ISREG (st_mode st) && strcmp_eq (d_name d) (bs "dev") then
          let! file := fopen_r (dev_path base (d_name d)) in
          match file with
          | Some text => if dev_file_matches majmin text
                         then ret (Some (snprintf 256 base)) else continue
          | None => continue
          end
        else continue) s = Ret (r, s) ∧
    (search_answer base fl (Some (snprintf 256 base)) ∧ r = Some (snprintf 256 base) ∨
     r = r0 ∧ ¬ dev_entry base d).
Proof.
  intros Hs Hin Est Hrun continue. unfold continue.
  destruct (S_ISREG (st_mode st)) eqn:Ereg; cbn [andb]; cycle 1.
  { exists r0. split; [done|right]. split; [done|].
    intros (_ & st' & text & Hst' & ? & _). rewrite Est in Hst'. injection Hst' as <-. congruence. }
  unfold strcmp_eq. case_bool_decide as Ename; cycle 1.
  { exists r0. split; [done|right]. split; [done|]. by intros [? _]. }
  assert (Hop : fopen_r (dev_path base (d_name d)) s =
                Ret (fst (sys_read_text (dev_path base (d_name d)) w), s))
    by (apply static_call; [done|apply static_read]).
  rewrite (bind_eq _ _ _ _ _ Hop).
  destruct (fst (sys_read_text (dev_path base (d_name d)) w)) as [text|] eqn:Etext; cycle 1.
  { exists r0. split; [done|right]. split; [done|].
    intros (_ & st' & text & _ & _ & ? & _). congruence. }
  destruct (dev_file_matches majmin text) eqn:Em.
  - exists (Some (snprintf 256 base)). split; [done|left]. split; [|done]. exists base.
    split_and!; [constructor| |done]. exists d. split; [done|]. split; [done|]. by exists st, text.
  - exists r0. split; [done|right]. split; [done|].
    intros (_ & st' & text' & _ & _ & Ht & ?). congruence.
Qed.

(** The loop over some of the entries: it finds the device, or these entries do not
    lead to it. *)
Lemma search_entries_spec (rec : bytes → bool → prog W (option bytes)) base fl entries
    (s : state W) :
  st_os s = w → (∀ d, d ∈ entries → d ∈ children base) →
  (∀ d, d ∈ children base → goes_dir base d →
    ∃ r, rec (dev_path base (d_name d)) fl s = Ret (r, s) ∧
         search_answer (dev_path base (d_name d)) fl r) →
  (∀ d, d ∈ children base → fl = true → goes_link base d →
    ∃ r, rec (dev_path base (d_name d)) false s = Ret (r, s) ∧
         search_answer (dev_path base (d_name d)) false r) →
  ∃ r, search_entries rec majmin base fl entries s = Ret (r, s) ∧
    match r with
    | Some p => search_answer base fl (Some p)
    | None => ∀ d, d ∈ entries → ¬ dev_entry base d ∧
        (goes_dir base d → search_answer (dev_path base (d_name d)) fl None) ∧
        (fl = true → goes_link base d → search_answer (dev_path base (d_name d)) false None)
    end.
Proof.
  intros Hs Hsub Hdir Hlink. induction entries as [|d entries IH].
  { exists None. split; [done|]. intros d Hd. by apply elem_of_nil in Hd. }
  destruct IH as (r0 & Hrun & Hr0); [set_solver|].
  (* the entry leads nowhere: the rest decides *)
  assert (Hskip : ¬ dev_entry base d →
    (goes_dir base d → search_answer (dev_path base (d_name d)) fl None) →
    (fl = true → goes_link base d → search_answer (dev_path base (d_name d)) false None) →
    match r0 with
    | Some p => search_answer base fl (Some p)
    | None => ∀ d', d' ∈ d :: entries → ¬ dev_entry base d' ∧
        (goes_dir base d' → search_answer (dev_path base (d_name d')) fl None) ∧
        (fl = true → goes_link base d' → search_answer (dev_path base (d_name d')) false None)
    end).
  { intros H1 H2 H3. destruct r0 as [p|]; [done|]. intros d' [->|Hd']%elem_of_cons; [done|].
    by apply Hr0. }
  assert (Hin : d ∈ children base) by (apply Hsub; set_solver).
  assert (Hdev : dev_entry base d → is_dot_name (d_name d) = false).
  { intros [-> _]. done. }
  cbn [search_entries]. destruct (is_dot_name (d_name d)) eqn:Edot.
  { exists r0. split; [done|]. apply Hskip; [|intros (? & _); congruence|intros _ (? & _); congruence].
    intros Hd. specialize (Hdev Hd). congruence. }
  clear Hdev.
  assert (Hlst : lstat (dev_path base (d_name d)) s =
                 Ret (fst (sys_lstat (dev_path base (d_name d)) w), s))
    by (apply static_call; [done|apply static_lstat]).
  rewrite (bind_eq _ _ _ _ _ Hlst). clear Hlst.
  destruct (fst (sys_lstat (dev_path base (d_name d)) w)) as [st|] eqn:Est; cycle 1.
  { exists r0. split; [done|]. unfold dev_entry, goes_dir, goes_link in *.
    apply Hskip; [intros (_ & ? & ? & ? & _)|intros (_ & _ & ? & ? & _)|intros _ (_ & _ & ? & ? & _)];
      congruence. }
  assert (Hst : ∀ P : stat → Prop, (∃ st', Some st = Some st' ∧ P st') → P st)
    by (intros P (st' & [= <-] & ?); done).
  destruct (S_ISDIR (st_mode st)) eqn:Edir.
  { assert (Hnodev : ¬ dev_entry base d).
    { intros (_ & st' & text & Hst' & Hreg & _). rewrite Est in Hst'. injection Hst' as <-.
      apply reg_not_dir_link in Hreg. destruct Hreg. congruence. }
    assert (Hnolink : ¬ goes_link base d).
    { intros (_ & _ & st' & Hst' & ? & _). rewrite Est in Hst'. injection Hst' as <-. congruence. }
    destruct (ingore_dev_dir (d_name d)) eqn:Eign.
    { exists r0. split; [done|]. apply Hskip; [done| |by intros _ ?].
      intros (_ & ? & _). congruence. }
    assert (Hgoes : goes_dir base d) by (split_and!; [done..|by exists st]).
    destruct (Hdir d Hin Hgoes) as (r & Hr & Hans). rewrite (bind_eq _ _ _ _ _ Hr).
    destruct r as [p|]; [|exists r0; split; [done|]; by apply Hskip].
    exists (Some p). split; [done|]. destruct Hans as (b & Hb & ?). exists b.
    split; [by eapply reach_dir|done]. }
  assert (Hnodir : ¬ goes_dir base d).
  { intros (_ & _ & st' & Hst' & ?). rewrite Est in Hst'. injection Hst' as <-. congruence. }
  pose proof (search_regular rec base fl entries d st r0 s Hs Hin Est Hrun) as Hregular.
  cbv zeta in Hregular.
  destruct (S_ISLNK (st_mode st)) eqn:Elnk; [destruct fl|]; cbn [andb].
  - assert (Hnodev : ¬ dev_entry base d).
    { intros (_ & st' & text & Hst' & Hreg & _). rewrite Est in Hst'. injection Hst' as <-.
      apply reg_not_dir_link in Hreg. destruct Hreg. congruence. }
    destruct (ingore_dev_dir (d_name d)) eqn:Eign.
    { exists r0. split; [done|]. apply Hskip; [done..|]. intros _ (_ & ? & _). congruence. }
    assert (Hgoes : goes_link base d) by (split_and!; [done..|by exists st]).
    destruct (Hlink d Hin eq_refl Hgoes) as (r & Hr & Hans). rewrite (bind_eq _ _ _ _ _ Hr).
    destruct r as [p|]; [|exists r0; split; [done|]; by apply Hskip].
    exists (Some p). split; [done|]. destruct Hans as (b & Hb & ?). exists b.
    split; [by eapply reach_link|done].
  - destruct Hregular as (r & Hr & [[Hans ->]|[-> Hnodev]]); [by eexists|].
    exists r0. split; [done|]. by apply Hskip.
  - destruct Hregular as (r & Hr & [[Hans ->]|[-> Hnodev]]); [by eexists|].
    exists r0. split; [done|]. apply Hskip; [done..|].
    intros _ (_ & _ & st' & Hst' & _ & ?). rewrite Est in Hst'. injection Hst' as <-. congruence.
Qed.

Lemma search_spec fuel base fl (s : state W) :
  st_os s = w → shallow fuel base fl →
  ∃ r, searchDevDirs fuel majmin base fl s = Ret (r, s) ∧ search_answer base fl r.
Proof.
  intros Hs Hsh. induction Hsh as [n base fl _ IHd _ IHl]. cbn [searchDevDirs].
  assert (Hop : opendir base s = Ret (fst (sys_opendir base w), s))
    by (apply static_call; [done|apply static_opendir]).
  rewrite (bind_eq _ _ _ _ _ Hop).
  assert (Hans : ∀ r, match r with
    | Some p => search_answer base fl (Some p)
    | None => ∀ d, d ∈ children base → ¬ dev_entry base d ∧
        (goes_dir base d → search_answer (dev_path base (d_name d)) fl None) ∧
        (fl = true → goes_link base d → search_answer (dev_path base (d_name d)) false None)
    end → search_answer base fl r).
  { intros [p|] Hr; [done|]. intros b Hb. inversion Hb as [|? ? d ? Hd Hg Hb'|? d ? Hd Hg Hb']; subst.
    - intros (d & Hd & Hdev). by destruct (Hr d Hd) as [? _].
    - by apply (proj1 (proj2 (Hr d Hd)) Hg).
    - by apply (proj2 (proj2 (Hr d Hd)) eq_refl Hg). }
  unfold children in Hans at 1, IHd at 1, IHl at 1.
  destruct (fst (sys_opendir base w)) as [ds|] eqn:Eds; cycle 1.
  { exists None. split; [done|]. apply Hans. intros d Hd. by apply elem_of_nil in Hd. }
  assert (Hch : children base = ds) by (unfold children; by rewrite Eds).
  destruct (search_entries_spec (searchDevDirs n majmin) base fl ds s Hs) as (r & Hrun & Hr);
    rewrite ?Hch; [done|auto..|].
  exists r. split; [done|by apply Hans].
Qed.

End Search.

(** The search of sysfs decides: on an operating system that does not change
    while it is asked and whose tree under the starting point is finite, it ends, and
    either returns a directory (cut at 255 bytes) that it can reach and whose "dev"
    file has the device's numbers, or no directory it can reach has such a file. *)
Theorem search_dev_dirs_decides {W} `{OS W} `{!StaticOS W} (majmin base : bytes)
    (fl : bool) (fuel : nat) (s : state W) :
  shallow (st_os s) fuel base fl →
  ∃ r, searchDevDirs fuel majmin base fl s = Ret (r, s) ∧
    match r with
    | Some p => ∃ b, reach (st_os s) base fl b ∧ has_dev (st_os s) majmin b ∧ p = snprintf 256 b
    | None => ∀ b, reach (st_os s) base fl b → ¬ has_dev (st_os s) majmin b
    end.
Proof. intros Hsh. by apply (search_spec (st_os s)). Qed.

Definition sysfs_os : sample :=
  MkSample [] [(bs "/sys/block/sda", MkStat 40960 0 0 0 0 0);
               (bs "/sys/block/sda/sda1", MkStat 16384 0 0 0 0 0);
               (bs "/sys/block/sda/dev", MkStat 32768 0 0 0 0 0);
               (bs "/sys/block/sda/sda1/dev", MkStat 32768 0 0 0 0 0)]
    [(bs "/sys/block", [MkDirent (bs ".") 1 4; MkDirent (bs "sda") 2 10]);
     (bs "/sys/block/sda", [MkDirent (bs "dev") 3 8; MkDirent (bs "sda1") 4 4]);
     (bs "/sys/block/sda/sda1", [MkDirent (bs "dev") 5 8])]
    [(bs "/sys/block/sda/dev", bs "8:0" ++ [10]); (bs "/sys/block/sda/sda1/dev", bs "8:1" ++ [10])]
    [] [] [] [].
Definition sysfs_state : state sample := MkState (MkHeap ∅ 4096) sysfs_os [].

(** The bound on the depth, computed. *)
Fixpoint shallowb {W} `{OS W} (w : W) (n : nat) (base : bytes) (fl : bool) : bool :=
  match n with
  | O => false
  | S n =>
      forallb (fun d =>
        is_dot_name (d_name d) || ingore_dev_dir (d_name d) ||
        match fst (sys_lstat (dev_path base (d_name d)) w) with
        | Some st =>
            if S_ISDIR (st_mode st) then shallowb w n (dev_path base (d_name d)) fl
            else if S_ISLNK (st_mode st) && fl then shallowb w n (dev_path base (d_name d)) false
            else true
        | None => true
        end) (children w base)
  end.

Lemma shallowb_sound {W} `{OS W} (w : W) n base fl :
  shallowb w n base fl = true → shallow w n base fl.
Proof.
  revert base fl. induction n as [|n IH]; intros base fl; [done|]. cbn [shallowb].
  intros Hall. rewrite forallb_forall in Hall. constructor.
  - intros d Hd (Hdot & Hign & st & Hst & Hdir). specialize (Hall d).
    rewrite Hdot, Hign, Hst, Hdir in Hall. apply IH, Hall. by apply list_elem_of_In.
  - intros d Hd -> (Hdot & Hign & st & Hst & Hdir & Hlnk). specialize (Hall d).
    rewrite Hdot, Hign, Hst, Hdir, Hlnk in Hall. apply IH, Hall. by apply list_elem_of_In.
Qed.

Lemma search_dev_dirs_decides_witness :
  ∃ r, searchDevDirs 3 (bs "8:1") (bs "/sys/block") true sysfs_state = Ret (r, sysfs_state) ∧
    match r with
    | Some p => ∃ b, reach sysfs_os (bs "/sys/block") true b ∧ has_dev sysfs_os (bs "8:1") b ∧
                     p = snprintf 256 b
    | None => ∀ b, reach sysfs_os (bs "/sys/block") true b → ¬ has_dev sysfs_os (bs "8:1") b
    end.
Proof.
  apply (search_dev_dirs_decides (bs "8:1") (bs "/sys/block") true 3 sysfs_state).
  apply shallowb_sound. vm_compute. reflexivity.
Defined.

Example sysfs_found :
  searchDevDirs 3 (bs "8:1") (bs "/sys/block") true sysfs_state
  = Ret (Some (bs "/sys/block/sda/sda1"), sysfs_state).
Proof. vm_compute. reflexivity. Qed.
