(* ===== verification/Fhf.v ===== *)
(** * The hidden-file finder: fhf.c

    From a path to the blocks that hold it, on its device and on the parent of its
    device; the two copies compared, the directory parsed and the hidden names
    printed. *)
From S2P Require Export Hidden BlkDev Volumes Lsblks.
#[local] Open Scope Z_scope.

(** ** Output *)

(** A [FILE *] open for writing. *)
Inductive out_file : Type := FStdout | FPath (path : bytes).

Section Defs.
  Context `{Machine} {W V : Type} `{OS W} `{VecOps V}.

Definition fwrite (fp : out_file) (data : bytes) : prog W Z :=
  match fp with
  | FStdout => do! print data in ret (zlen data)
  | FPath path => sys (sys_fwrite path data)
  end.

(** [writedata]: a file that claims to have taken more bytes than it was given
    would make the loop read past the data. *)
Fixpoint writedata_loop (fuel : nat) (fp : out_file) (data : bytes) : prog W Z :=
  match fuel with
  | O => spin
  | S fuel =>
      if zlen data =? 0 then ret 0 else
      let! writeBytes := fwrite fp data in
      if writeBytes =? 0 then ret 1 else
      if zlen data <? writeBytes then undef else
      writedata_loop fuel fp (drop (Z.to_nat writeBytes) data)
  end.
Definition writedata (fp : out_file) (data : bytes) : prog W Z :=
  writedata_loop (S (length data)) fp data.

(** ** query_blocks *)
Record QueryBlocks : Type := MkQb {
  qb_path : bytes;
  qb_fs : stat;
  qb_dev : DeviceInfo;
  qb_parent_dev : DeviceInfo;
  qb_parentoffset : Z;
  qb_blkunitsz : Z;
  qb_blknums : V;
  qb_blkcount : Z;
}.

(** [memset(&qb, 0, sizeof(qb)); vector_init(&qb.blknums)] *)
Definition qb_init : QueryBlocks :=
  MkQb (arr_zero 256) (MkStat 0 0 0 0 0 0) zero_device zero_device 0 0 vec_init 0.

Definition clean_queryblock (qb : QueryBlocks) : prog W V := vec_free (qb_blknums qb) false.

(** The first byte of [dev] is not NUL. *)
Definition has_dev_name (d : DeviceInfo) : bool :=
  match di_dev d with c :: _ => negb (c =? 0) | [] => false end.

(** The block numbers of the file, in units of [blkunitsz] bytes: the result, and
    [None] for the file systems that are not supported.  [get_blocks] is the
    [ext_get_inode_datablocks] of the build. *)
Definition query_units (get_blocks : bytes → Z → V → prog W (Z * (V * Z))) (path : bytes)
    (fs : stat) (di : DeviceInfo) (qb : QueryBlocks) : prog W (Z * QueryBlocks) :=
  let set_blocks unit blknums blkcount :=
    MkQb (qb_path qb) (qb_fs qb) (qb_dev qb) (qb_parent_dev qb) (qb_parentoffset qb)
         unit blknums blkcount in
  let! fstype := lift (arr_str (di_fstype di)) in
  if strncmp_eq fstype (bs "xfs") 3 then
    let! '(r, (blknums, blkcount)) := xfs_get_path_extents path (qb_blknums qb) in
    let qb := set_blocks (qb_blkunitsz qb) blknums blkcount in
    if negb (r =? 0) then
      do! eprintln (bs "query blocks: get extents(xfs): " ++ path ++ bs ": error") in ret (1, qb)
    else if blkcount =? 0 then
      do! eprintln (bs "query blocks: get extents(xfs): " ++ path ++ bs ": no blocks") in
      ret (1, qb)
    else ret (0, set_blocks 512 blknums blkcount)
  else if strncmp_eq fstype (bs "ext") 3 then
    let blocksize := i32 (st_blksize fs) in
    let! dev := lift (arr_str (di_dev di)) in
    let! '(r, (blknums, blkcount)) := get_blocks dev (st_ino fs) (qb_blknums qb) in
    if r =? 0 then ret (0, set_blocks blocksize blknums blkcount) else
    do! sleep 2 in
    let! blknums := vec_free blknums false in
    let! '(r, (blknums, blkcount)) := get_blocks dev (st_ino fs) blknums in
    if r =? 0 then ret (0, set_blocks blocksize blknums blkcount) else
    do! eprintln (bs "query blocks: " ++ path ++ bs ": call debugfs failed") in
    ret (1, set_blocks (qb_blkunitsz qb) blknums blkcount)
  else
    do! eprintln (bs "query blocks: " ++ path ++ bs ": unsupported fstype(" ++ fstype ++ bs ")") in
    ret (1, qb).

(** Where the volume starts on the parent device. *)
Definition query_offset (path : bytes) (di diparent : DeviceInfo) (qb : QueryBlocks) :
    prog W (Z * QueryBlocks) :=
  let set_offset off :=
    MkQb (qb_path qb) (qb_fs qb) (qb_dev qb) (qb_parent_dev qb) off (qb_blkunitsz qb)
         (qb_blknums qb) (qb_blkcount qb) in
  let fail qb what :=
    do! eprintln (bs "query blocks: " ++ path ++ bs ": " ++ what) in ret (1, qb) in
  let! type := lift (arr_str (di_type di)) in
  let parent := lift (arr_str (di_dev diparent)) in
  let self := lift (arr_str (di_dev di)) in
  if strcmp_eq type (bs "part") then
    let! pdev := parent in
    let! dev := self in
    let! '(r, (start, _)) := ext_parse_volume_range pdev dev (0, 0) in
    if negb (r =? 0) then fail qb (bs "failed to parse part range")
    else ret (0, set_offset (u64 (start * 512)))
  else if strcmp_eq type (bs "raid") then
    let! pdev := parent in
    let! md := lift (arr_str (di_md diparent)) in
    let! '(r, (start, _)) := ext_parse_volume_range pdev md (0, 0) in
    if negb (r =? 0) then fail qb (bs "failed to parse raid part range")
    else ret (0, set_offset (u64 (start * 512)))
  else if strcmp_eq type (bs "lvm") then
    let! pdev := parent in
    let! '(r, start) := lvm_parse_pvs_pestart pdev 0 in
    if negb (r =? 0) then fail qb (bs "failed to get pvs pestart") else
    let off := u64 (start * 512) in
    let! dev := self in
    let! '(r, (start, _, usize)) := lvm_parse_volume_range pdev dev (0, 0, 0) in
    if negb (r =? 0) then fail (set_offset off) (bs "failed to parse lvm range")
    else ret (0, set_offset (u64 (off + start * usize * 512)))
  else fail qb (bs "unsupported type(" ++ type ++ bs ")").

Definition query_blocks (get_blocks : bytes → Z → V → prog W (Z * (V * Z))) (path : bytes)
    (qb : QueryBlocks) : prog W (Z * QueryBlocks) :=
  let! fs := do_stat path in
  match fs with
  | None => do! eprint_errno (bs "query blocks: stat: " ++ path) in ret (2, qb)
  | Some fs =>
      let qb := MkQb (strncpy 255 path ++ drop 255 (qb_path qb)) fs (qb_dev qb) (qb_parent_dev qb)
                     (qb_parentoffset qb) (qb_blkunitsz qb) (qb_blknums qb) (qb_blkcount qb) in
      let! a := access (bs "/sys/block") F_OK in
      let! b := (if a then ret true else access (bs "/sys/dev/block") F_OK) in
      if negb b then
        do! eprint_errno (bs "query blocks: access /sys/block or /sys/dev/block") in ret (2, qb)
      else
      let! '(r, di, diparent) := myLsblk (st_dev fs) zero_device zero_device in
      if negb (r =? 0) then
        do! eprintln (bs "query blocks: lsblk: " ++ path ++ bs ": failed") in ret (2, qb)
      else
      let qb := MkQb (qb_path qb) fs di diparent (qb_parentoffset qb) (qb_blkunitsz qb)
                     (qb_blknums qb) (qb_blkcount qb) in
      let! '(r, qb) := query_units get_blocks path fs di qb in
      if negb (r =? 0) then ret (r, qb) else
      if negb (has_dev_name diparent) then ret (101, qb) else
      query_offset path di diparent qb
  end.

(** ** dump_blocks *)

(** The marker -1 of [blknums], as [uint64_t]. *)
Definition extent_mark : Z := 2 ^ 64 - 1.

(** The loop; [curr] and [j] are as in the source, the array holds the pointers of
    the extents.  [None] when a block cannot be read. *)
Fixpoint dump_loop (k : nat) (n j curr mem : Z) (path : bytes) (qb : QueryBlocks)
    (readparent : bool) (extentPtr : V) : prog W (option V * V) :=
  match k with
  | O => ret (Some extentPtr, extentPtr)
  | S k =>
      let! bno := lift (vec_get (qb_blknums qb) n) in
      if bno =? extent_mark then
        let! extentPtr := lift (vec_push extentPtr curr) in
        dump_loop k (n + 1) j curr mem path qb readparent extentPtr
      else
        let unit := qb_blkunitsz qb in
        let offset := if readparent then u64 (qb_parentoffset qb + bno * unit)
                      else u64 (bno * unit) in
        if 2 ^ 63 <=? offset then ret (None, extentPtr) else
        if INT_MAX <? j * unit then undef else
        let! r := sys (sys_fread_at path offset unit) in
        match r with
        | None => ret (None, extentPtr)
        | Some data =>
            do! store_block mem (j * unit) data in
            dump_loop k (n + 1) (j + 1) (curr + unit) mem path qb readparent extentPtr
        end
  end.

(** The result, [*ppdata] when it is set, and the array of the extents.  The memory
    is indeterminate until it is read into, here zero. *)
Definition dump_blocks (qb : QueryBlocks) (readparent : bool) (extentPtr : V) :
    prog W (Z * option Z * V) :=
  let! path := lift (arr_str (di_dev (if readparent then qb_parent_dev qb else qb_dev qb))) in
  let! ok := sys (sys_fopen_rb path) in
  if negb (ok : bool) then ret (2, None, extentPtr) else
  let! mem := malloc (OBlock (replicate (Z.to_nat (size_t (qb_blkunitsz qb * qb_blkcount qb))) 0)) in
  let! '(r, extentPtr) := dump_loop (Z.to_nat (vec_count (qb_blknums qb))) 0 0 mem mem path qb
                            readparent extentPtr in
  match r with
  | None => do! free mem in ret (1, None, extentPtr)
  | Some extentPtr => ret (0, Some mem, extentPtr)
  end.

(** ** The command *)

(** The options as getopt_long returns them, [OptBad] being '?'. *)
Inductive opt : Type :=
  | OptF (arg : bytes) | OptO (arg : bytes) | OptP | OptC | OptV | OptH | OptBad.

Record options : Type := MkOptions {
  fileName : option bytes;
  read_parent : Z;
  cmp_parent_only : bool;
  output : option bytes;
  verbose : Z;
}.

Definition printHelp : prog W unit :=
  do! eprintln (bs "Usage: fhf [OPTIONS]") in
  do! eprintln (bs "Options:") in
  do! eprintln (bs "  -f, --file-path") in
  do! eprintln (bs "  -p, --read-parent") in
  do! eprintln (bs "  -c, --cmp-parent-only") in
  do! eprintln (bs "  -o, --output") in
  do! eprintln (bs "  -v, --verbose") in
  eprintln (bs "  -h, --help").

(** [inr] is an early return of the command. *)
Fixpoint parse_opts (opts : list opt) (o : options) : prog W (options + Z) :=
  match opts with
  | [] => ret (inl o)
  | OptF a :: opts =>
      parse_opts opts (MkOptions (Some a) (read_parent o) (cmp_parent_only o) (output o) (verbose o))
  | OptO a :: opts =>
      parse_opts opts (MkOptions (fileName o) (read_parent o) (cmp_parent_only o) (Some a) (verbose o))
  | OptP :: opts =>
      parse_opts opts (MkOptions (fileName o) (read_parent o + 1) (cmp_parent_only o) (output o) (verbose o))
  | OptC :: opts =>
      parse_opts opts (MkOptions (fileName o) (read_parent o) true (output o) (verbose o))
  | OptV :: opts =>
      parse_opts opts (MkOptions (fileName o) (read_parent o) (cmp_parent_only o) (output o) (verbose o + 1))
  | OptH :: _ => do! printHelp in ret (inr 0)
  | OptBad :: _ => ret (inr 1)
  end.

(** The list of the blocks, with -vv. *)
Fixpoint show_blocks (k : nat) (i : Z) (blknums : V) : prog W unit :=
  match k with
  | O => ret tt
  | S k =>
      let! bno := lift (vec_get blknums i) in
      do! (if bno =? extent_mark then (if 0 <? i then print (bs ", ") else ret tt)
           else print (udec bno ++ bs " ")) in
      show_blocks k (i + 1) blknums
  end.

Definition show_details (o : options) (file : bytes) (qb : QueryBlocks) : prog W unit :=
  if has_dev_name (qb_dev qb) then
    if verbose o <? 1 then ret tt else
    let dev := qb_dev qb in
    let! name := lift (arr_str (di_name dev)) in
    let! devpath := lift (arr_str (di_dev dev)) in
    let! maj_min := lift (arr_str (di_maj_min dev)) in
    let! type := lift (arr_str (di_type dev)) in
    let! fstype := lift (arr_str (di_fstype dev)) in
    let! pdev := lift (arr_str (di_dev (qb_parent_dev qb))) in
    do! print (unlines [bs "----details of partition----"; bs "FILE=" ++ file;
                        bs "DEV_NAME=" ++ name; bs "DEV=" ++ devpath;
                        bs "DEV_MAJ_MIN=" ++ maj_min; bs "INODE=" ++ udec (st_ino (qb_fs qb));
                        bs "BLOCKS=" ++ udec (st_blocks (qb_fs qb)); bs "TYPE=" ++ type;
                        bs "FSTYPE=" ++ fstype; bs "PARENT_DEV=" ++ pdev]) in
    do! println (bs "----details of blocks----") in
    do! (if has_dev_name (qb_parent_dev qb)
         then println (bs "offset resides in parentdev=" ++ udec (qb_parentoffset qb))
         else ret tt) in
    do! println (bs "blocksize=" ++ dec (qb_blkunitsz qb)) in
    do! println (bs "blockcount=" ++ udec (qb_blkcount qb)) in
    if (2 <=? verbose o) && negb (qb_blkcount qb =? 0) then
      do! show_blocks (Z.to_nat (vec_count (qb_blknums qb))) 0 (qb_blknums qb) in
      println []
    else ret tt
  else println (bs "query blocks: " ++ file ++ bs ": no partition details.").

(** The first [n] bytes at [p], all of them of one object. *)
Definition load_data (p n : Z) : prog W bytes :=
  let! b := load_block p in
  lift (if zlen b <? n then Undef else Ret (take (Z.to_nat n) b)).

(** What the two parts of [fhf_main] work on. *)
Record work : Type := MkWork {
  outputfp : option out_file;
  blkdata0 : option Z;
  blkdatap : option Z;
  extent_ptr0 : V;
  extent_ptrp : V;
}.

(** [if (output && outputfp == NULL) outputfp = fopen(output, "wb")]; [None] when it
    fails. *)
Definition open_output (o : options) (fp : option out_file) : prog W (option (option out_file)) :=
  match output o, fp with
  | Some path, None =>
      let! ok := sys (sys_fopen_wb path) in
      ret (if ok then Some (Some (FPath path)) else None)
  | _, _ => ret (Some fp)
  end.

Definition separator : bytes :=
  [10] ++ bs "--------0274d4295e64cd697adfad0028b9ee--------" ++ [10].

(** The two copies of the blocks, read and compared: [ret] and the variables. *)
Definition compare_part (o : options) (file : bytes) (qb : QueryBlocks) (datalen : Z)
    (fp : option out_file) : prog W (Z * work) :=
  let! '(r, data0, ext0) := dump_blocks qb false vec_init in
  do! (if negb (r =? 0) then eprintln (bs "dump_blocks: " ++ file ++ bs ": error-0") else ret tt) in
  let! '(r, datap, extp) :=
    (if has_dev_name (qb_parent_dev qb) then
       let! '(r, datap, extp) := dump_blocks qb true vec_init in
       do! (if negb (r =? 0) then eprintln (bs "dump_blocks: " ++ file ++ bs ": error-p")
            else ret tt) in
       ret (r, datap, extp)
     else ret (r, None, vec_init)) in
  let work fp := MkWork fp data0 datap ext0 extp in
  match data0, datap with
  | Some p0, Some pp =>
      let! b0 := load_data p0 datalen in
      let! bp := load_data pp datalen in
      if bool_decide (b0 = bp) then
        do! println (bs "compare_blocks: NODIFF.") in ret (r, work fp)
      else
        do! println (bs "compare_blocks: DIFF! (Suspicious!)") in
        let! fp' := open_output o fp in
        match fp' with
        | None => do! eprint_errno (bs "fopen") in ret (1, work None)
        | Some fp =>
            do! (match fp with
                 | Some f =>
                     do! writedata f b0 in
                     do! writedata f separator in
                     do! writedata f bp in ret tt
                 | None => ret tt
                 end) in
            ret (r, work fp)
        end
  | _, _ => ret (1, work fp)
  end.

(** The names of an array of entries. *)
Fixpoint print_names (k : nat) (i : Z) (v : V) : prog W unit :=
  match k with
  | O => ret tt
  | S k =>
      let! p := lift (vec_get v i) in
      let! e := load_entry p in
      do! println (c_str (name e)) in
      print_names k (i + 1) v
  end.

Definition print_vec (v : V) : prog W unit := print_names (Z.to_nat (vec_count v)) 0 v.

(** The part of a directory: find the hidden names, print them, free the entries. *)
Definition report_dir (o : options) (file fstype : bytes) (extent_ptr : V) (datalen : Z) :
    prog W unit :=
  let! '(_, (raw, dir, hidden)) :=
    find_hidden_files fstype extent_ptr datalen file vec_init vec_init vec_init in
  do! println (bs "Found " ++ udec (vec_count dir) ++ bs " files in path of " ++ file) in
  do! println (bs "Parsed out " ++ udec (vec_count raw) ++ bs " files in blocks of " ++ file) in
  do! (if 2 <=? verbose o then
         do! (if vec_count raw =? 0 then ret tt else println (bs "----file list start----")) in
         do! print_vec raw in
         (if vec_count raw =? 0 then ret tt else println (bs "----file list end----"))
       else ret tt) in
  do! (if 0 <? vec_count hidden then
         do! println (bs "(Suspicious!) Found hidden files in " ++ file) in
         print_vec hidden
       else println (bs "No hidden files found in " ++ file)) in
  do! vec_free hidden false in
  do! vec_free raw true in
  do! vec_free dir true in
  ret tt.

Definition parsed_fstype (fstype : bytes) : bool :=
  strcmp_eq fstype (bs "ext4") || strcmp_eq fstype (bs "ext3") || strcmp_eq fstype (bs "ext2")
  || strcmp_eq fstype (bs "xfs").

(** The second part: dump or parse the copy the options choose; the result and
    [outputfp]. *)
Definition analyse_part (o : options) (file : bytes) (st : stat) (qb : QueryBlocks) (datalen : Z)
    (r : Z) (w : work) : prog W (Z * option out_file) :=
  let '(blkdata, extent_ptr) :=
    if 2 <=? read_parent o then (blkdatap w, extent_ptrp w)
    else if (1 <=? read_parent o) && bool_decide (is_Some (blkdatap w))
    then (blkdatap w, extent_ptrp w)
    else (blkdata0 w, extent_ptr0 w) in
  match blkdata with
  | None => do! eprintln (bs "dump_blocks: " ++ file ++ bs ": error-2") in ret (1, outputfp w)
  | Some p =>
      let! fp := open_output o (outputfp w) in
      match fp with
      | None =>
          do! eprint_errno (bs "fopen: " ++ match output o with Some f => f | None => [] end) in
          ret (1, None)
      | Some fp =>
          do! (match fp with
               | Some f => let! data := load_data p datalen in do! writedata f data in ret tt
               | None => ret tt
               end) in
          if S_ISDIR (st_mode st) then
            let! fstype := lift (arr_str (di_fstype (qb_dev qb))) in
            if parsed_fstype fstype then
              do! report_dir o file fstype extent_ptr datalen in ret (r, fp)
            else
              do! println (bs "Unsupported fstype(" ++ fstype ++ bs ")") in ret (1, fp)
          else ret (r, fp)
      end
  end.

Definition ptr (p : option Z) : Z := match p with Some p => p | None => 0 end.

Definition fhf_main (get_blocks : bytes → Z → V → prog W (Z * (V * Z))) (opts : list opt) :
    prog W Z :=
  let! parsed := parse_opts opts (MkOptions None 0 false None 0) in
  match parsed with
  | inr code => ret code
  | inl o =>
      match fileName o with
      | None => do! printHelp in ret 1
      | Some file =>
          let! st := do_stat file in
          match st with
          | None => do! eprint_errno (bs "stat: " ++ file) in ret 1
          | Some st =>
              let! '(r, qb) := query_blocks get_blocks file qb_init in
              do! show_details o file qb in
              if negb (r =? 0) && negb (r =? 101) then
                do! clean_queryblock qb in ret 1
              else
              let fp := match output o with
                        | Some f => if strcmp_eq f (bs "-") then Some FStdout else None
                        | None => None
                        end in
              do! println (bs "----FHF----") in
              let datalen := size_t (qb_blkunitsz qb * qb_blkcount qb) in
              let! '(r, w) := compare_part o file qb datalen fp in
              let! r :=
                (if cmp_parent_only o then ret r
                 else let! '(r, _) := analyse_part o file st qb datalen r w in ret r) in
              do! free (ptr (blkdata0 w)) in
              do! free (ptr (blkdatap w)) in
              do! vec_free (extent_ptr0 w) false in
              do! vec_free (extent_ptrp w) false in
              do! clean_queryblock qb in
              ret r
          end
      end
  end.

End Defs.
Arguments QueryBlocks V : clear implicits.
Arguments work V : clear implicits.

(** ** dump_blocks reads the blocks of the file *)

(** The state with another content of the block at [p]. *)
Definition with_block {W} (s : state W) (p : Z) (b : bytes) : state W :=
  set_heap (MkHeap (<[p := OBlock b]> (objs (st_heap s))) (brk (st_heap s))) s.

Lemma with_block_twice {W} (s : state W) p b b' :
  with_block (with_block s p b) p b' = with_block s p b'.
Proof. unfold with_block, set_heap; simpl. by rewrite insert_insert_eq. Qed.

Lemma store_block_spec {W} (s : state W) p pre mid post data off :
  objs (st_heap s) !! p = Some (OBlock (pre ++ mid ++ post)) →
  off = zlen pre → length data = length mid →
  store_block p off data s = Ret (tt, with_block s p (pre ++ data ++ post)).
Proof.
  intros Hp -> Hl. unfold store_block. rewrite Hp.
  rewrite bool_decide_true by (rewrite !length_app; lia).
  rewrite Nat2Z.id, take_app_length.
  replace (Z.to_nat (zlen pre + zlen data)) with (length pre + length mid)%nat by lia.
  rewrite (drop_app_add pre), drop_app_length. reflexivity.
Qed.

(** The addresses at which the extents of a list of numbers begin. *)
Fixpoint mark_addrs (a unit : Z) (nums : list Z) : list Z :=
  match nums with
  | [] => []
  | n :: nums => if n =? extent_mark then a :: mark_addrs a unit nums
                 else mark_addrs (a + unit) unit nums
  end.

(** The data of the numbers that are not marks. *)
Definition is_block (n : Z) : Prop := n ≠ extent_mark.

Section Dump.
  Context `{Machine} {W V : Type} `{OS W} `{VecOps V} `{!VecLaws V}.
  Context (path dev : bytes) (base unit : Z) (qb : QueryBlocks V) (rp : bool) (os : W).
  Hypothesis Hread : ∀ off, sys_fread_at path off unit os = (slice off unit dev, os).
  Hypothesis Hmem : ∀ n, mem_ok n = true.
  Hypothesis Hunit : qb_blkunitsz qb = unit ∧ 0 < unit.
  Hypothesis Hbase : base = if rp then qb_parentoffset qb else 0.
  Hypothesis Hdev : zlen dev < 2 ^ 63 ∧ 0 ≤ base.

(** What the device holds at a block number. *)
Definition block_data (n : Z) (d : bytes) : Prop :=
  0 ≤ n ∧ slice (base + n * unit) unit dev = Some d.

Lemma dump_loop_spec nums datas n j (ext : V) pe l (s : state W) mem got rest :
  st_os s = os → vec_rep (qb_blknums qb) l → drop n l = nums →
  Forall2 block_data (filter is_block nums) datas →
  objs (st_heap s) !! mem = Some (OBlock (got ++ rest)) → zlen got = j * unit → 0 ≤ j →
  zlen rest = zlen (filter is_block nums) * unit → zlen (got ++ rest) ≤ INT_MAX →
  0 ≤ mem → mem + zlen (got ++ rest) < 2 ^ 64 →
  vec_rep ext pe → zlen pe + zlen nums < 2 ^ 28 →
  ∃ ext', dump_loop (length nums) (Z.of_nat n) j (mem + zlen got) mem path qb rp ext s =
            Ret ((Some ext', ext'), with_block s mem (got ++ concat datas)) ∧
    vec_rep ext' (pe ++ mark_addrs (mem + zlen got) unit nums).
Proof.
  intros Hos Hl. revert datas n j ext pe s got rest Hos.
  induction nums as [|m nums IH];
    intros datas n j ext pe s got rest Hos Hdrop Hdatas Hobj Hj Hj0 Hrest Hsmall Hmem0 Hfit Hext Hroom.
  { apply Forall2_nil_inv_l in Hdatas as ->. exists ext. simpl.
    assert (rest = []) as ->. { destruct rest; [done|]. rewrite filter_nil in Hrest. simpl in Hrest. lia. }
    rewrite !app_nil_r in *. split; [|done]. unfold ret. do 2 f_equal. unfold with_block. rewrite insert_id by done.
    by destruct s as [[] ? ?]. }
  assert (Hn : l !! n = Some m) by (rewrite <- (Nat.add_0_r n), <- lookup_drop; by rewrite Hdrop).
  assert (Hdrop' : drop (S n) l = nums) by (apply (drop_S _ m) in Hn; congruence).
  cbn [length dump_loop mark_addrs]. unfold bind at 1, lift.
  rewrite (vec_rep_get _ _ _ Hl), Nat2Z.id, Hn by lia. cbn [obind].
  replace (Z.of_nat n + 1) with (Z.of_nat (S n)) by lia.
  destruct Hunit as [Hqu Hu].
  destruct (Z.eqb_spec m extent_mark) as [->|Hm].
  - rewrite filter_cons_False in * by (intros Hb; by apply Hb).
    destruct (vec_rep_push ext pe (mem + zlen got) Hmem Hext) as (ext1 & Hpush & Hext1);
      [simpl in Hroom; lia|].
    rewrite u64_small in Hext1 by (rewrite length_app in Hfit; lia).
    unfold bind at 1, lift. rewrite Hpush. cbn [obind].
    destruct (IH datas (S n) j ext1 (pe ++ [mem + zlen got]) s got rest) as (ext' & Hrun & Hext');
      try done; [rewrite length_app; simpl in *; lia|].
    exists ext'. split; [done|]. by rewrite <- app_assoc in Hext'.
  - rewrite filter_cons_True in * by done.
    apply Forall2_cons_inv_l in Hdatas as (d & datas' & [Hm0 Hslice] & Hdatas & ->).
    rewrite length_cons, Nat2Z.inj_succ in Hrest.
    pose proof (slice_length _ _ _ _ Hslice) as Hd.
    apply slice_Some in Hslice as Hs. destruct Hs as (? & _ & Hend & _).
    assert (Hoff : (if rp then u64 (qb_parentoffset qb + m * qb_blkunitsz qb)
                    else u64 (m * qb_blkunitsz qb)) = base + m * unit).
    { rewrite Hqu, Hbase in *. destruct rp; rewrite u64_small by lia; lia. }
    rewrite Hoff. rewrite (proj2 (Z.leb_gt _ _)) by lia.
    assert (Hsplit : ∃ mid post, rest = mid ++ post ∧ length mid = length d).
    { exists (take (length d) rest), (drop (length d) rest). rewrite take_drop. split; [done|].
      rewrite length_take. lia. }
    destruct Hsplit as (mid & post & -> & Hmid). rewrite !length_app in *.
    rewrite Hqu. rewrite (proj2 (Z.ltb_ge INT_MAX _)) by lia.
    unfold sys at 1, bind at 1. rewrite Hos, Hread, Hslice. cbn [obind].
    assert (Hs' : MkState (st_heap s) os (st_log s) = s) by (subst os; by destruct s).
    rewrite Hs'. clear Hs'.
    rewrite (bind_eq _ _ _ _ _ (store_block_spec s mem got mid post d (j * unit) Hobj
                                  (eq_sym Hj) (eq_sym Hmid))).
    destruct (IH datas' (S n) (j + 1) ext pe (with_block s mem (got ++ d ++ post)) (got ++ d) post)
      as (ext' & Hrun & Hext'); rewrite ?length_app; try done; try lia.
    + unfold with_block, set_heap. simpl. rewrite lookup_insert_eq. by rewrite <- app_assoc.
    + simpl in Hroom. lia.
    + rewrite length_app in Hrun, Hext'. exists ext'.
      replace (mem + zlen got + unit) with (mem + Z.of_nat (length got + length d)) by lia.
      rewrite Hrun, with_block_twice. split; [|done]. by rewrite <- app_assoc.
Qed.

(** The extents of the file as the array [blknums] shows them. *)
Definition marked (exts : list (list Z)) : list Z :=
  concat ((fun e => extent_mark :: e) <$> exts).

Lemma filter_marked exts :
  Forall (Forall is_block) exts → filter is_block (marked exts) = concat exts.
Proof.
  unfold marked. induction 1 as [|e exts He _ IH]; [done|]. rewrite fmap_cons. cbn [concat].
  simpl app. rewrite filter_cons_False by (intros Hb; by apply Hb). rewrite filter_app, IH.
  f_equal. induction He as [|n e Hn _ IHe]; [done|]. by rewrite filter_cons_True, IHe.
Qed.

Lemma mark_addrs_app a nums rest :
  Forall is_block nums →
  mark_addrs a unit (nums ++ rest) = mark_addrs (a + zlen nums * unit) unit rest.
Proof.
  intros Hn. revert a. induction Hn as [|n nums Hn _ IH]; intros a.
  { simpl. by rewrite Z.add_0_r. }
  simpl app. cbn [mark_addrs]. rewrite (proj2 (Z.eqb_neq _ _)) by done. rewrite IH.
  f_equal. rewrite length_cons. lia.
Qed.

Lemma block_datas_length nums datas :
  Forall2 block_data nums datas → zlen (concat datas) = zlen nums * unit.
Proof.
  destruct Hunit as [_ Hu].
  induction 1 as [|n d nums datas [_ Hd] _ IH]; [done|]. cbn [concat].
  apply slice_length in Hd. rewrite length_app, length_cons. lia.
Qed.

Lemma mark_addrs_extents a exts (dss : list (list bytes)) :
  Forall (Forall is_block) exts → Forall2 (Forall2 block_data) exts dss →
  mark_addrs a unit (marked exts) = extent_addrs a (@concat Z <$> dss).
Proof.
  intros He Hd. revert a. induction Hd as [|e ds exts dss Hds _ IH]; intros a; [done|].
  apply Forall_cons in He as [He Hes]. unfold marked in *. rewrite !fmap_cons.
  cbn [concat app extent_addrs mark_addrs]. rewrite Z.eqb_refl. f_equal.
  rewrite mark_addrs_app, IH by done. f_equal. rewrite (block_datas_length _ _ Hds). lia.
Qed.

Lemma dump_blocks_reads exts (dss : list (list bytes)) l (s : state W) :
  arr_str (di_dev (if rp then qb_parent_dev qb else qb_dev qb)) = Ret path →
  st_os s = os → sys_fopen_rb path os = (true, os) → heap_wf (st_heap s) →
  vec_rep (qb_blknums qb) l → l = marked exts → Forall (Forall is_block) exts →
  Forall2 (Forall2 block_data) exts dss →
  qb_blkcount qb = zlen (concat exts) → zlen (concat exts) * unit ≤ INT_MAX → zlen l < 2 ^ 28 →
  let mem := brk (st_heap s) in
  mem + INT_MAX < 2 ^ 64 →
  let data := concat (@concat Z <$> dss) in
  ∃ ext', dump_blocks qb rp vec_init s =
            Ret ((0, Some mem, ext'), set_heap (alloc_in (OBlock data) (st_heap s)) s) ∧
    zlen data = zlen (concat exts) * unit ∧
    vec_rep ext' (extent_addrs mem (@concat Z <$> dss)).
Proof.
  intros Hpath Hos Hopen Hwf Hl -> Hexts Hdss Hcount Hsmall Hlen mem Hroom data.
  assert (Hdatas : Forall2 block_data (concat exts) (concat dss)).
  { clear -Hdss. induction Hdss as [|e ds exts dss He _ IH]; [constructor|].
    cbn [concat]. by apply Forall2_app. }
  pose proof (block_datas_length _ _ Hdatas) as Hdl.
  assert (Hcc : concat (@concat Z <$> dss) = concat (concat dss)).
  { clear. induction dss as [|ds dss IH]; [done|]. rewrite fmap_cons. cbn [concat].
    by rewrite concat_app, IH. }
  destruct Hunit as [Hqu Hu]. unfold INT_MAX in *.
  assert (Hsz : size_t (qb_blkunitsz qb * qb_blkcount qb) = zlen (concat exts) * unit).
  { rewrite Hqu, Hcount, size_t_small by lia. lia. }
  set (zeros := replicate (Z.to_nat (zlen (concat exts) * unit)) 0).
  assert (Hzl : zlen zeros = zlen (concat exts) * unit) by (unfold zeros; rewrite length_replicate; lia).
  set (s1 := set_heap (alloc_in (OBlock zeros) (st_heap s)) s).
  assert (Hwf1 : heap_wf (st_heap s1)) by (apply alloc_wf; [done|simpl; lia]).
  assert (Hobj1 : objs (st_heap s1) !! mem = Some (OBlock zeros)) by apply lookup_insert_eq.
  assert (Hm0 : 0 < mem) by apply Hwf.
  destruct (dump_loop_spec (marked exts) (concat dss) 0 0 vec_init [] (marked exts) s1 mem [] zeros)
    as (ext' & Hrun & Hext'); rewrite ?filter_marked; try done;
    try (unfold INT_MAX; simpl; lia).
  { apply vec_rep_init. }
  exists ext'. unfold data. rewrite Hcc. split_and!; [|done|].
  - unfold dump_blocks. unfold bind at 1, lift at 1. rewrite Hpath. cbn [obind].
    unfold sys at 1, bind at 1. rewrite Hos, Hopen. cbn [obind negb].
    assert (Hs' : MkState (st_heap s) os (st_log s) = s) by (subst os; by destruct s).
    rewrite Hs', Hsz. fold zeros. unfold bind at 1, malloc. rewrite Hmem. cbn [obind].
    fold s1 mem. rewrite (vec_rep_count _ _ Hl), Nat2Z.id.
    simpl in Hrun. rewrite Z.add_0_r in Hrun. rewrite (bind_eq _ _ _ _ _ Hrun).
    unfold ret, s1, with_block, set_heap, alloc_in. simpl. rewrite insert_insert_eq.
    do 4 f_equal. lia.
  - simpl in Hext'. rewrite Z.add_0_r in Hext'.
    by rewrite <- (mark_addrs_extents mem exts dss).
Qed.

End Dump.

(** C36. dump_blocks gives the detector what it needs: on a device that can be read,
    with the blocks of the file in an array of extents, it returns 0 and a new object
    that holds the blocks of the file one after the other, read at
    parentoffset + bno * blkunitsz of the parent device or at bno * blkunitsz of the
    device, with an array that points at the first byte of each extent. *)
Theorem dump_blocks_spec `{Machine} {W V} `{OS W} `{VecOps V} `{!VecLaws V}
    (path dev : bytes) (qb : QueryBlocks V) (rp : bool) (exts : list (list Z))
    (dss : list (list bytes)) (s : state W) :
  let unit := qb_blkunitsz qb in
  let base := if rp then qb_parentoffset qb else 0 in
  let mem := brk (st_heap s) in
  (∀ n, mem_ok n = true) →
  sys_fopen_rb path (st_os s) = (true, st_os s) →
  (∀ off, sys_fread_at path off unit (st_os s) = (slice off unit dev, st_os s)) →
  arr_str (di_dev (if rp then qb_parent_dev qb else qb_dev qb)) = Ret path →
  0 < unit → 0 ≤ base → zlen dev < 2 ^ 63 →
  vec_rep (qb_blknums qb) (marked exts) → Forall (Forall is_block) exts →
  Forall2 (Forall2 (fun n d => 0 ≤ n ∧ slice (base + n * unit) unit dev = Some d)) exts dss →
  qb_blkcount qb = zlen (concat exts) → zlen (concat exts) * unit ≤ INT_MAX →
  zlen (marked exts) < 2 ^ 28 →
  heap_wf (st_heap s) → mem + INT_MAX < 2 ^ 64 →
  ∃ ext' s', dump_blocks qb rp vec_init s = Ret ((0, Some mem, ext'), s') ∧
    mapped s' mem (concat (@concat Z <$> dss)) ∧ vec_rep ext' (extent_addrs mem (@concat Z <$> dss)) ∧
    heap_le (st_heap s) (st_heap s') ∧ st_os s' = st_os s ∧ st_log s' = st_log s.
Proof.
  intros unit base mem Hmem Hopen Hread Hpath Hu Hb Hdev Hl Hexts Hdss Hcount Hsmall Hlen Hwf Hroom.
  destruct (dump_blocks_reads path dev base unit qb rp (st_os s) Hread Hmem (conj eq_refl Hu) eq_refl
              (conj Hdev Hb) exts dss (marked exts) s) as (ext' & Hrun & Hsize & Hext); try done.
  eexists ext', _. split_and!; [exact Hrun| |done|apply alloc_le; [done|simpl; lia]|done..].
  split; [apply alloc_wf; [done|simpl; lia]|apply lookup_insert_eq].
Qed.

(** ** What report_dir prints and frees *)

Section Report.
  Context `{Machine} {W V : Type} `{OS W} `{VecOps V} `{!VecLaws V}.

Lemma print_names_spec (k n : nat) (v : V) ps es (s : state W) :
  vec_rep v ps → at_entries s ps es → (k + n)%nat = length es →
  print_names k (Z.of_nat n) v s = Ret (tt, says (names (drop n es)) s).
Proof.
  intros Hv. revert n s. induction k as [|k IH]; intros n s Hat Hk.
  { rewrite drop_ge by lia. simpl. by rewrite says_nil. }
  cbn [print_names].
  destruct (lookup_lt_is_Some_2 es n ltac:(lia)) as [e He].
  destruct (Forall2_lookup_r _ _ _ _ _ Hat He) as (p & Hp & _).
  unfold bind at 1, lift at 1. rewrite (vec_rep_get v ps) by (done || lia).
  rewrite Nat2Z.id, Hp. cbn [obind].
  rewrite (bind_eq _ _ _ _ _ (load_entry_at s ps es n p e Hat Hp He)), bind_println.
  replace (Z.of_nat n + 1) with (Z.of_nat (S n)) by lia.
  rewrite IH, says_says by (done || lia). by rewrite (drop_S es e n He).
Qed.

Lemma print_vec_spec (v : V) ps es (s : state W) :
  vec_rep v ps → at_entries s ps es → print_vec v s = Ret (tt, says (names es) s).
Proof.
  intros Hv Hat. unfold print_vec. rewrite (vec_rep_count _ _ Hv), Nat2Z.id.
  change 0 with (Z.of_nat 0).
  rewrite (print_names_spec (length ps) 0 v ps es s Hv Hat), drop_0;
    [done|rewrite <- (Forall2_length _ _ _ Hat); lia].
Qed.

(** The report for a listing and a raw directory. *)
Definition report_lines (o : options) (file : bytes) (nlisted : Z) (raw hidden : list bytes) :
    list bytes :=
  [bs "Found " ++ udec nlisted ++ bs " files in path of " ++ file;
   bs "Parsed out " ++ udec (zlen raw) ++ bs " files in blocks of " ++ file] ++
  (if (2 <=? verbose o) && negb (zlen raw =? 0)
   then [bs "----file list start----"] ++ raw ++ [bs "----file list end----"] else []) ++
  match hidden with
  | [] => [bs "No hidden files found in " ++ file]
  | _ => (bs "(Suspicious!) Found hidden files in " ++ file) :: hidden
  end.

(** What is printed between the search and the freeing. *)
Definition report_text (o : options) (file : bytes) (raw dir hidden : V) : prog W unit :=
  do! println (bs "Found " ++ udec (vec_count dir) ++ bs " files in path of " ++ file) in
  do! println (bs "Parsed out " ++ udec (vec_count raw) ++ bs " files in blocks of " ++ file) in
  do! (if 2 <=? verbose o then
         do! (if vec_count raw =? 0 then ret tt else println (bs "----file list start----")) in
         do! print_vec raw in
         (if vec_count raw =? 0 then ret tt else println (bs "----file list end----"))
       else ret tt) in
  (if 0 <? vec_count hidden then
     do! println (bs "(Suspicious!) Found hidden files in " ++ file) in print_vec hidden
   else println (bs "No hidden files found in " ++ file)).

Lemma report_text_spec o file (raw dir hidden : V) praw pdir phid eraw ehid (s : state W) :
  vec_rep raw praw → vec_rep dir pdir → vec_rep hidden phid →
  at_entries s praw eraw → at_entries s phid ehid →
  report_text o file raw dir hidden s =
  Ret (tt, says (report_lines o file (zlen pdir) (names eraw) (names ehid)) s).
Proof.
  intros Hraw Hdir Hhid Har Hah. unfold report_text, report_lines.
  rewrite (vec_rep_count _ _ Hraw), (vec_rep_count _ _ Hdir), (vec_rep_count _ _ Hhid).
  assert (Hlr : zlen praw = zlen (names eraw)).
  { unfold names. rewrite length_fmap. by rewrite (Forall2_length _ _ _ Har). }
  rewrite Hlr, !bind_println, says_says. set (s1 := says _ s).
  set (mid := if (2 <=? verbose o) && _ then _ else _).
  rewrite (bind_eq _ _ s1 tt (says mid s1)).
  - unfold s1. rewrite says_says. destruct Hah as [|p e ps es Hp Hes].
    + rewrite (proj2 (Z.ltb_ge _ _)) by done.
      by rewrite println_says, says_says, <- app_assoc.
    + rewrite (proj2 (Z.ltb_lt _ _)) by (rewrite length_cons; lia).
      rewrite bind_println, says_says. erewrite print_vec_spec by (exact Hhid || by constructor).
      by rewrite says_says, <- !app_assoc.
  - unfold mid. destruct (2 <=? verbose o); [|by rewrite says_nil].
    rewrite <- Hlr. destruct (Z.eqb_spec (zlen praw) 0) as [E|E].
    + rewrite bind_ret_l. erewrite bind_eq by (by apply (print_vec_spec raw praw eraw)).
      destruct eraw; [by rewrite !says_nil|]. simpl in Hlr. lia.
    + rewrite bind_println. erewrite bind_eq by (by apply (print_vec_spec raw praw eraw)).
      by rewrite println_says, !says_says.
Qed.

End Report.

Lemma bind_vec_free `{Machine} {W V B} `{VecOps V} `{!VecLaws V} (v : V) l (fi : bool)
    (k : V → prog W B) (s s' : state W) :
  vec_rep v l → (if fi then free_all l else ret tt) s = Ret (tt, s') →
  bind (vec_free v fi) k s = k vec_init s'.
Proof.
  intros Hv Hrun. rewrite (bind_eq (vec_free v fi) k s vec_init s'); [done|].
  rewrite (vec_rep_free _ _ _ _ Hv). by rewrite (bind_eq _ _ _ _ _ Hrun).
Qed.

(** The fresh objects of a run, freed: the heap is the one before the run. *)
Lemma free_fresh `{Machine} {W} (s s1 s2 : state W) p1 p2 :
  heap_wf (st_heap s) → heap_wf (st_heap s1) → only_at s s1 (p1 ++ p2) →
  Forall (fun p => is_Some (objs (st_heap s1) !! p)) (p1 ++ p2) → st_heap s2 = st_heap s1 →
  ∃ s3 s4, free_all p2 s2 = Ret (tt, s3) ∧ free_all p1 s3 = Ret (tt, s4) ∧
    objs (st_heap s4) = objs (st_heap s) ∧ st_os s4 = st_os s2 ∧ st_log s4 = st_log s2.
Proof.
  intros Hwf Hwf1 (Hnd & Hrange & Hframe) Hall Hh.
  assert (Hlive : Forall (fun p => p ≠ 0 ∧ is_Some (objs (st_heap s1) !! p)) (p1 ++ p2)).
  { eapply Forall_impl; [exact Hall|]. intros p [o Hp]. destruct Hwf1 as (_ & Hobj & _).
    specialize (Hobj _ _ Hp). split; [lia|by eexists]. }
  apply Forall_app in Hlive as [Hl1 Hl2]. apply NoDup_app in Hnd as (Hn1 & Hdisj & Hn2).
  destruct (free_all_run p2 s2 Hn2) as (s3 & Hrun3 & Ho3 & _ & Hw3 & Hl3); [by rewrite Hh|].
  destruct (free_all_run p1 s3 Hn1) as (s4 & Hrun4 & Ho4 & _ & Hw4 & Hl4).
  { rewrite Forall_forall in *. intros p Hp.
    rewrite Ho3, Hh, bool_decide_false by (by apply Hdisj). by apply Hl1. }
  exists s3, s4. split_and!; [done|done| |congruence..].
  apply map_eq. intros a. rewrite Ho4, Ho3, Hh.
  assert (Hold : a ∈ p1 ++ p2 → objs (st_heap s) !! a = None).
  { intros Ha. rewrite Forall_forall in Hrange. specialize (Hrange a Ha). simpl in Hrange.
    destruct (objs (st_heap s) !! a) as [o|] eqn:E; [|done].
    destruct Hwf as (_ & Hobj & _). specialize (Hobj _ _ E). lia. }
  rewrite elem_of_app in Hold. specialize (Hframe a). rewrite elem_of_app in Hframe.
  repeat case_bool_decide; [by rewrite Hold by tauto..|]. apply Hframe. tauto.
Qed.

(** The entries that a run stored, freed in the order of report_dir. *)
Lemma free_stored `{Machine} {W} (s s1 s2 : state W) p1 p2 es :
  heap_wf (st_heap s) → stored s s1 (p1 ++ p2) es → st_heap s2 = st_heap s1 →
  ∃ s3 s4, free_all p2 s2 = Ret (tt, s3) ∧ free_all p1 s3 = Ret (tt, s4) ∧
    objs (st_heap s4) = objs (st_heap s) ∧ st_os s4 = st_os s2 ∧ st_log s4 = st_log s2.
Proof.
  intros Hwf (Hwf1 & _ & _ & _ & _ & Hat & Hat') Hh. apply (free_fresh s s1); try done.
  clear -Hat. induction Hat as [|p e ps es Hp _ IH]; constructor; [by eexists|done].
Qed.

(** The run of report_dir: what is printed, and that the heap is given back. *)
Lemma report_dir_run `{Machine} {W V} `{OS W} `{VecOps V} `{!VecLaws V}
    (o : options) (fstype file : bytes) (a : Z) (exts : list (bytes * list my_dir_entry))
    (ds : list os_dirent) (vecdata : V) (s : state W) (w' : W) :
  (∀ m, mem_ok m = true) →
  Forall (fun be => dir_extent fstype be.1 be.2) exts → exts ≠ [] →
  vec_rep vecdata (extent_addrs a exts.*1) → mapped s a (concat exts.*1) →
  zlen (concat exts.*1) < 2 ^ 32 →
  sys_opendir file (st_os s) = (Some ds, w') → Forall dirent_wf ds →
  room s [] (zlen (listing ds) + zlen (concat exts.*2)) →
  let seen := d_name <$> filter (fun d => listed d = true) ds in
  let raw := names (concat exts.*2) in
  ∃ s', report_dir o file fstype vecdata (zlen (concat exts.*1)) s = Ret (tt, s') ∧
    objs (st_heap s') = objs (st_heap s) ∧ st_os s' = w' ∧
    st_log s' = st_log s ++ ((fun l => Stdout (l ++ [10])) <$>
      report_lines o file (zlen seen) raw (filter (fun nm => nm ∉ seen) raw)).
Proof.
  intros Hmem Hexts Hne Hv Hmap Hsize Hopen Hds Hroom seen raw.
  destruct (find_hidden_files_run fstype file a exts ds vecdata s w')
    as (vraw & vdir & vhid & praw & pdir & s1 & Hrun & Hraw & Hdir & Hhid & Hatr & Hatd & Hst);
    [done..|].
  set (s0 := MkState (st_heap s) w' (st_log s)) in *.
  set (es := (filter (fun pe => absent (listing ds) pe = true) (zip praw (concat exts.*2))).*2).
  assert (Hnames : names es = filter (fun nm => nm ∉ seen) raw).
  { unfold es, seen. rewrite absent_names by apply (Forall2_length _ _ _ Hatr).
    by rewrite names_listing. }
  assert (Hcount : zlen pdir = zlen seen).
  { rewrite (Forall2_length _ _ _ Hatd). unfold listing, seen. by rewrite !length_fmap. }
  set (s2 := says (report_lines o file (zlen seen) raw (names es)) s1).
  destruct (free_stored s0 s1 s2 pdir praw _ (proj1 Hmap) Hst eq_refl)
    as (s3 & s4 & Hf3 & Hf4 & Hobjs & Hw & Hlog).
  destruct Hst as (_ & _ & Hos & Hl1 & _).
  exists s4. split_and!; [|done| |].
  - unfold report_dir. rewrite (bind_eq _ _ _ _ _ Hrun).
    assert (Htext : report_text o file vraw vdir vhid s1 = Ret (tt, s2)).
    { unfold s2. rewrite <- Hcount. eapply report_text_spec; try done. by apply at_entries_filter. }
    transitivity (bind (report_text o file vraw vdir vhid)
      (fun _ => do! vec_free vhid false in do! vec_free vraw true in
                do! vec_free vdir true in ret tt) s1).
    { unfold report_text. repeat (rewrite bind_assoc; apply bind_ext; intros ? ?). done. }
    rewrite (bind_eq _ _ _ _ _ Htext).
    rewrite (bind_vec_free _ _ false _ s2 s2 Hhid eq_refl).
    rewrite (bind_vec_free _ _ true _ s2 s3 Hraw Hf3).
    by rewrite (bind_vec_free _ _ true _ s3 s4 Hdir Hf4).
  - rewrite Hw. exact Hos.
  - rewrite Hlog, <- Hnames. simpl. by rewrite Hl1.
Qed.

(** The report of a directory is right and leaks nothing: over a raw directory of
    well-formed extents, report_dir prints how many names each side has and then
    exactly the names that are on the disk and not in the listing of the kernel, or
    that there is none, and when it returns every entry it allocated has been freed,
    each of them once. *)
Theorem report_dir_spec `{Machine} {W V} `{OS W} `{VecOps V} `{!VecLaws V}
    (o : options) (fstype file : bytes) (a : Z) (exts : list (bytes * list my_dir_entry))
    (ds : list os_dirent) (vecdata : V) (s : state W) (w' : W) :
  (∀ m, mem_ok m = true) →
  Forall (fun be => dir_extent fstype be.1 be.2) exts → exts ≠ [] →
  vec_rep vecdata (extent_addrs a exts.*1) → mapped s a (concat exts.*1) →
  zlen (concat exts.*1) < 2 ^ 32 →
  sys_opendir file (st_os s) = (Some ds, w') → Forall dirent_wf ds →
  room s [] (zlen (listing ds) + zlen (concat exts.*2)) →
  let seen := d_name <$> filter (fun d => listed d = true) ds in
  let raw := names (concat exts.*2) in
  ∃ s', report_dir o file fstype vecdata (zlen (concat exts.*1)) s = Ret (tt, s') ∧
    objs (st_heap s') = objs (st_heap s) ∧ st_os s' = w' ∧
    st_log s' = st_log s ++ ((fun l => Stdout (l ++ [10])) <$>
      report_lines o file (zlen seen) raw (filter (fun nm => nm ∉ seen) raw)).
Proof. apply report_dir_run. Qed.

(** ** writedata *)

Lemma writedata_loop_file `{Machine} {W} `{OS W} (path : bytes) (content : W → bytes) :
  (∀ d w n w', sys_fwrite path d w = (n, w') →
     0 ≤ n ≤ zlen d ∧ content w' = content w ++ take (Z.to_nat n) d) →
  ∀ fuel data (s : state W), (length data < fuel)%nat →
  ∃ r k s', writedata_loop fuel (FPath path) data s = Ret (r, s') ∧
    st_heap s' = st_heap s ∧ st_log s' = st_log s ∧
    content (st_os s') = content (st_os s) ++ take k data ∧
    (r = 0 ∧ k = length data ∨ r = 1 ∧ (k < length data)%nat).
Proof.
  intros Hw. induction fuel as [|fuel IH]; intros data s Hfuel; [lia|]. cbn [writedata_loop].
  destruct (Z.eqb_spec (zlen data) 0) as [E|E].
  { exists 0, 0%nat, s. rewrite take_0, app_nil_r. split_and!; try done. left. lia. }
  unfold fwrite, sys at 1, bind at 1.
  destruct (sys_fwrite path data (st_os s)) as [n w'] eqn:Ew.
  destruct (Hw _ _ _ _ Ew) as [Hn Hc]. cbn [obind].
  destruct (Z.eqb_spec n 0) as [->|Hn0].
  { exists 1, 0%nat, (MkState (st_heap s) w' (st_log s)). split_and!; [done..|simpl|right; lia].
    by rewrite Hc. }
  rewrite (proj2 (Z.ltb_ge _ _)) by lia.
  destruct (IH (drop (Z.to_nat n) data) (MkState (st_heap s) w' (st_log s)))
    as (r & k & s' & Hrun & Hh & Hl & Hcont & Hr); [rewrite length_drop; lia|].
  exists r, (Z.to_nat n + k)%nat, s'. split_and!; [done..| |].
  - rewrite Hcont. simpl. rewrite Hc, <- app_assoc. f_equal.
    rewrite <- (take_drop (Z.to_nat n) data) at 3.
    rewrite take_app_ge by (rewrite length_take; lia). f_equal. f_equal. rewrite length_take. lia.
  - rewrite length_drop in Hr. lia.
Qed.

(** writedata loses nothing and always ends: on a file that takes some of the
    bytes it is given, as many as it likes at a time, it returns 0 when all the data
    has been written, in order, and 1 when the file took no byte, and then what was
    written is a proper prefix of the data; on the standard output it prints it. *)
Theorem writedata_spec `{Machine} {W} `{OS W} (path : bytes) (content : W → bytes)
    (data : bytes) (s : state W) :
  (∀ d w n w', sys_fwrite path d w = (n, w') →
     0 ≤ n ≤ zlen d ∧ content w' = content w ++ take (Z.to_nat n) d) →
  (∃ r k s', writedata (FPath path) data s = Ret (r, s') ∧
     st_heap s' = st_heap s ∧ st_log s' = st_log s ∧
     content (st_os s') = content (st_os s) ++ take k data ∧
     (r = 0 ∧ k = length data ∨ r = 1 ∧ (k < length data)%nat)) ∧
  (data ≠ [] → writedata FStdout data s =
     Ret (0, MkState (st_heap s) (st_os s) (st_log s ++ [Stdout data]))).
Proof.
  intros Hw. split.
  - unfold writedata. apply (writedata_loop_file path content Hw). lia.
  - intros Hne. assert (Hpos : zlen data ≠ 0) by (destruct data; [done|simpl; lia]).
    unfold writedata. cbn [writedata_loop]. rewrite (proj2 (Z.eqb_neq _ _)) by done.
    unfold fwrite, print, log, ret, bind at 1. cbn [obind]. unfold bind at 1. cbn [obind].
    rewrite (proj2 (Z.eqb_neq _ _)) by done. rewrite (proj2 (Z.ltb_ge _ _)) by lia.
    rewrite Nat2Z.id, drop_all. by destruct (length data).
Qed.

(** ** query_offset *)

(** A logical volume starts where its parts say: when pvs reports that the first
    extent of the physical volume is at sector [pe] and pvdisplay reports extents of
    [n] sectors and the volume in the segment [g], query_offset sets the offset in
    the parent device to (pe + first extent of g * n) * 512 bytes. *)
Theorem query_offset_lvm `{Machine} {W V} `{OS W} `{!StaticOS W} `{VecOps V} (path pdev dev pvs pvdisplay : bytes)
    (di diparent : DeviceInfo) (qb : QueryBlocks V) (lines1 lines2 : list bytes) (pe n : Z)
    (g : pv_seg) (st1 st2 : Z) (s s1 s2 : state W) (w1 w2 : W) :
  arr_str (di_type di) = Ret (bs "lvm") →
  arr_str (di_dev diparent) = Ret pdev → arr_str (di_dev di) = Ret dev →
  find_command (bs "pvs") 255 s = Ret (Some pvs, s1) →
  zlen (pvs ++ bs " -o pe_start --units s " ++ pdev) < 512 →
  sys_popen (pvs ++ bs " -o pe_start --units s " ++ pdev) (st_os s1)
    = (Some (unlines lines1, st1), w1) →
  pvs_report lines1 pe →
  find_command (bs "pvdisplay") 255 (MkState (st_heap s1) w1 (st_log s1)) = Ret (Some pvdisplay, s2) →
  zlen (pvdisplay ++ bs " -m --units s " ++ pdev) < 512 →
  sys_popen (pvdisplay ++ bs " -m --units s " ++ pdev) (st_os s2) = (Some (unlines lines2, st2), w2) →
  pv_report w2 dev lines2 n g →
  0 ≤ pe + seg_from g * n → (pe + seg_from g * n) * 512 < 2 ^ 64 →
  query_offset path di diparent qb s =
    Ret ((0, MkQb (qb_path qb) (qb_fs qb) (qb_dev qb) (qb_parent_dev qb)
               ((pe + seg_from g * n) * 512) (qb_blkunitsz qb) (qb_blknums qb) (qb_blkcount qb)),
         MkState (st_heap s2) w2 (st_log s2)).
Proof.
  intros Htype Hpdev Hdev Hc1 Hf1 Hp1 Hr1 Hc2 Hf2 Hp2 Hr2 Hlo Hhi. unfold query_offset.
  unfold bind at 1, lift at 1. rewrite Htype. cbn [obind].
  change (strcmp_eq (bs "lvm") (bs "part")) with false.
  change (strcmp_eq (bs "lvm") (bs "raid")) with false.
  change (strcmp_eq (bs "lvm") (bs "lvm")) with true. cbv beta iota zeta.
  unfold bind at 1, lift at 1. rewrite Hpdev. cbn [obind].
  rewrite (bind_eq _ _ _ _ _ (pvs_report_run pdev pvs 0 pe lines1 st1 s s1 w1 Hc1 Hf1 Hp1 Hr1)).
  change (negb (0 =? 0)) with false. cbv beta iota zeta.
  unfold bind at 1, lift at 1. rewrite Hdev. cbn [obind].
  rewrite (bind_eq _ _ _ _ _ (pv_report_run pdev dev pvdisplay (0, 0, 0) lines2 n g st2 _ s2 w2
                                Hc2 Hf2 Hp2 Hr2)).
  change (negb (0 =? 0)) with false. cbv beta iota zeta. 
  replace (u64 (u64 (pe * 512) + seg_from g * n * 512)) with ((pe + seg_from g * n) * 512);
    [done|unfold u64; rewrite Zplus_mod_idemp_l, Z.mod_small; lia].
Qed.

(** ** A device that cannot be opened *)

(** With the reader of the build, an ext file system whose device cannot be opened
    is not told from an empty file: query_units returns 0, with no blocks, without a
    second attempt and without a message. *)
Theorem query_units_unreadable `{Machine} {W Hd V} `{OS W} `{Ext2Fs W Hd} `{VecOps V}
    (fuel : nat) (path fstype dev : bytes) (fs : stat) (di : DeviceInfo) (qb : QueryBlocks V)
    (e : Z) (w' : W) (s : state W) :
  arr_str (di_fstype di) = Ret fstype → strncmp_eq fstype (bs "ext") 3 = true →
  strncmp_eq fstype (bs "xfs") 3 = false → arr_str (di_dev di) = Ret dev →
  sys_ext2fs_open dev (st_os s) = (e, w') → 0 < e < 2 ^ 31 →
  query_units (ext_get_inode_datablocks_lib fuel) path fs di qb s =
    Ret ((0, MkQb (qb_path qb) (qb_fs qb) (qb_dev qb) (qb_parent_dev qb) (qb_parentoffset qb)
               (i32 (st_blksize fs)) (qb_blknums qb) 0), MkState (st_heap s) w' (st_log s)).
Proof.
  intros Hfs Hext Hxfs Hdev Hopen He. unfold query_units.
  unfold bind at 1, lift at 1. rewrite Hfs. cbn [obind]. rewrite Hxfs, Hext.
  unfold bind at 1, lift at 1. rewrite Hdev. cbn [obind].
  assert (Hrun : ext_get_inode_datablocks_lib fuel dev (st_ino fs) (qb_blknums qb) s =
                 Ret ((0, (qb_blknums qb, 0)), MkState (st_heap s) w' (st_log s))).
  { unfold ext_get_inode_datablocks_lib, lsblks. rewrite bind_assoc. unfold bind at 1, sys at 1.
    rewrite Hopen. cbn [obind]. rewrite i32_small, (proj2 (Z.eqb_neq e 0)) by lia. done. }
  by rewrite (bind_eq _ _ _ _ _ Hrun).
Qed.

(** ** A file of two extents, on a partition that starts at byte 10 of its disk *)
#[local] Existing Instances x86_64 Impl.Vector_ops Impl.Vector_laws.

Definition sample_disk : bytes := bs "superblockAABBCCDDEE".
Definition sample_disk_os : sample :=
  MkSample [] [] [] [] [] [] [(bs "/dev/sda", sample_disk)] [].
Definition sample_disk_state : state sample := MkState (MkHeap ∅ 4096) sample_disk_os [].
Definition sample_device (path : bytes) : DeviceInfo :=
  MkDevice (arr_zero 128) (arr_store path (arr_zero 128)) (arr_zero 128) (arr_zero 32)
           (arr_zero 32) (arr_zero 32).
Definition sample_numbers : list (list Z) := [[3]; [0; 1]].
Definition sample_qb : QueryBlocks Impl.Vector :=
  MkQb (arr_zero 256) (MkStat 0 0 0 0 0 0) zero_device (sample_device (bs "/dev/sda")) 10 2
       (Impl.MkVector (Some <$> marked sample_numbers) 5 5) 3.

Lemma dump_blocks_spec_witness :
  ∃ ext' s', dump_blocks sample_qb true vec_init sample_disk_state = Ret ((0, Some 4096, ext'), s') ∧
    mapped s' 4096 (concat (@concat Z <$> [[bs "DD"]; [bs "AA"; bs "BB"]])) ∧
    vec_rep ext' (extent_addrs 4096 (@concat Z <$> [[bs "DD"]; [bs "AA"; bs "BB"]])) ∧
    heap_le (st_heap sample_disk_state) (st_heap s') ∧ st_os s' = st_os sample_disk_state ∧
    st_log s' = st_log sample_disk_state.
Proof.
  apply (dump_blocks_spec (bs "/dev/sda") sample_disk sample_qb true sample_numbers
           [[bs "DD"]; [bs "AA"; bs "BB"]] sample_disk_state); try reflexivity.
  - done.
  - split_and!; [reflexivity..|]. apply (bool_decide_eq_true_1 _). vm_compute. reflexivity.
  - repeat constructor; done.
  - repeat constructor; done.
  - done.
  - apply (@state0_wf x86_64).
Defined.

Lemma report_dir_spec_witness :
  let seen := [bs "dir"; bs "a.ko"] in
  let raw := names (concat sample_exts.*2) in
  ∃ s', report_dir (MkOptions None 0 false None 0) (bs "/d") (bs "ext4") sample_vecdata
          (zlen (concat sample_exts.*1)) sample_dir_state = Ret (tt, s') ∧
    objs (st_heap s') = objs (st_heap sample_dir_state) ∧ st_os s' = sample_dir_os ∧
    st_log s' = [] ++ ((fun l => Stdout (l ++ [10])) <$>
      report_lines (MkOptions None 0 false None 0) (bs "/d") (zlen seen) raw
        (filter (fun nm => nm ∉ seen) raw)).
Proof.
  apply (@report_dir_spec x86_64 sample Impl.Vector _ _ _ (MkOptions None 0 false None 0)
           (bs "ext4") (bs "/d") 4096 sample_exts sample_listing sample_vecdata sample_dir_state
           sample_dir_os).
  - done.
  - repeat (apply Forall_cons_2; [apply extent_ext2|]); try apply Forall_nil_2;
      (done || apply (bool_decide_eq_true_1 _); vm_compute; reflexivity).
  - done.
  - split_and!; [reflexivity..|]. apply (bool_decide_eq_true_1 _). vm_compute. reflexivity.
  - exact sample_mapped.
  - reflexivity.
  - reflexivity.
  - apply (bool_decide_eq_true_1 _). vm_compute. reflexivity.
  - vm_compute. split; reflexivity.
Defined.

Definition slow_writer : state sample :=
  MkState (MkHeap ∅ 4096) (MkWriter [] [] [] [] [] [] [] [] [] 3 (MkNet ∅ [] [] [] [])) [].

Lemma writedata_spec_witness :
  (∃ r k s', writedata (FPath (bs "out")) (bs "blocks") slow_writer = Ret (r, s') ∧
     st_heap s' = st_heap slow_writer ∧ st_log s' = [] ∧
     sa_out (st_os s') = [] ++ take k (bs "blocks") ∧
     (r = 0 ∧ k = length (bs "blocks") ∨ r = 1 ∧ (k < length (bs "blocks"))%nat)) ∧
  (bs "blocks" ≠ [] → writedata FStdout (bs "blocks") slow_writer =
     Ret (0, MkState (MkHeap ∅ 4096) (st_os slow_writer) ([] ++ [Stdout (bs "blocks")]))).
Proof.
  apply (writedata_spec (bs "out") sa_out (bs "blocks") slow_writer).
  intros d w n w'. simpl. intros [= <- <-]. split; [lia|reflexivity].
Defined.

(** A volume in extents of 8 sectors, whose group starts at sector 2048. *)
Definition sample_lvm : DeviceInfo :=
  MkDevice (arr_zero 128) (arr_store (bs "/dev/dm-0") (arr_zero 128)) (arr_zero 128) (arr_zero 32)
           (arr_store (bs "lvm") (arr_zero 32)) (arr_zero 32).
Definition sample_lvm_qb : QueryBlocks Impl.Vector := qb_init.

Lemma query_offset_lvm_witness :
  query_offset (bs "/d") sample_lvm (sample_device (bs "/dev/sda3")) sample_lvm_qb volume_state =
    Ret ((0, MkQb (arr_zero 256) (MkStat 0 0 0 0 0 0) zero_device zero_device
               ((2048 + 200 * 4096) * 512) 0 vec_init 0), volume_state).
Proof.
  apply (query_offset_lvm (bs "/d") (bs "/dev/sda3") (bs "/dev/dm-0") (bs "/sbin/pvs")
    (bs "/sbin/pvdisplay") sample_lvm (sample_device (bs "/dev/sda3")) sample_lvm_qb
    [bs "  1st PE "; bs "   2048S"] lvm_lines 2048 4096
    (MkSeg 200 2559 (Some (bs "/dev/vg/root")) [bs "Logical extents 0 to 2359"])
    0 0 volume_state volume_state volume_state volume_os volume_os);
    try (vm_compute; reflexivity).
  - apply (pvs_report_intro _ _ (bs "  1st PE ") (bs "   2048S") []); try done.
    + by_token 2%nat 1%nat.
    + by_token 3%nat 0%nat.
  - exact lvm_lines_report.
  - vm_compute. congruence.
Defined.

(** Nothing of libext2fs works: the device does not exist. *)
#[local] Instance broken_ext2fs : Ext2Fs sample Z := {
  fs_magic_ok := false;
  fs_blocksize := 4096;
  fs_blocks_count := 0;
  fs_first_data_block := 0;
  fs_hurd := false;
  sys_ext2fs_open _ w := (2, w);
  sys_ext2fs_close w := (tt, w);
  sys_read_inode _ w := ((2, MkInode 0 0 0 0 [] 0), w);
  sys_write_inode _ _ w := (2, w);
  sys_read_ind _ w := ((2, []), w);
  sys_write_ind _ _ w := (2, w);
  sys_extent_open _ w := ((2, 0), w);
  sys_extent_get h _ w := ((2, MkExtent 0 0 0 0, h), w);
  sys_extent_get_info _ w := ((2, 0), w);
  sys_extent_replace h _ w := ((2, h), w);
  sys_extent_set_bmap h _ _ _ w := ((2, h), w);
}.
Definition sample_ext4 : DeviceInfo :=
  MkDevice (arr_zero 128) (arr_store (bs "/dev/sdb1") (arr_zero 128)) (arr_zero 128)
           (arr_zero 32) (arr_zero 32) (arr_store (bs "ext4") (arr_zero 32)).

Lemma query_units_unreadable_witness :
  let fs := MkStat 16877 0 0 2 4096 8 in
  query_units (ext_get_inode_datablocks_lib 5) (bs "/mnt") fs sample_ext4 sample_lvm_qb sample_disk_state
  = Ret ((0, MkQb (arr_zero 256) (MkStat 0 0 0 0 0 0) zero_device zero_device 0 4096 vec_init 0),
         sample_disk_state).
Proof.
  apply (query_units_unreadable 5 (bs "/mnt") (bs "ext4") (bs "/dev/sdb1")
           (MkStat 16877 0 0 2 4096 8) sample_ext4 sample_lvm_qb 2 sample_disk_os sample_disk_state);
    try (vm_compute; reflexivity).
  done.
Defined.
