(* ===== verification/FhfMain.v ===== *)
(** * The command fhf from end to end: fhf_main of fhf.c

    The parts proved on their own put together: the blocks of a directory read from its
    device and from the parent of its device, the copies compared, the directory parsed,
    the hidden names printed and everything given back. *)
From S2P Require Export Fhf.
#[local] Open Scope Z_scope.

Section Main.
  Context `{Machine} {W V : Type} `{OS W} `{VecOps V} `{!VecLaws V}.
  Hypothesis Hmem : ∀ n, mem_ok n = true.

(** The array [blknums] holds the blocks of the file, an extent after the other. *)
Definition block_list (qb : QueryBlocks V) (blocks : list (list Z)) : Prop :=
  vec_rep (qb_blknums qb) (marked blocks) ∧ Forall (Forall is_block) blocks ∧
  0 < qb_blkunitsz qb ∧ qb_blkcount qb = zlen (concat blocks) ∧
  zlen (concat blocks) * qb_blkunitsz qb ≤ INT_MAX ∧ zlen (marked blocks) < 2 ^ 28.

(** The device, or the parent at the offset of the volume, can be read and holds [dss]
    in these blocks. *)
Definition copy_of (os : W) (qb : QueryBlocks V) (rp : bool) (blocks : list (list Z))
    (dss : list (list bytes)) : Prop :=
  let unit := qb_blkunitsz qb in
  let base := if rp then qb_parentoffset qb else 0 in
  ∃ path dev,
    arr_str (di_dev (if rp then qb_parent_dev qb else qb_dev qb)) = Ret path ∧
    sys_fopen_rb path os = (true, os) ∧
    (∀ off, sys_fread_at path off unit os = (slice off unit dev, os)) ∧
    0 ≤ base ∧ zlen dev < 2 ^ 63 ∧
    Forall2 (Forall2 (fun n d => 0 ≤ n ∧ slice (base + n * unit) unit dev = Some d)) blocks dss.

(** The bytes of a copy, extent by extent and all together. *)
Definition extents_of (dss : list (list bytes)) : list bytes := @concat Z <$> dss.
Definition bytes_of (dss : list (list bytes)) : bytes := concat (extents_of dss).

Definition with_obj (o : obj) (s : state W) : state W := set_heap (alloc_in o (st_heap s)) s.

(** The number of bytes of a copy, as [datalen]. *)
Definition data_len (qb : QueryBlocks V) : Z := size_t (qb_blkunitsz qb * qb_blkcount qb).

Lemma dump_copy qb rp blocks dss (s : state W) :
  block_list qb blocks → copy_of (st_os s) qb rp blocks dss → heap_wf (st_heap s) →
  brk (st_heap s) + INT_MAX < 2 ^ 64 →
  let p := brk (st_heap s) in
  ∃ ext, dump_blocks qb rp vec_init s = Ret ((0, Some p, ext), with_obj (OBlock (bytes_of dss)) s) ∧
    zlen (bytes_of dss) = data_len qb ∧ data_len qb ≤ INT_MAX ∧
    vec_rep ext (extent_addrs p (extents_of dss)).
Proof.
  intros (Hl & Hb & Hu & Hc & Hsz & Hn) (path & dev & Hpath & Hopen & Hread & Hbase & Hdev & Hd) Hwf Hroom p.
  destruct (dump_blocks_reads path dev _ _ qb rp (st_os s) Hread Hmem (conj eq_refl Hu) eq_refl
              (conj Hdev Hbase) blocks dss (marked blocks) s) as (ext & Hrun & Hlen & Hext); try done.
  assert (Hdl : data_len qb = zlen (concat blocks) * qb_blkunitsz qb).
  { unfold data_len. rewrite Hc, size_t_small; unfold INT_MAX in *; lia. }
  exists ext. rewrite Hdl. by split_and!.
Qed.

Lemma with_obj_wf b (s : state W) :
  heap_wf (st_heap s) → heap_wf (st_heap (with_obj (OBlock b) s)).
Proof. intros Hwf. apply alloc_wf; [done|simpl; lia]. Qed.

Lemma load_data_mapped (s : state W) p b n :
  mapped s p b → zlen b = n → 0 < n → load_data p n s = Ret (b, s).
Proof.
  intros Hm <- Hpos. unfold load_data.
  rewrite <- (Z.add_0_r p) at 1. rewrite (bind_eq _ _ _ _ _ (load_block_mapped s p b 0 Hm ltac:(lia))).
  rewrite drop_0. unfold lift. rewrite Z.ltb_irrefl. cbn [obind].
  by rewrite Nat2Z.id, firstn_all.
Qed.

(** The answer of the comparison of the two copies. *)
Definition compare_line (d0 dp : list (list bytes)) : bytes :=
  if bool_decide (bytes_of d0 = bytes_of dp) then bs "compare_blocks: NODIFF."
  else bs "compare_blocks: DIFF! (Suspicious!)".

(** Both copies read: they are two new objects of the heap, and are compared. *)
Lemma compare_part_both o file qb blocks d0 dp (s : state W) :
  output o = None → has_dev_name (qb_parent_dev qb) = true →
  block_list qb blocks → copy_of (st_os s) qb false blocks d0 → copy_of (st_os s) qb true blocks dp →
  0 < data_len qb → heap_wf (st_heap s) → brk (st_heap s) + 2 * INT_MAX + 1 < 2 ^ 64 →
  let p0 := brk (st_heap s) in
  let s1 := with_obj (OBlock (bytes_of d0)) s in
  let pp := brk (st_heap s1) in
  let s2 := with_obj (OBlock (bytes_of dp)) s1 in
  ∃ e0 ep, compare_part o file qb (data_len qb) None s =
      Ret ((0, MkWork None (Some p0) (Some pp) e0 ep), says [compare_line d0 dp] s2) ∧
    vec_rep e0 (extent_addrs p0 (extents_of d0)) ∧ vec_rep ep (extent_addrs pp (extents_of dp)) ∧
    mapped s2 p0 (bytes_of d0) ∧ mapped s2 pp (bytes_of dp).
Proof.
  intros Hout Hpar Hbl Hc0 Hcp Hpos Hwf Hroom p0 s1 pp s2. unfold INT_MAX in *.
  destruct (dump_copy qb false blocks d0 s Hbl Hc0 Hwf) as (e0 & Hrun0 & Hl0 & Hmax & He0);
    [unfold INT_MAX; lia|].
  assert (Hwf1 : heap_wf (st_heap s1)) by (by apply with_obj_wf).
  destruct (dump_copy qb true blocks dp s1 Hbl Hcp Hwf1) as (ep & Hrunp & Hlp & _ & Hep);
    [unfold INT_MAX in *; simpl; lia|].
  assert (Hwf2 : heap_wf (st_heap s2)) by (by apply with_obj_wf).
  assert (Hm0 : mapped s2 p0 (bytes_of d0)).
  { apply (mapped_le s1); [split; [done|apply lookup_insert_eq]|done|].
    apply alloc_le; [done|simpl; lia]. }
  assert (Hmp : mapped s2 pp (bytes_of dp)) by (split; [done|apply lookup_insert_eq]).
  exists e0, ep. split_and!; [|done..].
  unfold compare_part. rewrite (bind_eq _ _ _ _ _ Hrun0). cbn [Z.eqb negb]. rewrite bind_ret_l.
  rewrite Hpar, bind_assoc. rewrite (bind_eq _ _ _ _ _ Hrunp).
  cbn [Z.eqb negb]. rewrite bind_assoc, bind_ret_l, bind_ret_l. fold p0 pp s1 s2.
  rewrite (bind_eq _ _ _ _ _ (load_data_mapped s2 p0 _ _ Hm0 Hl0 Hpos)).
  rewrite (bind_eq _ _ _ _ _ (load_data_mapped s2 pp _ _ Hmp Hlp Hpos)).
  unfold compare_line. case_bool_decide; rewrite bind_println; [done|].
  unfold open_output. rewrite Hout, !bind_ret_l. done.
Qed.

(** Without a parent there is one copy, and nothing to compare it with. *)
Lemma compare_part_one o file qb blocks d0 (s : state W) fp :
  has_dev_name (qb_parent_dev qb) = false →
  block_list qb blocks → copy_of (st_os s) qb false blocks d0 →
  heap_wf (st_heap s) → brk (st_heap s) + INT_MAX < 2 ^ 64 →
  let p0 := brk (st_heap s) in
  let s1 := with_obj (OBlock (bytes_of d0)) s in
  ∃ e0, compare_part o file qb (data_len qb) fp s =
      Ret ((1, MkWork fp (Some p0) None e0 vec_init), s1) ∧
    vec_rep e0 (extent_addrs p0 (extents_of d0)) ∧ mapped s1 p0 (bytes_of d0) ∧
    zlen (bytes_of d0) = data_len qb.
Proof.
  intros Hpar Hbl Hc0 Hwf Hroom p0 s1.
  destruct (dump_copy qb false blocks d0 s Hbl Hc0 Hwf Hroom) as (e0 & Hrun0 & Hl0 & Hmax & He0).
  exists e0. split_and!; [|done|by split; [apply with_obj_wf|apply lookup_insert_eq]|done].
  unfold compare_part. rewrite (bind_eq _ _ _ _ _ Hrun0). cbn [Z.eqb negb]. rewrite bind_ret_l.
  by rewrite Hpar, bind_ret_l.
Qed.

(** What is known of the file that is analysed: it is a directory of a file system that
    is parsed, its extents are well-formed and hold [entries], and the kernel lists [ds]. *)
Record directory_at (file fstype : bytes) (st : stat) (qb : QueryBlocks V) (data : list (list bytes))
    (entries : list (list my_dir_entry)) (ds : list os_dirent) (s : state W) (w' : W) : Prop := {
  da_dir : S_ISDIR (st_mode st) = true;
  da_fstype : arr_str (di_fstype (qb_dev qb)) = Ret fstype;
  da_parsed : parsed_fstype fstype = true;
  da_extents : Forall2 (dir_extent fstype) (extents_of data) entries;
  da_some : data ≠ [];
  da_listing : sys_opendir file (st_os s) = (Some ds, w');
  da_names : Forall dirent_wf ds;
  da_room : zlen (listing ds) + zlen (concat entries) < 2 ^ 28;
}.

(** The lines of the report of a directory. *)
Definition directory_report (o : options) (file : bytes) (entries : list (list my_dir_entry))
    (ds : list os_dirent) : list bytes :=
  let seen := d_name <$> filter (fun d => listed d = true) ds in
  let raw := names (concat entries) in
  report_lines o file (zlen seen) raw (filter (fun nm => nm ∉ seen) raw).

(** The copy the options choose, given that it was read. *)
Definition chosen (o : options) (w : work V) : option Z * V :=
  if 2 <=? read_parent o then (blkdatap w, extent_ptrp w)
  else if (1 <=? read_parent o) && bool_decide (is_Some (blkdatap w))
  then (blkdatap w, extent_ptrp w)
  else (blkdata0 w, extent_ptr0 w).

Lemma extents_zip fstype (data : list (list bytes)) entries :
  Forall2 (dir_extent fstype) (extents_of data) entries →
  (zip (extents_of data) entries).*1 = extents_of data ∧
  (zip (extents_of data) entries).*2 = entries ∧
  Forall (fun be => dir_extent fstype be.1 be.2) (zip (extents_of data) entries).
Proof.
  intros Hext. pose proof (Forall2_length _ _ _ Hext).
  split_and!; [apply fst_zip; lia|apply snd_zip; lia|].
  clear -Hext. induction Hext; simpl; auto using Forall_nil_2, Forall_cons_2.
Qed.

Lemma extents_nonempty fstype (data : list (list bytes)) entries :
  Forall2 (dir_extent fstype) (extents_of data) entries → data ≠ [] → 0 < zlen (bytes_of data).
Proof.
  intros Hext Hne. destruct data as [|e data]; [done|]. unfold bytes_of, extents_of in *.
  rewrite fmap_cons in *. apply Forall2_cons_inv_l in Hext as (es & ess & Hd & _ & _).
  apply dir_extent_nonempty in Hd. cbn [concat]. rewrite length_app. lia.
Qed.

Lemma analyse_part_dir o file fstype st qb data entries ds r w p ext (s : state W) w' :
  output o = None → outputfp w = None → chosen o w = (Some p, ext) →
  directory_at file fstype st qb data entries ds s w' →
  vec_rep ext (extent_addrs p (extents_of data)) → mapped s p (bytes_of data) →
  zlen (bytes_of data) = data_len qb → data_len qb ≤ INT_MAX →
  brk (st_heap s) + 2 ^ 37 < 2 ^ 64 →
  ∃ s', analyse_part o file st qb (data_len qb) r w s = Ret ((r, None), s') ∧
    objs (st_heap s') = objs (st_heap s) ∧ st_os s' = w' ∧
    st_log s' = st_log (says (directory_report o file entries ds) s).
Proof.
  intros Hout Hfp Hch [Hdir Hfs Hparsed Hext Hne Hopen Hds Hroom] Hv Hmap Hlen Hmax Hbrk.
  destruct (extents_zip _ _ _ Hext) as (Hz1 & Hz2 & Hall).
  destruct (report_dir_run o fstype file p (zip (extents_of data) entries) ds ext s w')
    as (s' & Hrun & Hobjs & Hos & Hlog); rewrite ?Hz1, ?Hz2; try done.
  { intros E. apply (f_equal (fmap fst)) in E. rewrite Hz1 in E. by destruct data. }
  { unfold bytes_of, INT_MAX in *. lia. }
  { split; simpl; lia. }
  exists s'. rewrite Hz1, Hz2 in *. split_and!; [|done|done|done].
  unfold analyse_part. unfold chosen in Hch. rewrite Hch, Hfp.
  unfold open_output. rewrite Hout, bind_ret_l, bind_ret_l, Hdir.
  unfold bind at 1, lift at 1. rewrite Hfs. cbn [obind]. rewrite Hparsed.
  unfold bytes_of in Hlen. rewrite <- Hlen. by rewrite (bind_eq _ _ _ _ _ Hrun).
Qed.

(** ** The end of the command *)

Lemma free_live (p : Z) o (s : state W) :
  p ≠ 0 → objs (st_heap s) !! p = Some o →
  free p s = Ret (tt, set_heap (MkHeap (delete p (objs (st_heap s))) (brk (st_heap s))) s).
Proof. intros Hp Ho. unfold free. by rewrite (proj2 (Z.eqb_neq _ _)), Ho by done. Qed.

(** The two copies, freed in the order they were read. *)
Lemma free_copies b0 bp (h : heap) (r : Z) (s : state W) :
  heap_wf h → let h1 := alloc_in (OBlock b0) h in
  objs (st_heap s) = objs (alloc_in (OBlock bp) h1) →
  ∃ s', (do! free (brk h) in do! free (brk h1) in ret r) s = Ret (r, s') ∧
    objs (st_heap s') = objs h ∧ st_os s' = st_os s ∧ st_log s' = st_log s.
Proof.
  intros Hwf h1 Hobj.
  assert (Hwf1 : heap_wf h1) by (apply alloc_wf; [done|simpl; lia]).
  pose proof (alloc_fresh _ Hwf) as Hf. pose proof (alloc_fresh _ Hwf1) as Hf1.
  assert (Hlt : 0 < brk h < brk h1) by (destruct Hwf; simpl; lia).
  eexists. split; [|split_and!].
  - erewrite bind_eq; [|apply (free_live _ (OBlock b0)); [lia|]].
    + erewrite bind_eq; [done|apply (free_live _ (OBlock bp)); [lia|]].
      simpl. rewrite lookup_delete_ne by lia. rewrite Hobj. apply lookup_insert_eq.
    + rewrite Hobj. simpl. rewrite lookup_insert_ne by lia. apply lookup_insert_eq.
  - simpl. rewrite Hobj. apply map_eq. intros a. simpl in *.
    rewrite lookup_insert_ne in Hf1 by lia.
    rewrite !lookup_delete, !lookup_insert. repeat case_decide; congruence.
  - done.
  - done.
Qed.

Lemma free_copy b0 (h : heap) (r : Z) (s : state W) :
  heap_wf h → objs (st_heap s) = objs (alloc_in (OBlock b0) h) →
  ∃ s', (do! free (brk h) in do! free 0 in ret r) s = Ret (r, s') ∧
    objs (st_heap s') = objs h ∧ st_os s' = st_os s ∧ st_log s' = st_log s.
Proof.
  intros Hwf Hobj. pose proof (alloc_fresh _ Hwf) as Hf.
  eexists. split; [|split_and!].
  - erewrite bind_eq; [|apply (free_live _ (OBlock b0)); [destruct Hwf; lia|]].
    + reflexivity.
    + rewrite Hobj. apply lookup_insert_eq.
  - simpl. rewrite Hobj. by apply delete_insert_id.
  - done.
  - done.
Qed.

Definition cleanup (qb : QueryBlocks V) (w : work V) (r : Z) : prog W Z :=
  do! free (ptr (blkdata0 w)) in
  do! free (ptr (blkdatap w)) in
  do! vec_free (extent_ptr0 w) false in
  do! vec_free (extent_ptrp w) false in
  do! clean_queryblock qb in
  ret r.

Lemma cleanup_run qb w r l0 lp lb (s : state W) :
  vec_rep (extent_ptr0 w) l0 → vec_rep (extent_ptrp w) lp → vec_rep (qb_blknums qb) lb →
  cleanup qb w r s =
    (do! free (ptr (blkdata0 w)) in do! free (ptr (blkdatap w)) in ret r) s.
Proof.
  intros H0' Hp Hb. unfold cleanup. apply bind_ext; intros _ s1. apply bind_ext; intros _ s2.
  rewrite (bind_vec_free _ _ false _ s2 s2 H0' eq_refl), (bind_vec_free _ _ false _ s2 s2 Hp eq_refl).
  unfold clean_queryblock. by rewrite (bind_vec_free _ _ false _ s2 s2 Hb eq_refl).
Qed.

(** [fhf_main] up to the comparison. *)
Lemma fhf_main_start get_blocks opts o file st qb r rc w (s s1 s2 s3 s4 : state W) :
  parse_opts opts (MkOptions None 0 false None 0) s = Ret (inl o, s) →
  fileName o = Some file → output o = None → cmp_parent_only o = false →
  do_stat file s = Ret (Some st, s1) →
  query_blocks get_blocks file qb_init s1 = Ret ((r, qb), s2) → r = 0 ∨ r = 101 →
  show_details o file qb s2 = Ret (tt, s3) →
  compare_part o file qb (data_len qb) None (says [bs "----FHF----"] s3) = Ret ((rc, w), s4) →
  fhf_main get_blocks opts s =
    (let! '(r, _) := analyse_part o file st qb (data_len qb) rc w in cleanup qb w r) s4.
Proof.
  intros Hopts Hfile Hout Hcmp Hstat Hq Hr Hshow Hrun. unfold fhf_main.
  rewrite (bind_eq _ _ _ _ _ Hopts), Hfile, (bind_eq _ _ _ _ _ Hstat), (bind_eq _ _ _ _ _ Hq).
  rewrite (bind_eq _ _ _ _ _ Hshow).
  assert (Hne : negb (r =? 0) && negb (r =? 101) = false) by (destruct Hr as [-> | ->]; done).
  rewrite Hne, Hout, bind_println. fold (data_len qb).
  rewrite (bind_eq _ _ _ _ _ Hrun), Hcmp, bind_assoc.
  apply bind_ext. by intros [? ?] s5.
Qed.

End Main.

(** C1. fhf from end to end, on a directory of a partition or of a volume: when the query
    of the blocks succeeds and both the device and its parent hold well-formed extents of a
    directory in these blocks, the command returns 0 and prints, after the details,
    whether the two copies agree, and then the report of the copy the options choose: the
    hidden names are exactly those that are in the blocks and that the kernel does not
    list.  Everything allocated since the query is given back. *)
Theorem fhf_main_reports `{Machine} {W V} `{OS W} `{VecOps V} `{!VecLaws V}
    (get_blocks : bytes → Z → V → prog W (Z * (V * Z))) (opts : list opt) (o : options)
    (file fstype : bytes) (st : stat) (qb : QueryBlocks V) (blocks : list (list Z))
    (d0 dp : list (list bytes)) (entries : list (list my_dir_entry)) (ds : list os_dirent)
    (s s1 s2 s3 : state W) (w' : W) :
  (∀ n, mem_ok n = true) →
  parse_opts opts (MkOptions None 0 false None 0) s = Ret (inl o, s) →
  fileName o = Some file → output o = None → cmp_parent_only o = false →
  do_stat file s = Ret (Some st, s1) →
  query_blocks get_blocks file qb_init s1 = Ret ((0, qb), s2) →
  show_details o file qb s2 = Ret (tt, s3) →
  has_dev_name (qb_parent_dev qb) = true →
  block_list qb blocks →
  copy_of (st_os s3) qb false blocks d0 → copy_of (st_os s3) qb true blocks dp →
  let data := if 1 <=? read_parent o then dp else d0 in
  directory_at file fstype st qb data entries ds s3 w' →
  heap_wf (st_heap s3) → brk (st_heap s3) + 2 ^ 38 < 2 ^ 64 →
  ∃ s', fhf_main get_blocks opts s = Ret (0, s') ∧
    objs (st_heap s') = objs (st_heap s3) ∧ st_os s' = w' ∧
    st_log s' = st_log (says ([bs "----FHF----"; compare_line d0 dp] ++
                              directory_report o file entries ds) s3).
Proof.
  intros Hmem Hopts Hfile Hout Hcmp Hstat Hq Hshow Hpar Hbl Hc0 Hcp data Hdir Hwf Hroom.
  set (t0 := says [bs "----FHF----"] s3).
  destruct (dump_copy Hmem qb false blocks d0 t0 Hbl Hc0 Hwf) as (_ & _ & Hlen0 & Hmax & _);
    [unfold INT_MAX; simpl; lia|].
  destruct (dump_copy Hmem qb true blocks dp t0 Hbl Hcp Hwf) as (_ & _ & Hlenp & _ & _);
    [unfold INT_MAX; simpl; lia|].
  assert (Hlen : zlen (bytes_of data) = data_len qb) by (unfold data; by destruct (1 <=? _)).
  assert (Hpos : 0 < data_len qb).
  { rewrite <- Hlen. eapply extents_nonempty; [apply (da_extents _ _ _ _ _ _ _ _ _ Hdir)|].
    apply (da_some _ _ _ _ _ _ _ _ _ Hdir). }
  destruct (compare_part_both Hmem o file qb blocks d0 dp t0) as (e0 & ep & Hrun & He0 & Hep & Hm0 & Hmp);
    [done..|unfold INT_MAX; simpl; lia|].
  set (p0 := brk (st_heap t0)) in *. set (t1 := with_obj _ t0) in *.
  set (pp := brk (st_heap t1)) in *. set (t2 := with_obj _ t1) in *.
  set (w := MkWork None (Some p0) (Some pp) e0 ep) in *.
  assert (Hch : chosen o w = if 1 <=? read_parent o then (Some pp, ep) else (Some p0, e0)).
  { unfold chosen, w. simpl. destruct (Z.leb_spec 2 (read_parent o)), (Z.leb_spec 1 (read_parent o));
      (lia || done). }
  destruct (analyse_part_dir Hmem o file fstype st qb data entries ds 0 w
              (if 1 <=? read_parent o then pp else p0) (if 1 <=? read_parent o then ep else e0)
              (says [compare_line d0 dp] t2) w') as (t3 & Hrun3 & Hobj3 & Hos3 & Hlog3);
    [done|done|by rewrite Hch; destruct (1 <=? _)| | |by unfold data; destruct (1 <=? _)|done|done| |].
  { destruct Hdir. by constructor. }
  { unfold data. by destruct (1 <=? _). }
  { unfold INT_MAX in *. simpl. lia. }
  destruct (free_copies (bytes_of d0) (bytes_of dp) (st_heap s3) 0 t3 Hwf Hobj3)
    as (s' & Hfree & Hobjs & Hos' & Hlog').
  exists s'. split_and!; [|done|congruence|by rewrite Hlog', Hlog3; unfold says; simpl; rewrite !fmap_app, <- !app_assoc].
  rewrite (fhf_main_start get_blocks opts o file st qb 0 0 w s s1 s2 s3 _ Hopts Hfile Hout Hcmp Hstat
             Hq (or_introl eq_refl) Hshow Hrun).
  rewrite (bind_eq _ _ _ _ _ Hrun3).
  by rewrite (cleanup_run qb w 0 _ _ _ t3 He0 Hep (proj1 Hbl)).
Qed.

(** On a whole disk, which has no parent, the query answers 101 and the command goes
    on with the only copy there is: it compares nothing, reports the directory in the same
    way, unless -pp asks for the parent, gives everything back, and returns 1. *)
Theorem fhf_main_one_copy `{Machine} {W V} `{OS W} `{VecOps V} `{!VecLaws V}
    (get_blocks : bytes → Z → V → prog W (Z * (V * Z))) (opts : list opt) (o : options)
    (file fstype : bytes) (st : stat) (qb : QueryBlocks V) (blocks : list (list Z))
    (d0 : list (list bytes)) (entries : list (list my_dir_entry)) (ds : list os_dirent)
    (s s1 s2 s3 : state W) (w' : W) :
  (∀ n, mem_ok n = true) →
  parse_opts opts (MkOptions None 0 false None 0) s = Ret (inl o, s) →
  fileName o = Some file → output o = None → cmp_parent_only o = false →
  do_stat file s = Ret (Some st, s1) →
  query_blocks get_blocks file qb_init s1 = Ret ((101, qb), s2) →
  show_details o file qb s2 = Ret (tt, s3) →
  has_dev_name (qb_parent_dev qb) = false → read_parent o < 2 →
  block_list qb blocks → copy_of (st_os s3) qb false blocks d0 →
  directory_at file fstype st qb d0 entries ds s3 w' →
  heap_wf (st_heap s3) → brk (st_heap s3) + 2 ^ 38 < 2 ^ 64 →
  ∃ s', fhf_main get_blocks opts s = Ret (1, s') ∧
    objs (st_heap s') = objs (st_heap s3) ∧ st_os s' = w' ∧
    st_log s' = st_log (says (bs "----FHF----" :: directory_report o file entries ds) s3).
Proof.
  intros Hmem Hopts Hfile Hout Hcmp Hstat Hq Hshow Hpar Hrp Hbl Hc0 Hdir Hwf Hroom.
  set (t0 := says [bs "----FHF----"] s3).
  destruct (dump_copy Hmem qb false blocks d0 t0 Hbl Hc0 Hwf) as (_ & _ & _ & Hmax & _);
    [unfold INT_MAX; simpl; lia|].
  destruct (compare_part_one Hmem o file qb blocks d0 t0 None) as (e0 & Hrun & He0 & Hm0 & Hlen);
    [done..|unfold INT_MAX; simpl; lia|].
  set (p0 := brk (st_heap t0)) in *. set (t1 := with_obj _ t0) in *.
  set (w := MkWork None (Some p0) None e0 vec_init) in *.
  assert (Hch : chosen o w = (Some p0, e0)).
  { unfold chosen, w. simpl. rewrite (proj2 (Z.leb_gt _ _)) by lia.
    by destruct (1 <=? read_parent o). }
  destruct (analyse_part_dir Hmem o file fstype st qb d0 entries ds 1 w p0 e0 t1 w')
    as (t3 & Hrun3 & Hobj3 & Hos3 & Hlog3); [done|done|done|by destruct Hdir; constructor|
    done|done|done|done|unfold INT_MAX in *; simpl; lia|].
  destruct (free_copy (bytes_of d0) (st_heap s3) 1 t3 Hwf Hobj3) as (s' & Hfree & Hobjs & Hos' & Hlog').
  exists s'. split_and!; [|done|congruence|by rewrite Hlog', Hlog3; unfold says; simpl; rewrite <- !app_assoc].
  rewrite (fhf_main_start get_blocks opts o file st qb 101 1 w s s1 s2 s3 _ Hopts Hfile Hout Hcmp Hstat
             Hq (or_intror eq_refl) Hshow Hrun).
  rewrite (bind_eq _ _ _ _ _ Hrun3).
  by rewrite (cleanup_run qb w 1 _ _ _ t3 He0 vec_rep_init (proj1 Hbl)).
Qed.

(** ** A partition whose copy through its own device was tampered with

    The directory /d has the extents of [sample_exts]; reading /dev/sda1 shows another
    name for the file that the kernel does not list, reading /dev/sda does not. *)
#[local] Existing Instances x86_64 Impl.Vector_ops Impl.Vector_laws.

Definition fake_exts : list bytes :=
  [ext2_block ext2_sample; ext2_block [MkExt2Rec 77 1 (bs "good.ko") [0]]].
Definition partition (exts : list bytes) : bytes := bs "0123456789abcdef" ++ concat (rev exts).
Definition fhf_blocks : list (list Z) := [[2; 3; 4]; [1]].
Definition fhf_copy (exts : list bytes) : list (list bytes) :=
  [(fun n => take 16 (drop (16 * n) (nth 0 exts []))) <$> seq 0 3; [nth 1 exts []]].

Definition fhf_files : list (bytes * bytes) :=
  [(bs "/proc/self/mountinfo", unlines
      [bs "25 1 8:1 / / rw - ext4 /dev/sda1 rw"; bs "26 1 8:0 / /d rw - ext4 /dev/sda rw"]);
   (bs "/sys/block/sda/dev", bs "8:0" ++ [10]); (bs "/sys/block/sda/sda1/dev", bs "8:1" ++ [10]);
   (bs "/sys/block/sda/sda1/partition", bs "1" ++ [10]);
   (bs "/sys/block/sda/sda1/start", bs "1" ++ [10]); (bs "/sys/block/sda/sda1/size", bs "8" ++ [10])].
Definition fhf_stats (dev : Z) : list (bytes * stat) :=
  [(bs "/d", MkStat 16877 dev 0 12 16 1); (bs "/dev/sda", MkStat 24576 6 2048 0 0 0)] ++ sa_stats sysfs_os.
(** The directory is on the device [dev], the partition or the whole disk. *)
Definition fhf_os (dev : Z) : sample :=
  MkSample [] (fhf_stats dev) ((bs "/d", sample_listing) :: sa_dirs sysfs_os) fhf_files [] []
    [(bs "/dev/sda1", partition fake_exts);
     (bs "/dev/sda", (if dev =? 2049 then replicate 512 0 else []) ++ partition (sample_exts.*1))] [].
Definition fhf_state (dev : Z) : state sample := MkState (MkHeap ∅ 4096) (fhf_os dev) [].
Definition fhf_get_blocks (dev : bytes) (ino : Z) (v : Impl.Vector) :
    prog sample (Z * (Impl.Vector * Z)) :=
  let! v := fold_prog (fun v n => lift (vec_push v (u64 n))) v (marked fhf_blocks) in ret (0, (v, 4)).

Definition query_of (dev : Z) : QueryBlocks Impl.Vector :=
  match query_blocks fhf_get_blocks (bs "/d") qb_init (fhf_state dev) with
  | Ret ((_, qb), _) => qb
  | _ => qb_init
  end.
(** The answers of the query on the partition and on the whole disk. *)
Definition fhf_qb : QueryBlocks Impl.Vector := Eval vm_compute in query_of 2049.
Definition disk_qb : QueryBlocks Impl.Vector := Eval vm_compute in query_of 2048.
Definition fhf_entries : list (list my_dir_entry) := sample_exts.*2.

Lemma fhf_extents :
  Forall2 (dir_extent (bs "ext4")) (extents_of (fhf_copy sample_exts.*1)) fhf_entries.
Proof.
  change (extents_of (fhf_copy sample_exts.*1)) with (sample_exts.*1).
  repeat (apply Forall2_cons; split; [apply extent_ext2|]); try apply Forall2_nil_2;
    (done || apply (bool_decide_eq_true_1 _); vm_compute; reflexivity).
Qed.

(** What the command prints on the sample. *)
Example fhf_main_prints :
  [bs "----FHF----"; compare_line (fhf_copy fake_exts) (fhf_copy sample_exts.*1)] ++
    directory_report (MkOptions (Some (bs "/d")) 1 false None 0) (bs "/d") fhf_entries sample_listing
  = [bs "----FHF----"; bs "compare_blocks: DIFF! (Suspicious!)"; bs "Found 2 files in path of /d";
     bs "Parsed out 3 files in blocks of /d"; bs "(Suspicious!) Found hidden files in /d";
     bs "evil.ko"].
Proof. vm_compute. reflexivity. Qed.

(** The blocks of the sample, on its device and on the parent. *)
Ltac sample_copy :=
  do 2 eexists; split_and!;
    [vm_compute; reflexivity|vm_compute; reflexivity|intros off; reflexivity|
     vm_compute; congruence|vm_compute; reflexivity|
     repeat constructor; vm_compute; (congruence || reflexivity)].

Lemma fhf_blocks_listed qb :
  qb_blknums qb = qb_blknums fhf_qb → qb_blkunitsz qb = 16 → qb_blkcount qb = 4 →
  block_list qb fhf_blocks.
Proof.
  unfold block_list. intros -> -> ->. split; [|split; [|split_and!; (done || vm_compute; congruence)]].
  - split_and!; [reflexivity..|]. apply (bool_decide_eq_true_1 _). vm_compute. reflexivity.
  - repeat constructor; done.
Qed.

Lemma fhf_directory dev (qb : QueryBlocks Impl.Vector) :
  di_fstype (qb_dev qb) = di_fstype (qb_dev fhf_qb) →
  directory_at (bs "/d") (bs "ext4") (MkStat 16877 dev 0 12 16 1) qb (fhf_copy sample_exts.*1)
    fhf_entries sample_listing (fhf_state dev) (fhf_os dev).
Proof.
  intros E. split; rewrite ?E; try reflexivity; [exact fhf_extents|done|].
  apply (bool_decide_eq_true_1 _). vm_compute. reflexivity.
Qed.

Lemma fhf_main_reports_witness :
  ∃ s', fhf_main fhf_get_blocks [OptF (bs "/d"); OptP] (fhf_state 2049) = Ret (0, s') ∧
    objs (st_heap s') = ∅ ∧ st_os s' = fhf_os 2049 ∧
    st_log s' = st_log (says
      ([bs "----FHF----"; compare_line (fhf_copy fake_exts) (fhf_copy sample_exts.*1)] ++
       directory_report (MkOptions (Some (bs "/d")) 1 false None 0) (bs "/d") fhf_entries sample_listing)
      (fhf_state 2049)).
Proof.
  apply (fhf_main_reports fhf_get_blocks [OptF (bs "/d"); OptP]
           (MkOptions (Some (bs "/d")) 1 false None 0) (bs "/d") (bs "ext4")
           (MkStat 16877 2049 0 12 16 1) fhf_qb fhf_blocks (fhf_copy fake_exts)
           (fhf_copy sample_exts.*1) fhf_entries sample_listing (fhf_state 2049) (fhf_state 2049)
           (fhf_state 2049) (fhf_state 2049) (fhf_os 2049)).
  - done.
  - reflexivity.
  - reflexivity.
  - reflexivity.
  - reflexivity.
  - reflexivity.
  - vm_compute. reflexivity.
  - vm_compute. reflexivity.
  - reflexivity.
  - by apply fhf_blocks_listed.
  - sample_copy.
  - sample_copy.
  - by apply fhf_directory.
  - apply (@state0_wf x86_64).
  - reflexivity.
Defined.

Lemma fhf_main_one_copy_witness :
  ∃ s', fhf_main fhf_get_blocks [OptF (bs "/d"); OptP] (fhf_state 2048) = Ret (1, s') ∧
    objs (st_heap s') = ∅ ∧ st_os s' = fhf_os 2048 ∧
    st_log s' = st_log (says (bs "----FHF----" ::
       directory_report (MkOptions (Some (bs "/d")) 1 false None 0) (bs "/d") fhf_entries sample_listing)
      (fhf_state 2048)).
Proof.
  apply (fhf_main_one_copy fhf_get_blocks [OptF (bs "/d"); OptP]
           (MkOptions (Some (bs "/d")) 1 false None 0) (bs "/d") (bs "ext4")
           (MkStat 16877 2048 0 12 16 1) disk_qb fhf_blocks
           (fhf_copy sample_exts.*1) fhf_entries sample_listing (fhf_state 2048) (fhf_state 2048)
           (fhf_state 2048) (fhf_state 2048) (fhf_os 2048)).
  - done.
  - reflexivity.
  - reflexivity.
  - reflexivity.
  - reflexivity.
  - reflexivity.
  - vm_compute. reflexivity.
  - vm_compute. reflexivity.
  - reflexivity.
  - reflexivity.
  - by apply fhf_blocks_listed.
  - sample_copy.
  - by apply fhf_directory.
  - apply (@state0_wf x86_64).
  - reflexivity.
Defined.
