(* ===== verification/PortScan.v ===== *)
(** * The TCP port scanner: atrk.c 20-232

    Non-blocking connections to a range of ports, at most 256 of them pending, polled
    with epoll; a port whose connection becomes writable is confirmed by a second
    connection and printed.  The kernel side is a class of socket calls. *)
From S2P Require Export SampleOs.
#[local] Open Scope Z_scope.

(** [struct sockaddr_in]: the address in network order, the port in host order. *)
Record sockaddr : Type := MkAddr { sin_addr : bytes; sin_port : Z }.

Inductive conn_result : Type := Connected | InProgress | ConnError.
Inductive select_result : Type := SelReady | SelTimeout | SelError.

Class Net (W : Type) `{OS W} : Type := {
  (** socket(AF_INET, SOCK_STREAM or SOCK_DGRAM, 0) *)
  sys_socket : bool → W → option Z * W;
  sys_getfl : Z → W → Z * W;
  sys_setfl : Z → Z → W → bool * W;
  sys_connect : Z → sockaddr → W → conn_result * W;
  (** select for writing on one descriptor, [None] without a timeout *)
  sys_select : Z → option Z → W → select_result * W;
  sys_so_error : Z → W → option Z * W;
  sys_getpeername : Z → W → option sockaddr * W;
  sys_bind_any : Z → Z → W → bool * W;
  sys_epoll_create : W → option Z * W;
  sys_epoll_add : Z → Z → Z → W → bool * W;
  sys_epoll_del : Z → Z → W → bool * W;
  (** the events and descriptors that are ready, none at a timeout, [None] on error *)
  sys_epoll_wait : Z → Z → W → option (list (Z * Z)) * W;
}.

Definition EPOLLOUT : Z := 4.
Definition EPOLLERR : Z := 8.
Definition O_NONBLOCK : Z := 2048.
Definition FD_SETSIZE : Z := 1024.

(** [inet_pton(AF_INET, ...)]: four numbers below 256, at most three digits each and
    no superfluous zero. *)
Definition pton_part (s : bytes) : option (Z * bytes) :=
  let '(ds, r) := span isdigit s in
  if bool_decide (ds = []) || (3 <? zlen ds) || ((1 <? zlen ds) && bool_decide (head ds = Some 48))
     || (255 <? digits_val ds)
  then None else Some (digits_val ds, r).

Fixpoint pton_rest (n : nat) (s : bytes) : option bytes :=
  match n with
  | O => if bool_decide (s = []) then Some [] else None
  | S n =>
      match s with
      | c :: s => if c =? 46 then
                    match pton_part s with
                    | Some (v, r) => cons v <$> pton_rest n r
                    | None => None
                    end
                  else None
      | [] => None
      end
  end.

Definition inet_pton (s : bytes) : option bytes :=
  match pton_part s with
  | Some (v, r) => cons v <$> pton_rest 3 r
  | None => None
  end.

Inductive tcp_opt : Type := TcpW (arg : bytes) | TcpH | TcpBad.

Section Defs.
  Context {W : Type} `{Net W}.

(** FD_SET of a descriptor outside the set is undefined. *)
Definition wait_conn (s w : Z) : prog W Z :=
  if (s <? 0) || (FD_SETSIZE <=? s) then undef else
  let! res := sys (sys_select s (if w =? -1 then None else Some w)) in
  match res with
  | SelReady =>
      let! valopt := sys (sys_so_error s) in
      match valopt with
      | None => ret (-1)
      | Some v => ret (if v =? 0 then 0 else -1)
      end
  | _ => ret (-1)
  end.

Definition connect2 (addr : sockaddr) (timeout_sec : Z) : prog W Z :=
  let! sockfd := sys (sys_socket true) in
  match sockfd with
  | None => ret (-2)
  | Some sockfd =>
      let! flags := sys (sys_getfl sockfd) in
      let! ok := sys (sys_setfl sockfd (Z.lor flags O_NONBLOCK)) in
      if negb ok then ret (-1) else
      let! result := sys (sys_connect sockfd addr) in
      match result with
      | Connected => ret sockfd
      | InProgress =>
          if timeout_sec =? -2 then ret sockfd else
          let! r := wait_conn sockfd timeout_sec in
          if r =? 0 then ret sockfd else do! close sockfd in ret (-1)
      | ConnError => do! close sockfd in ret (-1)
      end
  end.

Definition connect1 (ip : bytes) (port timeout_sec : Z) : prog W Z :=
  match inet_pton ip with
  | None => ret (-1)
  | Some a => connect2 (MkAddr a (u16 port)) timeout_sec
  end.

(** The events of one epoll_wait: the new [total], and whether epoll_ctl failed. *)
Fixpoint handle_events (evls : list (Z * Z)) (epfd total timeout_sec : Z) : prog W (Z * bool) :=
  match evls with
  | [] => ret (total, false)
  | (events, fd) :: evls =>
      do! (if events =? EPOLLOUT then
             let! addr := sys (sys_getpeername fd) in
             match addr with
             | None => ret tt
             | Some addr =>
                 let! s := connect2 addr timeout_sec in
                 if 0 <=? s then do! println (dec (sin_port addr)) in close s else ret tt
             end
           else ret tt) in
      let! ok := sys (sys_epoll_del epfd fd) in
      if negb ok then do! eprint_errno (bs "epoll_ctl") in ret (total, true)
      else handle_events evls epfd (total - 1) timeout_sec
  end.

(** The result and [*ecount]. *)
Fixpoint events_loop (fuel : nat) (epfd total timeout_sec : Z) : prog W (Z * Z) :=
  if total <=? 0 then ret (0, total) else
  match fuel with
  | O => spin
  | S fuel =>
      let timeout := if timeout_sec =? -1 then -1 else timeout_sec * 1000 in
      if (timeout <? - 2 ^ 31) || (INT_MAX <? timeout) then undef else
      let! ready := sys (sys_epoll_wait epfd timeout) in
      match ready with
      | None => do! eprint_errno (bs "epoll_wait") in ret (-1, total)
      | Some [] => ret (0, total)
      | Some evls =>
          let! '(total, failed) := handle_events evls epfd total timeout_sec in
          if failed : bool then ret (-1, total) else events_loop fuel epfd total timeout_sec
      end
  end.
Definition process_events (epfd ecount timeout_sec : Z) : prog W (Z * Z) :=
  events_loop (Z.to_nat ecount) epfd ecount timeout_sec.

(** [while (nPending > 0)]: the last one first. *)
Definition close_pending (pending_sd : list Z) : prog W unit :=
  fold_prog (fun _ s => close s) tt (reverse pending_sd).

(** The loop over the ports: [ret], the pending sockets and [ecount].  The array has
    256 places, and [++port] past INT_MAX is undefined. *)
Fixpoint scan_loop (fuel : nat) (ip : bytes) (port end_port timeout_sec epfd : Z)
    (pending_sd : list Z) (ecount : Z) : prog W (Z * list Z * Z) :=
  if end_port <? port then ret (0, pending_sd, ecount) else
  match fuel with
  | O => spin
  | S fuel =>
      let! s := connect1 ip port (-2) in
      let! '(broken, pending_sd, ecount) :=
        (if 0 <=? s then
           if 256 <=? zlen pending_sd then undef else
           let pending_sd := pending_sd ++ [s] in
           let! ok := sys (sys_epoll_add epfd s (Z.lor EPOLLOUT EPOLLERR)) in
           if negb ok then do! eprint_errno (bs "epoll_ctl") in ret (true, pending_sd, ecount)
           else ret (false, pending_sd, ecount + 1)
         else ret (false, pending_sd, ecount)) in
      if broken : bool then ret (1, pending_sd, ecount) else
      let! '(pending_sd, ecount) :=
        (if (s =? -2) || (256 <=? ecount) then
           let! _ := process_events epfd ecount timeout_sec in
           do! close_pending pending_sd in
           ret ([], 0)
         else ret (pending_sd, ecount)) in
      if s =? -2 then scan_loop fuel ip port end_port timeout_sec epfd pending_sd ecount
      else if INT_MAX <=? port then undef
      else scan_loop fuel ip (port + 1) end_port timeout_sec epfd pending_sd ecount
  end.

(** Each port is tried twice at most when the sockets closed in between suffice to
    open another one. *)
Definition scan_fuel (start_port end_port : Z) : nat :=
  Z.to_nat (2 * (end_port + 1 - start_port)) + 1.

(** The scan itself, from epoll_create on. *)
Definition tcp_scan (ip : bytes) (start_port end_port timeout_sec : Z) : prog W Z :=
  let! epfd := sys sys_epoll_create in
  let epfd := match epfd with Some fd => fd | None => -1 end in
  let! '(r, pending_sd, ecount) :=
    scan_loop (scan_fuel start_port end_port) ip start_port end_port timeout_sec epfd [] 0 in
  let! _ := process_events epfd ecount timeout_sec in
  do! close_pending pending_sd in
  do! close epfd in
  ret r.

Definition applet_tcp_printHelp : prog W unit :=
  do! eprintln (bs "Usage: tcp [OPTIONS] <ip> <start_port> <end_port>") in
  do! eprintln (bs "Options:") in
  do! eprintln (bs "  -w") in
  eprintln (bs "  -h").

(** [-w]; [inr] is an early return. *)
Fixpoint tcp_opts (opts : list tcp_opt) (timeout_sec : Z) : prog W (Z + Z) :=
  match opts with
  | [] => ret (inl timeout_sec)
  | TcpW a :: opts => tcp_opts opts (atoi a)
  | TcpH :: _ => do! applet_tcp_printHelp in ret (inr 0)
  | TcpBad :: _ => ret (inr 1)
  end.

(** [opts] are the options getopt finds and [args] the operands that are left. *)
Definition applet_tcp (opts : list tcp_opt) (args : list bytes) : prog W Z :=
  let! parsed := tcp_opts opts 10 in
  match parsed with
  | inr code => ret code
  | inl timeout_sec =>
      match args with
      | [ip; a; b] =>
          let start_port := atoi a in
          let end_port := atoi b in
          if end_port <? start_port then
            do! eprintln (bs "Start port should be less than or equal to end port.") in ret 1
          else
          do! eprintln (bs "Scanning ports " ++ dec start_port ++ bs " to " ++ dec end_port ++
                        bs " on " ++ ip ++ bs ":") in
          tcp_scan ip start_port end_port timeout_sec
      | _ => do! applet_tcp_printHelp in ret 1
      end
  end.

End Defs.

(** ** Descriptors

    [fds w]: the descriptors the process has open.  A new one is not among them, close
    takes one away and nothing else changes them. *)
Class FdLaws (W : Type) `{Net W} : Type := {
  fds : W → gset Z;
  fd_socket b w : match sys_socket b w with
    | (Some fd, w') => fd ∉ fds w ∧ 0 ≤ fd < FD_SETSIZE ∧ fds w' = {[fd]} ∪ fds w
    | (None, w') => fds w' = fds w
    end;
  fd_epoll_create w : match sys_epoll_create w with
    | (Some fd, w') => fd ∉ fds w ∧ 0 ≤ fd < FD_SETSIZE ∧ fds w' = {[fd]} ∪ fds w
    | (None, w') => fds w' = fds w
    end;
  fd_close fd w : fds (snd (sys_close fd w)) = fds w ∖ {[fd]};
  fd_getfl fd w : fds (snd (sys_getfl fd w)) = fds w;
  fd_setfl fd fl w : fds (snd (sys_setfl fd fl w)) = fds w;
  fd_connect fd a w : fds (snd (sys_connect fd a w)) = fds w;
  fd_select fd t w : fds (snd (sys_select fd t w)) = fds w;
  fd_so_error fd w : fds (snd (sys_so_error fd w)) = fds w;
  fd_getpeername fd w : fds (snd (sys_getpeername fd w)) = fds w;
  fd_bind fd p w : fds (snd (sys_bind_any fd p w)) = fds w;
  fd_epoll_add e fd ev w : fds (snd (sys_epoll_add e fd ev w)) = fds w;
  fd_epoll_del e fd w : fds (snd (sys_epoll_del e fd w)) = fds w;
  fd_epoll_wait e t w : fds (snd (sys_epoll_wait e t w)) = fds w;
  fd_strerror w : fds (snd (sys_strerror w)) = fds w;
}.

Section Facts.
  Context {W : Type} `{FdLaws W}.
  Abbreviation ofds s := (fds (st_os s)).

(** A call that leaves the descriptors alone. *)
Lemma total_keep {A} (call : W → A * W) (F : gset Z) (Q : A → state W → Prop) s :
  ofds s = F → (∀ w, fds (snd (call w)) = fds w) →
  (∀ a s', ofds s' = F → Q a s') → total (sys call) Q s.
Proof.
  intros HF Hk HQ. apply total_sys. intros a w E. apply HQ. simpl.
  specialize (Hk (st_os s)). rewrite E in Hk. simpl in Hk. congruence.
Qed.

Lemma total_close fd (F : gset Z) (Q : unit → state W → Prop) s :
  ofds s = F → (∀ s', ofds s' = F ∖ {[fd]} → Q tt s') → total (close fd) Q s.
Proof.
  intros HF HQ. apply total_sys. intros [] w E. apply HQ. simpl.
  pose proof (fd_close fd (st_os s)) as Hc. rewrite E in Hc. simpl in Hc. congruence.
Qed.

Lemma total_errno text (F : gset Z) (Q : unit → state W → Prop) s :
  ofds s = F → (∀ s', ofds s' = F → Q tt s') → total (eprint_errno text) Q s.
Proof.
  intros HF HQ. apply total_bind. eapply total_keep; [exact HF|apply fd_strerror|].
  intros msg s' HF'. by apply HQ.
Qed.

Ltac keep tac := apply total_bind; eapply total_keep; [eassumption|intros; apply tac|].

(** What a connection attempt leaves open: its result, or nothing. *)
Definition conn_post (F : gset Z) (r : Z) (s : state W) : Prop :=
  0 ≤ r ∧ r ∉ F ∧ ofds s = {[r]} ∪ F ∨ r = -1 ∧ ofds s = F ∨ r = -2 ∧ ofds s = F.

Hypothesis Hsetfl : ∀ fd fl w, fst (sys_setfl fd fl w) = true.

Lemma wait_conn_total fd w (F : gset Z) s :
  0 ≤ fd < FD_SETSIZE → ofds s = F →
  total (wait_conn fd w) (fun r s' => ofds s' = F) s.
Proof.
  intros Hfd HF. unfold wait_conn.
  rewrite (proj2 (Z.ltb_ge _ _)), (proj2 (Z.leb_gt _ _)) by lia. simpl orb. cbv iota.
  keep fd_select. intros res s1 HF1. destruct res; try by apply total_ret.
  keep fd_so_error. intros v s2 HF2. by destruct v.
Qed.

Lemma connect2_total addr timeout (F : gset Z) s :
  ofds s = F →
  total (connect2 addr timeout)
    (fun r s' => conn_post F r s' ∧ (r = -2 → ∃ w, fds w = F ∧ fst (sys_socket true w) = None)) s.
Proof.
  intros HF. unfold connect2. apply total_bind, total_sys. intros fd w1 E.
  pose proof (fd_socket true (st_os s)) as Hs. rewrite E in Hs.
  destruct fd as [fd|]; cycle 1.
  { apply total_ret. split; [right; right; simpl; split; congruence|]. intros _.
    exists (st_os s). split; [done|by rewrite E]. }
  destruct Hs as (Hnew & Hrange & Hw1). rewrite HF in *.
  set (s1 := MkState _ w1 _). assert (HF1 : ofds s1 = {[fd]} ∪ F) by done. clearbody s1. clear Hw1 E.
  keep fd_getfl. clear s1 HF1. intros fl s1 HF1.
  apply total_bind, total_sys. intros ok w2 E.
  pose proof (Hsetfl fd (Z.lor fl O_NONBLOCK) (st_os s1)) as Hok.
  pose proof (fd_setfl fd (Z.lor fl O_NONBLOCK) (st_os s1)) as Hw2.
  rewrite E in Hok, Hw2. simpl in Hok, Hw2. subst ok. rewrite HF1 in Hw2. simpl negb. cbv iota.
  set (s2 := MkState _ w2 _). assert (HF2 : ofds s2 = {[fd]} ∪ F) by done. clearbody s2.
  keep fd_connect. intros res s3 HF3.
  assert (Hopen : ∀ s', ofds s' = {[fd]} ∪ F → conn_post F fd s').
  { intros s' Hs'. left. split_and!; [lia|done|done]. }
  assert (Hclosed : ∀ s', ofds s' = {[fd]} ∪ F →
            total (do! close fd in ret (-1)) (fun r s' => conn_post F r s' ∧
               (r = -2 → ∃ w, fds w = F ∧ fst (sys_socket true w) = None)) s').
  { intros s' Hs'. apply total_bind. eapply total_close; [exact Hs'|]. intros s4 Hs4.
    apply total_ret. split; [|done]. right. left. split; [done|]. rewrite Hs4.
    clear -Hnew. set_solver. }
  destruct res; [apply total_ret; split; [by apply Hopen|lia]| |by apply Hclosed].
  destruct (timeout =? -2); [apply total_ret; split; [by apply Hopen|lia]|].
  apply total_bind. eapply total_mono; [|apply (wait_conn_total fd timeout _ s3 Hrange HF3)].
  intros r s4 HF4. simpl in HF4. destruct (r =? 0); [apply total_ret; split; [by apply Hopen|lia]|].
  by apply Hclosed.
Qed.

Lemma connect1_total ip port timeout (F : gset Z) s :
  ofds s = F →
  total (connect1 ip port timeout)
    (fun r s' => conn_post F r s' ∧ (r = -2 → ∃ w, fds w = F ∧ fst (sys_socket true w) = None)) s.
Proof.
  intros HF. unfold connect1. destruct (inet_pton ip); [by apply connect2_total|].
  apply total_ret. split; [right; by left|done].
Qed.

(** The events change no descriptor, and each that is handled is counted. *)
Lemma handle_events_total evls epfd n timeout (F : gset Z) s :
  ofds s = F →
  total (handle_events evls epfd n timeout)
    (fun '(n', failed) s' => ofds s' = F ∧ (failed = false → n' = n - zlen evls)) s.
Proof.
  revert n s. induction evls as [|[ev fd] evls IH]; intros n s HF.
  { apply total_ret. split; [done|]. intros _. simpl. lia. }
  cbn [handle_events]. apply total_bind.
  apply (total_mono _ (fun _ s' => ofds s' = F)); cycle 1.
  - destruct (ev =? EPOLLOUT); [|by apply total_ret]. keep fd_getpeername.
    intros [addr|] s1 HF1; [|by apply total_ret]. apply total_bind.
    eapply total_mono; [|apply (connect2_total addr timeout F s1 HF1)].
    intros r s2 [[(Hr & Hn & HF2)|[(-> & HF2)|(-> & HF2)]] _]; simpl; try by apply total_ret.
    rewrite (proj2 (Z.leb_le _ _)) by done. apply total_bind, total_print.
    eapply total_close; [exact HF2|]. intros s3 ->. clear -Hn. set_solver.
  - intros ? s1 HF1. simpl in HF1. keep fd_epoll_del. intros ok s2 HF2.
    destruct ok; simpl negb; cbv iota.
    + eapply total_mono; [|apply (IH (n - 1) s2 HF2)]. intros [n' failed] s3 [HF3 Hn].
      split; [done|]. intros Hf. rewrite (Hn Hf), length_cons. lia.
    + apply total_bind. eapply total_errno; [exact HF2|]. intros s3 HF3. apply total_ret. done.
Qed.

Lemma events_loop_total fuel epfd n timeout (F : gset Z) s :
  -1 ≤ timeout ≤ 2147483 → ofds s = F → n ≤ Z.of_nat fuel →
  total (events_loop fuel epfd n timeout) (fun _ s' => ofds s' = F) s.
Proof.
  intros Ht. revert n s. induction fuel as [|fuel IH]; intros n s HF Hn;
    cbn [events_loop]; destruct (Z.leb_spec n 0); try by apply total_ret.
  { lia. }
  set (ms := if timeout =? -1 then -1 else timeout * 1000).
  assert (Hms : -1 ≤ ms ≤ INT_MAX) by (unfold ms, INT_MAX; destruct (Z.eqb_spec timeout (-1)); lia).
  rewrite (proj2 (Z.ltb_ge _ _)), (proj2 (Z.ltb_ge INT_MAX _)) by lia. simpl orb. cbv iota.
  keep fd_epoll_wait. intros [[|ev evls]|] s1 HF1.
  - by apply total_ret.
  - apply total_bind. eapply total_mono; [|apply (handle_events_total (ev :: evls) epfd n timeout F s1 HF1)].
    intros [n' failed] s2 [HF2 Hn']. destruct failed; [by apply total_ret|].
    apply IH; [done|]. rewrite Hn', length_cons by done. lia.
  - apply total_bind. eapply total_errno; [exact HF1|]. intros s2 HF2. by apply total_ret.
Qed.

Lemma process_events_total epfd n timeout (F : gset Z) s :
  -1 ≤ timeout ≤ 2147483 → ofds s = F →
  total (process_events epfd n timeout) (fun _ s' => ofds s' = F) s.
Proof. intros Ht HF. apply events_loop_total; [done|done|lia]. Qed.

(** Closing the pending sockets gives back what was open before them. *)
Lemma close_list_total l (F : gset Z) s :
  F ⊆ ofds s → ofds s ⊆ list_to_set l ∪ F → (∀ x, x ∈ l → x ∉ F) →
  total (fold_prog (fun _ s => close s) tt l) (fun _ s' => ofds s' = F) s.
Proof.
  revert s. induction l as [|x l IH]; intros s Hsub Hsup Hd.
  { apply total_ret. clear -Hsub Hsup. set_solver. }
  assert (Hx : x ∉ F) by (apply Hd; left).
  cbn [fold_prog]. apply total_bind. eapply total_close; [reflexivity|]. intros s1 HF1.
  apply IH; [rewrite HF1; clear -Hsub Hx; set_solver| |intros y Hy; apply Hd; by right].
  rewrite HF1. clear -Hsup. intros y Hy. specialize (Hsup y). simpl in Hsup. set_solver.
Qed.

Lemma close_pending_total l (F : gset Z) s :
  ofds s = list_to_set l ∪ F → (∀ x, x ∈ l → x ∉ F) →
  total (close_pending l) (fun _ s' => ofds s' = F) s.
Proof.
  intros HF Hd. unfold close_pending. apply close_list_total.
  - rewrite HF. set_solver.
  - rewrite HF. intros y. rewrite !elem_of_union, !elem_of_list_to_set, elem_of_reverse. done.
  - intros x. rewrite elem_of_reverse. apply Hd.
Qed.

(** The invariant of the scan: the pending sockets are what it has opened beyond [F],
    all of them registered. *)
Definition pending_inv (F : gset Z) (pending : list Z) (s : state W) : Prop :=
  ofds s = list_to_set pending ∪ F ∧ ∀ x, x ∈ pending → x ∉ F.

Lemma pending_inv_push F pending fd s s' :
  pending_inv F pending s → fd ∉ ofds s → ofds s' = {[fd]} ∪ ofds s →
  pending_inv F (pending ++ [fd]) s'.
Proof.
  intros [HF Hd] Hnew Hs'. rewrite HF in *. split; [rewrite Hs'; clear; set_solver|].
  intros x. rewrite elem_of_app, list_elem_of_singleton. intros [Hx| ->]; [by apply Hd|].
  clear -Hnew. set_solver.
Qed.

Lemma pending_inv_keep F pending s s' :
  pending_inv F pending s → ofds s' = ofds s → pending_inv F pending s'.
Proof. intros [HF Hd] Hs'. split; [congruence|done]. Qed.

(** The sockets are polled and closed, and the count reset. *)
Lemma flush_total F epfd ecount timeout pending s :
  -1 ≤ timeout ≤ 2147483 → pending_inv F pending s →
  total (do! process_events epfd ecount timeout in close_pending pending)
    (fun _ s' => ofds s' = F) s.
Proof.
  intros Ht [HF Hd]. apply total_bind. eapply total_mono; [|apply (process_events_total _ _ _ _ s Ht HF)].
  intros ? s1 HF1. simpl in HF1. by apply close_pending_total.
Qed.

Lemma bind_total_assoc {A B C} (m : prog W A) (f : A → prog W B) (g : B → prog W C) Q s :
  total (bind (bind m f) g) Q s → total (bind m (fun a => bind (f a) g)) Q s.
Proof. unfold total. by rewrite bind_assoc. Qed.

Lemma scan_loop_total fuel ip port end_port timeout epfd pending (F : gset Z) s :
  -1 ≤ timeout ≤ 2147483 → end_port < INT_MAX →
  (∀ w, fds w = F → is_Some (fst (sys_socket true w))) →
  pending_inv F pending s → zlen pending < 256 →
  2 * (end_port + 1 - port) + (if bool_decide (pending = []) then 0 else 1) ≤ Z.of_nat fuel →
  total (scan_loop fuel ip port end_port timeout epfd pending (zlen pending))
    (fun '(_, pending', _) s' => pending_inv F pending' s') s.
Proof.
  intros Ht Hend Hres. revert port pending s.
  induction fuel as [|fuel IH]; intros port pending s Hinv Hlen Hfuel; cbn [scan_loop];
    destruct (Z.ltb_spec end_port port) as [Hp|Hp]; try by apply total_ret.
  { case_bool_decide; lia. }
  apply total_bind. eapply total_mono; [|apply (connect1_total ip port (-2) _ s eq_refl)].
  intros r s1 [Hconn Hfail].
  rewrite (proj2 (Z.leb_gt INT_MAX port)) by lia.
  destruct Hconn as [(Hr & Hnew & Hs1)|[[-> Hs1]|[-> Hs1]]].
  - rewrite (proj2 (Z.leb_le 0 r)), (proj2 (Z.leb_gt 256 (zlen pending))) by lia.
    rewrite (proj2 (Z.eqb_neq r (-2))) by lia. simpl orb.
    pose proof (pending_inv_push F pending r s s1 Hinv Hnew Hs1) as Hinv1.
    apply total_bind, total_bind. eapply total_keep; [reflexivity|intros; apply fd_epoll_add|].
    intros ok s2 Hs2. pose proof (pending_inv_keep _ _ _ s2 Hinv1 Hs2) as Hinv2.
    destruct ok; simpl negb; cbv iota; cycle 1.
    { apply total_bind. eapply total_errno; [reflexivity|]. intros s3 Hs3.
      do 2 apply total_ret. by eapply pending_inv_keep. }
    apply total_ret. cbv iota. apply total_bind.
    assert (Hl : zlen (pending ++ [r]) = zlen pending + 1) by (rewrite length_app; simpl; lia).
    destruct (Z.leb_spec 256 (zlen pending + 1)) as [Hfull|Hfull].
    + apply bind_total_assoc, total_bind.
      eapply total_mono; [|by apply (flush_total F)]. intros ? s3 Hs3. simpl in Hs3.
      apply total_ret. cbv iota. change 0 with (zlen (@nil Z)). apply IH; [|simpl; lia|].
      * split; [rewrite Hs3; clear; set_solver|]. intros x Hx. by apply elem_of_nil in Hx.
      * rewrite bool_decide_true by done. case_bool_decide; lia.
    + apply total_ret. cbv iota. rewrite <- Hl. apply IH; [done|lia|].
      rewrite (bool_decide_false (pending ++ [r] = [])) by (by destruct pending).
      case_bool_decide; lia.
  - change (0 <=? -1) with false. change (-1 =? -2) with false. simpl orb. cbv iota.
    apply total_bind, total_ret. cbv iota.
    rewrite (proj2 (Z.leb_gt 256 (zlen pending))) by lia. apply total_bind, total_ret. cbv iota.
    apply IH; [by eapply pending_inv_keep|done|lia].
  - change (0 <=? -2) with false. change (-2 =? -2) with true. simpl orb. cbv iota.
    apply total_bind, total_ret. cbv iota. apply total_bind, bind_total_assoc, total_bind.
    eapply total_mono; [|apply (flush_total F); [done|by eapply pending_inv_keep]].
    intros ? s3 Hs3. simpl in Hs3. apply total_ret. cbv iota. change 0 with (zlen (@nil Z)).
    assert (Hne : pending ≠ []).
    { intros ->. destruct (Hfail eq_refl) as (w & Hw & Hnone). destruct Hinv as [HF _].
      destruct (Hres w) as [fd Hfd]; [|congruence]. rewrite Hw, HF. clear. set_solver. }
    rewrite bool_decide_false in Hfuel by done. apply IH; [|simpl; lia|].
    + split; [rewrite Hs3; clear; set_solver|]. intros x Hx. by apply elem_of_nil in Hx.
    + rewrite bool_decide_true by done. lia.
Qed.

End Facts.


(** ** A kernel with three descriptors for sockets and one open port *)
Definition net_fresh (n : sample_net) : option Z :=
  if bool_decide (3 ∉ nt_fds n) then Some 3 else
  if bool_decide (4 ∉ nt_fds n) then Some 4 else
  if bool_decide (5 ∉ nt_fds n) then Some 5 else None.

Definition net_open (w : sample) : option Z * sample :=
  match net_fresh (sa_net w) with
  | Some fd => (Some fd, set_net (fun n => MkNet ({[fd]} ∪ nt_fds n) (nt_peers n) (nt_watched n)
                                             (nt_tcp n) (nt_udp n)) w)
  | None => (None, w)
  end.

Definition net_peer (fd : Z) (n : sample_net) : option (bytes * Z) :=
  snd <$> head (filter (fun x => x.1 = fd) (nt_peers n)).
Definition net_answers (fd : Z) (n : sample_net) : bool :=
  match net_peer fd n with Some (_, p) => bool_decide (p ∈ nt_tcp n) | None => false end.

#[export] Instance sample_net_os : Net sample := {
  sys_socket _ w := net_open w;
  sys_getfl _ w := (2, w);
  sys_setfl _ _ w := (true, w);
  sys_connect fd a w :=
    (InProgress, set_net (fun n => MkNet (nt_fds n) ((fd, (sin_addr a, sin_port a)) :: nt_peers n)
                                     (nt_watched n) (nt_tcp n) (nt_udp n)) w);
  sys_select _ _ w := (SelReady, w);
  sys_so_error fd w := (Some (if net_answers fd (sa_net w) then 0 else 111), w);
  sys_getpeername fd w :=
    ((fun x => MkAddr x.1 x.2) <$> net_peer fd (sa_net w), w);
  sys_bind_any _ port w := (bool_decide (port ∉ nt_udp (sa_net w)), w);
  sys_epoll_create w := net_open w;
  sys_epoll_add _ fd _ w :=
    (true, set_net (fun n => MkNet (nt_fds n) (nt_peers n) (nt_watched n ++ [fd]) (nt_tcp n) (nt_udp n)) w);
  sys_epoll_del _ fd w :=
    (true, set_net (fun n => MkNet (nt_fds n) (nt_peers n) (filter (fun x => x ≠ fd) (nt_watched n))
                               (nt_tcp n) (nt_udp n)) w);
  sys_epoll_wait _ _ w :=
    (Some ((fun fd => (if net_answers fd (sa_net w) then EPOLLOUT else 28, fd)) <$> nt_watched (sa_net w)), w);
}.

Lemma net_open_law w :
  match net_open w with
  | (Some fd, w') => fd ∉ nt_fds (sa_net w) ∧ 0 ≤ fd < FD_SETSIZE ∧
                     nt_fds (sa_net w') = {[fd]} ∪ nt_fds (sa_net w)
  | (None, w') => nt_fds (sa_net w') = nt_fds (sa_net w)
  end.
Proof.
  unfold net_open, net_fresh, FD_SETSIZE.
  repeat (case_bool_decide; [split_and!; (done || lia)|]). done.
Qed.

#[export] Instance sample_fd_laws : FdLaws sample.
Proof.
  refine {| fds w := nt_fds (sa_net w) |}; intros; try reflexivity; try apply net_open_law.
Defined.

Definition scan_start : state sample :=
  MkState (MkHeap ∅ 4096) (MkWriter [] [] [] [] [] [] [] [] [] 4096 (MkNet ∅ [] [] [22] [])) [].


Definition scan_log (start_port end_port : Z) : list event :=
  match tcp_scan (bs "10.0.0.1") start_port end_port 1 scan_start with
  | Ret (_, s) => st_log s | _ => []
  end.

(** The open port is printed. *)
Example scan_prints : scan_log 22 22 = [Stdout (bs "22" ++ [10])].
Proof. vm_compute. reflexivity. Qed.

(** When the pending sockets take the last descriptor the second connection cannot
    be made, and the open port is not reported. *)
Example scan_misses_port : scan_log 20 24 = [].
Proof. vm_compute. reflexivity. Qed.
