(* ===== verification/ProcNet.v ===== *)
(** * The socket tables of /proc/net: atrk.c 313-463

    The rows of tcp and tcp6 are parsed to print what is listening, those of udp and
    udp6 to find the ports that cannot be bound although no row names them. *)
From S2P Require Export PortScan.
#[local] Open Scope Z_scope.

(** ** sscanf(line, "%*s %8s:%X %8s:%X %X", ...) *)
Definition xdigit (c : Z) : option Z :=
  if (48 <=? c) && (c <=? 57) then Some (c - 48)
  else if (65 <=? c) && (c <=? 70) then Some (c - 55)
  else if (97 <=? c) && (c <=? 102) then Some (c - 87) else None.
Definition isxdigit (c : Z) : bool := bool_decide (is_Some (xdigit c)).
Definition hex_val (s : bytes) : Z :=
  foldl (fun acc c => 16 * acc + match xdigit c with Some d => d | None => 0 end) 0 s.

(** The optional sign and prefix of a number in base 16. *)
Definition hex_sign (s : bytes) : bool * bytes :=
  match s with
  | c :: r => if c =? 45 then (true, r) else if c =? 43 then (false, r) else (false, s)
  | [] => (false, [])
  end.
Definition hex_prefix (s : bytes) : bytes :=
  match s with
  | 48 :: c :: d :: r => if ((c =? 120) || (c =? 88)) && isxdigit d then d :: r else s
  | _ => s
  end.

(** [strtol(s, NULL, 16)], for strings too short to overflow. *)
Definition strtol16 (s : bytes) : Z :=
  let '(neg, s) := hex_sign (drop_while isspace s) in
  let v := hex_val (fst (span isxdigit (hex_prefix s))) in
  if neg then - v else v.

Inductive conv : Type := CSkip | CWs | CStr (n : Z) | CLit (c : Z) | CHex.
Inductive sval : Type := VStr (s : bytes) | VHex (v : Z).

Definition nonspace (c : Z) : bool := negb (isspace c).

(** The values that are stored before the first directive that does not match.  A
    number that is not an [unsigned int] is undefined. *)
Fixpoint scanf (fmt : list conv) (s : bytes) : outcome (list sval) :=
  match fmt with
  | [] => Ret []
  | CWs :: fmt => scanf fmt (drop_while isspace s)
  | CLit c :: fmt =>
      match s with
      | x :: s => if x =? c then scanf fmt s else Ret []
      | [] => Ret []
      end
  | CSkip :: fmt =>
      match span nonspace (drop_while isspace s) with
      | ([], _) => Ret []
      | (_, r) => scanf fmt r
      end
  | CStr n :: fmt =>
      match span nonspace (drop_while isspace s) with
      | ([], _) => Ret []
      | (t, r) =>
          let? vs := scanf fmt (drop (Z.to_nat n) t ++ r) in
          Ret (VStr (take (Z.to_nat n) t) :: vs)
      end
  | CHex :: fmt =>
      let '(neg, s) := hex_sign (drop_while isspace s) in
      match span isxdigit (hex_prefix s) with
      | ([], _) => Ret []
      | (ds, r) =>
          let v := hex_val ds in
          if 2 ^ 32 <=? v then Undef else
          let? vs := scanf fmt r in
          Ret (VHex (if neg then u32 (- v) else v) :: vs)
      end
  end.

(** The widths of the address are 8 for a version 4 table and 32 otherwise. *)
Definition row_format (v : Z) : list conv :=
  let w := if v =? 4 then 8 else 32 in
  [CSkip; CWs; CStr w; CLit 58; CHex; CWs; CStr w; CLit 58; CHex; CWs; CHex].

(** [local_addr] and [local_port] when they are stored, and [state]. *)
Definition scan_row (v : Z) (line : bytes) : outcome (option bytes * option Z * Z) :=
  let? vs := scanf (row_format v) line in
  Ret (match vs with VStr a :: _ => Some a | _ => None end,
       match vs with _ :: VHex p :: _ => Some p | _ => None end,
       match vs with [_; _; _; _; VHex st] => st | _ => 0 end).

(** ** Addresses in hexadecimal *)
Section Defs.
  Context `{Machine}.

Definition isLittleEndian : bool := negb big_endian.

(** A buffer is its cells, [None] when never written. *)
Fixpoint hex_bytes (fuel : nat) (hexString : bytes) (j size : Z) (buffer : list (option Z)) :
    list (option Z) :=
  match fuel, hexString with
  | S fuel, _ :: _ =>
      if j <? size then
        hex_bytes fuel (drop 2 hexString) (j + 1) size
          (<[Z.to_nat j := Some (u8 (strtol16 (take 2 hexString)))]> buffer)
      else buffer
  | _, _ => buffer
  end.
Definition hexStringToBinary (hexString : bytes) (buffer : list (option Z)) (size : Z) :
    list (option Z) :=
  hex_bytes (length hexString) hexString 0 size buffer.

Definition swap32 (dw : Z) : Z :=
  Z.lor (Z.lor (Z.lor (Z.shiftl (Z.land dw 255) 24) (Z.shiftl (Z.land dw 65280) 8))
               (Z.shiftr (Z.land dw 16711680) 8))
        (Z.shiftr (Z.land dw 4278190080) 24).

(** The bytes of a buffer all of which have been written. *)
Definition cells (b : list (option Z)) : outcome bytes := of_option (mapM (fun c => c) b).

Definition word_val (b : bytes) : Z := if big_endian then be b else le b.
Definition word_bytes (n : nat) (v : Z) : bytes := if big_endian then be_split n v else le_split n v.

Fixpoint in_addr_loop (fuel : nat) (hexString : bytes) (j size : Z) (dw buffer : list (option Z)) :
    outcome (list (option Z)) :=
  match fuel, hexString with
  | S fuel, _ :: _ =>
      if j <? size then
        let dw := hexStringToBinary (take 8 hexString) dw 4 in
        let? b := cells dw in
        let w := if isLittleEndian then swap32 (word_val b) else word_val b in
        let dw := Some <$> word_bytes 4 w in
        in_addr_loop fuel (drop 8 hexString) (j + 4) size dw
          (take (Z.to_nat j) buffer ++ dw ++ drop (Z.to_nat (j + 4)) buffer)
      else Ret buffer
  | _, _ => Ret buffer
  end.
Definition hexToInAddr (hexString : bytes) (size : Z) : outcome bytes :=
  let? buffer := in_addr_loop (length hexString) hexString 0 size (replicate 4 None)
                   (replicate (Z.to_nat size) None) in
  cells buffer.

(** ** The tables

    [ntop6] is inet_ntop of an IPv6 address, whose text depends on the C library. *)
Context {W : Type} `{Net W} (ntop6 : bytes → bytes).

Definition INET_ADDRSTRLEN : Z := 16.

(** [strip] after inet_ntop: nothing is stored when the text does not fit. *)
Definition ntop (v : Z) (addr : bytes) : option bytes :=
  if v =? 4 then
    match udec <$> addr with
    | t :: ts => Some (t ++ concat (cons 46 <$> ts))
    | [] => Some []
    end
  else if zlen (ntop6 addr) <? INET_ADDRSTRLEN then Some (ntop6 addr) else None.

(** What a line stores: [strip], [local_port] and [state]. *)
Definition parse_row (v : Z) (line : bytes) : outcome (option bytes * option Z * Z) :=
  let? '(local_addr, local_port, state) := scan_row v line in
  let? a := of_option local_addr in
  let? addr := hexToInAddr a (if v =? 4 then 4 else 16) in
  Ret (ntop v addr, local_port, state).

Definition listening_line (v : Z) (_ : unit) (line : bytes) : prog W unit :=
  let! '(strip, local_port, state) := lift (parse_row v line) in
  if state =? 10 then
    let! a := lift (of_option strip) in
    let! p := lift (of_option local_port) in
    println (a ++ bs ":" ++ udec p)
  else ret tt.

Definition parse_procnet (nettcp : bytes) (v : Z) : prog W Z :=
  let! file := fopen_r nettcp in
  match file with
  | None => do! eprint_errno (bs "Failed to open nettcp") in ret 1
  | Some text =>
      do! fold_prog (listening_line v) tt (drop 1 (fgets_all 256 text)) in
      ret 0
  end.

Definition getlistening : prog W Z :=
  do! parse_procnet (bs "/proc/net/tcp") 4 in
  do! parse_procnet (bs "/proc/net/tcp6") 6 in
  ret 0.

Fixpoint udp_lines (v : Z) (lines : list bytes) (ports : list Z) : outcome (list Z) :=
  match lines with
  | [] => Ret ports
  | line :: lines =>
      let? '(_, local_port, _) := parse_row v line in
      let? p := of_option local_port in
      udp_lines v lines (<[Z.to_nat (Z.land p 65535) := 1]> ports)
  end.

(** The result and the array of 65536 flags. *)
Definition get_udp_ports (netudp : bytes) (v : Z) (ports : list Z) : prog W (Z * list Z) :=
  let! file := fopen_r netudp in
  match file with
  | None => ret (1, ports)
  | Some text => let! ports := lift (udp_lines v (drop 1 (fgets_all 256 text)) ports) in ret (0, ports)
  end.

(** The loop over the ports from [port] on, [k] of them. *)
Fixpoint udp_probe (k : nat) (port : Z) (ports : list Z) : prog W unit :=
  match k with
  | O => ret tt
  | S k =>
      let! sock := sys (sys_socket false) in
      match sock with
      | None => udp_probe k (port + 1) ports
      | Some sock =>
          let! bound := sys (sys_bind_any sock (u16 port)) in
          do! (if negb bound then
                 let! listed := lift (of_option (ports !! Z.to_nat (Z.land port 65535))) in
                 if listed =? 0 then println (dec port) else ret tt
               else ret tt) in
          do! close sock in
          udp_probe k (port + 1) ports
      end
  end.

(** [ports] is malloc'ed, 65536 short integers that are cleared, and freed. *)
Definition applet_hiddenudp1 : prog W Z :=
  if negb (mem_ok 131072) then undef else
  let! '(_, ports) := get_udp_ports (bs "/proc/net/udp") 4 (replicate (Z.to_nat 65536) 0) in
  let! '(_, ports) := get_udp_ports (bs "/proc/net/udp6") 6 ports in
  do! udp_probe (Z.to_nat 65535) 1 ports in
  ret 0.

End Defs.

Example local_host : @hexToInAddr x86_64 (bs "0100007F") 4 = Ret [127; 0; 0; 1].
Proof. vm_compute. reflexivity. Qed.

Definition sample_row : bytes :=
  bs "   3: 0100007F:0277 00000000:0000 0A 00000000:00000000 00:00000000 00000000     0".
Example sample_row_parsed :
  @parse_row x86_64 (fun _ => []) 4 sample_row = Ret (Some (bs "127.0.0.1"), Some 631, 10).
Proof. vm_compute. reflexivity. Qed.

(** ** What the kernel writes *)
Definition hexdig (d : Z) : Z := if d <? 10 then 48 + d else 55 + d.
Fixpoint hexn (n : nat) (v : Z) : bytes :=
  match n with O => [] | S n => hexn n (v / 16) ++ [hexdig (v mod 16)] end.

Lemma hexn_length n v : length (hexn n v) = n.
Proof. revert v. induction n; intros; simpl; [done|]. rewrite length_app, IHn. simpl. lia. Qed.

Lemma xdigit_hexdig d : 0 ≤ d < 16 → xdigit (hexdig d) = Some d.
Proof.
  intros Hd. unfold hexdig, xdigit. destruct (Z.ltb_spec d 10).
  - rewrite (proj2 (Z.leb_le 48 _)), (proj2 (Z.leb_le _ 57)) by lia. simpl. f_equal. lia.
  - rewrite (proj2 (Z.leb_gt _ 57)), andb_false_r by lia.
    rewrite (proj2 (Z.leb_le 65 _)), (proj2 (Z.leb_le _ 70)) by lia. simpl. f_equal. lia.
Qed.

Lemma hexn_xdigits n v : Forall (fun c => isxdigit c = true) (hexn n v).
Proof.
  revert v. induction n as [|n IH]; intros v; simpl; [constructor|].
  apply Forall_app_2; [apply IH|]. constructor; [|constructor].
  unfold isxdigit. rewrite xdigit_hexdig by (apply Z.mod_pos_bound; lia). done.
Qed.

Lemma hex_val_snoc s c d : xdigit c = Some d → hex_val (s ++ [c]) = 16 * hex_val s + d.
Proof. intros Hc. unfold hex_val. rewrite foldl_app. simpl. by rewrite Hc. Qed.

Lemma hex_val_hexn n v : 0 ≤ v < 16 ^ Z.of_nat n → hex_val (hexn n v) = v.
Proof.
  revert v. induction n as [|n IH]; intros v Hv.
  { rewrite Z.pow_0_r in Hv. unfold hex_val. simpl. lia. }
  rewrite Nat2Z.inj_succ, Z.pow_succ_r in Hv by lia.
  simpl. rewrite (hex_val_snoc _ _ (v mod 16)) by (apply xdigit_hexdig, Z.mod_pos_bound; lia).
  rewrite IH; [|split; [apply Z.div_pos; lia|apply Z.div_lt_upper_bound; lia]].
  pose proof (Z.div_mod v 16). lia.
Qed.

(** A hexadecimal digit is no white space, no sign and no part of a prefix. *)
Lemma isxdigit_bounds c :
  isxdigit c = true → 48 ≤ c ≤ 57 ∨ 65 ≤ c ≤ 70 ∨ 97 ≤ c ≤ 102.
Proof.
  unfold isxdigit. intros Hc%bool_decide_eq_true. unfold xdigit in Hc.
  repeat match goal with H : context [if ?b then _ else _] |- _ => destruct b eqn:? end;
    try (by destruct Hc); lia.
Qed.

Lemma isxdigit_nonspace c : isxdigit c = true → isspace c = false.
Proof. intros Hc%isxdigit_bounds. unfold isspace. lia. Qed.

Lemma hex_prefix_digits ds r :
  (2 ≤ length ds)%nat → Forall (fun c => isxdigit c = true) ds → hex_prefix (ds ++ r) = ds ++ r.
Proof.
  intros Hl Hds. destruct ds as [|a [|b ds]]; [simpl in Hl; lia..|].
  apply Forall_cons in Hds as [_ [Hb%isxdigit_bounds _]%Forall_cons].
  change ((a :: b :: ds) ++ r) with (a :: b :: (ds ++ r)). unfold hex_prefix.
  rewrite (proj2 (Z.eqb_neq b 120)), (proj2 (Z.eqb_neq b 88)) by lia. simpl orb. simpl andb.
  destruct (ds ++ r); by repeat case_match.
Qed.

Lemma hex_head ds r :
  ds ≠ [] → Forall (fun c => isxdigit c = true) ds →
  hex_sign (drop_while isspace (ds ++ r)) = (false, ds ++ r).
Proof.
  intros Hne Hds. destruct ds as [|a ds]; [done|].
  apply Forall_cons in Hds as [Ha _]. simpl app.
  rewrite (drop_while_stop _ _ a (ds ++ r)) by (done || by apply isxdigit_nonspace).
  apply isxdigit_bounds in Ha. unfold hex_sign.
  by rewrite (proj2 (Z.eqb_neq a 45)), (proj2 (Z.eqb_neq a 43)) by lia.
Qed.

(** [%X] reads back a number of at least two digits. *)
Lemma scanf_hexn n v fmt r :
  (2 ≤ n ≤ 8)%nat → 0 ≤ v < 16 ^ Z.of_nat n →
  match r with [] => True | c :: _ => isxdigit c = false end →
  scanf (CHex :: fmt) (hexn n v ++ r) = (let? vs := scanf fmt r in Ret (VHex v :: vs)).
Proof.
  intros Hn Hv Hr. pose proof (hexn_xdigits n v) as Hd. pose proof (hexn_length n v) as Hl.
  assert (Hne : hexn n v ≠ []) by (intros E; rewrite E in Hl; simpl in Hl; lia).
  assert (Hsmall : v < 2 ^ 32).
  { pose proof (Z.pow_le_mono_r 16 (Z.of_nat n) 8). change (2 ^ 32) with (16 ^ 8). lia. }
  cbn [scanf]. rewrite hex_head by done. rewrite hex_prefix_digits by (done || lia).
  rewrite span_all by done. destruct (hexn n v) as [|c ds] eqn:E; [done|].
  rewrite <- E, hex_val_hexn, (proj2 (Z.leb_gt _ _)) by lia. done.
Qed.

Lemma scanf_str n t fmt r :
  zlen t = n → t ≠ [] → Forall (fun c => nonspace c = true) t →
  scanf (CStr n :: fmt) (t ++ r) = (let? vs := scanf fmt r in Ret (VStr t :: vs)).
Proof.
  intros <- Hne Ht. cbn [scanf].
  rewrite (drop_while_stop _ _ (hd 0 t) (tl t ++ r)); cycle 1.
  { by destruct t. }
  { destruct t; [done|]. apply Forall_inv in Ht. simpl in *. unfold nonspace in Ht.
    by apply negb_true_iff. }
  assert (Hspan : ∃ u w, span nonspace (t ++ r) = (t ++ u, w) ∧ r = u ++ w).
  { clear Hne. induction Ht as [|c t Hc _ (u & w & IH & Hr)].
    - exists (fst (span nonspace r)), (snd (span nonspace r)). simpl.
      split; [by destruct (span nonspace r)|by rewrite span_app].
    - exists u, w. simpl. by rewrite Hc, IH. }
  destruct Hspan as (u & w & -> & ->). rewrite Nat2Z.id.
  destruct t as [|c t]; [done|]. cbn [app]. change (c :: t ++ u) with ((c :: t) ++ u).
  by rewrite take_app_length, drop_app_length.
Qed.

(** The pairs of digits of a word of 32 bits. *)
Lemma strtol16_pair a b :
  0 ≤ a < 16 → 0 ≤ b < 16 → strtol16 [hexdig a; hexdig b] = 16 * a + b.
Proof.
  intros Ha Hb.
  assert (Hall : forallb (fun a => forallb (fun b =>
            strtol16 [hexdig a; hexdig b] =? 16 * a + b) (seqZ 0 16)) (seqZ 0 16) = true)
    by (vm_compute; reflexivity).
  rewrite forallb_forall in Hall. specialize (Hall a). rewrite forallb_forall in Hall.
  apply Z.eqb_eq, Hall; apply list_elem_of_In, elem_of_seqZ; lia.
Qed.

Lemma hex_pair w : strtol16 [hexdig (w / 16 mod 16); hexdig (w mod 16)] = w mod 256.
Proof.
  rewrite strtol16_pair by (apply Z.mod_pos_bound; lia).
  change 256 with (16 * 16). rewrite Z.rem_mul_r by lia. lia.
Qed.

Lemma hexn_unfold2 n v :
  hexn (S (S n)) v = hexn n (v / 256) ++ [hexdig (v / 16 mod 16); hexdig (v mod 16)].
Proof. simpl. rewrite <- app_assoc. simpl. by rewrite Z.div_div by lia. Qed.

Lemma hexn8 v :
  hexn 8 v = concat ((fun w => [hexdig (w / 16 mod 16); hexdig (w mod 16)]) <$>
                     [v / 16777216; v / 65536; v / 256; v]).
Proof.
  rewrite !hexn_unfold2. cbn [hexn app fmap list_fmap concat]. rewrite !Z.div_div by lia. done.
Qed.

Lemma hex_bytes_pairs ws pre buf size :
  (length buf = length ws)%nat → zlen (pre ++ buf) ≤ size →
  ∀ fuel, (2 * length ws ≤ fuel)%nat →
  hex_bytes fuel (concat ((fun w => [hexdig (w / 16 mod 16); hexdig (w mod 16)]) <$> ws))
    (zlen pre) size (pre ++ buf) = pre ++ ((fun w => Some (w mod 256)) <$> ws).
Proof.
  revert pre buf. induction ws as [|w ws IH]; intros pre buf Hl Hs fuel Hf.
  { destruct buf; [|done]. by destruct fuel. }
  destruct buf as [|c buf]; [done|]. destruct fuel as [|fuel]; [simpl in Hf; lia|].
  rewrite !length_app in Hs. simpl in Hl, Hs, Hf.
  rewrite !fmap_cons. cbn [concat app hex_bytes].
  rewrite (proj2 (Z.ltb_lt _ _)) by lia.
  cbn [take drop Z.to_nat]. change (drop 2 ?l) with (tl (tl l)). simpl take. simpl drop.
  rewrite take_0. rewrite hex_pair. unfold u8. change (2 ^ 8) with 256.
  rewrite Z.mod_mod, Nat2Z.id, insert_app_r_alt, Nat.sub_diag by lia. simpl.
  specialize (IH (pre ++ [Some (w mod 256)]) buf ltac:(lia)).
  rewrite <- !app_assoc, !length_app in IH. simpl in IH.
  rewrite drop_0. replace (zlen pre + 1) with (Z.of_nat (length pre + 1)) by lia. rewrite IH; [done|lia|lia].
Qed.

Section Addresses.
  Context `{Machine}.

Lemma be_split_4 v : be_split 4 v = (fun w => w mod 256) <$> [v / 16777216; v / 65536; v / 256; v].
Proof. unfold be_split, reverse. simpl. by rewrite !Z.div_div by lia. Qed.

Lemma hexStringToBinary_word v dw :
  length dw = 4%nat → hexStringToBinary (hexn 8 v) dw 4 = Some <$> be_split 4 v.
Proof.
  intros Hl. unfold hexStringToBinary. rewrite hexn_length, hexn8, be_split_4.
  rewrite <- list_fmap_compose.
  apply (hex_bytes_pairs [v / 16777216; v / 65536; v / 256; v] [] dw 4); simpl; lia.
Qed.

Lemma swap32_bytes a b c d :
  is_byte a → is_byte b → is_byte c → is_byte d → swap32 (le [a; b; c; d]) = be [a; b; c; d].
Proof.
  unfold is_byte. intros Ha Hb Hc Hd. unfold swap32, be. cbn [le reverse rev_append].
  set (x := a + 256 * (b + 256 * (c + 256 * (d + 256 * 0)))).
  assert (Hx : x = a + 2 ^ 8 * b + 2 ^ 16 * c + 2 ^ 24 * d) by (unfold x; lia). clearbody x.
  change 65280 with (255 * 2 ^ 8). change 16711680 with (255 * 2 ^ 16).
  change 4278190080 with (255 * 2 ^ 24). rewrite !land_byte_mask by lia.
  change 255 with (2 ^ 8 - 1). rewrite land_ones_mod by lia.
  rewrite !Z.shiftl_mul_pow2, !Z.shiftr_div_pow2 by lia.
  replace (x mod 2 ^ 8) with a by (apply (Z.mod_unique _ _ (b + 2 ^ 8 * c + 2 ^ 16 * d)); lia).
  replace (x / 2 ^ 8) with (b + 2 ^ 8 * c + 2 ^ 16 * d) by (apply (Z.div_unique _ _ _ a); lia).
  replace (x / 2 ^ 16) with (c + 2 ^ 8 * d) by (apply (Z.div_unique _ _ _ (a + 2 ^ 8 * b)); lia).
  replace (x / 2 ^ 24) with d by (apply (Z.div_unique _ _ _ (a + 2 ^ 8 * b + 2 ^ 16 * c)); lia).
  replace ((b + 2 ^ 8 * c + 2 ^ 16 * d) mod 256) with b
    by (apply (Z.mod_unique _ _ (c + 2 ^ 8 * d)); lia).
  replace ((c + 2 ^ 8 * d) mod 256) with c by (apply (Z.mod_unique _ _ d); lia).
  rewrite (Z.mod_small d) by lia.
  replace (c * 2 ^ 16 / 2 ^ 8) with (c * 2 ^ 8) by (apply (Z.div_unique _ _ _ 0); lia).
  rewrite Z.div_mul by lia. replace (b * 2 ^ 8 * 2 ^ 8) with (b * 2 ^ 16) by lia.
  rewrite (Z.lor_comm _ d), (Z.lor_comm _ (c * 2 ^ 8)), (Z.lor_comm (a * 2 ^ 24)).
  rewrite !Z.lor_assoc, (lor_add_disjoint d c 8) by lia.
  rewrite (lor_add_disjoint (d + c * 2 ^ 8) b 16), (lor_add_disjoint _ a 24) by lia. lia.
Qed.

(** The address of [words] as the kernel prints it: eight digits for each word, read
    in the byte order of the machine. *)
Definition kernel_hex (words : list bytes) : bytes :=
  concat ((fun w => hexn 8 (word_val w)) <$> words).

Definition is_word (w : bytes) : Prop := length w = 4%nat ∧ Forall is_byte w.

Lemma cells_some b : cells (Some <$> b) = Ret b.
Proof.
  unfold cells. by rewrite mapM_fmap_Some.
Qed.

Lemma swap32_be_split v : 0 ≤ v < 2 ^ 32 → swap32 (le (be_split 4 v)) = v.
Proof.
  intros Hv. rewrite <- (be_be_split 4 v) at 2 by (simpl; lia). rewrite be_split_4. simpl.
  apply swap32_bytes; apply Z.mod_pos_bound; lia.
Qed.

Lemma word_val_bound w : is_word w → 0 ≤ word_val w < 2 ^ 32.
Proof.
  intros [Hl Hw]. unfold word_val, be.
  assert (Hb : ∀ b, length b = 4%nat → Forall is_byte b → 0 ≤ le b < 2 ^ 32).
  { intros b Hlb Hb%le_bound. rewrite Hlb in Hb. exact Hb. }
  destruct big_endian; apply Hb; rewrite ?length_reverse; try done. by apply Forall_reverse.
Qed.

(** One word: what the sources store is what the kernel had. *)
Lemma in_addr_word w :
  is_word w →
  word_bytes 4 (if isLittleEndian then swap32 (word_val (be_split 4 (word_val w)))
                else word_val (be_split 4 (word_val w))) = w.
Proof.
  intros Hw. pose proof (word_val_bound w Hw) as Hv. destruct Hw as [Hl Hw].
  unfold word_bytes, isLittleEndian, word_val in *. destruct big_endian; simpl negb; cbv iota.
  - rewrite be_be_split by done. rewrite <- Hl at 1. by apply be_split_be.
  - rewrite swap32_be_split by done. rewrite <- Hl at 1. by apply le_split_le.
Qed.

Lemma in_addr_loop_spec words fuel pre rest dw :
  Forall is_word words → length dw = 4%nat → length rest = length (concat words) →
  (length (kernel_hex words) ≤ fuel)%nat →
  in_addr_loop fuel (kernel_hex words) (zlen pre) (zlen (pre ++ rest)) dw (pre ++ rest)
    = Ret (pre ++ (Some <$> concat words)).
Proof.
  intros Hws. revert fuel pre rest dw.
  induction Hws as [|w words Hw _ IH]; intros fuel pre rest dw Hdw Hrest Hfuel.
  { destruct rest; [|done]. by destruct fuel. }
  unfold kernel_hex in *. rewrite fmap_cons in *. cbn [concat] in *.
  set (tl := concat ((fun w => hexn 8 (word_val w)) <$> words)) in *. set (hd := hexn 8 (word_val w)) in *.
  pose proof (hexn_length 8 (word_val w)) as Hh. fold hd in Hh.
  pose proof (proj1 Hw) as Hw4. rewrite length_app in Hfuel, Hrest.
  destruct fuel as [|fuel]; [lia|]. destruct hd as [|c hd'] eqn:Ehd; [done|].
  cbn [in_addr_loop app]. rewrite <- Ehd in *.
  rewrite (proj2 (Z.ltb_lt _ _)) by (rewrite length_app; lia).
  change (c :: hd' ++ tl) with ((c :: hd') ++ tl). rewrite <- Ehd.
  rewrite (take_app_length' hd tl 8), (drop_app_length' hd tl 8) by done.
  unfold hd at 1. rewrite hexStringToBinary_word by done. rewrite cells_some. cbn [obind].
  rewrite in_addr_word by done.
  replace (take (Z.to_nat (zlen pre)) (pre ++ rest)) with pre
    by (by rewrite Nat2Z.id, take_app_length).
  replace (drop (Z.to_nat (zlen pre + 4)) (pre ++ rest)) with (drop 4 rest).
  2:{ replace (Z.to_nat (zlen pre + 4)) with (length pre + 4)%nat by lia. by rewrite drop_app_add. }
  specialize (IH fuel (pre ++ (Some <$> w)) (drop 4 rest) (Some <$> w)).
  rewrite <- !app_assoc, <- fmap_app in IH. rewrite <- IH.
  - f_equal; rewrite !length_app, length_fmap, ?length_drop; lia.
  - by rewrite length_fmap.
  - rewrite length_drop. lia.
  - lia.
Qed.

(** The address of a row is read back. *)
Lemma hexToInAddr_kernel words :
  Forall is_word words → hexToInAddr (kernel_hex words) (zlen (concat words)) = Ret (concat words).
Proof.
  intros Hws. unfold hexToInAddr. rewrite Nat2Z.id.
  pose proof (in_addr_loop_spec words (length (kernel_hex words)) [] (replicate (length (concat words)) None)
                (replicate 4 None) Hws eq_refl) as Hloop.
  rewrite length_replicate in Hloop. cbn [app length] in Hloop. rewrite length_replicate in Hloop.
  change (Z.of_nat 0) with 0 in Hloop.
  rewrite Hloop by done. cbn [obind]. apply cells_some.
Qed.

End Addresses.

(** ** A row of a table *)
Record sock_row : Type := MkRow {
  rw_indent : nat;
  rw_sl : bytes;
  rw_local : list bytes;
  rw_lport : Z;
  rw_remote : list bytes;
  rw_rport : Z;
  rw_state : Z;
  rw_rest : bytes;
}.

Section Rows.
  Context `{Machine}.

Definition row_text (r : sock_row) : bytes :=
  replicate (rw_indent r) 32 ++ rw_sl r ++ 32 :: kernel_hex (rw_local r) ++ 58 :: hexn 4 (rw_lport r) ++
  32 :: kernel_hex (rw_remote r) ++ 58 :: hexn 4 (rw_rport r) ++ 32 :: hexn 2 (rw_state r) ++ rw_rest r.

Definition row_wf (v : Z) (r : sock_row) : Prop :=
  (rw_sl r ≠ [] ∧ Forall (fun c => nonspace c = true) (rw_sl r)) ∧
  Forall is_word (rw_local r) ∧ length (rw_local r) = (if v =? 4 then 1%nat else 4%nat) ∧
  Forall is_word (rw_remote r) ∧ length (rw_remote r) = (if v =? 4 then 1%nat else 4%nat) ∧
  0 ≤ rw_lport r < 65536 ∧ 0 ≤ rw_rport r < 65536 ∧ 0 ≤ rw_state r < 256 ∧
  match rw_rest r with [] => True | c :: _ => isxdigit c = false end.

Lemma kernel_hex_facts words :
  length (kernel_hex words) = (8 * length words)%nat ∧
  Forall (fun c => nonspace c = true) (kernel_hex words).
Proof.
  unfold kernel_hex. induction words as [|w words [IHl IHs]]; [done|]. rewrite fmap_cons.
  cbn [concat]. rewrite length_app, hexn_length, IHl, length_cons. split; [lia|].
  apply Forall_app_2; [|done]. eapply Forall_impl; [apply hexn_xdigits|].
  intros c Hc. simpl. unfold nonspace. by rewrite isxdigit_nonspace.
Qed.

Lemma scanf_skip k sl c r fmt :
  sl ≠ [] → Forall (fun c => nonspace c = true) sl → nonspace c = true →
  scanf (CSkip :: CWs :: fmt) (replicate k 32 ++ sl ++ 32 :: c :: r) = scanf fmt (c :: r).
Proof.
  intros Hne Hsl Hc. cbn [scanf].
  assert (Hd : drop_while isspace (replicate k 32 ++ sl ++ 32 :: c :: r) = sl ++ 32 :: c :: r).
  { unfold drop_while. rewrite span_all; [done|by apply Forall_replicate|].
    destruct sl as [|x sl]; [done|]. apply Forall_inv in Hsl. by apply negb_true_iff in Hsl. }
  rewrite Hd, (span_all nonspace sl) by done. destruct sl; [done|].
  unfold drop_while. simpl. unfold nonspace in Hc. apply negb_true_iff in Hc. by rewrite Hc.
Qed.

(** White space, then something else. *)
Lemma scanf_ws c r fmt : nonspace c = true → scanf (CWs :: fmt) (32 :: c :: r) = scanf fmt (c :: r).
Proof.
  intros Hc. cbn [scanf]. unfold drop_while. simpl. unfold nonspace in Hc.
  apply negb_true_iff in Hc. by rewrite Hc.
Qed.

Lemma scanf_lit c r fmt : scanf (CLit c :: fmt) (c :: r) = scanf fmt r.
Proof. cbn [scanf]. by rewrite Z.eqb_refl. Qed.

Lemma head_app {A} (P : A → Prop) l r :
  l ≠ [] → Forall P l → ∃ c l', P c ∧ l ++ r = c :: l'.
Proof.
  intros Hne Hl. destruct Hl as [|c l Hc _]; [done|]. by exists c, (l ++ r).
Qed.

Lemma scan_row_spec v r :
  row_wf v r →
  scan_row v (row_text r ++ [10]) =
    Ret (Some (kernel_hex (rw_local r)), Some (rw_lport r), rw_state r).
Proof.
  intros ((Hne & Hsl) & _ & Hl & _ & Hr & Hlp & Hrp & Hst & Hrest).
  destruct (kernel_hex_facts (rw_local r)) as [Hll Hls].
  destruct (kernel_hex_facts (rw_remote r)) as [Hrl Hrs].
  assert (Hw : ∀ words, length words = (if v =? 4 then 1%nat else 4%nat) →
            length (kernel_hex words) = (8 * length words)%nat →
            zlen (kernel_hex words) = (if v =? 4 then 8 else 32) ∧ kernel_hex words ≠ []).
  { intros words Hlen Hk. rewrite Hlen in Hk. split.
    - rewrite Hk. by destruct (v =? 4).
    - intros E. rewrite E in Hk. by destruct (v =? 4). }
  destruct (Hw _ Hl Hll) as [Hlw Hlne]. destruct (Hw _ Hr Hrl) as [Hrw Hrne].
  assert (Hx : ∀ n v, Forall (fun c => nonspace c = true) (hexn n v)).
  { intros n w. eapply Forall_impl; [apply hexn_xdigits|]. intros c Hc. simpl.
    unfold nonspace. by rewrite isxdigit_nonspace. }
  unfold scan_row, row_text, row_format. set (w := if v =? 4 then 8 else 32) in *.
  repeat (rewrite <- app_assoc || rewrite <- app_comm_cons).
  set (tail5 := hexn 2 (rw_state r) ++ rw_rest r ++ [10]).
  set (tail4 := kernel_hex (rw_remote r) ++ 58 :: hexn 4 (rw_rport r) ++ 32 :: tail5).
  set (tail2 := kernel_hex (rw_local r) ++ 58 :: hexn 4 (rw_lport r) ++ 32 :: tail4).
  destruct (head_app _ _ (58 :: hexn 4 (rw_lport r) ++ 32 :: tail4) Hlne Hls) as (c2 & l2 & Hc2 & E2).
  destruct (head_app _ _ (58 :: hexn 4 (rw_rport r) ++ 32 :: tail5) Hrne Hrs) as (c4 & l4 & Hc4 & E4).
  assert (Hne2 : hexn 2 (rw_state r) ≠ []).
  { intros E. pose proof (hexn_length 2 (rw_state r)) as Hh. by rewrite E in Hh. }
  destruct (head_app _ (hexn 2 (rw_state r)) (rw_rest r ++ [10]) Hne2 (Hx 2%nat (rw_state r))) as (c5 & l5 & Hc5 & E5).
  unfold tail2. rewrite E2, scanf_skip, <- E2 by done.
  rewrite (scanf_str w), scanf_lit, scanf_hexn by (done || simpl; lia).
  unfold tail4. rewrite E4, scanf_ws, <- E4 by done.
  rewrite (scanf_str w), scanf_lit, scanf_hexn by (done || simpl; lia).
  unfold tail5. rewrite E5, scanf_ws, <- E5 by done.
  rewrite scanf_hexn; [done|lia|simpl; lia|].
  by destruct (rw_rest r).
Qed.

Definition row_addr (r : sock_row) : bytes := concat (rw_local r).

Lemma words_length words : Forall is_word words → zlen (concat words) = 4 * zlen words.
Proof.
  induction 1 as [|w words [Hw _] _ IH]; [done|]. cbn [concat].
  rewrite length_app, length_cons. lia.
Qed.

Lemma parse_row_spec (ntop6 : bytes → bytes) v r :
  row_wf v r →
  parse_row ntop6 v (row_text r ++ [10]) =
    Ret (ntop ntop6 v (row_addr r), Some (rw_lport r), rw_state r).
Proof.
  intros Hwf. unfold parse_row. rewrite scan_row_spec by done. cbn [obind of_option].
  destruct Hwf as (_ & Hw & Hl & _).
  replace (if v =? 4 then 4 else 16) with (zlen (concat (rw_local r))).
  2:{ rewrite words_length, Hl by done. by destruct (v =? 4). }
  by rewrite hexToInAddr_kernel.
Qed.

(** The text of a table: a header and rows that fit in the buffer of a line. *)
Inductive table (v : Z) : bytes → list sock_row → Prop :=
  | table_intro hdr rows :
      line_wf 256 hdr → Forall (row_wf v) rows → Forall (fun r => line_wf 256 (row_text r)) rows →
      table v (unlines (hdr :: (row_text <$> rows))) rows.

Lemma table_lines v text rows :
  table v text rows →
  drop 1 (fgets_all 256 text) = (fun r => row_text r ++ [10]) <$> rows ∧ Forall (row_wf v) rows.
Proof.
  intros [hdr rows' Hhdr Hwf Hl]. split; [|done].
  rewrite fgets_all_lines by (constructor; [done|by apply Forall_fmap]).
  rewrite fmap_cons. cbn [drop]. by rewrite drop_0, <- list_fmap_compose.
Qed.

(** What is printed of the rows in the state LISTEN. *)
Definition listening_text (ntop6 : bytes → bytes) (v : Z) (r : sock_row) : option bytes :=
  (fun a => a ++ bs ":" ++ udec (rw_lport r)) <$> ntop ntop6 v (row_addr r).
Definition is_listening (r : sock_row) : Prop := rw_state r = 10.

End Rows.

Section Listening.
  Context `{Machine} {W : Type} `{Net W} (ntop6 : bytes → bytes) (v : Z).

Lemma listening_rows rows texts (s : state W) :
  Forall (row_wf v) rows →
  Forall2 (fun r t => listening_text ntop6 v r = Some t) (filter is_listening rows) texts →
  fold_prog (listening_line ntop6 v) tt ((fun r => row_text r ++ [10]) <$> rows) s
    = Ret (tt, says texts s).
Proof.
  intros Hrows. revert texts s. induction Hrows as [|r rows Hr _ IH]; intros texts s Ht.
  { apply Forall2_nil_inv_l in Ht as ->. by rewrite says_nil. }
  rewrite fmap_cons. cbn [fold_prog]. unfold listening_line at 1.
  assert (Hstep : ∀ k : unit → prog W unit,
    bind (let! '(strip, local_port, state) := lift (parse_row ntop6 v (row_text r ++ [10])) in
          if state =? 10 then
            let! a := lift (of_option strip) in
            let! p := lift (of_option local_port) in println (a ++ bs ":" ++ udec p)
          else ret tt) k s =
    k tt (if rw_state r =? 10
          then match listening_text ntop6 v r with Some t => says [t] s | None => s end else s) ∨
    rw_state r = 10 ∧ listening_text ntop6 v r = None).
  { intros k. unfold bind, lift. rewrite parse_row_spec by done. cbn [obind].
    unfold listening_text. destruct (rw_state r =? 10) eqn:E; [|by left].
    destruct (ntop ntop6 v (row_addr r)); [by left|right]. split; [lia|done]. }
  destruct (decide (is_listening r)) as [Hl|Hl].
  - rewrite filter_cons_True in Ht by done.
    apply Forall2_cons_inv_l in Ht as (t & texts' & Ht & Hts & ->).
    edestruct Hstep as [->|[_ Hn]]; [|congruence]. unfold is_listening in Hl. rewrite Hl, Ht. simpl.
    rewrite (IH texts') by done. by rewrite says_says.
  - rewrite filter_cons_False in Ht by done.
    edestruct Hstep as [->|[Hs _]]; [|done]. unfold is_listening in Hl.
    rewrite (proj2 (Z.eqb_neq _ _)) by done. by apply IH.
Qed.

End Listening.

(** The listing of a table of sockets is exact, on machines of either byte order:
    from the rows as the kernel writes them, the address in the byte order of the host
    and the rest in hexadecimal, parse_procnet prints address and port of the rows in
    the state LISTEN, in order, and nothing of the others.  An address whose text
    takes more than the 15 bytes of an IPv4 address is outside this theorem: it leaves
    the buffer that is printed unwritten. *)
Theorem parse_procnet_listening `{Machine} {W} `{Net W} (ntop6 : bytes → bytes) (path : bytes)
    (v : Z) (text : bytes) (rows : list sock_row) (texts : list bytes) (s : state W) (w' : W) :
  sys_read_text path (st_os s) = (Some text, w') → table v text rows →
  Forall2 (fun r t => listening_text ntop6 v r = Some t) (filter is_listening rows) texts →
  parse_procnet ntop6 path v s = Ret (0, says texts (MkState (st_heap s) w' (st_log s))).
Proof.
  intros Hread [Hlines Hwf]%table_lines Ht. unfold parse_procnet, fopen_r, sys, bind at 1.
  rewrite Hread. cbn [obind]. rewrite Hlines.
  by rewrite (bind_eq _ _ _ _ _ (listening_rows ntop6 v rows texts _ Hwf Ht)).
Qed.

(** ** The hidden UDP ports *)
Section Udp.
  Context `{Machine} {W : Type} `{Net W} (ntop6 : bytes → bytes).

Definition flags_of (listed : list Z) (ports : list Z) : Prop :=
  zlen ports = 65536 ∧
  ∀ p, 0 ≤ p < 65536 → ports !! Z.to_nat p = Some (if bool_decide (p ∈ listed) then 1 else 0).

Lemma udp_lines_spec v rows ports listed :
  Forall (row_wf v) rows → flags_of listed ports →
  ∃ ports', udp_lines ntop6 v ((fun r => row_text r ++ [10]) <$> rows) ports = Ret ports' ∧
    flags_of (listed ++ (rw_lport <$> rows)) ports'.
Proof.
  intros Hrows. revert ports listed. induction Hrows as [|r rows Hr _ IH]; intros ports listed Hf.
  { exists ports. by rewrite app_nil_r. }
  rewrite !fmap_cons. cbn [udp_lines]. rewrite parse_row_spec by done. cbn [obind of_option].
  destruct Hr as (_ & _ & _ & _ & _ & Hp & _).
  change 65535 with (2 ^ 16 - 1). rewrite land_ones_mod, Z.mod_small by lia.
  destruct (IH (<[Z.to_nat (rw_lport r):=1]> ports) (listed ++ [rw_lport r])) as (ports' & Hrun & Hf').
  { destruct Hf as [Hl Hf]. split; [by rewrite length_insert|]. intros p Hpp.
    destruct (decide (p = rw_lport r)) as [->|Hne].
    - rewrite list_lookup_insert_eq by lia. rewrite bool_decide_true by set_solver. done.
    - rewrite list_lookup_insert_ne, Hf by lia. f_equal. repeat case_bool_decide; set_solver. }
  exists ports'. split; [done|]. by rewrite <- app_assoc in Hf'.
Qed.

(** The rows of a table that can be read, or none. *)
Definition table_at (v : Z) (text : option bytes) (rows : list sock_row) : Prop :=
  match text with Some t => table v t rows | None => rows = [] end.

Lemma get_udp_ports_spec path v ports listed rows (s : state W) w' text :
  sys_read_text path (st_os s) = (text, w') → table_at v text rows → flags_of listed ports →
  ∃ r ports', get_udp_ports ntop6 path v ports s = Ret ((r, ports'), MkState (st_heap s) w' (st_log s)) ∧
    flags_of (listed ++ (rw_lport <$> rows)) ports'.
Proof.
  intros Hread Ht Hf. unfold get_udp_ports, fopen_r, sys, bind at 1. rewrite Hread. cbn [obind].
  destruct text as [t|]; cycle 1.
  { simpl in Ht. subst rows. exists 1, ports. by rewrite app_nil_r. }
  destruct (table_lines v t rows Ht) as [-> Hwf].
  destruct (udp_lines_spec v rows ports listed Hwf Hf) as (ports' & Hrun & Hf').
  exists 0, ports'. split; [|done]. unfold bind, lift. by rewrite Hrun.
Qed.

End Udp.

(** A kernel that, while [ok] holds of it, gives a socket to who asks for one and lets
    it be bound to the ports that are not [busy]. *)
Definition answers {W} `{Net W} (ok : W → Prop) (busy : Z → bool) : Prop :=
  ∀ w p, ok w → ∃ fd w1 w2 w3, sys_socket false w = (Some fd, w1) ∧
    sys_bind_any fd p w1 = (negb (busy p), w2) ∧ sys_close fd w2 = (tt, w3) ∧ ok w3.

(** The ports from [a] on, [k] of them, that cannot be bound and are not listed. *)
Definition hidden_ports (busy : Z → bool) (listed : list Z) (a : Z) (k : nat) : list Z :=
  filter (fun p => busy p = true ∧ p ∉ listed) (seqZ a (Z.of_nat k)).

Lemma seqZ_S a k : seqZ a (Z.of_nat (S k)) = a :: seqZ (a + 1) (Z.of_nat k).
Proof. rewrite seqZ_cons by lia. f_equal. f_equal; lia. Qed.

Lemma udp_probe_spec {W} `{Net W} (ok : W → Prop) (busy : Z → bool) ports listed k a
    (s : state W) :
  answers ok busy → ok (st_os s) → flags_of listed ports → 0 ≤ a → a + Z.of_nat k ≤ 65536 →
  ∃ s', udp_probe k a ports s = Ret (tt, s') ∧ st_heap s' = st_heap s ∧
    st_log s' = st_log s ++ ((fun p => Stdout (dec p ++ [10])) <$> hidden_ports busy listed a k).
Proof.
  intros Hans Hok [_ Hf]. revert a s Hok. induction k as [|k IH]; intros a s Hok Ha Hk.
  { exists s. unfold hidden_ports. simpl. by rewrite app_nil_r. }
  destruct (Hans _ a Hok) as (fd & w1 & w2 & w4 & Hsock & Hbind & Hclose & Hok4).
  cbn [udp_probe]. unfold sys at 1, bind at 1. rewrite Hsock. cbn [obind].
  unfold sys at 1, bind at 1. cbn [st_os].
  unfold u16. rewrite Z.mod_small by lia. rewrite Hbind.
  cbn [obind]. rewrite negb_involutive. change 65535 with (2 ^ 16 - 1).
  rewrite land_ones_mod, Z.mod_small by lia. rewrite Hf by lia. cbn [of_option].
  unfold hidden_ports. rewrite seqZ_S.
  set (s2 := MkState _ w2 _).
  set (out := if decide (busy a = true ∧ a ∉ listed) then [Stdout (dec a ++ [10])] else []).
  set (s3 := MkState (st_heap s) w2 (st_log s ++ out)).
  rewrite (bind_eq _ _ s2 tt s3); cycle 1.
  { unfold s2, s3, out. destruct (busy a); simpl.
    - case_bool_decide as Hin; simpl; unfold lift, bind; simpl.
      + rewrite decide_False by tauto. by rewrite app_nil_r.
      + by rewrite decide_True by done.
    - by rewrite app_nil_r. }
  unfold close, sys at 1, bind at 1. unfold s3 at 1. cbn [st_os]. rewrite Hclose. cbn [obind].
  destruct (IH (a + 1) (MkState (st_heap s3) w4 (st_log s3)) Hok4 ltac:(lia) ltac:(lia))
    as (s' & Hrun & Hh & Hlog).
  exists s'. split_and!; [done|done|]. rewrite Hlog. unfold s3, out. simpl. rewrite <- app_assoc.
  f_equal. unfold hidden_ports. destruct (decide _) as [Hd|Hd].
  - by rewrite filter_cons_True.
  - by rewrite filter_cons_False.
Qed.

(** C39. The scan for hidden UDP ports is exact: on a kernel that keeps giving sockets and
    answers bind for each port the same way whenever it is asked, applet_hiddenudp1 prints, in order, the
    ports from 1 to 65535 that cannot be bound and that no row of udp and udp6 has as
    its local port, and only those; a table that cannot be opened counts as empty. *)
Theorem hiddenudp1_exact `{Machine} {W} `{Net W} (ntop6 : bytes → bytes) (ok : W → Prop) (busy : Z → bool)
    (text4 text6 : option bytes) (rows4 rows6 : list sock_row) (s : state W) (w4 w6 : W) :
  mem_ok 131072 = true →
  answers ok busy → ok w6 →
  sys_read_text (bs "/proc/net/udp") (st_os s) = (text4, w4) → table_at 4 text4 rows4 →
  sys_read_text (bs "/proc/net/udp6") w4 = (text6, w6) → table_at 6 text6 rows6 →
  ∃ s', applet_hiddenudp1 ntop6 s = Ret (0, s') ∧ st_heap s' = st_heap s ∧
    st_log s' = st_log s ++ ((fun p => Stdout (dec p ++ [10])) <$>
      filter (fun p => busy p = true ∧ p ∉ rw_lport <$> (rows4 ++ rows6)) (seqZ 1 65535)).
Proof.
  intros Hmem Hans Hok Hr4 Ht4 Hr6 Ht6.
  destruct (get_udp_ports_spec ntop6 (bs "/proc/net/udp") 4 (replicate (Z.to_nat 65536) 0) [] rows4 s w4 text4)
    as (r4 & ports4 & Hrun4 & Hf4); [done|done| |].
  { split; [rewrite length_replicate; lia|]. intros p Hp. apply lookup_replicate. split; [done|lia]. }
  destruct (get_udp_ports_spec ntop6 (bs "/proc/net/udp6") 6 ports4 _ rows6
              (MkState (st_heap s) w4 (st_log s)) w6 text6 Hr6 Ht6 Hf4)
    as (r6 & ports6 & Hrun6 & Hf6).
  destruct (udp_probe_spec ok busy ports6 _ (Z.to_nat 65535) 1
              (MkState (st_heap s) w6 (st_log s)) Hans Hok Hf6) as (s' & Hrun & Hh & Hlog); [lia|lia|].
  exists s'. split_and!; [|done|].
  - unfold applet_hiddenudp1. rewrite Hmem. change (negb true) with false. cbv iota.
    by rewrite (bind_eq _ _ _ _ _ Hrun4), (bind_eq _ _ _ _ _ Hrun6), (bind_eq _ _ _ _ _ Hrun).
  - rewrite Hlog. unfold hidden_ports. by rewrite Z2Nat.id, fmap_app by lia.
Qed.

(** ** A small table *)
#[local] Existing Instances x86_64.

Definition sample_rows : list sock_row :=
  [MkRow 3 (bs "0:") [[127; 0; 0; 1]] 631 [[0; 0; 0; 0]] 0 10 (bs " 00000000:00000000");
   MkRow 3 (bs "1:") [[10; 0; 0; 5]] 22 [[10; 0; 0; 9]] 51000 1 (bs " 00000000:00000000")].
Definition sample_table : bytes := unlines (bs "  sl  local_address" :: (row_text <$> sample_rows)).

Lemma sample_table_table : table 4 sample_table sample_rows.
Proof.
  constructor; [apply (bool_decide_eq_true_1 _); vm_compute; reflexivity| |].
  - unfold sample_rows, row_wf.
    repeat (apply Forall_cons_2; [cbn [rw_sl rw_local rw_lport rw_remote rw_rport rw_state rw_rest];
      split_and!; first [done|lia|solve [repeat constructor; lia]]|]).
    apply Forall_nil_2.
  - unfold sample_rows. repeat (apply Forall_cons_2; [apply (bool_decide_eq_true_1 _); vm_compute; reflexivity|]).
    apply Forall_nil_2.
Qed.

Definition proc_os : sample :=
  MkWriter [] [] [] [(bs "/proc/net/tcp", sample_table); (bs "/proc/net/udp", sample_table)]
           [] [] [] [] [] 4096 (MkNet ∅ [] [] [] [22; 67]).
Definition proc_state : state sample := MkState (MkHeap ∅ 4096) proc_os [].

Lemma parse_procnet_listening_witness :
  parse_procnet (fun _ => []) (bs "/proc/net/tcp") 4 proc_state =
    Ret (0, says [bs "127.0.0.1:631"] proc_state).
Proof.
  apply (parse_procnet_listening (fun _ => []) (bs "/proc/net/tcp") 4 sample_table sample_rows
           [bs "127.0.0.1:631"] proc_state proc_os).
  - vm_compute. reflexivity.
  - exact sample_table_table.
  - unfold sample_rows. rewrite filter_cons_True, filter_cons_False by (unfold is_listening; simpl; lia).
    constructor; [vm_compute; reflexivity|constructor].
Defined.

Definition busy_ports (p : Z) : bool := bool_decide (p ∈ [22; 67]).

Lemma proc_answers :
  answers (fun w => 3 ∉ nt_fds (sa_net w) ∧ nt_udp (sa_net w) = [22; 67]) busy_ports.
Proof.
  intros w p [Hfd Hudp]. simpl. unfold net_open, net_fresh. rewrite bool_decide_true by done.
  do 4 eexists. split; [reflexivity|]. split.
  { apply (f_equal2 pair); [|reflexivity]. simpl. rewrite Hudp. unfold busy_ports.
    by repeat case_bool_decide. }
  split; [reflexivity|]. split; [simpl; clear; set_solver|done].
Qed.

(** Port 22 is in use and listed, port 67 in use and hidden. *)
Lemma hiddenudp1_exact_witness :
  ∃ s', applet_hiddenudp1 (fun _ => []) proc_state = Ret (0, s') ∧
    st_heap s' = st_heap proc_state ∧
    st_log s' = [] ++ ((fun p => Stdout (dec p ++ [10])) <$>
      filter (fun p => busy_ports p = true ∧ p ∉ rw_lport <$> (sample_rows ++ [])) (seqZ 1 65535)).
Proof.
  apply (hiddenudp1_exact (fun _ => []) (fun w => 3 ∉ nt_fds (sa_net w) ∧ nt_udp (sa_net w) = [22; 67])
           busy_ports (Some sample_table) None sample_rows [] proc_state proc_os proc_os).
  - reflexivity.
  - exact proc_answers.
  - split; [|done]. simpl. set_solver.
  - vm_compute. reflexivity.
  - exact sample_table_table.
  - vm_compute. reflexivity.
  - reflexivity.
Defined.

(** Of the first hundred ports. *)
Example hidden_67 :
  filter (fun p => busy_ports p = true ∧ p ∉ rw_lport <$> (sample_rows ++ [])) (seqZ 1 100) = [67].
Proof. vm_compute. reflexivity. Qed.

(** An IPv6 socket in the state LISTEN whose address has a text of 16 bytes: the text
    is not stored, and what is printed is indeterminate. *)
Example long_address_unwritten :
  parse_procnet (fun _ => bs "2001:db8:1:2::10") (bs "/proc/net/tcp6") 6
    (MkState (MkHeap ∅ 4096)
      (MkSample [] [] [] [(bs "/proc/net/tcp6", unlines [bs "  sl"; row_text
         (MkRow 3 (bs "0:") [[32; 1; 13; 184]; [0; 1; 0; 2]; [0; 0; 0; 0]; [0; 0; 0; 16]] 22
                [[0; 0; 0; 0]; [0; 0; 0; 0]; [0; 0; 0; 0]; [0; 0; 0; 0]] 0 10 [])])] [] [] [] []) [])
  = Undef.
Proof. vm_compute. reflexivity. Qed.
