(* ===== verification/Applets.v ===== *)
(** * The small applets and main: atrk.c 234-311 and 465-598

    Probes of a range of numbers (files that can or cannot be created, paths that can
    be accessed, processes that can be signalled), echo, the difference of two lists
    of lines, and the dispatch on the name of the applet. *)
From S2P Require Export Fhf ProcNet.
#[local] Open Scope Z_scope.

(** ** sprintf(path, fmt, num) with a format that is given by the user *)
Definition digit_char (upper : bool) (d : Z) : Z :=
  if d <? 10 then 48 + d else if upper then 55 + d else 87 + d.
Fixpoint digits_fuel (n : nat) (base : Z) (upper : bool) (v : Z) (acc : bytes) : bytes :=
  match n with
  | O => acc
  | S n => if v <? base then digit_char upper v :: acc
           else digits_fuel n base upper (v / base) (digit_char upper (v mod base) :: acc)
  end.
Definition digits (base : Z) (upper : bool) (v : Z) : bytes :=
  digits_fuel (S (Z.to_nat (Z.log2 v))) base upper v [].

Definition flag_chars : bytes := bs "-+ 0#".
Definition has_flag (c : Z) (flags : bytes) : bool := bool_decide (c ∈ flags).

(** [prec] is [None] without a precision. *)
Definition pad_number (flags : bytes) (width : Z) (prec : option Z) (prefix digs : bytes) : bytes :=
  let digs := match prec with
              | Some p => if (p =? 0) && bool_decide (digs = [48]) then []
                          else replicate (Z.to_nat (p - zlen digs)) 48 ++ digs
              | None => digs
              end in
  let missing := Z.to_nat (width - zlen prefix - zlen digs) in
  if has_flag 45 flags then prefix ++ digs ++ replicate missing 32
  else if has_flag 48 flags && bool_decide (prec = None)
  then prefix ++ replicate missing 48 ++ digs
  else replicate missing 32 ++ prefix ++ digs.

(** [d] and [i], [u], [o], [x], [X] and [c] of an int, with the length [hh] or [h]. *)
Definition format_conv (flags : bytes) (width : Z) (prec : option Z) (bits : Z) (conv num : Z) :
    option bytes :=
  let snum := (num + 2 ^ (bits - 1)) mod 2 ^ bits - 2 ^ (bits - 1) in
  let unum := num mod 2 ^ bits in
  let pad := pad_number flags width prec in
  let alt s := if has_flag 35 flags && negb (unum =? 0) then bs s else [] in
  if (conv =? 100) || (conv =? 105) then
    Some (pad (if snum <? 0 then [45] else if has_flag 43 flags then [43]
               else if has_flag 32 flags then [32] else []) (udec (Z.abs snum)))
  else if conv =? 117 then Some (pad [] (udec unum))
  else if conv =? 111 then
    let digs := digits 8 false unum in
    Some (pad_number flags width
            (if has_flag 35 flags && negb (unum =? 0)
             then Some (Z.max (zlen digs + 1) (match prec with Some p => p | None => 0 end))
             else prec) [] digs)
  else if conv =? 120 then Some (pad (alt "0x"%string) (digits 16 false unum))
  else if conv =? 88 then Some (pad (alt "0X"%string) (digits 16 true unum))
  else if (conv =? 99) && (bits =? 32) then
    Some (pad_number flags width None [] [u8 num])
  else None.

(** A directive after its '%': what it prints and what follows it. *)
Definition format_directive (s : bytes) (num : Z) : option (bytes * bytes) :=
  let '(flags, s) := span (fun c => bool_decide (c ∈ flag_chars)) s in
  let '(wd, s) := span isdigit s in
  let '(prec, s) := match s with
                    | 46 :: r => let '(pd, r) := span isdigit r in (Some (digits_val pd), r)
                    | _ => (None, s)
                    end in
  let '(bits, s) := match s with
                    | 104 :: 104 :: r => (8, r)
                    | 104 :: r => (16, r)
                    | _ => (32, s)
                    end in
  match s with
  | conv :: r => (fun t => (t, r)) <$> format_conv flags (digits_val wd) prec bits conv num
  | [] => None
  end.

(** A second conversion has no argument, and any other one an argument of the wrong
    type: undefined. *)
Fixpoint format_int (fuel : nat) (fmt : bytes) (num : option Z) : outcome bytes :=
  match fuel, fmt with
  | S fuel, 37 :: 37 :: r => let? t := format_int fuel r num in Ret (37 :: t)
  | S fuel, 37 :: r =>
      match num with
      | None => Undef
      | Some n =>
          match format_directive r n with
          | None => Undef
          | Some (t, r) => let? t' := format_int fuel r None in Ret (t ++ t')
          end
      end
  | S fuel, c :: r => let? t := format_int fuel r num in Ret (c :: t)
  | _, _ => Ret []
  end.

Example format_proc : format_int 20 (bs "/proc/%d/stat") (Some 42) = Ret (bs "/proc/42/stat").
Proof. vm_compute. reflexivity. Qed.
Example format_padded : format_int 20 (bs "%05x|%%") (Some 255) = Ret (bs "000ff|%").
Proof. vm_compute. reflexivity. Qed.
Example format_two : format_int 20 (bs "%d %d") (Some 1) = Undef.
Proof. vm_compute. reflexivity. Qed.

Section Defs.
  Context `{Machine} {W V : Type} `{Net W} `{VecOps V} (ntop6 : bytes → bytes).

(** ** Probes *)

(** [for (int num = start; num <= end; ++num)]: going past INT_MAX is undefined. *)
Fixpoint range_from (k : nat) (num : Z) (body : Z → prog W unit) : prog W unit :=
  match k with
  | O => ret tt
  | S k =>
      do! body num in
      if INT_MAX <=? num then undef else range_from k (num + 1) body
  end.
Definition for_range (start end_ : Z) (body : Z → prog W unit) : prog W unit :=
  range_from (Z.to_nat (end_ + 1 - start)) start body.

(** 0 when the file exists, 1 on another error, 2 when it was created and removed. *)
Definition test_exists (filename : bytes) : prog W Z :=
  let! fd := sys (sys_open_excl filename) in
  match fd with
  | FileExists => ret 0
  | OpenError => ret 1
  | Opened fd =>
      do! close fd in
      let! _ := sys (sys_unlink filename) in
      ret 2
  end.

Definition applet_file (argv : list bytes) : prog W Z :=
  match argv with
  | [_; target_dir; a; b] =>
      let! current_dir := sys sys_getcwd in
      let! ok := sys (sys_chdir target_dir) in
      if negb ok then do! eprintln (bs "Failed to change directory") in ret 1 else
      do! for_range (atoi a) (atoi b) (fun num =>
            let! r := test_exists (dec num) in
            if r =? 0 then println (dec num) else ret tt) in
      let! _ := sys (sys_chdir (if zlen current_dir <? 512 then current_dir else [])) in
      ret 0
  | _ => do! eprintln (bs "Usage: " ++ hd [] argv ++ bs " <dir> <start> <end>") in ret 1
  end.

Definition applet_access (argv : list bytes) : prog W Z :=
  match argv with
  | [_; fmt; a; b] =>
      do! for_range (atoi a) (atoi b) (fun num =>
            let! path := lift (let? t := format_int (S (length fmt)) fmt (Some num) in sprintf 512 t) in
            let! ok := access (c_str path) F_OK in
            if ok then println (dec num) else ret tt) in
      ret 0
  | _ => do! eprintln (bs "Usage: " ++ hd [] argv ++ bs " <fmt> <start> <end>") in ret 1
  end.

Definition applet_kill (argv : list bytes) : prog W Z :=
  match argv with
  | [_; a; b] =>
      do! for_range (atoi a) (atoi b) (fun num =>
            let! ok := sys (sys_kill0 num) in
            if ok then println (dec num) else ret tt) in
      ret 0
  | _ => do! eprintln (bs "Usage: " ++ hd [] argv ++ bs " <start> <end>") in ret 1
  end.

Definition applet_echo (argv : list bytes) : prog W Z :=
  match argv with
  | [_; text] => do! println text in ret 0
  | _ => do! eprintln (bs "Usage: " ++ hd [] argv ++ bs " <string>") in ret 1
  end.

(** ** diffs *)
Definition load_string (p : Z) : prog W bytes :=
  let! b := load_block p in
  lift (if bool_decide (0 ∈ b) then Ret (c_str b) else Undef).

Fixpoint string_index_from (k : nat) (n : Z) (vector : V) (nm : bytes) : prog W Z :=
  match k with
  | O => ret (-1)
  | S k =>
      let! p := lift (vec_get vector n) in
      let! item := load_string p in
      if strcmp_eq nm item then ret n else string_index_from k (n + 1) vector nm
  end.
Definition vector_string_index (vector : V) (nm : bytes) : prog W Z :=
  string_index_from (Z.to_nat (vec_count vector)) 0 vector nm.

Fixpoint string_cmp_from (k : nat) (n : Z) (vector1 vector2 out : V) : prog W V :=
  match k with
  | O => ret out
  | S k =>
      let! p := lift (vec_get vector1 n) in
      let! item := load_string p in
      let! index := vector_string_index vector2 item in
      let! out := (if index =? -1 then lift (vec_push out p) else ret out) in
      string_cmp_from k (n + 1) vector1 vector2 out
  end.
Definition vector_string_cmp (vector1 vector2 vector_in1_notin2 : V) : prog W V :=
  string_cmp_from (Z.to_nat (vec_count vector1)) 0 vector1 vector2 vector_in1_notin2.

(** The '\r' and '\n' at the end of a line, removed. *)
Definition is_eol (c : Z) : bool := (c =? 13) || (c =? 10).
Definition strip_eol (line : bytes) : bytes := reverse (drop_while is_eol (reverse line)).

Definition part_marker : bytes := bs "21552e15-c081-4e48-9b0d-747de203c68a".

(** The loop over stdin: the lines up to the marker and after it, copied. *)
Fixpoint diffs_lines (lines : list bytes) (npart : Z) (sptr1 sptr2 : V) : prog W (V * V) :=
  match lines with
  | [] => ret (sptr1, sptr2)
  | line :: lines =>
      let line := strip_eol line in
      if zlen line =? 0 then diffs_lines lines npart sptr1 sptr2 else
      if (zlen line =? 36) && strcmp_eq line part_marker then diffs_lines lines 1 sptr1 sptr2 else
      let! p := malloc (OBlock (line ++ [0])) in
      if npart =? 0 then
        let! sptr1 := lift (vec_push sptr1 p) in diffs_lines lines npart sptr1 sptr2
      else
        let! sptr2 := lift (vec_push sptr2 p) in diffs_lines lines npart sptr1 sptr2
  end.

Fixpoint print_strings (k : nat) (i : Z) (v : V) : prog W unit :=
  match k with
  | O => ret tt
  | S k =>
      let! p := lift (vec_get v i) in
      let! item := load_string p in
      do! println item in
      print_strings k (i + 1) v
  end.

Definition applet_diffs : prog W Z :=
  let! text := sys sys_stdin in
  let! '(sptr1, sptr2) := diffs_lines (fgets_all 1024 text) 0 vec_init vec_init in
  let! dptr := vector_string_cmp sptr1 sptr2 vec_init in
  do! print_strings (Z.to_nat (vec_count dptr)) 0 dptr in
  do! vec_free dptr false in
  do! vec_free sptr1 true in
  do! vec_free sptr2 true in
  ret 0.

(** ** main

    [getopt] and [getopt_long] are the C library's, which differ in whether they look
    for options after the operands: the options and, for getopt, what is left. *)
Context (getopt : list bytes → list tcp_opt * list bytes) (getopt_long : list bytes → list opt).
Context (get_blocks : bytes → Z → V → prog W (Z * (V * Z))).

Definition applet_fhf (argv : list bytes) : prog W Z := fhf_main get_blocks (getopt_long argv).

Definition usage : list bytes :=
  [bs "  tcp"; bs "  file"; bs "  access"; bs "  kill"; bs "  listen"; bs "  diffs"; bs "  fhudp1";
   bs "  fhf"].

Definition main (argv : list bytes) : prog W Z :=
  match argv with
  | _ :: (nm :: _) as args =>
      if strcmp_eq nm (bs "echo") then applet_echo args
      else if strcmp_eq nm (bs "tcp") then let '(opts, rest) := getopt args in applet_tcp opts rest
      else if strcmp_eq nm (bs "file") then applet_file args
      else if strcmp_eq nm (bs "access") then applet_access args
      else if strcmp_eq nm (bs "kill") then applet_kill args
      else if strcmp_eq nm (bs "listen") then getlistening ntop6
      else if strcmp_eq nm (bs "diffs") then applet_diffs
      else if strcmp_eq nm (bs "fhudp1") then applet_hiddenudp1 ntop6
      else if strcmp_eq nm (bs "fhf") then applet_fhf args
      else do! eprintln (bs "applet not found") in ret 1
  | _ =>
      do! eprintln (bs "Usage: " ++ hd [] argv ++ bs " <applet>") in
      do! eprint (unlines usage) in
      ret 1
  end.

End Defs.

(** ** Probes print the numbers that answer *)
Section Probes.
  Context `{Machine} {W : Type} `{Net W}.

(** The lines for the numbers of a range that satisfy [hit]. *)
Definition hits (hit : Z → bool) (start end_ : Z) : list bytes :=
  dec <$> filter (fun n => hit n = true) (seqZ start (end_ + 1 - start)).

Lemma for_range_prints (inv : W → Prop) (hit : Z → bool) (body : Z → prog W unit) start end_
    (s : state W) :
  (∀ num (s : state W), start ≤ num ≤ end_ → inv (st_os s) → ∃ w', inv w' ∧ body num s =
     Ret (tt, says (if hit num then [dec num] else []) (MkState (st_heap s) w' (st_log s)))) →
  end_ < INT_MAX → inv (st_os s) →
  ∃ w', inv w' ∧ for_range start end_ body s =
    Ret (tt, says (hits hit start end_) (MkState (st_heap s) w' (st_log s))).
Proof.
  intros Hbody Hend. unfold for_range, hits.
  remember (Z.to_nat (end_ + 1 - start)) as k eqn:Ek. revert start s Ek Hbody.
  induction k as [|k IH]; intros start s Ek Hbody Hinv.
  { exists (st_os s). split; [done|]. rewrite seqZ_nil by lia. simpl. rewrite says_nil. by destruct s. }
  cbn [range_from]. destruct (Hbody start s ltac:(lia) Hinv) as (w1 & Hinv1 & Hrun).
  rewrite (proj2 (Z.leb_gt INT_MAX start)) by lia.
  set (s1 := says _ _) in Hrun.
  destruct (IH (start + 1) s1 ltac:(lia)) as (w' & Hinv' & Hrun').
  { intros num s2 Hnum. apply Hbody. lia. }
  { exact Hinv1. }
  exists w'. split; [done|]. rewrite (bind_eq _ _ _ _ _ Hrun), Hrun'.
  rewrite (seqZ_cons start) by lia.
  replace (Z.succ start) with (start + 1) by lia.
  replace (Z.pred (end_ + 1 - start)) with (end_ + 1 - (start + 1)) by lia.
  f_equal. f_equal. unfold s1, says. simpl. f_equal. rewrite <- app_assoc. f_equal.
  rewrite <- fmap_app. f_equal. destruct (hit start) eqn:E.
  - by rewrite filter_cons_True.
  - by rewrite filter_cons_False by (by rewrite E).
Qed.

(** What the probe for a file relies on: in the directory that is probed, whose files
    are [dir w], creating a file exclusively fails when it exists and otherwise adds
    it or fails for another reason, and removing it takes it away. *)
Record dir_laws (dir : W → gset bytes) (inside : W → Prop) : Prop := {
  law_open name w : inside w →
    match sys_open_excl name w with
    | (FileExists, w') => name ∈ dir w ∧ dir w' = dir w ∧ inside w'
    | (Opened _, w') => name ∉ dir w ∧ dir w' = {[name]} ∪ dir w ∧ inside w'
    | (OpenError, w') => name ∉ dir w ∧ dir w' = dir w ∧ inside w'
    end;
  law_close fd w : inside w → dir (snd (sys_close fd w)) = dir w ∧ inside (snd (sys_close fd w));
  law_unlink name w : inside w →
    dir (snd (sys_unlink name w)) = dir w ∖ {[name]} ∧ inside (snd (sys_unlink name w));
  law_chdir path w : dir (snd (sys_chdir path w)) = dir w;
}.

Lemma test_exists_spec dir inside name (s : state W) :
  dir_laws dir inside → inside (st_os s) →
  ∃ r w', test_exists name s = Ret (r, MkState (st_heap s) w' (st_log s)) ∧
    (r =? 0) = bool_decide (name ∈ dir (st_os s)) ∧ dir w' = dir (st_os s) ∧ inside w'.
Proof.
  intros Hlaws Hin. unfold test_exists, sys at 1, bind at 1.
  pose proof (law_open _ _ Hlaws name _ Hin) as Hopen.
  destruct (sys_open_excl name (st_os s)) as [res w1]. cbn [obind].
  destruct res as [fd| |].
  - destruct Hopen as (Hnew & Hd1 & Hin1). unfold close, sys at 1, bind at 1. cbn [st_os].
    pose proof (law_close _ _ Hlaws fd _ Hin1) as [Hd2 Hin2].
    destruct (sys_close fd w1) as [[] w2]. cbn [obind snd] in *.
    unfold sys at 1, bind at 1. cbn [st_os].
    pose proof (law_unlink _ _ Hlaws name _ Hin2) as [Hd3 Hin3].
    destruct (sys_unlink name w2) as [[] w3]. cbn [obind snd] in *.
    exists 2, w3. split_and!; [done|by rewrite bool_decide_false| |done].
    rewrite Hd3, Hd2, Hd1. clear -Hnew. set_solver.
  - destruct Hopen as (Hold & Hd1 & Hin1). exists 0, w1. by rewrite bool_decide_true.
  - destruct Hopen as (Hold & Hd1 & Hin1). exists 1, w1. by rewrite bool_decide_false.
Qed.

End Probes.

(** The file applet finds the files that exist and leaves no trace: in a directory
    it can enter it prints the numbers of the range whose decimal name cannot be
    created because it exists, in order, whatever the listing of the directory says,
    and afterwards the directory has the files it had. *)
Theorem applet_file_exact `{Machine} {W} `{Net W} (dir : W → gset bytes) (inside : W → Prop)
    (arg0 target a b : bytes) (cwd : bytes) (s : state W) (w1 w2 : W) :
  dir_laws dir inside →
  sys_getcwd (st_os s) = (cwd, w1) → sys_chdir target w1 = (true, w2) → inside w2 →
  atoi b < INT_MAX →
  ∃ s', applet_file [arg0; target; a; b] s = Ret (0, s') ∧ st_heap s' = st_heap s ∧
    dir (st_os s') = dir w2 ∧
    st_log s' = st_log s ++ ((fun l => Stdout (l ++ [10])) <$>
      hits (fun n => bool_decide (dec n ∈ dir w2)) (atoi a) (atoi b)).
Proof.
  intros Hlaws Hcwd Hchdir Hin Hb. unfold applet_file. unfold sys at 1, bind at 1. rewrite Hcwd.
  cbn [obind]. unfold sys at 1, bind at 1. cbn [st_os]. rewrite Hchdir. cbn [obind negb].
  destruct (for_range_prints (fun w => inside w ∧ dir w = dir w2)
              (fun n => bool_decide (dec n ∈ dir w2))
              (fun num => let! r := test_exists (dec num) in if r =? 0 then println (dec num) else ret tt)
              (atoi a) (atoi b) (MkState (st_heap s) w2 (st_log s)))
    as (w3 & [Hin3 Hd3] & Hrun); [|done|done|].
  { intros num s1 _ [Hin1 Hd1].
    destruct (test_exists_spec dir inside (dec num) s1 Hlaws Hin1) as (r & w' & Hrun & Hr & Hd' & Hin').
    exists w'. split; [split; [done|congruence]|]. rewrite (bind_eq _ _ _ _ _ Hrun), Hr, Hd1.
    destruct (bool_decide (dec num ∈ dir w2)); [done|]. by rewrite says_nil. }
  rewrite (bind_eq _ _ _ _ _ Hrun). unfold sys at 1, bind at 1.
  set (back := if zlen cwd <? 512 then cwd else []).
  pose proof (law_chdir _ _ Hlaws back w3) as Hd4.
  cbn [st_os says]. destruct (sys_chdir back w3) as [ok w4]. cbn [obind snd] in *.
  eexists. split; [reflexivity|]. split_and!; [done|simpl; congruence|done].
Qed.

(** The access applet prints the numbers of the range for which the path made by
    the format exists, in order: on a system on which access answers the same for a
    path every time, with a format whose paths fit in 511 bytes. *)
Theorem applet_access_exact `{Machine} {W} `{Net W} (exists_ : bytes → bool) (path : Z → bytes)
    (arg0 fmt a b : bytes) (s : state W) :
  (∀ p, sys_access p F_OK (st_os s) = (exists_ p, st_os s)) →
  (∀ n, atoi a ≤ n ≤ atoi b →
     format_int (S (length fmt)) fmt (Some n) = Ret (path n) ∧ zlen (path n) < 512) →
  atoi b < INT_MAX →
  applet_access [arg0; fmt; a; b] s =
    Ret (0, says (hits (fun n => exists_ (c_str (path n))) (atoi a) (atoi b)) s).
Proof.
  intros Hacc Hfmt Hb. unfold applet_access.
  destruct (for_range_prints (fun w => w = st_os s) (fun n => exists_ (c_str (path n)))
    (fun num =>
       let! p := lift (let? t := format_int (S (length fmt)) fmt (Some num) in sprintf 512 t) in
       let! ok := access (c_str p) F_OK in if ok then println (dec num) else ret tt)
    (atoi a) (atoi b) s) as (w' & -> & Hrun); [|done|done|].
  { intros num s1 Hnum Hs1. exists (st_os s). split; [done|].
    destruct (Hfmt num Hnum) as [Hf Hlen].
    unfold bind at 1, lift. rewrite Hf. cbn [obind]. unfold sprintf.
    rewrite (proj2 (Z.ltb_lt _ _)) by apply Hlen. cbn [obind].
    unfold access, sys, bind. rewrite Hs1, Hacc. cbn [obind].
    destruct (exists_ _); [done|]. by rewrite says_nil. }
  rewrite (bind_eq _ _ _ _ _ Hrun). by destruct s.
Qed.

(** ** The difference of two lists of lines *)

(** The lines that are kept, before the marker and after it. *)
Fixpoint diff_parts (lines : list bytes) (second : bool) : list bytes * list bytes :=
  match lines with
  | [] => ([], [])
  | line :: lines =>
      let line := strip_eol line in
      if bool_decide (line = []) then diff_parts lines second
      else if bool_decide (line = part_marker) then diff_parts lines true
      else let '(a, b) := diff_parts lines second in
           if second then (a, line :: b) else (line :: a, b)
  end.

(** The strings of the heap at the addresses [ps]. *)
Definition at_strings {W} (s : state W) (ps : list Z) (ls : list bytes) : Prop :=
  Forall2 (fun p l => objs (st_heap s) !! p = Some (OBlock (l ++ [0])) ∧ free_of [0] l) ps ls.

Section Diffs.
  Context `{Machine} {W V : Type} `{OS W} `{VecOps V} `{!VecLaws V}.
  Hypothesis Hmem : ∀ n, mem_ok n = true.

Lemma load_string_at (s : state W) p l :
  heap_wf (st_heap s) → objs (st_heap s) !! p = Some (OBlock (l ++ [0])) → free_of [0] l →
  load_string p s = Ret (l, s).
Proof.
  intros Hwf Hp Hl. unfold load_string, load_block, bind at 1. cbn [obind].
  rewrite (block_at_eq _ p (l ++ [0])) by (done || rewrite length_app; simpl; lia).
  rewrite Z.sub_diag. change (Z.to_nat 0) with 0%nat. rewrite drop_0. unfold lift.
  rewrite bool_decide_true by set_solver. cbn [obind]. do 2 f_equal. f_equal.
  clear -Hl. induction Hl as [|c l Hc _ IH]; [done|]. simpl.
  rewrite (proj2 (Z.eqb_neq c 0)) by set_solver. by rewrite IH.
Qed.

(** The search and the comparison, over any array of strings. *)
Lemma string_index_from_spec (k n : nat) (v : V) ps ls nm (s : state W) :
  heap_wf (st_heap s) → vec_rep v ps → at_strings s ps ls → (k + n)%nat = length ls →
  ∃ i, string_index_from k (Z.of_nat n) v nm s = Ret (i, s) ∧ (i = -1 ↔ nm ∉ drop n ls).
Proof.
  intros Hwf Hv Hat. revert n. induction k as [|k IH]; intros n Hk.
  { exists (-1). rewrite drop_ge by lia. split; [done|]. set_solver. }
  cbn [string_index_from].
  destruct (lookup_lt_is_Some_2 ls n ltac:(lia)) as [l Hl].
  destruct (Forall2_lookup_r _ _ _ _ _ Hat Hl) as (p & Hp & Hobj & Hfree).
  unfold bind at 1, lift. rewrite (vec_rep_get v ps) by (done || lia).
  rewrite Nat2Z.id, Hp. cbn [obind].
  rewrite (bind_eq _ _ _ _ _ (load_string_at s p l Hwf Hobj Hfree)).
  rewrite (drop_S _ l) by done. unfold strcmp_eq. case_bool_decide as E.
  - exists (Z.of_nat n). split; [done|]. split; [lia|set_solver].
  - replace (Z.of_nat n + 1) with (Z.of_nat (S n)) by lia.
    destruct (IH (S n)) as (i & Hrun & Hi); [lia|]. exists i. split; [done|]. set_solver.
Qed.

(** The addresses whose string is not among [ls2]. *)
Definition missing (ls2 : list bytes) (ps : list Z) (ls : list bytes) : list (Z * bytes) :=
  filter (fun pl => pl.2 ∉ ls2) (zip ps ls).

Lemma string_cmp_from_spec (k n : nat) (v1 v2 : V) ps1 ps2 ls1 ls2 (out : V) l (s : state W) :
  heap_wf (st_heap s) → vec_rep v1 ps1 → vec_rep v2 ps2 →
  at_strings s ps1 ls1 → at_strings s ps2 ls2 →
  Forall (fun p => 0 ≤ p < 2 ^ 64) ps1 → (k + n)%nat = length ls1 →
  vec_rep out l → zlen l + Z.of_nat k < 2 ^ 28 →
  ∃ out', string_cmp_from k (Z.of_nat n) v1 v2 out s = Ret (out', s) ∧
    vec_rep out' (l ++ (missing ls2 (drop n ps1) (drop n ls1)).*1).
Proof.
  intros Hwf Hv1 Hv2 Hat1 Hat2 Hps. pose proof (Forall2_length _ _ _ Hat1) as Hl1.
  revert n out l. induction k as [|k IH]; intros n out l Hk Hout Hroom.
  { exists out. unfold missing. rewrite drop_ge by lia. simpl. by rewrite app_nil_r. }
  cbn [string_cmp_from].
  destruct (lookup_lt_is_Some_2 ls1 n ltac:(lia)) as [l1 Hl].
  destruct (Forall2_lookup_r _ _ _ _ _ Hat1 Hl) as (p & Hp & Hobj & Hfree).
  unfold bind at 1, lift at 1. rewrite (vec_rep_get v1 ps1) by (done || lia).
  rewrite Nat2Z.id, Hp. cbn [obind].
  rewrite (bind_eq _ _ _ _ _ (load_string_at s p l1 Hwf Hobj Hfree)).
  unfold vector_string_index. rewrite (vec_rep_count _ _ Hv2), Nat2Z.id.
  destruct (string_index_from_spec (length ps2) 0 v2 ps2 ls2 l1 s Hwf Hv2 Hat2) as (i & Hrun & Hi).
  { rewrite (Forall2_length _ _ _ Hat2). lia. }
  change (Z.of_nat 0) with 0 in Hrun. rewrite (bind_eq _ _ _ _ _ Hrun). rewrite drop_0 in Hi.
  rewrite (drop_S ps1 p n Hp), (drop_S ls1 l1 n Hl). unfold missing in *. cbn [zip zip_with].
  replace (Z.of_nat n + 1) with (Z.of_nat (S n)) by lia.
  rewrite Forall_lookup in Hps. specialize (Hps n p Hp).
  destruct (Z.eqb_spec i (-1)) as [E|E].
  - destruct (vec_rep_push out l p Hmem Hout ltac:(lia)) as (out1 & Hpush & Hout1).
    rewrite u64_small in Hout1 by done.
    destruct (IH (S n) out1 (l ++ [p])) as (out' & Hrun' & Hout');
      [lia|done|rewrite length_app; simpl; lia|].
    exists out'. unfold bind at 1, lift. rewrite Hpush. cbn [obind]. split; [done|].
    rewrite filter_cons_True by (simpl; by apply Hi). by rewrite <- app_assoc in Hout'.
  - destruct (IH (S n) out l) as (out' & Hrun' & Hout'); [lia|done|lia|].
    exists out'. split; [done|]. rewrite filter_cons_False; [done|]. simpl. tauto.
Qed.

Lemma print_strings_spec (k n : nat) (v : V) ps ls (s : state W) :
  vec_rep v ps → heap_wf (st_heap s) → at_strings s ps ls → (k + n)%nat = length ls →
  print_strings k (Z.of_nat n) v s = Ret (tt, says (drop n ls) s).
Proof.
  intros Hv. revert n s. induction k as [|k IH]; intros n s Hwf Hat Hk.
  { rewrite drop_ge by lia. by rewrite says_nil. }
  cbn [print_strings].
  destruct (lookup_lt_is_Some_2 ls n ltac:(lia)) as [l Hl].
  destruct (Forall2_lookup_r _ _ _ _ _ Hat Hl) as (p & Hp & Hobj & Hfree).
  unfold bind at 1, lift at 1. rewrite (vec_rep_get v ps) by (done || lia).
  rewrite Nat2Z.id, Hp. cbn [obind].
  rewrite (bind_eq _ _ _ _ _ (load_string_at s p l Hwf Hobj Hfree)), bind_println.
  replace (Z.of_nat n + 1) with (Z.of_nat (S n)) by lia.
  rewrite IH, says_says by (done || lia). by rewrite (drop_S ls l n Hl).
Qed.

(** What reading the two parts has stored. *)
Definition copied (s0 s : state W) (ps1 ps2 : list Z) (ls1 ls2 : list bytes) : Prop :=
  heap_wf (st_heap s) ∧ brk (st_heap s0) ≤ brk (st_heap s) ∧ st_os s = st_os s0 ∧
  st_log s = st_log s0 ∧ only_at s0 s (ps2 ++ ps1) ∧ at_strings s ps1 ls1 ∧ at_strings s ps2 ls2.

Lemma strip_eol_facts l : (length (strip_eol l) ≤ length l)%nat ∧
  (free_of [0] l → free_of [0] (strip_eol l)).
Proof.
  unfold strip_eol. split.
  - rewrite length_reverse. etrans; [apply drop_while_length|]. by rewrite length_reverse.
  - intros Hl. apply Forall_reverse. unfold drop_while.
    apply Forall_reverse in Hl. rewrite <- (span_app is_eol (reverse l)) in Hl.
    apply Forall_app in Hl as [_ Hl]. exact Hl.
Qed.

Lemma only_at_perm {S} (s s' : state S) ps ps' : ps ≡ₚ ps' → only_at s s' ps → only_at s s' ps'.
Proof. intros Hp (Hn & Hr & Ho). split_and!; [by rewrite <- Hp..|]. intros a. rewrite <- Hp. apply Ho. Qed.

(** One copy. *)
Lemma copy_string (s : state W) l :
  heap_wf (st_heap s) →
  let p := brk (st_heap s) in
  ∃ s1, malloc (OBlock (l ++ [0])) s = Ret (p, s1) ∧ heap_wf (st_heap s1) ∧
    heap_le (st_heap s) (st_heap s1) ∧ only_at s s1 [p] ∧ st_os s1 = st_os s ∧
    st_log s1 = st_log s ∧ brk (st_heap s1) = p + zlen l + 2 ∧
    objs (st_heap s1) !! p = Some (OBlock (l ++ [0])).
Proof.
  intros Hwf p. exists (set_heap (alloc_in (OBlock (l ++ [0])) (st_heap s)) s).
  assert (Hsz : obj_size (OBlock (l ++ [0])) = zlen l + 1) by (simpl; rewrite length_app; simpl; lia).
  split_and!; [|apply alloc_wf; [done|lia]|apply alloc_le; [done|lia]| |done|done| |].
  - unfold malloc. by rewrite Hmem.
  - split_and!; [apply NoDup_singleton| |].
    + constructor; [|constructor]. cbn [set_heap st_heap alloc_in brk]. rewrite Hsz. unfold p. lia.
    + intros a Ha. cbn [set_heap st_heap alloc_in objs]. apply lookup_insert_ne. unfold p in Ha. set_solver.
  - cbn [set_heap st_heap alloc_in brk]. rewrite Hsz. unfold p. lia.
  - apply lookup_insert_eq.
Qed.

Lemma at_strings_le (s s' : state W) ps ls :
  heap_le (st_heap s) (st_heap s') → at_strings s ps ls → at_strings s' ps ls.
Proof.
  intros [Hle _] Hat. eapply Forall2_impl; [exact Hat|]. intros p l [Hp Hl]. simpl in *.
  split; [|done]. by eapply lookup_weaken.
Qed.

Lemma copied_step (s0 s s1 : state W) ps1 ps2 ls1 ls2 p l (second : bool) :
  copied s0 s ps1 ps2 ls1 ls2 → heap_wf (st_heap s1) → heap_le (st_heap s) (st_heap s1) →
  only_at s s1 [p] → st_os s1 = st_os s → st_log s1 = st_log s → free_of [0] l →
  objs (st_heap s1) !! p = Some (OBlock (l ++ [0])) →
  if second then copied s0 s1 ps1 (ps2 ++ [p]) ls1 (ls2 ++ [l])
  else copied s0 s1 (ps1 ++ [p]) ps2 (ls1 ++ [l]) ls2.
Proof.
  intros (Hwf & Hb & Hos & Hlog & Hat & Hs1 & Hs2) Hwf1 Hle Hp Hos1 Hlog1 Hl Hobj.
  assert (Hall : only_at s0 s1 ((ps2 ++ ps1) ++ [p])) by (eapply only_at_app; [done..|apply Hle]).
  assert (Hsnoc : ∀ ps ls, at_strings s ps ls → at_strings s1 (ps ++ [p]) (ls ++ [l])).
  { intros ps ls Hat'. apply Forall2_app; [by eapply at_strings_le|]. by repeat constructor. }
  destruct Hle as [Hsub Hbrk].
  destruct second; split_and!; try done; try lia; try congruence; try by apply Hsnoc.
  - eapply only_at_perm; [|exact Hall]. rewrite <- !app_assoc. apply Permutation_app_head, Permutation_app_comm.
  - by apply (at_strings_le s).
  - by rewrite (app_assoc ps2).
  - by apply (at_strings_le s).
Qed.

(** The room for the copies of [lines]. *)
Definition lines_room (s : state W) (ps : list Z) (lines : list bytes) : Prop :=
  zlen ps + zlen lines < 2 ^ 28 ∧
  brk (st_heap s) + zlen (concat lines) + 2 * zlen lines < 2 ^ 64.

Lemma diffs_lines_spec lines npart (v1 v2 : V) ps1 ps2 ls1 ls2 (s0 s : state W) :
  npart = 0 ∨ npart = 1 → Forall (free_of [0]) lines →
  vec_rep v1 ps1 → vec_rep v2 ps2 → copied s0 s ps1 ps2 ls1 ls2 →
  lines_room s ps1 lines → lines_room s ps2 lines →
  ∃ v1' v2' s' ps1' ps2', diffs_lines lines npart v1 v2 s = Ret ((v1', v2'), s') ∧
    vec_rep v1' ps1' ∧ vec_rep v2' ps2' ∧
    copied s0 s' ps1' ps2' (ls1 ++ (diff_parts lines (negb (npart =? 0))).1)
                           (ls2 ++ (diff_parts lines (negb (npart =? 0))).2) ∧
    brk (st_heap s') ≤ brk (st_heap s) + zlen (concat lines) + 2 * zlen lines ∧
    zlen ps1' ≤ zlen ps1 + zlen lines.
Proof.
  intros Hn Hlines. revert npart v1 v2 ps1 ps2 ls1 ls2 s Hn.
  induction Hlines as [|line lines Hline _ IH];
    intros npart v1 v2 ps1 ps2 ls1 ls2 s Hn Hv1 Hv2 Hcp [Hr1 Hrb] [Hr2 _].
  { exists v1, v2, s, ps1, ps2. simpl. rewrite !app_nil_r. split_and!; (done || lia). }
  destruct (strip_eol_facts line) as [Hlen Hfree]. specialize (Hfree Hline).
  cbn [concat] in Hrb. rewrite length_app in Hrb. rewrite length_cons in *.
  cbn [diffs_lines diff_parts concat]. rewrite !length_app.
  set (l := strip_eol line) in *.
  destruct (bool_decide (l = [])) eqn:E.
  { apply bool_decide_eq_true in E. rewrite E. change (zlen [] =? 0) with true. cbv iota.
    destruct (IH npart v1 v2 ps1 ps2 ls1 ls2 s) as (v1' & v2' & s' & ps1' & ps2' & ? & ? & ? & ? & ? & ?);
      try done; [split; lia..|]. exists v1', v2', s', ps1', ps2'. split_and!; (done || lia). }
  apply bool_decide_eq_false in E.
  rewrite (proj2 (Z.eqb_neq (zlen l) 0)) by (destruct l; [done|simpl; lia]).
  assert (Hmark : (zlen l =? 36) && strcmp_eq l part_marker = bool_decide (l = part_marker)).
  { unfold strcmp_eq. case_bool_decide as El; [by rewrite El|by rewrite andb_false_r]. }
  rewrite Hmark. destruct (bool_decide (l = part_marker)).
  { destruct (IH 1 v1 v2 ps1 ps2 ls1 ls2 s) as (v1' & v2' & s' & ps1' & ps2' & ? & ? & ? & ? & ? & ?);
      try done; [by right|split; lia..|]. exists v1', v2', s', ps1', ps2'. split_and!; (done || lia). }
  destruct (copy_string s l) as (s1 & Hrun & Hwf1 & Hle & Hat & Hos & Hlog & Hb & Hobj); [apply Hcp|].
  rewrite (bind_eq _ _ _ _ _ Hrun).
  pose proof (copied_step s0 s s1 ps1 ps2 ls1 ls2 (brk (st_heap s)) l (negb (npart =? 0)) Hcp Hwf1 Hle
                Hat Hos Hlog Hfree Hobj) as Hcp1.
  assert (Hp0 : 0 < brk (st_heap s)) by apply Hcp.
  destruct (diff_parts lines (negb (npart =? 0))) as [a b] eqn:Ed.
  destruct Hn as [-> | ->]; cbn [Z.eqb negb] in *; unfold bind at 1, lift.
  - destruct (vec_rep_push v1 ps1 (brk (st_heap s)) Hmem Hv1) as (v & Hpush & Hv); [lia|].
    rewrite u64_small in Hv by lia. rewrite Hpush. cbn [obind].
    destruct (IH 0 v v2 _ ps2 _ ls2 s1 ltac:(by left) Hv Hv2 Hcp1)
      as (v1' & v2' & s' & ps1' & ps2' & ? & ? & ? & Hcp' & ? & Hl');
      [split; rewrite ?length_app; simpl; lia|split; lia|].
    change (negb (0 =? 0)) with false in Hcp'. rewrite Ed in Hcp'. rewrite length_app in Hl'. simpl in Hl'.
    exists v1', v2', s', ps1', ps2'. split_and!; try done; try lia. by rewrite <- app_assoc in Hcp'.
  - destruct (vec_rep_push v2 ps2 (brk (st_heap s)) Hmem Hv2) as (v & Hpush & Hv); [lia|].
    rewrite u64_small in Hv by lia. rewrite Hpush. cbn [obind].
    destruct (IH 1 v1 v ps1 _ ls1 _ s1 ltac:(by right) Hv1 Hv Hcp1)
      as (v1' & v2' & s' & ps1' & ps2' & ? & ? & ? & Hcp' & ? & Hl');
      [split; lia|split; rewrite ?length_app; simpl; lia|].
    change (negb (1 =? 0)) with true in Hcp'. rewrite Ed in Hcp'.
    exists v1', v2', s', ps1', ps2'. split_and!; try done; try lia. by rewrite <- app_assoc in Hcp'.
Qed.

End Diffs.

Lemma missing_lines {W} (s : state W) ls2 ps ls :
  at_strings s ps ls →
  at_strings s (missing ls2 ps ls).*1 (filter (fun l => l ∉ ls2) ls).
Proof.
  unfold missing. intros Hat. induction Hat as [|p l ps ls Hp Hat IH]; [constructor|].
  cbn [zip zip_with]. destruct (decide (l ∈ ls2)).
  - rewrite !filter_cons_False by (simpl; tauto). done.
  - rewrite !filter_cons_True by (simpl; tauto). by constructor.
Qed.


(** ** Samples *)
#[local] Existing Instances x86_64 Impl.Vector_ops Impl.Vector_laws.

Definition diffs_text : bytes :=
  unlines [bs "evil" ++ [13]; bs "init"; []; part_marker; bs "init"; bs "sshd"].
Definition diffs_state : state sample :=
  MkState (MkHeap ∅ 4096) (MkSample [] [] [] [(bs "<stdin>", diffs_text)] [] [] [] []) [].


(** A directory with the files 7 and 9. *)
Definition files_os : sample :=
  MkSample [] [] [(bs "/proc", [])] [(bs "7", []); (bs "9", [])] [] [] [] [].
Definition files_state : state sample := MkState (MkHeap ∅ 4096) files_os [].
Definition files_dir (w : sample) : gset bytes :=
  list_to_set ((sa_stats w).*1 ++ (sa_dirs w).*1 ++ (sa_files w).*1 ++ (sa_links w).*1 ++ (sa_devs w).*1).

Lemma elem_of_dropped {A} (path x : bytes) (l : list (bytes * A)) :
  x ∈ (filter (fun y => y.1 ≠ path) l).*1 ↔ x ∈ l.*1 ∧ x ≠ path.
Proof.
  rewrite !list_elem_of_fmap. split.
  - intros (y & -> & [Hy Hin]%list_elem_of_filter). eauto.
  - intros [(y & -> & Hin) Hne]. exists y. split; [done|]. by apply list_elem_of_filter.
Qed.

Lemma files_laws : dir_laws files_dir (fun _ => True).
Proof.
  split.
  - intros name w _. simpl. unfold known. case_bool_decide as Hin.
    + split_and!; [by apply elem_of_list_to_set|done|done].
    + split_and!; [unfold files_dir; by rewrite elem_of_list_to_set| |done]. unfold files_dir. simpl.
      clear. set_solver.
  - done.
  - intros name w _. split; [|done]. simpl. unfold files_dir. simpl. apply set_eq. intros x.
    rewrite elem_of_difference, !elem_of_list_to_set, not_elem_of_singleton, !elem_of_app,
      !elem_of_dropped. tauto.
  - done.
Qed.

Lemma applet_file_exact_witness :
  ∃ s', applet_file [bs "file"; bs "/proc"; bs "5"; bs "9"] files_state = Ret (0, s') ∧
    st_heap s' = st_heap files_state ∧ files_dir (st_os s') = files_dir files_os ∧
    st_log s' = [] ++ ((fun l => Stdout (l ++ [10])) <$>
      hits (fun n => bool_decide (dec n ∈ files_dir files_os)) (atoi (bs "5")) (atoi (bs "9"))).
Proof.
  apply (applet_file_exact files_dir (fun _ => True) (bs "file") (bs "/proc") (bs "5") (bs "9") (bs "/")
           files_state files_os files_os files_laws); done.
Defined.

Example files_found :
  hits (fun n => bool_decide (dec n ∈ files_dir files_os)) (atoi (bs "5")) (atoi (bs "9")) =
  [bs "7"; bs "9"].
Proof. vm_compute. reflexivity. Qed.

Definition access_os : sample := MkSample [] [] [] [(bs "/p/2", [])] [] [] [] [].
Definition access_state : state sample := MkState (MkHeap ∅ 4096) access_os [].

Lemma applet_access_exact_witness :
  applet_access [bs "access"; bs "/p/%d"; bs "1"; bs "3"] access_state =
    Ret (0, says (hits (fun n => known access_os (c_str (bs "/p/" ++ dec n)))
                       (atoi (bs "1")) (atoi (bs "3"))) access_state).
Proof.
  apply (applet_access_exact (known access_os) (fun n => bs "/p/" ++ dec n) (bs "access")
           (bs "/p/%d") (bs "1") (bs "3") access_state).
  - done.
  - change (atoi (bs "1")) with 1. change (atoi (bs "3")) with 3. intros n Hn.
    assert (Hcases : n = 1 ∨ n = 2 ∨ n = 3) by lia.
    destruct Hcases as [-> |[-> | ->]]; vm_compute; split; reflexivity.
  - vm_compute. reflexivity.
Defined.
